(* ===== verification/_CoqProject ===== *)
-Q . S2P
Prelude.v
Socket.v
Protocol.v
ProtocolSpec.v
ThreadPool.v
ThreadPoolSpec.v
ThreadPoolSystem.v
ThreadPoolExample.v
ThreadPoolProps.v
TaskBacklog.v
TaskBacklogProps.v
Buffer.v
Nbt.v
NbtSpec.v
NbtTree.v
NbtMemory.v
NbtMemorySpec.v
NbtMemoryBuild.v
NbtMemoryCopy.v
NbtMemoryClone.v
NbtMemoryFilter.v
NbtMemoryInplace.v
NbtMemoryExample.v
NbtFile.v
NbtFileProps.v
Map.v
MapProps.v
MapFile.v
MapFileSpec.v
MapFileProps.v
MapFileRoundtrip.v
MapMemory.v
PList.v
Heartbeat.v
HeartbeatProps.v
Md5.v
Md5Spec.v
Md5Heartbeat.v
AvlTree.v
AvlTreeSpec.v
AvlTreeInsert.v
AvlTreeOps.v
AvlTreeClear.v
AvlTreeRemove.v
AvlTreeForeach.v
AvlTreeHeartbeat.v
AvlTreeExample.v
Log.v
Blocks.v
Objects.v
Session.v
SessionSpec.v
Server.v
ServerProps.v
Joinable.v
JoinableProps.v
Handler.v
HandlerProps.v
MapCache.v
MapCacheSpec.v
MapCacheProps.v
MapCacheEvict.v
MapCacheLoad.v
MapCacheSystem.v
MapCacheExample.v
Float32.v
NbtUtil.v
NbtText.v
Compression.v
MapSend.v
MapSendProps.v
MapSendStart.v
MainRig.v
Lifecycle.v
LifecycleProps.v
LifecycleRun.v
LifecycleExample.v
Main.v
MapTasks.v
MapSendExample.v
