(* ===== verification/Prelude.v ===== *)
(** * TeleClassic26: a verification development

    TeleClassic26 is a server for Minecraft Classic written in C.  This library
    models its own code (under [src/src] and [src/include]) and the NBT library
    it keeps its maps with ([src/cNBT]), and proves what makes them correct, or
    where they are not.  Paths below are relative to the repository's [src/].

    ** The program

    Clients connect over TCP.  A pool of worker threads ([src/thread_pool.c])
    runs all work as short tasks in chains: a task ends by scheduling its
    successor.  The server ([src/server.c]) accepts connections, gives each a
    session, and runs a listen task per session that reads packets; a complete
    packet is handled by a task of [src/handler.c], which answers through the
    packet functions of [src/protocol.c].  A player is authenticated against
    the heartbeat services ([src/heartbeat.c]) and then enters a joinable, a
    world, through the router of [src/joinable.c].  Maps ([src/map.c], [map.h])
    are kept in a cache ([src/map_cache.c]) and loaded by blocking tasks; tasks
    that wait for one are kept in a backlog ([src/task_backlog.c]).  A map is
    sent to a client in a chain of tasks ([src/api.c]) that compress it
    ([src/utils.c]) and send it in chunks; the lobby of [src/main.c] does that
    for every player.

    ** The files

    - [Prelude]: fixed-width integers, [char] of either signedness, big-endian
      byte lists, C strings, the allocator, sequences of steps, tactics.
    - [Socket], [Protocol], [ProtocolSpec]: sockets, every function of
      [protocol.c], and the layout of each packet.  A sender returns the
      [pboolean] of the code and the socket after it.
    - [ThreadPool], [ThreadPoolSpec], [ThreadPoolSystem], [ThreadPoolExample],
      [ThreadPoolProps]: the ring buffers and critical sections of the pool;
      buffers as queues; the system of workers, tasks and outside threads as a
      step relation with its invariant; theorems.
    - [TaskBacklog], [TaskBacklogProps]: the backlog against the interface
      [Scheduler], with laws the pool is shown to meet.
    - [Buffer], [Nbt], [NbtSpec], [NbtTree], [NbtFile], [NbtFileProps],
      [NbtUtil], [NbtText]: cNBT's growable buffer, the binary form of trees
      with a reference encoder, searching, files around zlib, comparison, and
      the textual dump.
    - [NbtMemory], [NbtMemorySpec], [NbtMemoryBuild], [NbtMemoryCopy],
      [NbtMemoryClone], [NbtMemoryFilter], [NbtMemoryInplace],
      [NbtMemoryExample]: the functions of [nbt_treeops.c] that free, copy and
      filter trees, on a store of blocks with the linked lists of [list.h];
      where a tree lies in memory; freeing; building lists; the pieces of a
      copied node; copying; filtered copies; filtering in place; a tree the
      theorems apply to.
    - [Map], [MapProps], [MapFile], [MapFileSpec], [MapFileProps],
      [MapFileRoundtrip], [MapMemory]: maps and their blocks, saving and loading,
      the tree a map is saved as, the round trip, and the release of a map.
    - [PList]: every function of the lists of plibsys on cells in
      memory, and the list operation it is.
    - [Heartbeat], [HeartbeatProps]: salts, requests and keys.
    - [Md5], [Md5Spec], [Md5Heartbeat]: the MD5 of plibsys, the algorithm of RFC
      1321 it computes, and the instance of the interface [Md5] it is.
    - [AvlTree], [AvlTreeSpec], [AvlTreeInsert], [AvlTreeOps], [AvlTreeClear],
      [AvlTreeRemove], [AvlTreeForeach], [AvlTreeHeartbeat], [AvlTreeExample]: the
      AVL trees of plibsys on nodes in memory; where a tree lies and what the
      rotations do to it; balance after an insertion; searching under any lawful
      comparison; clearing; removal; traversal; the used keys of the heartbeat in such a tree; trees
      the theorems apply to.
    - [Objects]: the tasks of the server, what their arguments point to, and the
      stores of heap objects: cache entries and transfers of maps.
    - [Session], [SessionSpec], [Server], [ServerProps], [Joinable],
      [JoinableProps], [Handler], [HandlerProps]: the server's state, its tasks
      as computations with rules to run them, the router, the handlers, and
      theorems.
    - [MapCache], [MapCacheSpec], [MapCacheProps], [MapCacheEvict],
      [MapCacheLoad], [MapCacheSystem], [MapCacheExample]: every function of
      [map_cache.c]; lists as segments of linked entries; opening, eviction
      against the reference definition [sweep], loading, runs of all of these
      as a step relation with its invariant; states the theorems apply to.
    - [Float32]: single precision arithmetic and how far it rounds.
    - [Compression], [MapSend], [MapSendProps], [MapSendStart],
      [MapSendExample]: both compressors, every function of [api.c], the stages
      of a transfer in the order last to first, and a whole run of the lobby
      that the theorems apply to.
    - [MainRig]: the lobby of [main.c] as an instance of the interfaces, and a
      worker that runs any task.
    - [Lifecycle], [LifecycleProps], [LifecycleRun], [LifecycleExample]: creation,
      start, stop and release of the server and its parts with every resource
      and every failing step, and [run_server] from beginning to end.
    - [MapTasks]: what every task, call and handler that touches maps does to the
      cache, with the invariant of the cache along all of their runs.
    - [Log], [Main]: every function of [log.c], and [main].
    - [Blocks]: the block ids of [blocks.h].

    ** How state and effects are modelled

    Structs are records with the members of the code; enumerations and tagged
    unions are inductive types.  Numbers are integers in [Z] with the
    conversions of the C types written out; what the C standard leaves
    undefined (an overflowing [int], a wrong union member, an access outside an
    object) is a result of its own.  Operations return the new state, with an
    option, a sum or an outcome where they fail.  Allocation may fail at any
    request: a [heap] is the list of the allocator's answers, and a theorem
    that needs memory says [plentiful].  The network, the disk, the clock, the
    random numbers and [malloc] are oracles in the state; zlib, MD5, curl, the
    files of maps, the joinables and the users of maps are classes ([Zlib],
    [Md5], [Curl], [MapLoader], [Joinables], [MapClients]) whose documented
    behaviour is a class of laws where a theorem needs it, with an instance
    that meets them.  zlib may refuse a stream; that it grants every stream is
    the extra assumption [ZlibReady] of the round trips through files.
    [p_malloc] of no bytes is [NULL] where maps are loaded ([malloc_bytes]).

    Objects that are shared between tasks live in stores, finite maps from
    locations ([map_state]); a freed object is gone from its store, so that a
    use after free is a [BadAccess].  The count [ms_live] follows the smaller
    blocks that hang on them.

    Every critical section of the thread pool is one atomic function, and
    threads interleave between them.  A client task is one computation on the
    server, with the session's mutex a flag: locking a held one is [Deadlock],
    unlocking a free one [BadUnlock].

    ** What the theorems show

    - Protocol: packets are their documented layouts on the wire, but for the
      positions of players, which are longer ([position_packets_longer]);
      failures stop a packet; sizes are fixed; numbers and strings are decoded back (exactly when they
      are, for numbers); extensions are recognised.
    - Thread pool: buffers refine bounded queues with reserved slots; workers
      choose the oldest task of the first eligible buffer; continuations never
      fail; blocking tasks are capped; no wake-up is lost; shutdown ends and
      loses nothing; initialisation is bounded.
    - Backlog: pushing refines appending; handing over treats every entry once
      and, run by a pool task, is a sequence of steps of the pool.
    - NBT: the parser ends on every input, with a tree or an error, unless one
      allocation of a list is refused after its first was granted; trees survive writing and reading,
      in memory and through files; paths are followed name by name; comparison
      decides the relation it should up to what it does not look at; the dump is
      the indented text.
    - NBT in memory: freeing frees the blocks of a tree, each once; copying gives
      a copy in new blocks or everything back; filtering keeps what the predicate
      keeps, as a copy or in place; for copies, of trees without arrays of
      integers or longs, which are copied in part or freed twice.
    - Maps: blocks that are set are read back and nothing else changes; a saved
      map is loaded back but for what [reloaded] lists, if it has blocks; releasing a map frees
      what it owns.
    - Authentication: which keys are accepted, how often (once by real services,
      any number of times by the dummy service the program has), and the gap in the
      protection against replays; requests carry what they should; the hash is
      MD5 whatever the pieces it gets.
    - Search trees: insertion and removal keep the tree balanced, in order and
      with its parent pointers; a lookup visits at most two nodes for every
      doubling of the number of nodes; releasing frees every node and destroys
      every key once; and the heartbeat answers with such a tree what it answers
      with the association list its other theorems are about.
    - Server: packets are put together from any pieces of the stream; ids of
      sessions are handed out and returned exactly; tasks of ended sessions do
      nothing; negotiated versions do not disturb each other; and the places
      where locks are released twice, kept or taken twice.
    - Map cache: opening, loading and eviction on every branch; the list stays
      well formed along every run of the tasks of maps and their handlers; eviction computes [sweep] and never drops a
      map in use; and what is wrong: nothing is ever found in the index, maps
      that get a second chance stay locked, the memory of maps is not counted,
      a load that cannot be scheduled or fails.
    - Map sending: the map is compressed so that it inflates to its blocks, the
      level is started with the packets of its environment, and the chunk tasks
      put the compressed arrays on the wire whatever runs in between; failures
      give everything back; progress is a percentage in spite of rounding; and
      the maps that crash the server.  [lobby_delivered] runs a whole join.
      The handlers of the users of maps are asked for what each theorem needs
      of them: to return and to leave the transfer, the cache or the pool
      alone.
    - Life cycle: for every request that may be refused, whether [tc_server_init]
      keeps what it created, gives it back, leaves workers behind or hangs; a
      started server is released completely if no load of a map has failed; a
      run of the program in which nothing goes wrong and nobody connects leaves
      nothing behind; a start that fails hangs.
    - Log: a message goes to [stderr] and to the callbacks whose level it has.

    ** Fuel

    The NBT parser gets twice its input length plus two, which
    [nbt_parse_total] shows to be enough for every input.  Growing a buffer gets
    65 doublings, which reach any size up to 2^63.  The chunk loops of files
    take the number of rounds as an argument; the theorems ask only that it
    covers the data ([rounds_for]).  Printing a number gets 20 digits, more
    than an [int] has, and 310 the whole part of a [double].  The functions on
    trees in memory get the depth of the recursion, which [need] and
    [clone_need] compute from the tree.  The loop that frees the cache gets one turn per entry,
    since each turn frees one.  The loops on AVL trees get one turn more than
    there are nodes, clearing and traversal twice as many; every theorem on them shows that
    they end.  Other recursions are structural.

    ** Not modelled

    The initialisation of plibsys and curl, cNBT's own test programs; the
    vendored plibsys (but for MD5, the AVL trees and the lists; the index of the
    map cache is a red-black tree that is always empty), curl and zlib (but for
    [compressBound]).  The log lines of the modelled functions are left out. *)

From stdpp Require Export base numbers list option strings.
From Stdlib Require Export ZArith Lia.
From Stdlib Require Import Btauto.

#[global] Set Default Proof Using "Type".

Declare Scope tc_scope.
Delimit Scope tc_scope with tc.

Local Open Scope Z_scope.

(** ** Automation

    [tc] collects the facts that close the routine side conditions of the
    components; [tc_rewrite] the computation rules of the shared operations. *)

Create HintDb tc discriminated.
#[export] Hint Constants Opaque : tc.
#[export] Hint Extern 5 (_ <= _)%Z => lia : tc.
#[export] Hint Extern 5 (_ < _)%Z => lia : tc.
#[export] Hint Extern 5 (_ <= _ < _)%Z => lia : tc.

(** [div_mod_lia] is [lia] with quotients and remainders by constants
    replaced by their defining equations. *)
Ltac div_mod_lia := Z.div_mod_to_equations; lia.

(** Case analysis on the boolean comparisons of a goal, with the
    corresponding propositions added to the context. *)
Ltac case_bool_goal :=
  match goal with
  | |- context [Z.eqb ?a ?b] => destruct (Z.eqb_spec a b)
  | |- context [Z.ltb ?a ?b] => destruct (Z.ltb_spec a b)
  | |- context [Z.leb ?a ?b] => destruct (Z.leb_spec a b)
  | |- context [Nat.eqb ?a ?b] => destruct (Nat.eqb_spec a b)
  | |- context [Nat.ltb ?a ?b] => destruct (Nat.ltb_spec a b)
  | |- context [Nat.leb ?a ?b] => destruct (Nat.leb_spec a b)
  end.

Ltac case_bool_hyp :=
  match goal with
  | H : context [Z.eqb ?a ?b] |- _ => destruct (Z.eqb_spec a b)
  | H : context [Z.ltb ?a ?b] |- _ => destruct (Z.ltb_spec a b)
  | H : context [Z.leb ?a ?b] |- _ => destruct (Z.leb_spec a b)
  | H : context [Nat.eqb ?a ?b] |- _ => destruct (Nat.eqb_spec a b)
  | H : context [Nat.ltb ?a ?b] |- _ => destruct (Nat.ltb_spec a b)
  | H : context [Nat.leb ?a ?b] |- _ => destruct (Nat.leb_spec a b)
  end.

Ltac case_bools := repeat first [case_bool_goal | case_bool_hyp].

(** Split the first tuple-returning call a hypothesis or goal matches on. *)
Ltac destruct_call :=
  match goal with
  | |- context [match ?e with (_, _) => _ end] => destruct e eqn:?
  | H : context [match ?e with (_, _) => _ end] |- _ => destruct e eqn:?
  end.

(** ** Machine integers

    A w-bit integer is a [Z] in its range.  [wrapu] is conversion to the
    unsigned type of the width (reduction modulo 2^w); [wraps] conversion to
    the signed type, which on every supported compiler is the two's
    complement reading of the low w bits. *)

Definition wrapu (w z : Z) : Z := z mod 2 ^ w.
Definition wraps (w z : Z) : Z := (z + 2 ^ (w - 1)) mod 2 ^ w - 2 ^ (w - 1).

Abbreviation u8 := (wrapu 8).
Abbreviation u16 := (wrapu 16).
Abbreviation u32 := (wrapu 32).
Abbreviation u64 := (wrapu 64).
Abbreviation s8 := (wraps 8).
Abbreviation s16 := (wraps 16).
Abbreviation s32 := (wraps 32).
Abbreviation s64 := (wraps 64).

Definition in_u (w z : Z) : Prop := 0 <= z < 2 ^ w.
Definition in_s (w z : Z) : Prop := - 2 ^ (w - 1) <= z < 2 ^ (w - 1).

Abbreviation is_byte := (in_u 8).

(** Evaluate the powers of two of the fixed widths. *)
Ltac unfold_widths :=
  unfold wrapu, wraps, in_u, in_s in *;
  change (2 ^ 8) with 256 in *; change (2 ^ (8 - 1)) with 128 in *;
  change (2 ^ 16) with 65536 in *; change (2 ^ (16 - 1)) with 32768 in *;
  change (2 ^ 32) with 4294967296 in *;
  change (2 ^ (32 - 1)) with 2147483648 in *;
  change (2 ^ 64) with 18446744073709551616 in *;
  change (2 ^ (64 - 1)) with 9223372036854775808 in *.

Ltac width_lia := unfold_widths; div_mod_lia.

Lemma wrapu_range w z : 0 <= w -> in_u w (wrapu w z).
Proof. intros Hw. apply Z.mod_pos_bound, Z.pow_pos_nonneg; lia. Qed.

Lemma wraps_range w z : 0 < w -> in_s w (wraps w z).
Proof.
  intros Hw. unfold in_s, wraps.
  assert (2 ^ w = 2 * 2 ^ (w - 1)) as Hp by (rewrite <- Z.pow_succ_r by lia; f_equal; lia).
  pose proof (Z.mod_pos_bound (z + 2 ^ (w - 1)) (2 ^ w)) as Hb.
  assert (0 < 2 ^ (w - 1)) by (apply Z.pow_pos_nonneg; lia). lia.
Qed.

Lemma wrapu_small w z : in_u w z -> wrapu w z = z.
Proof. apply Z.mod_small. Qed.

Lemma wraps_small w z : 0 < w -> in_s w z -> wraps w z = z.
Proof.
  intros Hw [Hl Hu]. unfold wraps.
  assert (2 ^ w = 2 * 2 ^ (w - 1)) as Hp by (rewrite <- Z.pow_succ_r by lia; f_equal; lia).
  rewrite Z.mod_small by lia. lia.
Qed.

Lemma u8_range z : is_byte (u8 z).
Proof. apply wrapu_range. lia. Qed.

#[export] Hint Resolve u8_range : tc.
#[export] Hint Resolve wrapu_range wraps_range : tc.

(** Masks and shifts of the sources as remainders and quotients. *)
Lemma land_ones8 z : Z.land z 255 = z mod 256.
Proof. change 255 with (Z.ones 8). now rewrite Z.land_ones by lia. Qed.

Lemma land_3 z : Z.land z 3 = z mod 4.
Proof. change 3 with (Z.ones 2). now rewrite Z.land_ones by lia. Qed.

Lemma land_ones16 z : Z.land z 65535 = z mod 65536.
Proof. change 65535 with (Z.ones 16). now rewrite Z.land_ones by lia. Qed.

Lemma shiftr_div n z : 0 <= n -> Z.shiftr z n = z / 2 ^ n.
Proof. apply Z.shiftr_div_pow2. Qed.

Lemma shiftl_mul n z : 0 <= n -> Z.shiftl z n = z * 2 ^ n.
Proof. apply Z.shiftl_mul_pow2. Qed.

(** A value below 2^n has no bit at or above n. *)
Lemma testbit_small n b i : 0 <= n -> 0 <= b < 2 ^ n -> n <= i -> Z.testbit b i = false.
Proof.
  intros Hn Hb Hi. rewrite <- (Z.mod_small b (2 ^ n)) by lia.
  apply Z.mod_pow2_bits_high. lia.
Qed.

(** Or-ing a value below 2^n into the bits cleared by a left shift adds. *)
Lemma lor_shiftl_low n a b :
  0 <= n -> 0 <= b < 2 ^ n -> Z.lor (Z.shiftl a n) b = a * 2 ^ n + b.
Proof.
  intros Hn Hb. rewrite <- shiftl_mul by lia.
  assert (Z.land (Z.shiftl a n) b = 0) as Hd.
  { apply Z.bits_inj'; intros i Hi. rewrite Z.land_spec, Z.bits_0.
    destruct (Z.lt_ge_cases i n).
    - now rewrite Z.shiftl_spec_low by lia.
    - rewrite (testbit_small n b i) by lia. apply andb_false_r. }
  now rewrite <- Z.lxor_lor, Z.add_nocarry_lxor by done.
Qed.

(** Or-ing a negative value that fits n signed bits keeps only its own bits:
    its sign extension covers everything the shift moved up. *)
Lemma lor_shiftl_neg n a b :
  0 <= n -> - 2 ^ n <= b < 0 -> Z.lor (Z.shiftl a n) b = b.
Proof.
  intros Hn Hb. apply Z.bits_inj'; intros i Hi. rewrite Z.lor_spec.
  destruct (Z.lt_ge_cases i n).
  - now rewrite Z.shiftl_spec_low by lia.
  - replace b with (Z.lnot (-b - 1)) by (unfold Z.lnot; lia).
    rewrite Z.lnot_spec, (testbit_small n (-b - 1) i) by lia. apply orb_true_r.
Qed.

(** ** Plain [char]

    plibsys' [pchar] is C's [char], whose signedness the platform chooses.
    The functions whose result depends on the choice take it as an argument;
    both instances are checked where a theorem distinguishes them. *)

Class CharABI := char_signed : bool.

Definition signed_char_abi : CharABI := true.
Definition unsigned_char_abi : CharABI := false.

(** Conversion of an integer (or of a stored byte) to a [pchar] value. *)
Definition to_char {abi : CharABI} (z : Z) : Z := if char_signed then s8 z else u8 z.

(** The byte a [pchar] value occupies in memory. *)
Definition char_byte (c : Z) : Z := u8 c.

Lemma char_byte_to_char {abi : CharABI} b : is_byte b -> char_byte (to_char b) = b.
Proof. unfold char_byte, to_char. destruct char_signed; width_lia. Qed.

Lemma to_char_small {abi : CharABI} b : 0 <= b < 128 -> to_char b = b.
Proof. unfold to_char. destruct char_signed; width_lia. Qed.

(** Masking with 0xFF, or shifting right by at most 6 and masking with 3,
    hides the signedness of the [char]. *)
Lemma land_to_char_255 {abi : CharABI} b : is_byte b -> Z.land (to_char b) 255 = b.
Proof. rewrite land_ones8. unfold to_char. destruct char_signed; width_lia. Qed.

Lemma testbit_to_char {abi : CharABI} b i :
  is_byte b -> 0 <= i < 8 -> Z.testbit (to_char b) i = Z.testbit b i.
Proof.
  intros Hb Hi. rewrite <- (land_to_char_255 b Hb) at 2. rewrite Z.land_spec.
  change 255 with (Z.ones 8). rewrite Z.ones_spec_low by lia. now rewrite andb_true_r.
Qed.

(** ** Big-endian integers as byte lists *)

Fixpoint be_split (n : nat) (z : Z) : list Z :=
  match n with
  | O => []
  | S n' => u8 (z / 2 ^ (8 * Z.of_nat n')) :: be_split n' z
  end.

Definition be_combine (bs : list Z) : Z := foldl (fun acc b => acc * 256 + b) 0 bs.

Lemma length_be_split n z : length (be_split n z) = n.
Proof. induction n as [|n IH]; simpl; congruence. Qed.

Lemma be_split_bytes n z : Forall is_byte (be_split n z).
Proof. induction n as [|n IH]; simpl; constructor; auto with tc. Qed.

Lemma be_combine_acc acc bs :
  foldl (fun acc b => acc * 256 + b) acc bs = acc * 2 ^ (8 * Z.of_nat (length bs)) + be_combine bs.
Proof.
  unfold be_combine. revert acc. induction bs as [|b bs IH]; intros acc; cbn [foldl length].
  - rewrite Z.mul_0_r, Z.pow_0_r. lia.
  - rewrite IH, (IH (0 * 256 + b)). rewrite Nat2Z.inj_succ, Z.mul_succ_r, Z.pow_add_r by lia.
    change (2 ^ 8) with 256. lia.
Qed.

Lemma be_combine_cons b bs :
  be_combine (b :: bs) = b * 2 ^ (8 * Z.of_nat (length bs)) + be_combine bs.
Proof. unfold be_combine at 1. cbn [foldl]. rewrite be_combine_acc. lia. Qed.

Lemma be_combine_range bs :
  Forall is_byte bs -> 0 <= be_combine bs < 2 ^ (8 * Z.of_nat (length bs)).
Proof.
  induction 1 as [|b bs Hb _ IH]; [done|].
  rewrite be_combine_cons. cbn [length]. rewrite Nat2Z.inj_succ, Z.mul_succ_r, Z.pow_add_r by lia.
  change (2 ^ 8) with 256. unfold in_u in Hb. change (2 ^ 8) with 256 in Hb. nia.
Qed.

(** Reading back what was written gives the value modulo the width. *)
Lemma be_combine_split n z : be_combine (be_split n z) = z mod 2 ^ (8 * Z.of_nat n).
Proof.
  induction n as [|n IH].
  - cbn. now rewrite Z.mod_1_r.
  - cbn [be_split]. rewrite be_combine_cons, length_be_split, IH. unfold wrapu.
    rewrite Nat2Z.inj_succ, Z.mul_succ_r, Z.pow_add_r by lia.
    rewrite (Z.rem_mul_r z) by (try apply Z.pow_nonzero; lia). lia.
Qed.

(** Writing back what was read gives the bytes. *)
Lemma be_split_mod n z k :
  8 * Z.of_nat n <= k -> be_split n (z mod 2 ^ k) = be_split n z.
Proof.
  intros Hk. induction n as [|n IH]; [done|]. cbn [be_split].
  rewrite IH by lia. f_equal. unfold wrapu.
  apply Z.bits_inj'; intros i Hi. rewrite <- !shiftr_div by lia.
  destruct (Z.lt_ge_cases i 8).
  - rewrite !Z.mod_pow2_bits_low, !Z.shiftr_spec, Z.mod_pow2_bits_low by lia. done.
  - now rewrite !Z.mod_pow2_bits_high by lia.
Qed.

Lemma be_split_cong n a b :
  a mod 2 ^ (8 * Z.of_nat n) = b mod 2 ^ (8 * Z.of_nat n) -> be_split n a = be_split n b.
Proof.
  intros H. rewrite <- (be_split_mod n a _ (Z.le_refl _)), H. by apply be_split_mod.
Qed.

Lemma be_split_combine bs : Forall is_byte bs -> be_split (length bs) (be_combine bs) = bs.
Proof.
  induction 1 as [|b bs Hb Hbs IH]; [done|]. cbn [length be_split].
  rewrite be_combine_cons. pose proof (be_combine_range bs Hbs) as Hr. f_equal.
  - rewrite Z.div_add_l by (apply Z.pow_nonzero; lia).
    rewrite Z.div_small, Z.add_0_r by lia. by apply wrapu_small.
  - etrans; [|apply IH]. set (k := 8 * Z.of_nat (length bs)).
    rewrite <- (be_split_mod _ (b * 2 ^ k + _) k) by lia.
    rewrite (Z.add_comm (b * _)), Z.mod_add by (apply Z.pow_nonzero; lia).
    by rewrite be_split_mod by lia.
Qed.

(** ** Allocation

    Every allocation of the sources is checked and may fail.  A [heap] is the
    allocator's answers in the order of the requests: request number
    [h_next] succeeds when [h_grants] says so. *)

Record heap := Heap { h_grants : nat -> bool; h_next : nat }.

Definition p_malloc (h : heap) : bool * heap :=
  (h_grants h (h_next h), Heap (h_grants h) (S (h_next h))).

(** An allocator that never refuses. *)
Definition plentiful (h : heap) : Prop := forall n, h_grants h n = true.

Definition ample_heap : heap := Heap (fun _ => true) 0.

Lemma ample_heap_plentiful : plentiful ample_heap.
Proof. done. Qed.

Lemma p_malloc_plentiful h ok h' :
  plentiful h -> p_malloc h = (ok, h') -> ok = true /\ plentiful h'.
Proof. unfold p_malloc. intros Hh [= <- <-]. split; [apply Hh | exact Hh]. Qed.

#[export] Hint Resolve ample_heap_plentiful : tc.

(** ** Sequences of steps *)

Section Star.
Context {A : Type} (R : A -> A -> Prop).

Inductive star : A -> A -> Prop :=
| star_refl a : star a a
| star_step a b c : R a b -> star b c -> star a c.

Lemma star_one a b : R a b -> star a b.
Proof. eauto using star. Qed.

Lemma star_trans a b c : star a b -> star b c -> star a c.
Proof. induction 1; eauto using star. Qed.

(** A predicate kept by every step holds along every run. *)
Lemma star_invariant (P : A -> Prop) :
  (forall a b, R a b -> P a -> P b) -> forall a b, star a b -> P a -> P b.
Proof. intros Hstep a b Hab. induction Hab; eauto. Qed.
End Star.

Lemma forallb_false {A} (f : A -> bool) l : forallb f l = false -> exists x, x ∈ l /\ f x = false.
Proof.
  induction l as [|x l IH]; cbn; [done|]. destruct (f x) eqn:E; cbn.
  - intros H. destruct (IH H) as (y & Hy & Ey). exists y. split; [by right | done].
  - intros _. exists x. split; [by left | done].
Qed.

(** ** Lists *)

Lemma take_app_length_le {A} n (l k : list A) :
  (n <= length l)%nat -> take n (l ++ k) = take n l.
Proof. intros. rewrite take_app. replace (n - length l)%nat with 0%nat by lia.
  by rewrite take_0, app_nil_r. Qed.

Lemma Forall_bytes_app bs cs : Forall is_byte bs -> Forall is_byte cs -> Forall is_byte (bs ++ cs).
Proof. intros. by apply Forall_app. Qed.

#[export] Hint Resolve Forall_bytes_app be_split_bytes : tc.

(** ** C strings

    Memory from a [char] pointer on, as bytes; reading past the listed cells
    reads the terminator. *)

(** The bytes of a string literal. *)
Definition cstr (s : string) : list Z :=
  map (fun a => Z.of_nat (Ascii.nat_of_ascii a)) (String.list_ascii_of_string s).

Definition hd0 (l : list Z) : Z := default 0 (head l).

Fixpoint strncmp (n : nat) (a b : list Z) : Z :=
  match n with
  | O => 0
  | S n' =>
      if hd0 a =? hd0 b then
        if hd0 a =? 0 then 0 else strncmp n' (tail a) (tail b)
      else hd0 a - hd0 b
  end.

(** The bytes before the terminator. *)
Fixpoint c_content (l : list Z) : list Z :=
  match l with
  | [] => []
  | c :: l' => if c =? 0 then [] else c :: c_content l'
  end.

Definition strlen (l : list Z) : nat := length (c_content l).
Definition strnlen (l : list Z) (n : nat) : nat := Nat.min n (strlen l).

Definition no_nul (l : list Z) : Prop := Forall (fun c => c <> 0) l.

Lemma c_content_no_nul l : no_nul l -> c_content l = l.
Proof.
  induction 1 as [|c l Hc _ IH]; [done|]. cbn. destruct (Z.eqb_spec c 0); [done|]. by rewrite IH.
Qed.

Lemma c_content_app_nul l k : no_nul l -> c_content (l ++ 0 :: k) = l.
Proof.
  induction 1 as [|c l Hc _ IH]; [done|]. cbn. destruct (Z.eqb_spec c 0); [done|]. by rewrite IH.
Qed.

(** [strncmp] answers 0 exactly on strings with equal first [n] bytes. *)
Lemma strncmp_eq n a b : strncmp n a b = 0 <-> take n (c_content a) = take n (c_content b).
Proof.
  revert a b. induction n as [|n IH]; intros a b; [done|]. cbn [strncmp].
  destruct a as [|x a], b as [|y b]; cbn [hd0 head from_option tail c_content id];
    unfold hd0; cbn -[Z.sub Z.eqb].
  - done.
  - destruct (Z.eqb_spec 0 y) as [<-|Hy]; [done|].
    destruct (Z.eqb_spec y 0); [lia|]. cbn -[Z.sub Z.eqb]; split; [lia | done].
  - destruct (Z.eqb_spec x 0) as [->|Hx]; [done|]. cbn -[Z.sub Z.eqb]; split; [lia | done].
  - destruct (Z.eqb_spec x y) as [<-|Hxy]; destruct (Z.eqb_spec x 0) as [->|Hx].
    + done.
    + rewrite IH. cbn. split; [congruence | by intros [= ->]].
    + destruct (Z.eqb_spec y 0); [lia|]. cbn -[Z.sub Z.eqb]; split; [lia | done].
    + destruct (Z.eqb_spec y 0); cbn -[Z.sub Z.eqb]; (split; [lia | intros [=]; done]).
Qed.

(** [strcmp]: memory past the listed cells reads as the terminator. *)
Definition strcmp (a b : list Z) : Z := strncmp (S (Nat.max (length a) (length b))) a b.

Lemma length_c_content l : (length (c_content l) <= length l)%nat.
Proof. induction l as [|c l IH]; cbn; [lia|]. destruct (c =? 0); cbn; lia. Qed.

Lemma strcmp_eq a b : strcmp a b = 0 <-> c_content a = c_content b.
Proof.
  unfold strcmp. rewrite strncmp_eq. pose proof (length_c_content a). pose proof (length_c_content b).
  by rewrite !take_ge by lia.
Qed.

(** [%d] of [printf]; twenty digits hold every 64-bit number. *)
Fixpoint dec_loop (fuel : nat) (n : Z) (acc : list Z) : list Z :=
  match fuel with
  | O => acc
  | S fuel' =>
      let acc' := 48 + n mod 10 :: acc in
      if n / 10 =? 0 then acc' else dec_loop fuel' (n / 10) acc'
  end.

Definition dec (z : Z) : list Z := if z <? 0 then 45 :: dec_loop 20 (- z) [] else dec_loop 20 z [].
