(* ===== verification/Socket.v ===== *)
(** * Sockets and senders

    The client socket as the protocol layer sees it: [p_socket_send] hands
    bytes to the operating system, which accepts a prefix of them, reports
    that it would block, or fails.  The operating system is not part of the
    repository; its answers are the [sk_net] field, indexed by the number of
    the call and the number of bytes offered.

    The file also holds the vocabulary of the senders ([sender], the
    early-return sequencing of the sources) and the abstract account of a
    sender as the list of chunks it offers to the socket, with the theorems
    on delivery and on failure that every packet of the protocol inherits. *)

From S2P Require Import Prelude.

Local Open Scope Z_scope.

(** ** The socket *)

Inductive net_answer :=
| Accept (n : nat)          (* the call stored at most [n] of the bytes *)
| WouldBlock                (* the send buffer is full, non-blocking socket *)
| NetFailure.               (* any other error *)

Inductive io_error := P_ERROR_IO_WOULD_BLOCK | P_ERROR_IO_FAILED.

#[export] Instance io_error_eq_dec : EqDecision io_error.
Proof. solve_decision. Defined.

Record psocket := PSocket {
  sk_net : nat -> nat -> net_answer;
  sk_calls : nat;
  sk_out : list Z }.          (* every byte accepted so far, oldest first *)

(** The return value ([pssize]) and the [PError] of one call. *)
Definition p_socket_send (s : psocket) (data : list Z) : Z * option io_error * psocket :=
  match sk_net s (sk_calls s) (length data) with
  | Accept n =>
      let k := Nat.min n (length data) in
      (Z.of_nat k, None, PSocket (sk_net s) (S (sk_calls s)) (sk_out s ++ take k data))
  | WouldBlock =>
      (-1, Some P_ERROR_IO_WOULD_BLOCK, PSocket (sk_net s) (S (sk_calls s)) (sk_out s))
  | NetFailure =>
      (-1, Some P_ERROR_IO_FAILED, PSocket (sk_net s) (S (sk_calls s)) (sk_out s))
  end.

(** A socket whose send buffer always has room. *)
Definition reliable (s : psocket) : Prop := forall i n, sk_net s i n = Accept n.

Definition ideal_socket : psocket := PSocket (fun _ n => Accept n) 0 [].

Lemma ideal_socket_reliable : reliable ideal_socket.
Proof. done. Qed.

#[export] Hint Resolve ideal_socket_reliable : tc.

(** The socket after [n] calls that were all accepted in full. *)
Definition sk_after (s : psocket) (n : nat) (bs : list Z) : psocket :=
  PSocket (sk_net s) (sk_calls s + n) (sk_out s ++ bs).

Lemma sk_after_0 s : sk_after s 0 [] = s.
Proof. destruct s. unfold sk_after. cbn. by rewrite Nat.add_0_r, app_nil_r. Qed.

Lemma sk_after_after s n bs m cs :
  sk_after (sk_after s n bs) m cs = sk_after s (n + m) (bs ++ cs).
Proof. unfold sk_after. cbn. by rewrite Nat.add_assoc, app_assoc. Qed.

Lemma sk_after_reliable s n bs : reliable s -> reliable (sk_after s n bs).
Proof. done. Qed.

#[export] Hint Resolve sk_after_reliable : tc.

(** ** Senders *)

(** A function of the protocol layer: its [pboolean] and the socket after. *)
Definition sender := psocket -> bool * psocket.

Definition return_TRUE : sender := fun s => (true, s).

(** [if (!c) { return FALSE; } k] *)
Definition and_then (c k : sender) : sender :=
  fun s => let '(ok, s') := c s in if ok then k s' else (false, s').

Notation "c ?; k" := (and_then c k) (at level 96, right associativity) : tc_scope.

(** [if (b) { c } else { d }] between senders. *)
Definition either (b : bool) (c d : sender) : sender := if b then c else d.

(** ** Chunks

    What a sender offers to the socket, abstractly: a list of chunks, each
    one call.  A [patient] chunk is one whose sender counts [WouldBlock] as
    success. *)

Record chunk := Chunk { patient : bool; payload : list Z }.

Definition send_chunk (c : chunk) : sender := fun s =>
  let '(sent, error, s') := p_socket_send s (payload c) in
  if 0 <? sent then (true, s')
  else if sent =? 0 then (false, s')
  else (patient c && bool_decide (error = Some P_ERROR_IO_WOULD_BLOCK), s').

Fixpoint run_chunks (cs : list chunk) : sender :=
  match cs with
  | [] => return_TRUE
  | c :: cs' => and_then (send_chunk c) (run_chunks cs')
  end.

Definition chunk_bytes (cs : list chunk) : list Z := concat (map payload cs).

Lemma and_then_true c s : and_then c return_TRUE s = c s.
Proof. unfold and_then, return_TRUE. destruct (c s) as [[] s']; done. Qed.

Lemma run_chunks_app cs ds s :
  run_chunks (cs ++ ds) s = and_then (run_chunks cs) (run_chunks ds) s.
Proof.
  revert s. induction cs as [|c cs IH]; intros s; [done|].
  cbn [app run_chunks]. unfold and_then.
  destruct (send_chunk c s) as [[] s'] eqn:E; [|done]. rewrite IH. done.
Qed.

(** Two senders described by chunks compose to one described by both. *)
Lemma and_then_chunks c k cs ds s :
  (forall s, c s = run_chunks cs s) -> (forall s, k s = run_chunks ds s) ->
  and_then c k s = run_chunks (cs ++ ds) s.
Proof.
  intros Hc Hk. rewrite run_chunks_app. unfold and_then. rewrite Hc.
  destruct (run_chunks cs s) as [[] s']; [apply Hk | done].
Qed.

(** ** Delivery *)

Lemma send_chunk_reliable c s :
  reliable s -> payload c <> [] -> send_chunk c s = (true, sk_after s 1 (payload c)).
Proof.
  intros Hr Hne. unfold send_chunk, p_socket_send. rewrite Hr, Nat.min_id.
  assert (0 < length (payload c))%nat by (destruct (payload c); [done | cbn; lia]).
  destruct (Z.ltb_spec 0 (Z.of_nat (length (payload c)))); [|lia].
  rewrite take_ge by done. unfold sk_after. by rewrite Nat.add_1_r.
Qed.

(** On a reliable socket every chunk arrives, in order, and the sender
    reports success. *)
Lemma run_chunks_reliable cs s :
  reliable s -> Forall (fun c => payload c <> []) cs ->
  run_chunks cs s = (true, sk_after s (length cs) (chunk_bytes cs)).
Proof.
  intros Hr Hne. revert s Hr. induction Hne as [|c cs Hc _ IH]; intros s Hr.
  - cbn. by rewrite sk_after_0.
  - cbn [run_chunks]. unfold and_then. rewrite send_chunk_reliable by done.
    rewrite IH by auto with tc. by rewrite sk_after_after.
Qed.

(** ** Failure *)

(** One call on any socket: what it accepts is a prefix of the chunk, and a
    refusal of the sender means the call stored nothing. *)
Lemma send_chunk_spec c s ok s' :
  send_chunk c s = (ok, s') ->
  exists w, sk_out s' = sk_out s ++ w /\ w `prefix_of` payload c /\
            (ok = false -> w = []) /\ sk_net s' = sk_net s /\ sk_calls s' = S (sk_calls s).
Proof.
  unfold send_chunk, p_socket_send. intros H.
  destruct (sk_net s (sk_calls s) (length (payload c))) as [n| |] eqn:E.
  - set (k := Nat.min n (length (payload c))) in *. exists (take k (payload c)).
    destruct (Z.ltb_spec 0 (Z.of_nat k)); destruct (Z.eqb_spec (Z.of_nat k) 0); try lia;
      simplify_eq; cbn; (split_and!; [done | apply prefix_take | | done | done]); intros; [done|].
    by replace k with 0%nat by lia.
  - exists []. cbn in H. simplify_eq. cbn. rewrite app_nil_r.
    repeat split; auto using prefix_nil.
  - exists []. cbn in H. simplify_eq. cbn. rewrite app_nil_r.
    repeat split; auto using prefix_nil.
Qed.

(** A sender that reports failure stopped at one of its chunks: the bytes on
    the wire come from the chunks before it only, each contributing a prefix
    of itself. *)
Lemma run_chunks_false cs s s' :
  run_chunks cs s = (false, s') ->
  exists done_ failed rest ws,
    cs = done_ ++ failed :: rest /\ sk_out s' = sk_out s ++ concat ws /\
    Forall2 (fun w c => w `prefix_of` payload c) ws done_ /\
    sk_calls s' = (sk_calls s + S (length done_))%nat.
Proof.
  revert s. induction cs as [|c cs IH]; intros s H; [done|].
  cbn [run_chunks] in H. unfold and_then in H.
  destruct (send_chunk c s) as [[] s1] eqn:E;
    apply send_chunk_spec in E as (w & Hout & Hpre & Hf & Hnet & Hcalls).
  - apply IH in H as (dn & f & rest & ws & -> & Hout' & Hws & Hc).
    exists (c :: dn), f, rest, (w :: ws). split_and!; try done.
    + by rewrite Hout', Hout, <- app_assoc.
    + by constructor.
    + cbn. lia.
  - simplify_eq. exists [], c, cs, []. rewrite Hout, Hf by done.
    split_and!; [done | done | constructor | cbn; lia].
Qed.

(** A sender that reports success made all of its calls. *)
Lemma run_chunks_true cs s s' :
  run_chunks cs s = (true, s') ->
  exists ws, sk_out s' = sk_out s ++ concat ws /\
             Forall2 (fun w c => w `prefix_of` payload c) ws cs /\
             sk_calls s' = (sk_calls s + length cs)%nat.
Proof.
  revert s. induction cs as [|c cs IH]; intros s H.
  - injection H as <-. exists []. cbn. rewrite app_nil_r, Nat.add_0_r.
    split_and!; [done | constructor | done].
  - cbn [run_chunks] in H. unfold and_then in H.
    destruct (send_chunk c s) as [[] s1] eqn:E; [|done].
    apply send_chunk_spec in E as (w & Hout & Hpre & _ & _ & Hcalls).
    apply IH in H as (ws & Hout' & Hws & Hc). exists (w :: ws).
    rewrite Hout', Hout, <- app_assoc. split_and!; [done | by constructor | cbn; lia].
Qed.
