(* ===== verification/Protocol.v ===== *)
(** * The Classic protocol layer

    [src/src/protocol.c] and its header: the primitive senders and decoders,
    every outbound packet, and the table of supported CPE extensions.

    C strings are the list of their bytes before the terminator.  A [pchar]
    argument is an integer; the byte that reaches the wire is [char_byte] of
    it, which does not depend on the signedness of [char].  The decoders read
    [pchar] cells and do depend on it, through the [CharABI] argument. *)

From S2P Require Import Prelude Socket.

Local Open Scope Z_scope.
Local Open Scope tc_scope.

(** ** Constants *)

Definition TC_PROTOCOL_MAX_STR_LEN : nat := 64.
Definition TC_PROTOCOL_VERSION : Z := 0x07.
Definition TC_PROTOCOL_USER_TYPE_OPERATOR : Z := 0x64.
Definition TC_PROTOCOL_USER_TYPE_STANDARD : Z := 0x00.

Definition TC_CPE_EXTENSION_MAX_SUPPORTED : Z := 10.
Definition TC_CPE_CUSTOM_BLOCKS_EXTENSION_INDEX : Z := 0.
Definition TC_CPE_BLOCK_DEFINITIONS_EXTENSION_INDEX : Z := 1.
Definition TC_CPE_EXTENDED_BLOCKS_EXTENSION_INDEX : Z := 2.
Definition TC_CPE_EXTENDED_TEXTURES_EXTENSION_INDEX : Z := 3.
Definition TC_CPE_MESSAGE_TYPES_EXTENSION_INDEX : Z := 4.
Definition TC_CPE_FASTMAP_EXTENSION_INDEX : Z := 5.
Definition TC_CPE_ENV_MAP_APPEARANCE_EXTENSION_INDEX : Z := 6.
Definition TC_CPE_ENV_MAP_WEATHER_TYPE_EXTENSION_INDEX : Z := 7.
Definition TC_CPE_ENV_MAP_COLORS_EXTENSION_INDEX : Z := 8.
Definition TC_CPE_ENV_MAP_ASPECT_EXTENSION_INDEX : Z := 9.
Definition TC_CPE_CUSTOM_BLOCKS_MAX_SUPPORT_LEVEL : Z := 1.

(** Opcodes shared with the inbound side ([handler.h]). *)
Definition TC_PACKET_CPE_EXTINFO : Z := 0x10.
Definition TC_PACKET_CPE_EXTENTRY : Z := 0x11.
Definition TC_PACKET_CPE_CUSTOM_BLOCK_SUPPORT_LEVEL : Z := 0x13.

Record tc_cpe_extension := CpeExtension { ext_name : list Z; ext_version : Z }.

Definition tc_supported_extensions : list tc_cpe_extension :=
  [ CpeExtension (cstr "CustomBlocks") 1;
    CpeExtension (cstr "BlockDefinitions") 1;
    CpeExtension (cstr "ExtendedBlocks") 1;
    CpeExtension (cstr "ExtendedTextures") 1;
    CpeExtension (cstr "MessageTypes") 1;
    CpeExtension (cstr "FastMap") 1;
    CpeExtension (cstr "EnvMapAppearance") 2;
    CpeExtension (cstr "EnvWeatherType") 1;
    CpeExtension (cstr "EnvColors") 1;
    CpeExtension (cstr "EnvMapAspect") 1 ].

(** ** Primitive senders *)

Definition tc_protocol_send_byte (opcode : Z) : sender := fun socket =>
  let '(sent, error, socket') := p_socket_send socket [char_byte opcode] in
  if 0 <? sent then (true, socket')
  else if sent =? 0 then (false, socket')          (* disconnected *)
  else
    let is_waiting := bool_decide (error = Some P_ERROR_IO_WOULD_BLOCK) in
    (is_waiting, socket').

Definition tc_protocol_send_datachunk (data : list Z) (length : nat) : sender := fun socket =>
  let '(sent, error, socket') := p_socket_send socket (take length data) in
  if 0 <? sent then (true, socket')
  else if sent =? 0 then (false, socket')
  else
    let is_waiting := bool_decide (error = Some P_ERROR_IO_WOULD_BLOCK) in
    (is_waiting, socket').

Definition tc_protocol_send_short (data : Z) : sender :=
  let high := Z.shiftr data 8 in
  let low := Z.land data 0xFF in
  tc_protocol_send_byte high ?;
  tc_protocol_send_byte low ?;
  return_TRUE.

Definition tc_protocol_send_int (data : Z) : sender :=
  let ha := Z.shiftr data 24 in
  let hb := Z.land (Z.shiftr data 16) 0xFF in
  let la := Z.land (Z.shiftr data 8) 0xFF in
  let lb := Z.land data 0xFF in
  tc_protocol_send_byte ha ?;
  tc_protocol_send_byte hb ?;
  tc_protocol_send_byte la ?;
  tc_protocol_send_byte lb ?;
  return_TRUE.

(** The first loop of [tc_protocol_send_string]: copy up to the terminator or
    up to [room] bytes. *)
Fixpoint string_copy_loop (room : nat) (str : list Z) : list Z :=
  match room, str with
  | S room', c :: str' => if c =? 0 then [] else c :: string_copy_loop room' str'
  | _, _ => []
  end.

(** Both loops: the second fills the rest of the 64 bytes with spaces. *)
Definition string_buffer (str : list Z) : list Z :=
  let copied := string_copy_loop TC_PROTOCOL_MAX_STR_LEN str in
  copied ++ replicate (TC_PROTOCOL_MAX_STR_LEN - length copied) 0x20.

(** The call passes [NULL] for the error, so [error] is still [NULL] when the
    function looks at it. *)
Definition tc_protocol_send_string (str : list Z) : sender := fun socket =>
  let buffer := string_buffer str in
  let error : option io_error := None in
  let '(sent, _, socket') := p_socket_send socket buffer in
  if 0 <? sent then (true, socket')
  else if sent =? 0 then (false, socket')
  else
    let is_waiting := bool_decide (error = Some P_ERROR_IO_WOULD_BLOCK) in
    (is_waiting, socket').

(** ** Decoders

    [packet_buffer] is the memory from the pointer on; a cell beyond it is
    outside the buffer, and the result is [None] when one is read. *)

Section Decoders.
Context {abi : CharABI}.

Definition cell (packet_buffer : list Z) (i : nat) : option Z := to_char <$> packet_buffer !! i.

Definition tc_protocol_decode_short (packet_buffer : list Z) : option Z :=
  c0 ← cell packet_buffer 0; c1 ← cell packet_buffer 1;
  Some (s16 (Z.lor (Z.shiftl c0 8) c1)).

Definition tc_protocol_decode_int (packet_buffer : list Z) : option Z :=
  c0 ← cell packet_buffer 0; c1 ← cell packet_buffer 1;
  c2 ← cell packet_buffer 2; c3 ← cell packet_buffer 3;
  Some (s32 (Z.lor (Z.lor (Z.lor (Z.shiftl c0 24) (Z.shiftl c1 16)) (Z.shiftl c2 8)) c3)).
End Decoders.

(** The loop of [tc_protocol_decode_string], from index [i] down. *)
Fixpoint decode_string_loop (i : nat) (dest : list Z) (len : nat) : list Z * nat :=
  match i with
  | O => (dest, len)
  | S i' =>
      match dest !! i' with
      | Some c => if c =? 0x20 then decode_string_loop i' (<[i' := 0]> dest) i' else (dest, len)
      | None => (dest, len)
      end
  end.

(** The 64 bytes written to [dest_buffer] and the returned length. *)
Definition tc_protocol_decode_string (packet_buffer : list Z) : option (list Z * nat) :=
  if (length packet_buffer <? TC_PROTOCOL_MAX_STR_LEN)%nat then None
  else Some (decode_string_loop TC_PROTOCOL_MAX_STR_LEN
               (take TC_PROTOCOL_MAX_STR_LEN packet_buffer) TC_PROTOCOL_MAX_STR_LEN).

(** ** Packets *)

Definition tc_protocol_server_identification (server_name motd : list Z) (user_type : Z) : sender :=
  tc_protocol_send_byte 0x00 ?;
  tc_protocol_send_byte TC_PROTOCOL_VERSION ?;
  tc_protocol_send_string server_name ?;
  tc_protocol_send_string motd ?;
  tc_protocol_send_byte user_type ?;
  return_TRUE.

Definition tc_protocol_ping : sender :=
  tc_protocol_send_byte 0x01 ?;
  return_TRUE.

Definition tc_protocol_kick (msg : list Z) : sender :=
  tc_protocol_send_byte 0x0e ?;
  tc_protocol_send_string msg ?;
  return_TRUE.

Definition tc_cpe_send_extinfo (appname : list Z) : sender :=
  tc_protocol_send_byte TC_PACKET_CPE_EXTINFO ?;
  tc_protocol_send_string appname ?;
  tc_protocol_send_short TC_CPE_EXTENSION_MAX_SUPPORTED ?;
  return_TRUE.

Definition tc_cpe_send_extentry (extension_name : list Z) (extension_version : Z) : sender :=
  tc_protocol_send_byte TC_PACKET_CPE_EXTENTRY ?;
  tc_protocol_send_string extension_name ?;
  tc_protocol_send_int extension_version ?;
  return_TRUE.

Definition tc_cpe_send_custom_block_support_level (support_level : Z) : sender :=
  tc_protocol_send_byte TC_PACKET_CPE_CUSTOM_BLOCK_SUPPORT_LEVEL ?;
  tc_protocol_send_byte support_level ?;
  return_TRUE.

Definition tc_cpe_send_set_texture_url (texture_url : list Z) : sender :=
  tc_protocol_send_byte 0x28 ?;
  tc_protocol_send_string texture_url ?;
  return_TRUE.

Definition tc_cpe_send_set_map_env_property (property value : Z) : sender :=
  tc_protocol_send_byte 0x29 ?;
  tc_protocol_send_byte property ?;
  tc_protocol_send_int value ?;
  return_TRUE.

Definition tc_cpe_send_env_map_appearance1
    (texture_url : list Z) (side_block edge_block side_level : Z) : sender :=
  tc_protocol_send_byte 0x2a ?;
  tc_protocol_send_string texture_url ?;
  tc_protocol_send_byte side_block ?;
  tc_protocol_send_byte edge_block ?;
  tc_protocol_send_short side_level ?;
  return_TRUE.

Definition tc_cpe_send_env_map_appearance2
    (texture_url : list Z) (side_block edge_block side_level cloud_level maximum_view_distance : Z) : sender :=
  tc_protocol_send_byte 0x1e ?;
  tc_protocol_send_string texture_url ?;
  tc_protocol_send_byte side_block ?;
  tc_protocol_send_byte edge_block ?;
  tc_protocol_send_short side_level ?;
  tc_protocol_send_short cloud_level ?;
  tc_protocol_send_short maximum_view_distance ?;
  return_TRUE.

Definition tc_cpe_send_env_set_weather_type (weather_type : Z) : sender :=
  tc_protocol_send_byte 0x1f ?;
  tc_protocol_send_byte weather_type ?;
  return_TRUE.

(** The arguments of [tc_cpe_send_set_block_definition] that go on the wire. *)
Record block_definition_args := BlockDefinitionArgs {
  bd_block_id : Z;
  bd_block_name : list Z;
  bd_solidity : Z;
  bd_movement_speed : Z;
  bd_top_texture_id : Z;
  bd_bottom_texture_id : Z;
  bd_side_texture_id : Z;
  bd_transmits_light : Z;
  bd_walk_sound : Z;
  bd_full_bright : Z;
  bd_shape : Z;
  bd_block_draw : Z;
  bd_fog_density : Z;
  bd_fog_color_red : Z;
  bd_fog_color_green : Z;
  bd_fog_color_blue : Z }.

Definition tc_cpe_send_set_block_definition
    (d : block_definition_args) (use_extended_blocks use_extended_textures : bool) : sender :=
  tc_protocol_send_byte 0x23 ?;
  (if use_extended_blocks then tc_protocol_send_short (s16 (bd_block_id d))
   else tc_protocol_send_byte (Z.land (bd_block_id d) 0xFF)) ?;
  tc_protocol_send_string (bd_block_name d) ?;
  tc_protocol_send_byte (bd_solidity d) ?;
  tc_protocol_send_byte (bd_movement_speed d) ?;
  (if use_extended_textures then
     tc_protocol_send_short (s16 (bd_top_texture_id d)) ?;
     tc_protocol_send_short (s16 (bd_bottom_texture_id d)) ?;
     tc_protocol_send_short (s16 (bd_side_texture_id d))
   else
     tc_protocol_send_byte (Z.land (bd_top_texture_id d) 0xFF) ?;
     tc_protocol_send_byte (Z.land (bd_bottom_texture_id d) 0xFF) ?;
     tc_protocol_send_byte (Z.land (bd_side_texture_id d) 0xFF)) ?;
  tc_protocol_send_byte (bd_transmits_light d) ?;
  tc_protocol_send_byte (bd_walk_sound d) ?;
  tc_protocol_send_byte (bd_full_bright d) ?;
  tc_protocol_send_byte (bd_shape d) ?;
  tc_protocol_send_byte (bd_block_draw d) ?;
  tc_protocol_send_byte (bd_fog_density d) ?;
  tc_protocol_send_byte (bd_fog_color_red d) ?;
  tc_protocol_send_byte (bd_fog_color_green d) ?;
  tc_protocol_send_byte (bd_fog_color_blue d) ?;
  return_TRUE.

(** [TC_ASSERT]: [None] is the abort of a failed assertion. *)
Definition color_in_range (c : Z) : bool := (0 <=? c) && (c <=? 255).

Definition tc_cpe_send_set_env_color (color_field red green blue : Z) : option sender :=
  if negb (color_in_range red) then None
  else if negb (color_in_range green) then None
  else if negb (color_in_range blue) then None
  else Some (
    tc_protocol_send_byte 0x19 ?;
    tc_protocol_send_byte color_field ?;
    tc_protocol_send_short red ?;
    tc_protocol_send_short green ?;
    tc_protocol_send_short blue ?;
    return_TRUE).

Definition tc_protocol_send_message (player_id : Z) (message : list Z) : sender :=
  tc_protocol_send_byte 0x0d ?;
  tc_protocol_send_byte player_id ?;
  tc_protocol_send_string message ?;
  return_TRUE.

Definition tc_protocol_send_level_initialize : sender :=
  tc_protocol_send_byte 0x02 ?;
  return_TRUE.

Definition tc_protocol_send_level_initialize2 (block_count : Z) : sender :=
  tc_protocol_send_byte 0x02 ?;
  tc_protocol_send_int block_count ?;
  return_TRUE.

Definition tc_protocol_send_level_data_chunk
    (chunk_length : Z) (chunk_data : list Z) (percent_complete : Z) : sender :=
  tc_protocol_send_byte 0x03 ?;
  tc_protocol_send_short (s16 chunk_length) ?;
  tc_protocol_send_datachunk chunk_data 1024 ?;
  tc_protocol_send_byte percent_complete ?;
  return_TRUE.

Definition tc_protocol_send_level_finalize (x_size y_size z_size : Z) : sender :=
  tc_protocol_send_byte 0x04 ?;
  tc_protocol_send_short x_size ?;
  tc_protocol_send_short y_size ?;
  tc_protocol_send_short z_size ?;
  return_TRUE.

Definition tc_protocol_send_set_block (x y z block : Z) (use_extended_blocks : bool) : sender :=
  tc_protocol_send_byte 0x06 ?;
  tc_protocol_send_short x ?;
  tc_protocol_send_short y ?;
  tc_protocol_send_short z ?;
  (if use_extended_blocks then tc_protocol_send_short (s16 block)
   else tc_protocol_send_byte (Z.land block 0xFF)) ?;
  return_TRUE.

Definition send_position (position : Z) (use_extended_positions : bool) : sender :=
  tc_protocol_send_short (s16 (Z.shiftr position 16)) ?;
  (if use_extended_positions then tc_protocol_send_int position
   else tc_protocol_send_short (s16 (Z.land position 0xFFFF))) ?;
  return_TRUE.

Definition tc_protocol_send_spawn_player
    (player_id : Z) (player_name : list Z) (x y z heading pitch : Z) (ext : bool) : sender :=
  tc_protocol_send_byte 0x07 ?;
  tc_protocol_send_byte player_id ?;
  tc_protocol_send_string player_name ?;
  send_position x ext ?;
  send_position y ext ?;
  send_position z ext ?;
  tc_protocol_send_byte heading ?;
  tc_protocol_send_byte pitch ?;
  return_TRUE.

Definition tc_protocol_send_set_player_position_and_orientation
    (player_id x y z heading pitch : Z) (ext : bool) : sender :=
  tc_protocol_send_byte 0x08 ?;
  tc_protocol_send_byte player_id ?;
  send_position x ext ?;
  send_position y ext ?;
  send_position z ext ?;
  tc_protocol_send_byte heading ?;
  tc_protocol_send_byte pitch ?;
  return_TRUE.

Definition tc_protocol_send_update_player_position_and_orientation_delta
    (player_id delta_x delta_y delta_z heading pitch : Z) (ext : bool) : sender :=
  tc_protocol_send_byte 0x09 ?;
  tc_protocol_send_byte player_id ?;
  send_position delta_x ext ?;
  send_position delta_y ext ?;
  send_position delta_z ext ?;
  tc_protocol_send_byte heading ?;
  tc_protocol_send_byte pitch ?;
  return_TRUE.

Definition tc_protocol_update_player_position_delta
    (player_id delta_x delta_y delta_z : Z) (ext : bool) : sender :=
  tc_protocol_send_byte 0x0a ?;
  tc_protocol_send_byte player_id ?;
  send_position delta_x ext ?;
  send_position delta_y ext ?;
  send_position delta_z ext ?;
  return_TRUE.

Definition tc_protocol_update_player_heading_and_pitch (player_id heading pitch : Z) : sender :=
  tc_protocol_send_byte 0x0b ?;
  tc_protocol_send_byte player_id ?;
  tc_protocol_send_byte heading ?;
  tc_protocol_send_byte pitch ?;
  return_TRUE.

Definition tc_protocol_despawn_player (player_id : Z) : sender :=
  tc_protocol_send_byte 0x0c ?;
  tc_protocol_send_byte player_id ?;
  return_TRUE.

(** ** The extension table *)

(** The loop of [tc_cpe_get_extension_index], from index [i] on. *)
Fixpoint extension_index_loop (extension_name : list Z) (i : Z) (exts : list tc_cpe_extension) : Z :=
  match exts with
  | [] => -1
  | e :: exts' =>
      if strncmp TC_PROTOCOL_MAX_STR_LEN extension_name (ext_name e) =? 0 then i
      else extension_index_loop extension_name (i + 1) exts'
  end.

Definition tc_cpe_get_extension_index (extension_name : list Z) : Z :=
  extension_index_loop extension_name 0 tc_supported_extensions.
