(* ===== verification/ProtocolSpec.v ===== *)
(** * What the protocol layer promises

    The outbound packets of [Protocol] as data, their wire layout as a list
    of typed fields, and the refinement: each C function offers to the socket
    exactly the fields of its packet, in order.  Delivery, behaviour on
    failure and packet sizes follow for all packets at once.  The second half
    relates the decoders to the senders (round trips, and where the
    signedness of [char] breaks them) and specifies the extension table. *)

From S2P Require Import Prelude Socket Protocol.

Local Open Scope Z_scope.
Local Open Scope tc_scope.

(** ** Fields *)

Inductive field :=
| FByte (z : Z)
| FShort (z : Z)                (* big-endian, 16 bits *)
| FInt (z : Z)                  (* big-endian, 32 bits *)
| FString (s : list Z)          (* 64 bytes, padded with spaces *)
| FBlob (bs : list Z).

Definition string_field (s : list Z) : list Z :=
  let t := take 64 (c_content s) in t ++ replicate (64 - length t) 0x20.

Definition field_bytes (f : field) : list Z :=
  match f with
  | FByte z => be_split 1 z
  | FShort z => be_split 2 z
  | FInt z => be_split 4 z
  | FString s => string_field s
  | FBlob bs => bs
  end.

(** How a field is offered: integers byte by byte, strings and blobs at once;
    only strings treat a full send buffer as a failure. *)
Definition field_chunks (f : field) : list chunk :=
  match f with
  | FByte _ | FShort _ | FInt _ => map (fun b => Chunk true [b]) (field_bytes f)
  | FString _ => [Chunk false (field_bytes f)]
  | FBlob bs => [Chunk true bs]
  end.

(** ** Packets *)

Inductive packet :=
| ServerIdentification (server_name motd : list Z) (user_type : Z)
| Ping
| Kick (msg : list Z)
| ExtInfo (appname : list Z)
| ExtEntry (extension_name : list Z) (extension_version : Z)
| CustomBlockSupportLevel (support_level : Z)
| SetTextureUrl (texture_url : list Z)
| SetMapEnvProperty (property value : Z)
| EnvMapAppearance1 (texture_url : list Z) (side_block edge_block side_level : Z)
| EnvMapAppearance2 (texture_url : list Z)
    (side_block edge_block side_level cloud_level maximum_view_distance : Z)
| EnvSetWeatherType (weather_type : Z)
| SetBlockDefinition (d : block_definition_args) (ext_blocks ext_textures : bool)
| SetEnvColor (color_field red green blue : Z)
| Message (player_id : Z) (message : list Z)
| LevelInitialize
| LevelInitialize2 (block_count : Z)
| LevelDataChunk (chunk_length : Z) (chunk_data : list Z) (percent_complete : Z)
| LevelFinalize (x_size y_size z_size : Z)
| SetBlock (x y z block : Z) (ext_blocks : bool)
| SpawnPlayer (player_id : Z) (player_name : list Z) (x y z heading pitch : Z) (ext : bool)
| SetPositionOrientation (player_id x y z heading pitch : Z) (ext : bool)
| UpdatePositionOrientation (player_id dx dy dz heading pitch : Z) (ext : bool)
| UpdatePosition (player_id dx dy dz : Z) (ext : bool)
| UpdateOrientation (player_id heading pitch : Z)
| DespawnPlayer (player_id : Z).

(** Block ids and texture ids: a short with the extension, else the low byte. *)
Definition id_field (ext : bool) (z : Z) : field := if ext then FShort z else FByte z.

(** A coordinate as the header has it, a short or an int, and as [send_position]
    lays it out: with its high short in front. *)
Definition documented_position (ext : bool) (z : Z) : list field := [if ext then FInt z else FShort z].
Definition position_fields (ext : bool) (z : Z) : list field := FShort (z / 65536) :: documented_position ext z.

(** The fields of a packet, given those of a coordinate. *)
Definition fields_with (position_fields : bool -> Z -> list field) (p : packet) : list field :=
  match p with
  | ServerIdentification name motd ty => [FByte 0; FByte 7; FString name; FString motd; FByte ty]
  | Ping => [FByte 1]
  | Kick msg => [FByte 14; FString msg]
  | ExtInfo app => [FByte 16; FString app; FShort 10]
  | ExtEntry name v => [FByte 17; FString name; FInt v]
  | CustomBlockSupportLevel l => [FByte 19; FByte l]
  | SetTextureUrl url => [FByte 40; FString url]
  | SetMapEnvProperty k v => [FByte 41; FByte k; FInt v]
  | EnvMapAppearance1 url sb eb sl => [FByte 42; FString url; FByte sb; FByte eb; FShort sl]
  | EnvMapAppearance2 url sb eb sl cl mv =>
      [FByte 30; FString url; FByte sb; FByte eb; FShort sl; FShort cl; FShort mv]
  | EnvSetWeatherType w => [FByte 31; FByte w]
  | SetBlockDefinition d eb et =>
      [FByte 35; id_field eb (bd_block_id d); FString (bd_block_name d);
       FByte (bd_solidity d); FByte (bd_movement_speed d);
       id_field et (bd_top_texture_id d); id_field et (bd_bottom_texture_id d);
       id_field et (bd_side_texture_id d);
       FByte (bd_transmits_light d); FByte (bd_walk_sound d); FByte (bd_full_bright d);
       FByte (bd_shape d); FByte (bd_block_draw d); FByte (bd_fog_density d);
       FByte (bd_fog_color_red d); FByte (bd_fog_color_green d); FByte (bd_fog_color_blue d)]
  | SetEnvColor f r g b => [FByte 25; FByte f; FShort r; FShort g; FShort b]
  | Message id m => [FByte 13; FByte id; FString m]
  | LevelInitialize => [FByte 2]
  | LevelInitialize2 n => [FByte 2; FInt n]
  | LevelDataChunk n data pc => [FByte 3; FShort n; FBlob (take 1024 data); FByte pc]
  | LevelFinalize x y z => [FByte 4; FShort x; FShort y; FShort z]
  | SetBlock x y z b ext => [FByte 6; FShort x; FShort y; FShort z; id_field ext b]
  | SpawnPlayer id name x y z h p ext =>
      [FByte 7; FByte id; FString name] ++ position_fields ext x ++ position_fields ext y
      ++ position_fields ext z ++ [FByte h; FByte p]
  | SetPositionOrientation id x y z h p ext =>
      [FByte 8; FByte id] ++ position_fields ext x ++ position_fields ext y
      ++ position_fields ext z ++ [FByte h; FByte p]
  | UpdatePositionOrientation id x y z h p ext =>
      [FByte 9; FByte id] ++ position_fields ext x ++ position_fields ext y
      ++ position_fields ext z ++ [FByte h; FByte p]
  | UpdatePosition id x y z ext =>
      [FByte 10; FByte id] ++ position_fields ext x ++ position_fields ext y
      ++ position_fields ext z
  | UpdateOrientation id h p => [FByte 11; FByte id; FByte h; FByte p]
  | DespawnPlayer id => [FByte 12; FByte id]
  end.

Definition packet_fields (p : packet) : list field := fields_with position_fields p.

(** The packets with coordinates of a player, and the layout of the others. *)
Definition has_position (p : packet) : bool :=
  match p with
  | SpawnPlayer _ _ _ _ _ _ _ _ | SetPositionOrientation _ _ _ _ _ _ _
  | UpdatePositionOrientation _ _ _ _ _ _ _ | UpdatePosition _ _ _ _ _ => true
  | _ => false
  end.
Definition documented_bytes (p : packet) : list Z := concat (map field_bytes (fields_with documented_position p)).

Definition packet_bytes (p : packet) : list Z := concat (map field_bytes (packet_fields p)).
Definition packet_chunks (p : packet) : list chunk := concat (map field_chunks (packet_fields p)).

(** The C function that sends each packet; [None] when its assertion fails. *)
Definition send_packet (p : packet) : option sender :=
  match p with
  | ServerIdentification name motd ty => Some (tc_protocol_server_identification name motd ty)
  | Ping => Some tc_protocol_ping
  | Kick msg => Some (tc_protocol_kick msg)
  | ExtInfo app => Some (tc_cpe_send_extinfo app)
  | ExtEntry name v => Some (tc_cpe_send_extentry name v)
  | CustomBlockSupportLevel l => Some (tc_cpe_send_custom_block_support_level l)
  | SetTextureUrl url => Some (tc_cpe_send_set_texture_url url)
  | SetMapEnvProperty k v => Some (tc_cpe_send_set_map_env_property k v)
  | EnvMapAppearance1 url sb eb sl => Some (tc_cpe_send_env_map_appearance1 url sb eb sl)
  | EnvMapAppearance2 url sb eb sl cl mv =>
      Some (tc_cpe_send_env_map_appearance2 url sb eb sl cl mv)
  | EnvSetWeatherType w => Some (tc_cpe_send_env_set_weather_type w)
  | SetBlockDefinition d eb et => Some (tc_cpe_send_set_block_definition d eb et)
  | SetEnvColor f r g b => tc_cpe_send_set_env_color f r g b
  | Message id m => Some (tc_protocol_send_message id m)
  | LevelInitialize => Some tc_protocol_send_level_initialize
  | LevelInitialize2 n => Some (tc_protocol_send_level_initialize2 n)
  | LevelDataChunk n data pc => Some (tc_protocol_send_level_data_chunk n data pc)
  | LevelFinalize x y z => Some (tc_protocol_send_level_finalize x y z)
  | SetBlock x y z b ext => Some (tc_protocol_send_set_block x y z b ext)
  | SpawnPlayer id name x y z h p ext => Some (tc_protocol_send_spawn_player id name x y z h p ext)
  | SetPositionOrientation id x y z h p ext =>
      Some (tc_protocol_send_set_player_position_and_orientation id x y z h p ext)
  | UpdatePositionOrientation id x y z h p ext =>
      Some (tc_protocol_send_update_player_position_and_orientation_delta id x y z h p ext)
  | UpdatePosition id x y z ext => Some (tc_protocol_update_player_position_delta id x y z ext)
  | UpdateOrientation id h p => Some (tc_protocol_update_player_heading_and_pitch id h p)
  | DespawnPlayer id => Some (tc_protocol_despawn_player id)
  end.

(** Arguments the header asks for: a data chunk is 1024 bytes long, a colour
    component is between 0 and 255. *)
Definition packet_ok (p : packet) : Prop :=
  match p with
  | LevelDataChunk _ data _ => length data = 1024%nat
  | SetEnvColor _ r g b => 0 <= r <= 255 /\ 0 <= g <= 255 /\ 0 <= b <= 255
  | _ => True
  end.

(** ** Senders as chunks *)

Lemma string_copy_loop_spec n s : string_copy_loop n s = take n (c_content s).
Proof.
  revert s. induction n as [|n IH]; intros [|c s]; cbn; [done.. |].
  destruct (Z.eqb_spec c 0); cbn; [done|]. by rewrite IH.
Qed.

Lemma string_buffer_spec s : string_buffer s = string_field s.
Proof. unfold string_buffer, string_field. by rewrite string_copy_loop_spec. Qed.

Lemma length_string_field s : length (string_field s) = 64%nat.
Proof. unfold string_field. rewrite length_app, length_replicate, length_take. lia. Qed.

Lemma send_byte_chunks z s : tc_protocol_send_byte z s = run_chunks (field_chunks (FByte z)) s.
Proof.
  cbn [field_chunks field_bytes be_split map run_chunks]. rewrite and_then_true.
  unfold tc_protocol_send_byte, send_chunk, char_byte. cbn [payload patient].
  rewrite Z.mul_0_r, Z.pow_0_r, Z.div_1_r. done.
Qed.

(** A byte sender only looks at its argument modulo 256. *)
Lemma send_byte_u8 a b s : u8 a = u8 b -> tc_protocol_send_byte a s = tc_protocol_send_byte b s.
Proof. unfold tc_protocol_send_byte, char_byte. by intros ->. Qed.

Lemma send_byte_chunk a b s : u8 a = b -> tc_protocol_send_byte a s = run_chunks [Chunk true [b]] s.
Proof. intros <-. rewrite send_byte_chunks. cbn. by rewrite Z.div_1_r. Qed.

Ltac byte_arith :=
  rewrite ?land_ones8, ?shiftr_div by lia; cbn -[Z.div Z.modulo]; width_lia.

Lemma send_short_chunks z s : tc_protocol_send_short z s = run_chunks (field_chunks (FShort z)) s.
Proof.
  unfold tc_protocol_send_short. cbn [field_chunks field_bytes be_split map].
  change (Chunk true [?a] :: ?l) with ([Chunk true [a]] ++ l).
  apply and_then_chunks; intros; [apply send_byte_chunk; byte_arith|].
  rewrite and_then_true. apply send_byte_chunk. byte_arith.
Qed.

Lemma send_int_chunks z s : tc_protocol_send_int z s = run_chunks (field_chunks (FInt z)) s.
Proof.
  unfold tc_protocol_send_int. cbn [field_chunks field_bytes be_split map].
  do 3 (change (Chunk true [?a] :: ?l) with ([Chunk true [a]] ++ l);
        apply and_then_chunks; intros; [apply send_byte_chunk; byte_arith|]).
  rewrite and_then_true. apply send_byte_chunk. byte_arith.
Qed.

Lemma send_string_chunks str s :
  tc_protocol_send_string str s = run_chunks (field_chunks (FString str)) s.
Proof.
  cbn [field_chunks run_chunks field_bytes]. rewrite and_then_true.
  unfold tc_protocol_send_string, send_chunk. cbn [payload patient].
  rewrite string_buffer_spec. destruct (p_socket_send s (string_field str)) as [[sent error] s']. done.
Qed.

Lemma send_datachunk_chunks data n s :
  tc_protocol_send_datachunk data n s = run_chunks (field_chunks (FBlob (take n data))) s.
Proof. cbn [field_chunks run_chunks]. by rewrite and_then_true. Qed.

(** Narrowing conversions before sending do not change the bytes sent. *)
Lemma send_short_s16 z s : tc_protocol_send_short (s16 z) s = run_chunks (field_chunks (FShort z)) s.
Proof.
  rewrite send_short_chunks. cbn [field_chunks field_bytes].
  rewrite (be_split_cong 2 (s16 z) z); [done | cbn -[Z.modulo]; width_lia].
Qed.

Lemma send_byte_low z s : tc_protocol_send_byte (Z.land z 255) s = run_chunks (field_chunks (FByte z)) s.
Proof. rewrite <- send_byte_chunks. apply send_byte_u8. rewrite land_ones8. width_lia. Qed.

Lemma send_id_chunks (ext : bool) z s :
  (if ext then tc_protocol_send_short (s16 z) else tc_protocol_send_byte (Z.land z 255)) s
  = run_chunks (field_chunks (id_field ext z)) s.
Proof. destruct ext; cbn [id_field]; [apply send_short_s16 | apply send_byte_low]. Qed.

Lemma send_position_chunks z ext s :
  send_position z ext s = run_chunks (concat (map field_chunks (position_fields ext z))) s.
Proof.
  unfold send_position, position_fields, documented_position. cbn [map concat]. rewrite shiftr_div by lia.
  apply and_then_chunks; intros; [apply send_short_s16|]. rewrite and_then_true, app_nil_r.
  destruct ext; [apply send_int_chunks|].
  rewrite send_short_s16, land_ones16. cbn [field_chunks field_bytes].
  rewrite (be_split_cong 2 (z mod 65536) z); [done | cbn -[Z.modulo]; width_lia].
Qed.

(** A field list and one more sender in front of it. *)
Lemma fields_cons c k f fs s :
  (forall s, c s = run_chunks (field_chunks f) s) ->
  (forall s, k s = run_chunks (concat (map field_chunks fs)) s) ->
  and_then c k s = run_chunks (concat (map field_chunks (f :: fs))) s.
Proof. cbn [map concat]. apply and_then_chunks. Qed.

Lemma fields_app c k fs gs s :
  (forall s, c s = run_chunks (concat (map field_chunks fs)) s) ->
  (forall s, k s = run_chunks (concat (map field_chunks gs)) s) ->
  and_then c k s = run_chunks (concat (map field_chunks (fs ++ gs))) s.
Proof. rewrite map_app, concat_app. apply and_then_chunks. Qed.

Lemma fields_assoc c d k s : and_then (and_then c d) k s = and_then c (and_then d k) s.
Proof. unfold and_then. destruct (c s) as [[] s']; done. Qed.

Create HintDb chunks discriminated.
#[export] Hint Resolve send_byte_chunks send_short_chunks send_int_chunks send_string_chunks
  send_datachunk_chunks send_short_s16 send_byte_low send_id_chunks send_position_chunks : chunks.

Ltac solve_fields :=
  repeat first
    [ reflexivity
    | rewrite fields_assoc
    | apply fields_cons; intros; [solve [auto with chunks nocore]|]
    | apply fields_app; intros; [solve [auto with chunks nocore]|]
    | rewrite and_then_true; solve [auto with chunks nocore] ].

(** Each C sender makes the calls of its packet's layout and no others. *)
Lemma send_packet_chunks p snd s :
  send_packet p = Some snd -> snd s = run_chunks (packet_chunks p) s.
Proof.
  unfold packet_chunks. destruct p; cbn [send_packet packet_fields fields_with]; intros H; simplify_eq;
    try (solve [solve_fields]).
  - unfold tc_cpe_send_set_block_definition. destruct ext_textures; solve_fields.
  - unfold tc_cpe_send_set_env_color in H. repeat case_match; simplify_eq; solve_fields.
Qed.

Lemma send_packet_some p : packet_ok p -> is_Some (send_packet p).
Proof.
  destruct p; cbn; eauto. unfold tc_cpe_send_set_env_color, color_in_range.
  intros (Hr & Hg & Hb). repeat case_bool_goal; cbn; eauto; lia.
Qed.

Lemma field_chunks_bytes f : chunk_bytes (field_chunks f) = field_bytes f.
Proof. destruct f; cbn; rewrite ?app_nil_r; done. Qed.

Lemma packet_chunks_bytes p : chunk_bytes (packet_chunks p) = packet_bytes p.
Proof.
  unfold packet_chunks, packet_bytes. induction (packet_fields p) as [|f fs IH]; [done|].
  cbn [map concat]. rewrite <- IH, <- (field_chunks_bytes f). unfold chunk_bytes.
  by rewrite map_app, concat_app.
Qed.

Definition blob_ok (f : field) : Prop :=
  match f with FBlob bs => bs <> [] | _ => True end.

Lemma packet_blobs_ok p : packet_ok p -> Forall blob_ok (packet_fields p).
Proof.
  destruct p; cbn [packet_fields fields_with packet_ok]; intros Hp; unfold position_fields, documented_position, id_field;
    repeat case_match; repeat constructor; try done.
  cbn. intros E%(f_equal length). by rewrite length_take, Hp in E.
Qed.

Lemma packet_chunks_nonempty p : packet_ok p -> Forall (fun c => payload c <> []) (packet_chunks p).
Proof.
  intros Hp%packet_blobs_ok. unfold packet_chunks. apply Forall_concat, Forall_map.
  eapply Forall_impl; [exact Hp|]. intros [] Hf; cbn; repeat constructor; try done.
  cbn. intros E. pose proof (length_string_field s) as L. by rewrite E in L.
Qed.

(** ** Sizes *)

Definition field_size (f : field) : nat :=
  match f with
  | FByte _ => 1 | FShort _ => 2 | FInt _ => 4 | FString _ => 64 | FBlob bs => length bs
  end.

Lemma length_field_bytes f : length (field_bytes f) = field_size f.
Proof. destruct f; cbn [field_bytes field_size]; auto using length_be_split, length_string_field. Qed.

Lemma length_packet_bytes p : length (packet_bytes p) = sum_list_with field_size (packet_fields p).
Proof.
  unfold packet_bytes. induction (packet_fields p) as [|f fs IH]; [done|].
  cbn [map concat sum_list_with]. by rewrite length_app, length_field_bytes, IH.
Qed.

(** The number of bytes of each packet, opcode included. *)
Definition packet_size (p : packet) : nat :=
  match p with
  | ServerIdentification _ _ _ => 131
  | Ping | LevelInitialize => 1
  | Kick _ | SetTextureUrl _ => 65
  | ExtInfo _ => 67
  | ExtEntry _ _ => 69
  | CustomBlockSupportLevel _ | EnvSetWeatherType _ | DespawnPlayer _ => 2
  | SetMapEnvProperty _ _ => 6
  | EnvMapAppearance1 _ _ _ _ => 69
  | EnvMapAppearance2 _ _ _ _ _ _ => 73
  | SetBlockDefinition _ eb et => (if eb then 81 else 80) + (if et then 3 else 0)
  | SetEnvColor _ _ _ _ => 8
  | Message _ _ => 66
  | LevelInitialize2 _ => 5
  | LevelDataChunk _ _ _ => 1028
  | LevelFinalize _ _ _ => 7
  | SetBlock _ _ _ _ ext => if ext then 9 else 8
  | SpawnPlayer _ _ _ _ _ _ _ ext => if ext then 86 else 80
  | SetPositionOrientation _ _ _ _ _ _ ext => if ext then 22 else 16
  | UpdatePositionOrientation _ _ _ _ _ _ ext => if ext then 22 else 16
  | UpdatePosition _ _ _ _ ext => if ext then 20 else 14
  | UpdateOrientation _ _ _ => 4
  end.

(** ** Theorems on the senders *)

(** What any packet function puts on the wire. *)
Lemma packet_written p snd s :
  send_packet p = Some snd -> packet_ok p -> reliable s ->
  exists s', snd s = (true, s') /\ sk_out s' = sk_out s ++ packet_bytes p.
Proof.
  intros Hp Hok Hs. rewrite (send_packet_chunks p snd s Hp).
  rewrite run_chunks_reliable by auto using packet_chunks_nonempty.
  eexists; split; [done|]. cbn. by rewrite packet_chunks_bytes.
Qed.

Lemma documented_without_position p : has_position p = false -> packet_bytes p = documented_bytes p.
Proof. by destruct p. Qed.

(** C1. On a socket whose send buffer has room, sending any packet but the four
    with coordinates of a player reports success and puts exactly the bytes of
    its documented layout on the wire, after what was already there. *)
Theorem packet_delivered p snd s :
  send_packet p = Some snd -> packet_ok p -> has_position p = false -> reliable s ->
  exists s', snd s = (true, s') /\ sk_out s' = sk_out s ++ documented_bytes p.
Proof.
  intros Hp Hok Hd Hs. rewrite <- documented_without_position by done. by apply packet_written.
Qed.

(** The four others are longer than documented: every coordinate has its high
    short in front, six bytes in all. *)
Theorem position_packets_longer p snd s :
  send_packet p = Some snd -> has_position p = true -> reliable s ->
  exists s', snd s = (true, s') /\ length (sk_out s') = (length (sk_out s) + length (documented_bytes p) + 6)%nat.
Proof.
  intros Hp Hpos Hs. destruct (packet_written p snd s Hp) as (s' & E & Eo); [by destruct p | done |].
  exists s'. split; [done|]. rewrite Eo, length_app, <- Nat.add_assoc. f_equal.
  destruct p; try done; unfold documented_bytes, packet_bytes; cbn [packet_fields fields_with position_fields documented_position app map concat];
    rewrite !length_app, !length_field_bytes; cbn [field_size]; destruct ext; cbn; lia.
Qed.

(** C36. When a packet sender reports failure on any socket, the bytes it added
    to the wire come from a strict prefix of the packet's calls, in order: the
    call that failed stored nothing and no later call was made. *)
Theorem packet_failure_stops p snd s s' :
  send_packet p = Some snd -> snd s = (false, s') ->
  exists sent failed rest ws,
    packet_chunks p = sent ++ failed :: rest /\
    sk_out s' = sk_out s ++ concat ws /\
    Forall2 (fun w c => w `prefix_of` payload c) ws sent /\
    sk_calls s' = (sk_calls s + S (length sent))%nat.
Proof.
  intros Hp Hf. rewrite (send_packet_chunks p snd s Hp) in Hf. by apply run_chunks_false.
Qed.

(** The length of a packet on the wire depends only on its kind and on the
    extension flags, never on the strings it carries. *)
Theorem packet_size_fixed p snd s s' :
  send_packet p = Some snd -> packet_ok p -> reliable s -> snd s = (true, s') ->
  length (sk_out s') = (length (sk_out s) + packet_size p)%nat.
Proof.
  intros Hp Hok Hs Hsnd. rewrite (send_packet_chunks p snd s Hp) in Hsnd.
  rewrite run_chunks_reliable in Hsnd by auto using packet_chunks_nonempty.
  injection Hsnd as <-. cbn. rewrite length_app, packet_chunks_bytes, length_packet_bytes. f_equal.
  destruct p; try reflexivity; try (destruct ext; reflexivity).
  - destruct ext_blocks, ext_textures; reflexivity.
  - cbn. rewrite length_take, Hok. reflexivity.
  - destruct ext_blocks; reflexivity.
Qed.

(** ** Decoding what was sent *)

Lemma short_bytes_on_wire x s' :
  tc_protocol_send_short x ideal_socket = (true, s') -> sk_out s' = be_split 2 x.
Proof.
  rewrite send_short_chunks, run_chunks_reliable by (repeat constructor; done).
  by intros [= <-].
Qed.

Lemma int_bytes_on_wire x s' :
  tc_protocol_send_int x ideal_socket = (true, s') -> sk_out s' = be_split 4 x.
Proof.
  rewrite send_int_chunks, run_chunks_reliable by (repeat constructor; done).
  by intros [= <-].
Qed.

(** The value read from the two bytes [hi] and [lo]. *)
Lemma decode_short_value {abi : CharABI} hi lo rest :
  is_byte hi -> is_byte lo ->
  tc_protocol_decode_short (hi :: lo :: rest)
  = Some (if char_signed && (128 <=? lo) then lo - 256 else s16 (hi * 256 + lo)).
Proof.
  intros Hhi Hlo. unfold tc_protocol_decode_short, cell. cbn. f_equal. unfold to_char.
  destruct char_signed eqn:Habi; cbn [andb].
  - destruct (Z.leb_spec 128 lo).
    + replace (s8 lo) with (lo - 256) by width_lia.
      rewrite lor_shiftl_neg by width_lia. width_lia.
    + replace (s8 lo) with lo by width_lia.
      rewrite lor_shiftl_low by width_lia. width_lia.
  - rewrite !(wrapu_small 8) by done. rewrite lor_shiftl_low by (unfold_widths; lia). done.
Qed.

(** Decoding a short that was sent gives it back wherever [char] is
    unsigned; where it is signed, exactly when its low byte is below 128 or
    its high byte is 0xFF. *)
Theorem short_roundtrip {abi : CharABI} x s' :
  in_s 16 x -> tc_protocol_send_short x ideal_socket = (true, s') ->
  tc_protocol_decode_short (sk_out s') = Some x <->
  char_signed = false \/ x mod 256 < 128 \/ -128 <= x < 0.
Proof.
  intros Hx Hs. apply short_bytes_on_wire in Hs as ->. cbn [be_split].
  rewrite decode_short_value by apply u8_range.
  change (8 * Z.of_nat 1) with 8. change (8 * Z.of_nat 0) with 0.
  rewrite Z.pow_0_r, Z.div_1_r. unfold_widths. destruct char_signed; cbn [andb].
  - destruct (Z.leb_spec 128 (x mod 256)); split.
    + intros [= E]. right. div_mod_lia.
    + intros H'. f_equal. destruct H' as [[=]|H']. div_mod_lia.
    + intros _. right. div_mod_lia.
    + intros _. f_equal. div_mod_lia.
  - split; [auto|]. intros _. f_equal. div_mod_lia.
Qed.

(** Decoding an int that was sent gives it back when [char] is unsigned or
    its three low bytes are below 128; the bytes after the four read do not
    matter. *)
Theorem int_roundtrip {abi : CharABI} x s' rest :
  in_s 32 x -> tc_protocol_send_int x ideal_socket = (true, s') ->
  char_signed = false \/ (x mod 256 < 128 /\ (x / 256) mod 256 < 128 /\ (x / 65536) mod 256 < 128) ->
  tc_protocol_decode_int (sk_out s' ++ rest) = Some x.
Proof.
  intros Hx Hs Hlow. apply int_bytes_on_wire in Hs as ->. cbn [be_split app].
  change (8 * Z.of_nat 3) with 24. change (8 * Z.of_nat 2) with 16.
  change (8 * Z.of_nat 1) with 8. change (8 * Z.of_nat 0) with 0.
  set (a := u8 (x / 2 ^ 24)). set (b := u8 (x / 2 ^ 16)).
  set (c := u8 (x / 2 ^ 8)). set (d := u8 (x / 2 ^ 0)).
  unfold tc_protocol_decode_int, cell. cbn. f_equal.
  assert (to_char b = b /\ to_char c = c /\ to_char d = d) as (-> & -> & ->).
  { unfold to_char, b, c, d. change (2 ^ 0) with 1. change (2 ^ 16) with 65536. change (2 ^ 8) with 256.
    destruct char_signed; [destruct Hlow as [[=]|Hlow]|]; width_lia. }
  assert (Z.lor (Z.lor (Z.lor (Z.shiftl (to_char a) 24) (Z.shiftl b 16)) (Z.shiftl c 8)) d
          = to_char a * 2 ^ 24 + b * 2 ^ 16 + c * 2 ^ 8 + d) as ->.
  { assert (is_byte b /\ is_byte c /\ is_byte d) as (Hb & Hc & Hd) by (split_and!; apply u8_range).
    replace (Z.shiftl (to_char a) 24) with (Z.shiftl (Z.shiftl (to_char a) 8) 16)
      by (rewrite Z.shiftl_shiftl by lia; done).
    rewrite <- Z.shiftl_lor, (lor_shiftl_low 8 (to_char a) b) by (unfold_widths; lia).
    replace (Z.shiftl (to_char a * 2 ^ 8 + b) 16) with (Z.shiftl (Z.shiftl (to_char a * 2 ^ 8 + b) 8) 8)
      by (rewrite Z.shiftl_shiftl by lia; done).
    rewrite <- Z.shiftl_lor, (lor_shiftl_low 8 _ c) by (unfold_widths; lia).
    rewrite lor_shiftl_low by (unfold_widths; lia). lia. }
  unfold to_char, a, b, c, d. change (2 ^ 0) with 1. change (2 ^ 24) with 16777216.
  change (2 ^ 16) with 65536. change (2 ^ 8) with 256. destruct char_signed; width_lia.
Qed.

(** *** Strings *)

(** The decoder's loop turns a block of trailing spaces into terminators and
    stops at the first byte that is not a space. *)
Lemma decode_string_loop_spaces t k z len :
  last t <> Some 0x20 ->
  decode_string_loop (length t + k) (t ++ replicate k 0x20 ++ z) len
  = (t ++ replicate k 0 ++ z, if (k =? 0)%nat then len else length t).
Proof.
  intros Ht. revert z len. induction k as [|k IH]; intros z len.
  - rewrite Nat.add_0_r. cbn [replicate app Nat.eqb]. destruct t as [|c t _] using rev_ind; [done|].
    rewrite last_snoc in Ht. rewrite length_app, Nat.add_1_r. cbn [decode_string_loop].
    rewrite <- app_assoc, lookup_app_r, Nat.sub_diag by done. cbn.
    destruct (Z.eqb_spec c 0x20); [congruence | done].
  - replace (length t + S k)%nat with (S (length t + k)) by lia. cbn [decode_string_loop].
    rewrite replicate_S_end, <- app_assoc.
    assert ((t ++ replicate k 32 ++ [32] ++ z) !! (length t + k)%nat = Some 32) as ->.
    { rewrite lookup_app_r, lookup_app_r by (rewrite ?length_replicate; lia).
      rewrite length_replicate. by replace (_ - _ - _)%nat with 0%nat by lia. }
    cbn [Z.eqb Pos.eqb]. rewrite insert_app_r_alt, insert_app_r_alt
      by (rewrite ?length_replicate; lia).
    rewrite length_replicate. replace (_ - _ - _)%nat with 0%nat by lia. cbn [app insert list_insert].
    rewrite (IH (0 :: z)), replicate_S_end, <- app_assoc. f_equal. cbn [Nat.eqb].
    destruct (Nat.eqb_spec k 0) as [->|]; [|done]. by rewrite Nat.add_0_r.
Qed.

(** Every byte list splits into a text that does not end in a space and the
    spaces after it. *)
Lemma trailing_spaces l : exists t k, l = t ++ replicate k 0x20 /\ last t <> Some 0x20.
Proof.
  induction l as [|c l IH] using rev_ind; [by exists [], 0%nat|].
  destruct (decide (c = 0x20)) as [->|Hc].
  - destruct IH as (t & k & -> & Ht). exists t, (S k). split; [|done].
    by rewrite replicate_S_end, app_assoc.
  - exists (l ++ [c]), 0%nat. rewrite app_nil_r, last_snoc. split; congruence.
Qed.

(** [tc_protocol_decode_string] on any buffer of at least 64 bytes returns
    the text before the trailing spaces of the first 64, fills the rest of the
    destination with terminators and returns the text's length; on a shorter
    buffer it would read outside it. *)
Theorem decode_string_spec buf :
  match tc_protocol_decode_string buf with
  | Some (dest, n) =>
      (64 <= length buf)%nat /\
      exists t k, take 64 buf = t ++ replicate k 0x20 /\ last t <> Some 0x20 /\
                  dest = t ++ replicate k 0 /\ n = length t
  | None => (length buf < 64)%nat
  end.
Proof.
  unfold tc_protocol_decode_string, TC_PROTOCOL_MAX_STR_LEN.
  destruct (Nat.ltb_spec (length buf) 64) as [|Hlen]; [done|].
  destruct (trailing_spaces (take 64 buf)) as (t & k & E & Ht). rewrite E.
  assert (length t + k = 64)%nat as Hk.
  { apply (f_equal length) in E. rewrite length_app, length_replicate, length_take in E. lia. }
  pose proof (decode_string_loop_spaces t k [] 64 Ht) as L. rewrite !app_nil_r, Hk in L.
  rewrite L. split; [done|]. exists t, k. split_and!; try done.
  destruct (Nat.eqb_spec k 0); lia.
Qed.

(** A text of at most 64 bytes with no terminator inside and no trailing
    space survives the wire: the receiver decodes the same text and length. *)
Theorem string_roundtrip t s' :
  (length t <= 64)%nat -> no_nul t -> last t <> Some 0x20 ->
  tc_protocol_send_string t ideal_socket = (true, s') ->
  tc_protocol_decode_string (sk_out s') = Some (t ++ replicate (64 - length t) 0, length t).
Proof.
  intros Hlen Hnul Hlast Hs.
  rewrite send_string_chunks, run_chunks_reliable in Hs; [|done|].
  2:{ repeat constructor. cbn. intros E. pose proof (length_string_field t) as L. by rewrite E in L. }
  injection Hs as <-. cbn. rewrite app_nil_r. unfold string_field.
  rewrite c_content_no_nul, take_ge by done. unfold tc_protocol_decode_string, TC_PROTOCOL_MAX_STR_LEN.
  rewrite length_app, length_replicate.
  replace (length t + (64 - length t) <? 64)%nat with false by (symmetry; apply Nat.ltb_ge; lia).
  rewrite take_ge by (rewrite length_app, length_replicate; lia). f_equal.
  pose proof (decode_string_loop_spaces t (64 - length t) [] 64 Hlast) as L.
  rewrite !app_nil_r in L. replace (length t + (64 - length t))%nat with 64%nat in L by lia.
  rewrite L. f_equal. destruct (Nat.eqb_spec (64 - length t) 0); lia.
Qed.

(** *** The extension table *)

Lemma extension_index_loop_spec name i exts :
  0 <= i -> Forall (fun e => take 64 (c_content (ext_name e)) = ext_name e) exts ->
  let r := extension_index_loop name i exts in
  (exists k e, r = i + Z.of_nat k /\ exts !! k = Some e /\ take 64 (c_content name) = ext_name e) \/
  (r = -1 /\ Forall (fun e => take 64 (c_content name) <> ext_name e) exts).
Proof.
  intros Hi Hexts. revert i Hi. induction Hexts as [|e exts He _ IH]; intros i Hi; cbn zeta;
    cbn [extension_index_loop].
  - right. split; [done|constructor].
  - unfold TC_PROTOCOL_MAX_STR_LEN. destruct (Z.eqb_spec (strncmp 64 name (ext_name e)) 0) as [E|E].
    + left. exists 0%nat, e. apply strncmp_eq in E. split_and!; [lia | done | congruence].
    + assert (take 64 (c_content name) <> ext_name e) as Hne.
      { intros E'. apply E, strncmp_eq. congruence. }
      destruct (IH (i + 1) ltac:(lia)) as [(k & e' & Hr & Hk & Hn) | [Hr Hn]].
      * left. exists (S k), e'. split_and!; [lia | done | done].
      * right. split; [done|]. by constructor.
Qed.

(** The extension lookup is exact: it answers an index exactly when the
    first 64 bytes of the name are the name at that index, and -1 exactly when
    they are no supported name. *)
Theorem extension_index_spec name i :
  tc_cpe_get_extension_index name = i <->
  (i = -1 /\ Forall (fun e => take 64 (c_content name) <> ext_name e) tc_supported_extensions) \/
  (0 <= i /\ ext_name <$> tc_supported_extensions !! Z.to_nat i = Some (take 64 (c_content name))).
Proof.
  assert (Forall (fun e => take 64 (c_content (ext_name e)) = ext_name e) tc_supported_extensions) as Hs
    by (repeat constructor).
  assert (NoDup (map ext_name tc_supported_extensions)) as Hnd
    by (apply (bool_decide_unpack _); vm_compute; exact I).
  destruct (extension_index_loop_spec name 0 _ ltac:(lia) Hs) as [(k & e & Hr & Hk & Hn) | [Hr Hn]];
    cbn zeta in Hr; unfold tc_cpe_get_extension_index; rewrite Hr; split.
  - intros <-. right. split; [lia|]. rewrite Z.add_0_l, Nat2Z.id, Hk. cbn. congruence.
  - intros [[-> H]|[Hi H]].
    + rewrite Forall_lookup in H. exfalso. by apply (H k e).
    + assert (Z.to_nat i = k) by (apply (NoDup_lookup _ _ _ (ext_name e) Hnd);
        rewrite list_lookup_fmap; [congruence | by rewrite Hk]). lia.
  - intros <-. by left.
  - intros [[-> _]|[Hi H]]; [done|]. exfalso.
    destruct (tc_supported_extensions !! Z.to_nat i) as [e|] eqn:E; [|done].
    rewrite Forall_lookup in Hn. apply (Hn _ _ E). cbn in H. congruence.
Qed.

(** Send the name of extension [i], decode it, look it up: is it [i] again? *)
Definition recognised (ie : nat * tc_cpe_extension) : bool :=
  match tc_protocol_decode_string (sk_out (snd (tc_protocol_send_string (ext_name ie.2) ideal_socket))) with
  | Some (dest, _) => tc_cpe_get_extension_index dest =? Z.of_nat ie.1
  | None => false
  end.

Lemma advertised_recognised : forallb recognised (imap pair tc_supported_extensions) = true.
Proof. vm_compute. reflexivity. Qed.

(** Every extension entry the server advertises is one it recognises when
    a client sends it back. *)
Theorem advertised_extension_recognised i e s' :
  tc_supported_extensions !! i = Some e ->
  tc_protocol_send_string (ext_name e) ideal_socket = (true, s') ->
  exists dest n, tc_protocol_decode_string (sk_out s') = Some (dest, n) /\
                 tc_cpe_get_extension_index dest = Z.of_nat i.
Proof.
  intros Hi Hs. assert (recognised (i, e) = true) as H.
  { pose proof (proj1 (forallb_forall _ _) advertised_recognised) as H. apply H.
    apply list_elem_of_In, list_elem_of_lookup. exists i. by rewrite list_lookup_imap, Hi. }
  unfold recognised in H. cbn [fst snd] in H. rewrite Hs in H. cbn [snd] in H.
  destruct (tc_protocol_decode_string (sk_out s')) as [[dest n]|]; [|done].
  exists dest, n. split; [done | by apply Z.eqb_eq].
Qed.

(** A full send buffer is reported differently by the two kinds of
    senders: a byte is counted as sent although it is dropped, a string is a
    failure. *)
Theorem would_block_verdicts s :
  (forall n, sk_net s (sk_calls s) n = WouldBlock) ->
  (forall z, exists s', tc_protocol_send_byte z s = (true, s') /\ sk_out s' = sk_out s) /\
  (forall t, exists s', tc_protocol_send_string t s = (false, s') /\ sk_out s' = sk_out s).
Proof.
  intros Hb. split; intros x; eexists.
  - unfold tc_protocol_send_byte, p_socket_send. rewrite Hb. done.
  - unfold tc_protocol_send_string, p_socket_send. rewrite Hb. done.
Qed.

(** ** The theorems at concrete inputs *)

Definition sample_kick : packet := Kick (cstr "Server is full").

Lemma packet_delivered_witness :
  exists s', tc_protocol_kick (cstr "Server is full") ideal_socket = (true, s') /\
             sk_out s' = [] ++ documented_bytes sample_kick.
Proof.
  exact (packet_delivered sample_kick _ ideal_socket eq_refl I eq_refl ideal_socket_reliable).
Defined.

(** A network that takes the opcode and then fails. *)
Definition one_byte_socket : psocket :=
  PSocket (fun i n => match i with O => Accept n | S _ => NetFailure end) 0 [].

Lemma packet_failure_stops_witness :
  exists sent failed rest ws,
    packet_chunks sample_kick = sent ++ failed :: rest /\
    [14] = [] ++ concat ws /\
    Forall2 (fun w c => w `prefix_of` payload c) ws sent /\ 2%nat = (0 + S (length sent))%nat.
Proof.
  exact (packet_failure_stops sample_kick _ one_byte_socket
           (PSocket (sk_net one_byte_socket) 2 [14]) eq_refl eq_refl).
Defined.

Lemma packet_size_fixed_witness :
  length (sk_out (snd (tc_protocol_kick (cstr "Server is full") ideal_socket)))
  = (length (sk_out ideal_socket) + 65)%nat.
Proof.
  exact (packet_size_fixed sample_kick _ ideal_socket _ eq_refl I ideal_socket_reliable eq_refl).
Defined.

Lemma short_roundtrip_witness :
  @tc_protocol_decode_short signed_char_abi
    (sk_out (snd (tc_protocol_send_short 0x1234 ideal_socket))) = Some 0x1234.
Proof.
  refine (proj2 (@short_roundtrip signed_char_abi 0x1234 _ _ eq_refl) _).
  - unfold in_s. lia.
  - right. left. reflexivity.
Defined.

Lemma int_roundtrip_witness :
  @tc_protocol_decode_int unsigned_char_abi
    (sk_out (snd (tc_protocol_send_int (-0x01020304) ideal_socket)) ++ [0xFF]) = Some (-0x01020304).
Proof.
  apply (@int_roundtrip unsigned_char_abi (-0x01020304) _ [0xFF]).
  - unfold in_s. lia.
  - reflexivity.
  - left. reflexivity.
Defined.

Lemma string_roundtrip_witness :
  tc_protocol_decode_string (sk_out (snd (tc_protocol_send_string (cstr "lobby") ideal_socket)))
  = Some (cstr "lobby" ++ replicate 59 0, 5%nat).
Proof.
  apply (string_roundtrip (cstr "lobby") _).
  - cbn. lia.
  - repeat constructor; discriminate.
  - discriminate.
  - reflexivity.
Defined.

Lemma advertised_extension_recognised_witness :
  exists dest n,
    tc_protocol_decode_string (sk_out (snd (tc_protocol_send_string (cstr "FastMap") ideal_socket)))
    = Some (dest, n) /\ tc_cpe_get_extension_index dest = 5.
Proof.
  exact (advertised_extension_recognised 5 (CpeExtension (cstr "FastMap") 1) _ eq_refl eq_refl).
Defined.

Definition full_buffer_socket : psocket := PSocket (fun _ _ => WouldBlock) 0 [].

Lemma would_block_verdicts_witness :
  (forall z, exists s', tc_protocol_send_byte z full_buffer_socket = (true, s') /\ sk_out s' = []) /\
  (forall t, exists s', tc_protocol_send_string t full_buffer_socket = (false, s') /\ sk_out s' = []).
Proof. exact (would_block_verdicts full_buffer_socket (fun _ => eq_refl)). Defined.
