(* ===== verification/ThreadPool.v ===== *)
(** * The thread pool

    [src/src/thread_pool.c]: four ring buffers of tasks, one per priority,
    served by worker threads in a round-robin pattern.

    Every function of the file that touches the pool does so between
    [p_mutex_lock] and [p_mutex_unlock] on the pool's one mutex, so each
    critical section is one atomic function on the pool here; the effects on
    the condition variable are part of its result ([wakeup]).  The system of
    workers, of the tasks they run and of outside threads is the step relation
    [pool_step] of [ThreadPoolSystem].

    Indices and counters are [nat]: the C code keeps them in [psize] and every
    index stays below twice the capacity of its buffer (at most 512). *)

From S2P Require Import Prelude.

Local Open Scope nat_scope.

Definition TC_THREADS_STD_BUFFER_SIZE : nat := 128.
Definition TC_THREADS_MAX_THREADS : nat := 16.
Definition TC_THREAD_POOL_MAX_PRIORITY : nat := 4.

Inductive tc_thread_pool_task_priority :=
| PRIORITY_INVALID | PRIORITY_HIGH | PRIORITY_MEDIUM | PRIORITY_BLOCKING | PRIORITY_LOW.

#[export] Instance priority_eq_dec : EqDecision tc_thread_pool_task_priority.
Proof. solve_decision. Defined.

(** The value of the enumerator. *)
Definition priority_value (p : tc_thread_pool_task_priority) : Z :=
  match p with
  | PRIORITY_INVALID => -1
  | PRIORITY_HIGH => 0
  | PRIORITY_MEDIUM => 1
  | PRIORITY_BLOCKING => 2
  | PRIORITY_LOW => 3
  end.

(** The index into [task_prio_buffer]; none for [PRIORITY_INVALID]. *)
Definition priority_index (p : tc_thread_pool_task_priority) : option nat :=
  match p with
  | PRIORITY_INVALID => None
  | PRIORITY_HIGH => Some 0
  | PRIORITY_MEDIUM => Some 1
  | PRIORITY_BLOCKING => Some 2
  | PRIORITY_LOW => Some 3
  end.

Section ThreadPool.
(** Task functions and the objects their argument pointers point to. *)
Context {F A : Type}.

Record tc_thread_pool_context := Context {
  ctx_priority : tc_thread_pool_task_priority;
  ctx_func : option F;                  (* [None] is [NULL] *)
  ctx_arg : option A;
  ctx_session_generation : Z }.

(** ** Ring buffers *)

Record tc_thread_pool_task_buf := TaskBuf {
  tb_buffer : list tc_thread_pool_context;
  head_index : nat;
  tail_index : nat;
  capacity : nat }.

Definition init_task_buffer (buffer : list tc_thread_pool_context) (cap : nat) :
    tc_thread_pool_task_buf :=
  TaskBuf buffer 0 0 cap.

Definition task_buffer_remaining_capacity (b : tc_thread_pool_task_buf) : nat :=
  let used := (head_index b + capacity b - tail_index b) mod capacity b in
  (capacity b - 1) - used.

Definition task_buffer_is_empty (b : tc_thread_pool_task_buf) : bool :=
  head_index b =? tail_index b.

Definition null_context : tc_thread_pool_context := Context PRIORITY_LOW None None 0.

Definition task_buffer_dequeue (b : tc_thread_pool_task_buf) :
    tc_thread_pool_context * tc_thread_pool_task_buf :=
  if head_index b =? tail_index b then (null_context, b)
  else
    let task := default null_context (tb_buffer b !! tail_index b) in
    (task, TaskBuf (tb_buffer b) (head_index b) ((tail_index b + 1) mod capacity b) (capacity b)).

(** ** The pool *)

Record tc_thread_pool := ThreadPool {
  task_prio_buffer : list tc_thread_pool_task_buf;
  round_robin_pattern : list Z;
  num_threads : nat;
  round_robin_index : nat;
  active_threads : Z;
  blocking_active : nat;
  max_blocking_threads : nat;
  shutdown : bool }.

Definition set_buffer (p : tc_thread_pool) (i : nat) (b : tc_thread_pool_task_buf) : tc_thread_pool :=
  ThreadPool (<[i := b]> (task_prio_buffer p)) (round_robin_pattern p) (num_threads p)
    (round_robin_index p) (active_threads p) (blocking_active p) (max_blocking_threads p) (shutdown p).

Definition set_round_robin_index (p : tc_thread_pool) (i : nat) : tc_thread_pool :=
  ThreadPool (task_prio_buffer p) (round_robin_pattern p) (num_threads p) i
    (active_threads p) (blocking_active p) (max_blocking_threads p) (shutdown p).

Definition set_counters (p : tc_thread_pool) (active : Z) (blocking : nat) : tc_thread_pool :=
  ThreadPool (task_prio_buffer p) (round_robin_pattern p) (num_threads p) (round_robin_index p)
    active blocking (max_blocking_threads p) (shutdown p).

Definition set_shutdown (p : tc_thread_pool) : tc_thread_pool :=
  ThreadPool (task_prio_buffer p) (round_robin_pattern p) (num_threads p) (round_robin_index p)
    (active_threads p) (blocking_active p) (max_blocking_threads p) true.

Definition buffer_eligible (p : tc_thread_pool) (priority_index : nat) : bool :=
  match task_prio_buffer p !! priority_index with
  | None => false
  | Some b =>
      if task_buffer_is_empty b then false
      else if (priority_index =? 2) && (max_blocking_threads p <=? blocking_active p) then false
      else true
  end.

(** The loop of [thread_pool_has_tasks], from priority [i] on. *)
Fixpoint has_tasks_loop (p : tc_thread_pool) (i : nat) (n : nat) : bool :=
  match n with
  | O => false
  | S n' => if buffer_eligible p i then true else has_tasks_loop p (i + 1) n'
  end.

Definition thread_pool_has_tasks (p : tc_thread_pool) : bool :=
  has_tasks_loop p 0 TC_THREAD_POOL_MAX_PRIORITY.

Definition task_buffer_enqueue (p : tc_thread_pool) (b : tc_thread_pool_task_buf)
    (task : tc_thread_pool_context) (is_yield is_blocking : bool) : bool * tc_thread_pool_task_buf :=
  let remaining_capacity := task_buffer_remaining_capacity b in
  let reserved_capacity := if is_blocking then max_blocking_threads p else num_threads p in
  if negb is_yield && (remaining_capacity <=? reserved_capacity) then (false, b)
  else
    let next_head := (head_index b + 1) mod capacity b in
    if next_head =? tail_index b then (false, b)
    else (true, TaskBuf (<[head_index b := task]> (tb_buffer b)) next_head (tail_index b) (capacity b)).

(** A cell of the pattern string; the cell after the last is the terminator. *)
Definition pattern_cell (p : tc_thread_pool) (i : nat) : Z := default 0%Z (round_robin_pattern p !! i).

(** The search loop of [task_pool_dequeue]: [n] more buffers to try. *)
Fixpoint dequeue_loop (p : tc_thread_pool) (current_buffer_index n : nat) :
    tc_thread_pool_context * tc_thread_pool :=
  match n with
  | O => (null_context, p)
  | S n' =>
      if buffer_eligible p current_buffer_index then
        match task_prio_buffer p !! current_buffer_index with
        | Some b => let '(t, b') := task_buffer_dequeue b in (t, set_buffer p current_buffer_index b')
        | None => (null_context, p)
        end
      else dequeue_loop p ((current_buffer_index + 1) mod TC_THREAD_POOL_MAX_PRIORITY) n'
  end.

(** The position in the pattern a dequeue uses: past the end it wraps. *)
Definition round_robin_position (p : tc_thread_pool) : nat :=
  if (pattern_cell p (round_robin_index p) =? 0)%Z then 0 else round_robin_index p.

(** [None]: the letter read is none of 'A' to 'D', and the first access to
    [task_prio_buffer] is outside the array. *)
Definition task_pool_dequeue (p : tc_thread_pool) :
    option (tc_thread_pool_context * tc_thread_pool) :=
  let i := round_robin_position p in
  let current_buffer := pattern_cell p i in
  let p' := set_round_robin_index p (i + 1) in
  let current_buffer_index := (current_buffer - 65)%Z in       (* 'A' *)
  if (0 <=? current_buffer_index)%Z && (current_buffer_index <? 4)%Z
  then Some (dequeue_loop p' (Z.to_nat current_buffer_index) TC_THREAD_POOL_MAX_PRIORITY)
  else None.

(** ** Workers *)

(** What a critical section does to the threads waiting on [not_empty]. *)
Inductive wakeup := Signal | Broadcast.

(** The part of [thread_pool_worker] from the top of its loop to the point
    where it releases the mutex. *)
Inductive worker_turn :=
| TurnExit                                   (* broadcast and return *)
| TurnWait                                   (* wait on the condition *)
| TurnFault                                  (* access outside [task_prio_buffer] *)
| TurnRun (task : tc_thread_pool_context) (p : tc_thread_pool).

Definition is_blocking_task (task : tc_thread_pool_context) : bool :=
  bool_decide (ctx_priority task = PRIORITY_BLOCKING).

Definition worker_take (p : tc_thread_pool) : worker_turn :=
  if negb (thread_pool_has_tasks p) then
    if shutdown p && (active_threads p =? 0)%Z then TurnExit else TurnWait
  else
    match task_pool_dequeue p with
    | None => TurnFault
    | Some (task, p') =>
        TurnRun task
          (set_counters p' (active_threads p' + 1)
             (if is_blocking_task task then blocking_active p' + 1 else blocking_active p'))
    end.

(** The part after the task returned, up to the next test of the loop. *)
Definition worker_finish (p : tc_thread_pool) (is_blocking : bool) : tc_thread_pool * list wakeup :=
  let p' := set_counters p (active_threads p - 1)
              (if is_blocking then blocking_active p - 1 else blocking_active p) in
  (p', (if is_blocking then [Signal] else []) ++
       (if shutdown p' && (active_threads p' =? 0)%Z && negb (thread_pool_has_tasks p')
        then [Broadcast] else [])).

(** ** Scheduling *)

Definition tc_thread_pool_stop (p : tc_thread_pool) : tc_thread_pool * list wakeup :=
  (set_shutdown p, [Broadcast]).

(** Indexing [task_prio_buffer] with [PRIORITY_INVALID] is outside the array:
    [None].  The inner pair is the returned [pboolean] and the pool. *)
Definition tc_thread_schedule_new (p : tc_thread_pool) (new_task : option F) (arg : option A)
    (priority : tc_thread_pool_task_priority) (session_generation : Z) :
    option (bool * tc_thread_pool * list wakeup) :=
  if shutdown p then Some (false, p, [])
  else
    let task := Context priority new_task arg session_generation in
    i ← priority_index priority;
    b ← task_prio_buffer p !! i;
    let '(enqueue_success, b') :=
      task_buffer_enqueue p b task false (bool_decide (priority = PRIORITY_BLOCKING)) in
    if negb enqueue_success then Some (false, p, [])
    else Some (true, set_buffer p i b', [Signal]).

(** [None] is a failed assertion (or an invalid priority). *)
Definition tc_thread_schedule_next (p : tc_thread_pool) (next_task shutdown_task : option F)
    (arg : option A) (current_priority : tc_thread_pool_task_priority)
    (current_session_generation : Z) : option (tc_thread_pool * list wakeup) :=
  let func := if shutdown p then shutdown_task else next_task in
  let task := Context current_priority func arg current_session_generation in
  match func with
  | None => Some (p, [])
  | Some _ =>
      i ← priority_index current_priority;
      b ← task_prio_buffer p !! i;
      let '(enqueue_success, b') :=
        task_buffer_enqueue p b task true (bool_decide (current_priority = PRIORITY_BLOCKING)) in
      if negb enqueue_success then None
      else Some (set_buffer p i b', [Signal])
  end.

Definition tc_thread_schedule_next2 (p : tc_thread_pool) (next_task : option F) (arg : option A)
    (current_priority : tc_thread_pool_task_priority) (current_session_generation : Z) :
    option (bool * tc_thread_pool * list wakeup) :=
  if shutdown p then Some (false, p, [])
  else
    let task := Context current_priority next_task arg current_session_generation in
    match next_task with
    | None => Some (false, p, [])
    | Some _ =>
        i ← priority_index current_priority;
        b ← task_prio_buffer p !! i;
        let '(enqueue_success, b') :=
          task_buffer_enqueue p b task true (bool_decide (current_priority = PRIORITY_BLOCKING)) in
        if negb enqueue_success then None
        else Some (true, set_buffer p i b', [Signal])
    end.

(** ** Initialisation *)

(** The buffers of a fresh pool; the arrays inside the struct are not
    initialised and hold the given contexts. *)
Definition initial_buffers (high medium blocking low : list tc_thread_pool_context) :
    list tc_thread_pool_task_buf :=
  [init_task_buffer high (TC_THREADS_STD_BUFFER_SIZE / 2);
   init_task_buffer medium TC_THREADS_STD_BUFFER_SIZE;
   init_task_buffer blocking TC_THREADS_STD_BUFFER_SIZE;
   init_task_buffer low (2 * TC_THREADS_STD_BUFFER_SIZE)].

(** The number of worker threads [tc_thread_pool_init] settles on, from the
    value of [p_uthread_ideal_count()] (a [pint] compared with a [psize]). *)
Definition init_num_threads (ideal_count reserved_threads : Z) : option Z :=
  if (u64 ideal_count <=? reserved_threads)%Z then None
  else
    let n := s32 (ideal_count - reserved_threads) in
    Some (if (Z.of_nat TC_THREADS_MAX_THREADS <=? n)%Z then Z.of_nat TC_THREADS_MAX_THREADS else n).

(** The whole function: creation of the mutex, of the condition variable and
    of each thread may fail ([mutex_ok], [cond_ok], [threads_ok]). *)
Definition tc_thread_pool_init (ideal_count : Z) (pattern : list Z)
    (reserved_threads : Z) (max_blocking : nat)
    (high medium blocking low : list tc_thread_pool_context)
    (mutex_ok cond_ok : bool) (threads_ok : nat -> bool) : option tc_thread_pool :=
  match init_num_threads ideal_count reserved_threads with
  | None => None
  | Some n =>
      if negb mutex_ok then None
      else if negb cond_ok then None
      else
        let p := ThreadPool (initial_buffers high medium blocking low) pattern (Z.to_nat n)
                   0 0%Z 0 max_blocking false in
        if forallb threads_ok (seq 0 (Z.to_nat n)) then Some p else None
  end.
End ThreadPool.

Arguments tc_thread_pool_context : clear implicits.
Arguments tc_thread_pool_task_buf : clear implicits.
Arguments tc_thread_pool : clear implicits.
Arguments worker_turn : clear implicits.
