(* ===== verification/ThreadPoolSpec.v ===== *)
(** * The thread pool against its specification

    A ring buffer as a bounded queue, the choice of the next task, and the
    system of workers as a step relation with its invariant: buffers stay
    well formed, the reserved slots cover every running task chain, the cap on
    blocking tasks holds, no runnable task is left while every worker sleeps,
    and after [tc_thread_pool_stop] no worker is left waiting. *)

From S2P Require Import Prelude ThreadPool.

Local Open Scope nat_scope.

(** ** Arithmetic of indices *)

Lemma mod_wrap a c : a < 2 * c -> a mod c = if a <? c then a else a - c.
Proof.
  intros H. destruct (Nat.ltb_spec a c).
  - by apply Nat.mod_small.
  - replace a with ((a - c) + 1 * c) at 1 by lia. rewrite Nat.Div0.mod_add. apply Nat.mod_small. lia.
Qed.

(** ** Ring buffers as queues *)

Section Ring.
Context {F A : Type}.
Implicit Types (b : tc_thread_pool_task_buf F A) (t : tc_thread_pool_context F A).

Definition ring_ok b : Prop :=
  0 < capacity b /\ length (tb_buffer b) = capacity b /\
  head_index b < capacity b /\ tail_index b < capacity b.

Definition ring_used b : nat := (head_index b + capacity b - tail_index b) mod capacity b.

Definition ring_slot b (k : nat) : nat := (tail_index b + k) mod capacity b.

(** The queued tasks, oldest first. *)
Definition ring_contents b : list (tc_thread_pool_context F A) :=
  map (fun k => default null_context (tb_buffer b !! ring_slot b k)) (seq 0 (ring_used b)).

Lemma ring_used_eq b :
  ring_ok b ->
  ring_used b = if tail_index b <=? head_index b then head_index b - tail_index b
                else head_index b + capacity b - tail_index b.
Proof.
  intros (Hc & Hl & Hh & Ht). unfold ring_used. rewrite mod_wrap by lia. case_bools; lia.
Qed.

Lemma ring_used_lt b : ring_ok b -> ring_used b < capacity b.
Proof. intros H. rewrite ring_used_eq by done. destruct H as (?&?&?&?). case_bools; lia. Qed.

Lemma length_ring_contents b : length (ring_contents b) = ring_used b.
Proof. unfold ring_contents. by rewrite length_map, length_seq. Qed.

Lemma ring_empty b : ring_ok b -> task_buffer_is_empty b = (ring_used b =? 0).
Proof.
  intros H. rewrite ring_used_eq by done. unfold task_buffer_is_empty.
  destruct H as (?&?&?&?). case_bools; lia.
Qed.

Lemma remaining_used b :
  task_buffer_remaining_capacity b = capacity b - 1 - ring_used b.
Proof. done. Qed.

Lemma init_ring_ok buf cap :
  length buf = cap -> 0 < cap -> ring_ok (@init_task_buffer F A buf cap).
Proof. intros. repeat split; done. Qed.

Lemma init_ring_contents buf cap :
  0 < cap -> ring_contents (@init_task_buffer F A buf cap) = [].
Proof.
  intros. unfold ring_contents, ring_used. cbn. rewrite Nat.sub_0_r, Nat.Div0.mod_same. done.
Qed.

(** A ring with a free slot: the next head does not run into the tail. *)
Lemma ring_room b :
  ring_ok b -> ring_used b < capacity b - 1 -> (head_index b + 1) mod capacity b <> tail_index b.
Proof.
  intros H Hu. pose proof (ring_used_eq b H). destruct H as (?&?&?&?).
  rewrite mod_wrap by lia. case_bools; lia.
Qed.

(** *** Storing at the head *)

Definition ring_push b t : tc_thread_pool_task_buf F A :=
  TaskBuf (<[head_index b := t]> (tb_buffer b)) ((head_index b + 1) mod capacity b)
    (tail_index b) (capacity b).

Lemma ring_push_ok b t : ring_ok b -> ring_ok (ring_push b t).
Proof.
  intros (Hc & Hl & Hh & Ht). repeat split; cbn; try done.
  - by rewrite length_insert.
  - apply Nat.mod_upper_bound. lia.
Qed.

Lemma ring_push_used b t :
  ring_ok b -> (head_index b + 1) mod capacity b <> tail_index b ->
  ring_used (ring_push b t) = ring_used b + 1.
Proof.
  intros H Hn. rewrite !ring_used_eq by auto using ring_push_ok. cbn.
  destruct H as (?&?&?&?). rewrite mod_wrap in * by lia. case_bools; lia.
Qed.

Lemma ring_push_contents b t :
  ring_ok b -> (head_index b + 1) mod capacity b <> tail_index b ->
  ring_contents (ring_push b t) = ring_contents b ++ [t].
Proof.
  intros H Hn. unfold ring_contents at 1. rewrite ring_push_used, seq_app, map_app by done.
  pose proof (ring_used_lt b H) as Hu. pose proof (ring_used_eq b H) as Eu.
  destruct H as (Hc & Hl & Hh & Ht).
  f_equal.
  - apply map_ext_in. intros k Hk%in_seq. unfold ring_slot. cbn. rewrite list_lookup_insert_ne; [done|].
    rewrite mod_wrap by lia. case_bools; lia.
  - cbn. unfold ring_slot. cbn. f_equal.
    replace ((tail_index b + ring_used b) mod capacity b) with (head_index b)
      by (rewrite mod_wrap by lia; case_bools; lia).
    rewrite list_lookup_insert_eq by lia. done.
Qed.

(** *** Taking from the tail *)

Definition ring_pop b : tc_thread_pool_task_buf F A :=
  TaskBuf (tb_buffer b) (head_index b) ((tail_index b + 1) mod capacity b) (capacity b).

Lemma ring_pop_ok b : ring_ok b -> ring_ok (ring_pop b).
Proof.
  intros (Hc & Hl & Hh & Ht). repeat split; cbn; try done. apply Nat.mod_upper_bound. lia.
Qed.

Lemma dequeue_pop b :
  task_buffer_is_empty b = false ->
  task_buffer_dequeue b = (default null_context (tb_buffer b !! tail_index b), ring_pop b).
Proof. unfold task_buffer_is_empty, task_buffer_dequeue. by intros ->. Qed.

Lemma ring_pop_used b :
  ring_ok b -> task_buffer_is_empty b = false -> ring_used b = S (ring_used (ring_pop b)).
Proof.
  intros H He. rewrite !ring_used_eq by auto using ring_pop_ok. cbn.
  unfold task_buffer_is_empty in He. destruct H as (?&?&?&?). rewrite mod_wrap by lia.
  case_bools; try done; lia.
Qed.

(** Dequeuing returns the oldest task and leaves the others in order. *)
Lemma dequeue_contents b :
  ring_ok b -> task_buffer_is_empty b = false ->
  ring_contents b = fst (task_buffer_dequeue b) :: ring_contents (ring_pop b).
Proof.
  intros H He. rewrite dequeue_pop by done. unfold ring_contents.
  rewrite (ring_pop_used b H He). destruct H as (Hc & Hl & Hh & Ht). cbn [seq map fst]. f_equal.
  - unfold ring_slot. by rewrite Nat.add_0_r, Nat.mod_small by lia.
  - rewrite <- seq_shift, map_map. apply map_ext_in. intros k _. unfold ring_slot. cbn.
    do 2 f_equal. rewrite Nat.Div0.add_mod_idemp_l. f_equal. lia.
Qed.

(** *** The guards of [task_buffer_enqueue] *)

Lemma enqueue_result (p : tc_thread_pool F A) b t (is_yield is_blocking : bool) :
  ring_ok b ->
  task_buffer_enqueue p b t is_yield is_blocking =
    if (ring_used b <? capacity b - 1) &&
       (is_yield || ((if is_blocking then max_blocking_threads p else num_threads p)
                     <? capacity b - 1 - ring_used b))
    then (true, ring_push b t) else (false, b).
Proof.
  intros H. pose proof (ring_used_eq b H) as Eu. destruct H as (Hc & Hl & Hh & Ht).
  unfold task_buffer_enqueue. rewrite remaining_used, mod_wrap by lia.
  set (r := if is_blocking then _ else _).
  assert (ring_push b t = TaskBuf (<[head_index b := t]> (tb_buffer b))
    (if head_index b + 1 <? capacity b then head_index b + 1 else head_index b + 1 - capacity b)
    (tail_index b) (capacity b)) as -> by (unfold ring_push; by rewrite mod_wrap by lia).
  destruct is_yield; cbn [negb andb orb];
    case_bools; cbn [negb andb orb]; try done; try (exfalso; lia).
Qed.
End Ring.

(** ** Choosing the next task *)

Section Choice.
Context {F A : Type}.
Implicit Types (p : tc_thread_pool F A).

Lemma has_tasks_loop_spec p i n :
  has_tasks_loop p i n = true <-> exists k, i <= k < i + n /\ buffer_eligible p k = true.
Proof.
  revert i. induction n as [|n IH]; intros i; cbn [has_tasks_loop].
  - split; [done | intros (k & ? & _); lia].
  - destruct (buffer_eligible p i) eqn:E.
    + split; [|done]. intros _. exists i. split; [lia | done].
    + rewrite IH. split; intros (k & Hk & He).
      * exists k. split; [lia | done].
      * exists k. split; [|done]. destruct (decide (k = i)) as [->|]; [congruence | lia].
Qed.

Lemma has_tasks_spec p :
  thread_pool_has_tasks p = true <-> exists k, k < 4 /\ buffer_eligible p k = true.
Proof.
  unfold thread_pool_has_tasks. rewrite has_tasks_loop_spec. unfold TC_THREAD_POOL_MAX_PRIORITY.
  split; intros (k & ? & ?); exists k; (split; [lia | done]).
Qed.

Lemma eligible_inv p i :
  buffer_eligible p i = true ->
  exists b, task_prio_buffer p !! i = Some b /\ task_buffer_is_empty b = false /\
            (i = 2 -> blocking_active p < max_blocking_threads p).
Proof.
  unfold buffer_eligible. destruct (task_prio_buffer p !! i) as [b|] eqn:E; [|done].
  destruct (task_buffer_is_empty b) eqn:Ee; [done|].
  destruct (Nat.eqb_spec i 2) as [->|]; cbn [andb].
  - destruct (Nat.leb_spec (max_blocking_threads p) (blocking_active p)); [done|].
    intros _. exists b. auto.
  - intros _. exists b. done.
Qed.

(** The loop serves the first eligible buffer after [i] in cyclic order. *)
Lemma dequeue_loop_spec p i n :
  i < 4 -> (exists k, k < n /\ buffer_eligible p ((i + k) mod 4) = true) ->
  exists k b,
    k < n /\ buffer_eligible p ((i + k) mod 4) = true /\
    (forall j, j < k -> buffer_eligible p ((i + j) mod 4) = false) /\
    task_prio_buffer p !! ((i + k) mod 4) = Some b /\ task_buffer_is_empty b = false /\
    dequeue_loop p i n
    = (fst (task_buffer_dequeue b), set_buffer p ((i + k) mod 4) (ring_pop b)).
Proof.
  revert i. induction n as [|n IH]; intros i Hi (k & Hk & He); [lia|].
  cbn [dequeue_loop]. destruct (buffer_eligible p i) eqn:Ei.
  - destruct (eligible_inv p i Ei) as (b & Hb & Hne & _). exists 0, b.
    rewrite Nat.add_0_r, Nat.mod_small, Hb by lia. split_and!; try done; [lia..|].
    rewrite (dequeue_pop b Hne). done.
  - destruct k as [|k]; [rewrite Nat.add_0_r, Nat.mod_small in He by lia; congruence|].
    unfold TC_THREAD_POOL_MAX_PRIORITY. assert ((i + 1) mod 4 < 4) as Hi' by (apply Nat.mod_upper_bound; lia).
    assert (forall j, ((i + 1) mod 4 + j) mod 4 = (i + S j) mod 4) as Hsh.
    { intros j. rewrite Nat.Div0.add_mod_idemp_l. f_equal. lia. }
    destruct (IH ((i + 1) mod 4) Hi') as (k' & b & Hk' & He' & Hpre & Hb & Hne & Heq).
    { exists k. split; [lia|]. by rewrite Hsh. }
    rewrite Hsh in *. exists (S k'), b. split_and!; try done; [lia|].
    intros [|j] Hj; [by rewrite Nat.add_0_r, Nat.mod_small by lia|].
    rewrite <- Hsh. apply Hpre. lia.
Qed.
End Choice.
