(* ===== verification/ThreadPoolSystem.v ===== *)
(** * Workers, tasks and the pool as a transition system

    The threads of the program at the granularity of the pool's critical
    sections.  A worker is at the top of its loop, asleep on the condition
    variable, running a task outside the mutex, or gone.  A running task may
    schedule new chains, continue its own chain once (the discipline the
    header of [thread_pool.h] asks for: same priority as the calling task),
    or stop the pool; any other thread may schedule and stop too. *)

From S2P Require Import Prelude ThreadPool ThreadPoolSpec.

Local Open Scope nat_scope.

Section System.
Context {F A : Type}.
Abbreviation pool := (tc_thread_pool F A).
Abbreviation context := (tc_thread_pool_context F A).
Implicit Types (p : pool) (t : context).

Inductive worker :=
| Idle                                         (* about to test the queue *)
| Waiting                                      (* in [p_cond_variable_wait] *)
| Running (t : context) (continued : bool)     (* [continued]: its chain has a next task *)
| Exited.

Implicit Types (w : worker) (ws : list worker).

Definition wake w : worker := match w with Waiting => Idle | _ => w end.

(** Effect of a critical section's wake-ups on the workers: a signal wakes
    one waiting worker, whichever the platform chooses. *)
Inductive wakes : list wakeup -> list worker -> list worker -> Prop :=
| wakes_nil ws : wakes [] ws ws
| wakes_signal i l ws ws' :
    ws !! i = Some Waiting -> wakes l (<[i := Idle]> ws) ws' -> wakes (Signal :: l) ws ws'
| wakes_signal_lost l ws ws' :
    Waiting ∉ ws -> wakes l ws ws' -> wakes (Signal :: l) ws ws'
| wakes_broadcast l ws ws' :
    wakes l (map wake ws) ws' -> wakes (Broadcast :: l) ws ws'.

Definition system : Type := pool * list worker.

Inductive pool_step : system -> system -> Prop :=
| step_run i p p' ws t :
    ws !! i = Some Idle -> worker_take p = TurnRun t p' ->
    pool_step (p, ws) (p', <[i := Running t false]> ws)
| step_wait i p ws :
    ws !! i = Some Idle -> worker_take p = TurnWait ->
    pool_step (p, ws) (p, <[i := Waiting]> ws)
| step_exit i p ws ws' :
    ws !! i = Some Idle -> worker_take p = TurnExit ->
    wakes [Broadcast] (<[i := Exited]> ws) ws' ->
    pool_step (p, ws) (p, ws')
| step_spurious i p ws :
    ws !! i = Some Waiting -> pool_step (p, ws) (p, <[i := Idle]> ws)
| step_new p p' ws ws' f arg prio gen ok l :
    tc_thread_schedule_new p (Some f) arg prio gen = Some (ok, p', l) -> wakes l ws ws' ->
    pool_step (p, ws) (p', ws')
| step_next i p p' ws ws' t f g arg gen l :
    ws !! i = Some (Running t false) ->
    tc_thread_schedule_next p f g arg (ctx_priority t) gen = Some (p', l) ->
    wakes l (<[i := Running t true]> ws) ws' ->
    pool_step (p, ws) (p', ws')
| step_next2 i p p' ws ws' t f arg gen ok l :
    ws !! i = Some (Running t false) ->
    tc_thread_schedule_next2 p f arg (ctx_priority t) gen = Some (ok, p', l) ->
    wakes l (<[i := Running t ok]> ws) ws' ->
    pool_step (p, ws) (p', ws')
| step_stop p p' ws ws' l :
    tc_thread_pool_stop p = (p', l) -> wakes l ws ws' -> pool_step (p, ws) (p', ws')
| step_finish i p p' ws ws' t c l :
    ws !! i = Some (Running t c) -> worker_finish p (is_blocking_task t) = (p', l) ->
    wakes l (<[i := Idle]> ws) ws' ->
    pool_step (p, ws) (p', ws').

(** The system after a successful [tc_thread_pool_init]: every worker at the
    top of its loop. *)
Definition initial (s : system) : Prop :=
  exists ideal pattern reserved max_blocking high medium blocking low threads_ok,
    tc_thread_pool_init ideal pattern reserved max_blocking high medium blocking low true true threads_ok
      = Some (fst s) /\
    length high = 64 /\ length medium = 128 /\ length blocking = 128 /\ length low = 256 /\
    pattern <> [] /\ Forall (fun c => 65 <= c <= 68)%Z pattern /\
    (0 < ideal < 2 ^ 31)%Z /\ (0 <= reserved < 2 ^ 31)%Z /\
    snd s = replicate (num_threads (fst s)) Idle.

Definition reachable (s : system) : Prop := exists s0, initial s0 /\ star pool_step s0 s.

(** ** Counting workers *)

Definition bit (b : bool) : nat := if b then 1 else 0.

Definition count (f : worker -> bool) ws : nat := sum_list_with (fun w => bit (f w)) ws.

Definition is_running w : bool := match w with Running _ _ => true | _ => false end.

Definition runs_blocking w : bool :=
  match w with Running t _ => is_blocking_task t | _ => false end.

(** A running task of priority [i] that may still continue its chain. *)
Definition may_continue (i : nat) w : bool :=
  match w with Running t false => bool_decide (priority_index (ctx_priority t) = Some i) | _ => false end.

Definition awake w : bool := match w with Idle | Running _ _ => true | _ => false end.

Lemma count_insert f ws i w w' :
  ws !! i = Some w ->
  count f (<[i := w']> ws) + bit (f w) = count f ws + bit (f w').
Proof.
  unfold count. revert i. induction ws as [|x ws IH]; intros [|i] H; cbn in H; try done.
  - injection H as ->. cbn -[bit]. lia.
  - change (<[S i := w']> (x :: ws)) with (x :: <[i := w']> ws). cbn [sum_list_with].
    specialize (IH i H). lia.
Qed.

Lemma count_le f ws : count f ws <= length ws.
Proof. unfold count. induction ws as [|x ws IH]; cbn; [done|]. destruct (f x); cbn; lia. Qed.

Lemma count_mono f g ws : (forall w, f w = true -> g w = true) -> count f ws <= count g ws.
Proof.
  intros H. unfold count. induction ws as [|x ws IH]; cbn; [done|]. specialize (H x).
  destruct (f x), (g x); cbn; try lia. all: by specialize (H eq_refl).
Qed.

Lemma count_pos f ws w : w ∈ ws -> f w = true -> 0 < count f ws.
Proof.
  intros Hw Hf. unfold count. induction Hw as [x l | x y l _ IH]; cbn.
  - rewrite Hf. cbn. lia.
  - specialize (IH Hf). lia.
Qed.

Lemma count_zero f ws w : count f ws = 0 -> w ∈ ws -> f w = false.
Proof. intros H Hw. destruct (f w) eqn:E; [|done]. pose proof (count_pos f ws w Hw E). lia. Qed.

Lemma count_pos_inv f ws : 0 < count f ws -> exists w, w ∈ ws /\ f w = true.
Proof.
  unfold count. induction ws as [|x ws IH]; cbn; [lia|]. destruct (f x) eqn:E.
  - intros _. exists x. split; [left | done].
  - cbn. intros H. destruct (IH H) as (w & ? & ?). exists w. split; [by right | done].
Qed.

(** ** What wake-ups do *)

(** Pointwise, a worker stays as it is or leaves [Waiting] for [Idle]. *)
Definition woken w w' : Prop := w' = w \/ (w = Waiting /\ w' = Idle).

Lemma woken_refl ws : Forall2 woken ws ws.
Proof. induction ws; constructor; [by left | done]. Qed.

Lemma woken_trans ws1 ws2 ws3 : Forall2 woken ws1 ws2 -> Forall2 woken ws2 ws3 -> Forall2 woken ws1 ws3.
Proof.
  intros H. revert ws3. induction H as [|x y l k Hxy _ IH]; intros ws3 H3; inversion H3; subst; constructor.
  - unfold woken in *. intuition congruence.
  - by apply IH.
Qed.

Lemma woken_insert ws i : ws !! i = Some Waiting -> Forall2 woken ws (<[i := Idle]> ws).
Proof.
  revert i. induction ws as [|x ws IH]; intros [|i] H; cbn in *; try done.
  - injection H as ->. constructor; [by right | apply woken_refl].
  - constructor; [by left | by apply IH].
Qed.

Lemma woken_map ws : Forall2 woken ws (map wake ws).
Proof. induction ws as [|[] ws IH]; cbn; constructor; auto; [by left | by right | by left | by left]. Qed.

Lemma wakes_woken l ws ws' : wakes l ws ws' -> Forall2 woken ws ws'.
Proof.
  induction 1; eauto using woken_refl, woken_trans, woken_insert, woken_map.
Qed.

Lemma woken_count f ws ws' :
  f Waiting = f Idle -> Forall2 woken ws ws' -> count f ws' = count f ws.
Proof.
  intros Hf. unfold count. induction 1 as [|x y l k [->|[-> ->]] _ IH]; cbn; [done | lia |].
  rewrite Hf. lia.
Qed.

Lemma woken_awake ws ws' w :
  Forall2 woken ws ws' -> w ∈ ws -> awake w = true -> exists w', w' ∈ ws' /\ awake w' = true.
Proof.
  induction 1 as [|x y l k Hxy _ IH]; intros Hw Ha; [by apply not_elem_of_nil in Hw|].
  apply elem_of_cons in Hw as [->|Hw].
  - exists y. split; [left|]. destruct Hxy as [->|[-> ->]]; done.
  - destruct (IH Hw Ha) as (w' & ? & ?). exists w'. split; [by right | done].
Qed.

Lemma woken_elem ws ws' w : Forall2 woken ws ws' -> w ∈ ws' -> w <> Idle -> w ∈ ws.
Proof.
  induction 1 as [|x y l k Hxy _ IH]; intros Hw Hi; [by apply not_elem_of_nil in Hw|].
  apply elem_of_cons in Hw as [->|Hw]; [|right; auto].
  destruct Hxy as [->|[-> ->]]; [left | done].
Qed.

Lemma broadcast_no_waiting l ws ws' : wakes l ws ws' -> Broadcast ∈ l -> Waiting ∉ ws'.
Proof.
  intros H Hb. induction H as [ws | i l ws ws' Hi H IH | l ws ws' Hn H IH | l ws ws' H IH].
  - by apply not_elem_of_nil in Hb.
  - apply IH. apply elem_of_cons in Hb as [?|?]; done.
  - apply IH. apply elem_of_cons in Hb as [?|?]; done.
  - intros Hw. apply wakes_woken in H.
    apply (woken_elem _ _ _ H) in Hw; [|done].
    apply list_elem_of_fmap in Hw as ([] & ? & _); done.
Qed.

(** After a signal somebody is awake, unless everybody has left. *)
Lemma signal_awake l ws ws' w :
  wakes (Signal :: l) ws ws' -> w ∈ ws -> w <> Exited -> exists w', w' ∈ ws' /\ awake w' = true.
Proof.
  intros H Hw Hx. inversion H as [| i ? ? ? Hi H' | ? ? ? Hn H' |]; subst.
  - apply wakes_woken in H'. apply (woken_awake _ _ Idle H'); [|done].
    apply list_elem_of_lookup. exists i. apply list_lookup_insert_eq. by eapply lookup_lt_Some.
  - apply wakes_woken in H'. apply (woken_awake _ _ w H'); [done|].
    destruct w; done.
Qed.

(** ** The invariant *)

Definition buffer_capacity (i : nat) : nat := nth i [64; 128; 128; 256] 0.

(** Tasks kept in buffer [i] have a function and that buffer's priority. *)
Definition task_for (i : nat) t : Prop :=
  priority_index (ctx_priority t) = Some i /\ is_Some (ctx_func t).

Record buffers_ok p : Prop := {
  bo_length : length (task_prio_buffer p) = 4;
  bo_ring i b : task_prio_buffer p !! i = Some b -> ring_ok b /\ capacity b = buffer_capacity i;
  bo_tasks i b : task_prio_buffer p !! i = Some b -> Forall (task_for i) (ring_contents b) }.

Record pattern_ok p : Prop := {
  po_nonempty : round_robin_pattern p <> [];
  po_letters : Forall (fun c => 65 <= c <= 68)%Z (round_robin_pattern p);
  po_index : round_robin_index p <= length (round_robin_pattern p) }.

(** Every running task that may still continue has a slot left for it. *)
Definition reserve_ok p ws : Prop :=
  forall i b, task_prio_buffer p !! i = Some b ->
    ring_used b + count (may_continue i) ws <= capacity b - 1.

Record counters_ok p ws : Prop := {
  co_threads : length ws = num_threads p;
  co_some : 0 < num_threads p;
  co_active : active_threads p = Z.of_nat (count is_running ws);
  co_blocking : blocking_active p = count runs_blocking ws;
  co_cap : blocking_active p <= max_blocking_threads p;
  co_tasks t c : Running t c ∈ ws -> exists i, task_for i t }.

(** Wake-ups are not lost: runnable work has an awake worker; after shutdown,
    with nothing running and nothing runnable, nobody sleeps; and workers
    only leave in that situation. *)
Record wakeups_ok p ws : Prop := {
  wo_live : thread_pool_has_tasks p = true -> exists w, w ∈ ws /\ awake w = true;
  wo_drain : shutdown p = true -> count is_running ws = 0 -> thread_pool_has_tasks p = false ->
             Waiting ∉ ws;
  wo_exit : Exited ∈ ws ->
            shutdown p = true /\ count is_running ws = 0 /\ thread_pool_has_tasks p = false }.

Record pool_inv (s : system) : Prop := {
  pi_buffers : buffers_ok (fst s);
  pi_pattern : pattern_ok (fst s);
  pi_reserve : reserve_ok (fst s) (snd s);
  pi_counters : counters_ok (fst s) (snd s);
  pi_wakeups : wakeups_ok (fst s) (snd s) }.

Lemma priority_index_blocking q : priority_index q = Some 2 <-> q = PRIORITY_BLOCKING.
Proof. destruct q; split; intros H; done. Qed.

Lemma priority_index_lt q i : priority_index q = Some i -> i < 4.
Proof. destruct q; cbn; intros [= <-]; lia. Qed.

(** *** Wake-ups keep everything that does not look at [Waiting] *)

Lemma woken_reserve p ws ws' : Forall2 woken ws ws' -> reserve_ok p ws -> reserve_ok p ws'.
Proof. intros Hw H i b Hb. rewrite (woken_count (may_continue i) ws ws' eq_refl Hw). by apply H. Qed.

Lemma woken_counters p ws ws' : Forall2 woken ws ws' -> counters_ok p ws -> counters_ok p ws'.
Proof.
  intros Hw []. split; try done.
  - by rewrite <- (Forall2_length _ _ _ Hw).
  - by rewrite (woken_count is_running ws ws' eq_refl Hw).
  - by rewrite (woken_count runs_blocking ws ws' eq_refl Hw).
  - intros t c Ht. apply (co_tasks0 t c), (woken_elem _ _ _ Hw Ht). done.
Qed.

(** *** Replacing a buffer *)

Lemma set_buffer_ok p i b :
  buffers_ok p -> ring_ok b -> capacity b = buffer_capacity i -> Forall (task_for i) (ring_contents b) ->
  buffers_ok (set_buffer p i b).
Proof.
  intros [Hl Hr Ht] Hb Hc Hf. split; cbn.
  - by rewrite length_insert.
  - intros j b' [(-> & -> & _)|(_ & H)]%list_lookup_insert_Some; [done | by apply Hr].
  - intros j b' [(-> & -> & _)|(_ & H)]%list_lookup_insert_Some; [done | by apply Ht].
Qed.

(** *** Taking a task *)

Lemma pattern_cell_letter p i :
  pattern_ok p -> i < length (round_robin_pattern p) -> (65 <= pattern_cell p i <= 68)%Z.
Proof.
  intros Hp Hi. unfold pattern_cell. destruct (lookup_lt_is_Some_2 _ _ Hi) as [c Hc]. rewrite Hc.
  cbn. by apply (Forall_lookup_1 _ _ _ _ (po_letters p Hp) Hc).
Qed.

Lemma round_robin_position_lt p : pattern_ok p -> round_robin_position p < length (round_robin_pattern p).
Proof.
  intros Hp. unfold round_robin_position. destruct Hp as [Hne Hl Hi].
  destruct (Z.eqb_spec (pattern_cell p (round_robin_index p)) 0) as [E|E].
  - destruct (round_robin_pattern p); [done | cbn; lia].
  - destruct (decide (round_robin_index p = length (round_robin_pattern p))) as [E'|]; [|lia].
    exfalso. apply E. unfold pattern_cell. by rewrite lookup_ge_None_2 by lia.
Qed.

(** The priority the pattern asks for at this dequeue. *)
Definition pattern_priority p : nat := Z.to_nat (pattern_cell p (round_robin_position p) - 65).

(** What [worker_take] hands to the worker: the oldest task of the first
    eligible buffer at or after the pattern's letter. *)
Lemma worker_take_run p t p' :
  buffers_ok p -> pattern_ok p -> worker_take p = TurnRun t p' ->
  exists k b, let i := (pattern_priority p + k) mod 4 in
    k < 4 /\ buffer_eligible p i = true /\
    (forall j, j < k -> buffer_eligible p ((pattern_priority p + j) mod 4) = false) /\
    task_prio_buffer p !! i = Some b /\ task_buffer_is_empty b = false /\
    ring_contents b = t :: ring_contents (ring_pop b) /\
    p' = set_counters
           (set_buffer (set_round_robin_index p (round_robin_position p + 1)) i (ring_pop b))
           (active_threads p + 1)
           (if is_blocking_task t then blocking_active p + 1 else blocking_active p).
Proof.
  intros Hb Hp. unfold worker_take. destruct (thread_pool_has_tasks p) eqn:Eh; cbn [negb];
    [|destruct (shutdown p && _); done].
  unfold task_pool_dequeue. fold (pattern_priority p).
  pose proof (pattern_cell_letter p _ Hp (round_robin_position_lt p Hp)) as Hc.
  destruct (Z.leb_spec 0 (pattern_cell p (round_robin_position p) - 65)); [|lia].
  destruct (Z.ltb_spec (pattern_cell p (round_robin_position p) - 65) 4); [|lia]. cbn [andb].
  set (p1 := set_round_robin_index p (round_robin_position p + 1)).
  apply has_tasks_spec in Eh as (e & He & Hel).
  assert (pattern_priority p < 4) as Hi by (unfold pattern_priority; lia).
  destruct (dequeue_loop_spec p1 (pattern_priority p) 4 Hi) as (k & b & Hk & Hek & Hpre & Hbk & Hne & Heq).
  { exists ((e + 4 - pattern_priority p) mod 4). split; [apply Nat.mod_upper_bound; lia|].
    rewrite Nat.Div0.add_mod_idemp_r. replace (_ + _) with (e + 1 * 4) by lia.
    by rewrite Nat.Div0.mod_add, Nat.mod_small by lia. }
  unfold TC_THREAD_POOL_MAX_PRIORITY. rewrite Heq.
  intros [= <- <-]. exists k, b. cbn zeta. split_and!; try done.
  apply dequeue_contents; [|done]. by destruct (bo_ring p Hb _ b Hbk).
Qed.

Lemma elem_of_insert_inv (l : list worker) i x y : x ∈ <[i := y]> l -> x = y \/ x ∈ l.
Proof.
  intros (j & [(_ & -> & _)|(_ & H)]%list_lookup_insert_Some)%list_elem_of_lookup; [by left|].
  right. apply list_elem_of_lookup. by exists j.
Qed.

Lemma elem_of_insert_eq (l : list worker) i x y : l !! i = Some x -> y ∈ <[i := y]> l.
Proof.
  intros H. apply list_elem_of_lookup. exists i. apply list_lookup_insert_eq. by eapply lookup_lt_Some.
Qed.

(** The counters of a task that starts to run or stops running. *)
Lemma counters_start p p1 ws i t k :
  ws !! i = Some Idle -> counters_ok p ws -> task_for k t ->
  (k = 2 -> blocking_active p < max_blocking_threads p) ->
  num_threads p1 = num_threads p -> max_blocking_threads p1 = max_blocking_threads p ->
  active_threads p1 = (active_threads p + 1)%Z ->
  blocking_active p1 = (if is_blocking_task t then blocking_active p + 1 else blocking_active p) ->
  counters_ok p1 (<[i := Running t false]> ws).
Proof.
  intros Hi [Hct Hcs Hca Hcb Hcc Hctk] Ht Hblk Hn Hm Ha Hb.
  pose proof (count_insert is_running ws i Idle (Running t false) Hi) as Hrun.
  pose proof (count_insert runs_blocking ws i Idle (Running t false) Hi) as Hrb.
  cbn [is_running runs_blocking bit] in Hrun, Hrb.
  assert (is_blocking_task t = true -> k = 2) as Hk.
  { unfold is_blocking_task. intros E%bool_decide_eq_true_1%priority_index_blocking.
    destruct Ht as [Ht _]. congruence. }
  split; rewrite ?length_insert; try lia.
  - destruct (is_blocking_task t); cbn [bit] in Hrb; lia.
  - destruct (is_blocking_task t); [specialize (Hblk (Hk eq_refl))|]; lia.
  - intros t' c [[= -> ->]|H]%elem_of_insert_inv; [by exists k | by apply (Hctk t' c)].
Qed.

Lemma reserve_start p ws i t k b p1 :
  ws !! i = Some Idle -> reserve_ok p ws -> task_for k t ->
  task_prio_buffer p !! k = Some b -> ring_ok b -> task_buffer_is_empty b = false ->
  task_prio_buffer p1 = <[k := ring_pop b]> (task_prio_buffer p) ->
  reserve_ok p1 (<[i := Running t false]> ws).
Proof.
  intros Hi Hr Ht Hk Hring Hne Hp1 j b1 Hj. rewrite Hp1 in Hj.
  pose proof (count_insert (may_continue j) ws i Idle (Running t false) Hi) as Hcnt.
  cbn [may_continue bit] in Hcnt.
  apply list_lookup_insert_Some in Hj as [(-> & <- & _)|(Hne' & Hj)].
  - rewrite bool_decide_eq_true_2 in Hcnt by apply Ht.
    specialize (Hr _ b Hk). rewrite (ring_pop_used b Hring Hne) in Hr.
    cbn [bit capacity ring_pop] in *. lia.
  - rewrite bool_decide_eq_false_2 in Hcnt by (destruct Ht as [-> _]; congruence).
    specialize (Hr _ b1 Hj). cbn [bit] in Hcnt. lia.
Qed.

Lemma wakeups_start p p1 ws i t :
  ws !! i = Some Idle -> wakeups_ok p ws -> thread_pool_has_tasks p = true ->
  wakeups_ok p1 (<[i := Running t false]> ws).
Proof.
  intros Hi Hw Hyes. pose proof (elem_of_insert_eq ws i _ (Running t false) Hi) as Hin. split.
  - intros _. by exists (Running t false).
  - intros _ H0 _. pose proof (count_zero _ _ _ H0 Hin). done.
  - intros [?|H]%elem_of_insert_inv; [done|].
    destruct (wo_exit p ws Hw H) as (_ & _ & Hno). congruence.
Qed.

Lemma step_run_inv i p p' ws t :
  ws !! i = Some Idle -> worker_take p = TurnRun t p' ->
  pool_inv (p, ws) -> pool_inv (p', <[i := Running t false]> ws).
Proof.
  intros Hi Ht [Hb Hp Hr Hc Hw]. cbn in *.
  destruct (worker_take_run p t p' Hb Hp Ht) as (k & b & _ & Hel & _ & Hbk & Hne & Hcont & ->).
  set (q := (pattern_priority p + k) mod 4) in *.
  destruct (bo_ring p Hb q b Hbk) as [Hring Hcap].
  pose proof (bo_tasks p Hb q b Hbk) as Htasks. rewrite Hcont in Htasks.
  inversion Htasks as [|? ? Htq Hrest]; subst.
  destruct (eligible_inv p q Hel) as (b' & Hb' & _ & Hblk). split; cbn [fst snd].
  - destruct (set_buffer_ok p q (ring_pop b) Hb (ring_pop_ok b Hring) Hcap Hrest). by split.
  - pose proof (round_robin_position_lt p Hp). destruct Hp. split; cbn; [done | done | lia].
  - by apply (reserve_start p ws i t q b).
  - by apply (counters_start p _ ws i t q).
  - eapply wakeups_start; [done | done |]. apply has_tasks_spec. exists q.
    split; [apply Nat.mod_upper_bound; lia | done].
Qed.

(** *** Workers that are not running *)

Lemma quiet_replace p ws i w w' :
  ws !! i = Some w -> is_running w = false -> is_running w' = false ->
  reserve_ok p ws -> counters_ok p ws ->
  reserve_ok p (<[i := w']> ws) /\ counters_ok p (<[i := w']> ws) /\
  count is_running (<[i := w']> ws) = count is_running ws.
Proof.
  intros Hi Hw Hw' Hr [Hct Hcs Hca Hcb Hcc Hctk].
  assert (forall f, (forall v, is_running v = false -> f v = false) ->
            count f (<[i := w']> ws) = count f ws) as Hcnt.
  { intros f Hf. pose proof (count_insert f ws i w w' Hi) as H.
    rewrite (Hf w), (Hf w') in H by done. cbn [bit] in H. lia. }
  split_and!.
  - intros j b Hb. rewrite Hcnt by (intros []; done). by apply Hr.
  - split; rewrite ?length_insert, ?Hcnt by (intros []; done); try done.
    intros t c [<-|H]%elem_of_insert_inv; [done | by apply (Hctk t c)].
  - by apply Hcnt.
Qed.

Lemma step_wait_inv i p ws :
  ws !! i = Some Idle -> worker_take p = TurnWait ->
  pool_inv (p, ws) -> pool_inv (p, <[i := Waiting]> ws).
Proof.
  intros Hi Ht [Hb Hp Hr Hc Hw]. cbn in *.
  destruct (quiet_replace p ws i Idle Waiting Hi eq_refl eq_refl Hr Hc) as (Hr' & Hc' & Hcnt).
  unfold worker_take in Ht. destruct (thread_pool_has_tasks p) eqn:Eh; cbn [negb] in Ht.
  { destruct (task_pool_dequeue p) as [[]|]; done. }
  destruct Hw as [Hl Hd He]. split; cbn; try done. split.
  - congruence.
  - intros Hs H0 _. exfalso. rewrite Hcnt in H0.
    rewrite (co_active p ws Hc), H0, Hs in Ht. done.
  - intros [?|H]%elem_of_insert_inv; [done|]. rewrite Hcnt. by apply He.
Qed.

Lemma step_exit_inv i p ws ws' :
  ws !! i = Some Idle -> worker_take p = TurnExit -> wakes [Broadcast] (<[i := Exited]> ws) ws' ->
  pool_inv (p, ws) -> pool_inv (p, ws').
Proof.
  intros Hi Ht Hk [Hb Hp Hr Hc Hw]. cbn in *.
  destruct (quiet_replace p ws i Idle Exited Hi eq_refl eq_refl Hr Hc) as (Hr' & Hc' & Hcnt).
  pose proof (wakes_woken _ _ _ Hk) as Hwk.
  pose proof (broadcast_no_waiting _ _ _ Hk (list_elem_of_here _ _)) as Hnw.
  unfold worker_take in Ht. destruct (thread_pool_has_tasks p) eqn:Eh; cbn [negb] in Ht.
  { destruct (task_pool_dequeue p) as [[]|]; done. }
  destruct (shutdown p) eqn:Es; cbn [andb] in Ht; [|done].
  destruct (Z.eqb_spec (active_threads p) 0) as [E0|]; [|done].
  split; cbn; eauto using woken_reserve, woken_counters. split; [congruence | done |].
  intros _. split_and!; [done | | done].
  rewrite (woken_count is_running _ _ eq_refl Hwk), Hcnt.
  pose proof (co_active p ws Hc). lia.
Qed.

Lemma step_spurious_inv i p ws :
  ws !! i = Some Waiting -> pool_inv (p, ws) -> pool_inv (p, <[i := Idle]> ws).
Proof.
  intros Hi [Hb Hp Hr Hc Hw]. cbn in *. pose proof (woken_insert ws i Hi) as Hwk.
  pose proof (woken_count is_running _ _ eq_refl Hwk) as Hcnt.
  destruct Hw as [Hl Hd He].
  split; cbn; eauto using woken_reserve, woken_counters. split.
  - intros _. exists Idle. split; [by eapply elem_of_insert_eq | done].
  - intros Hs H0 Hn [?|H]%elem_of_insert_inv; [done|]. rewrite Hcnt in H0. by apply (Hd Hs H0 Hn).
  - intros [?|H]%elem_of_insert_inv; [done|]. rewrite Hcnt. by apply He.
Qed.

(** *** Scheduling *)

Lemma wakeups_signal p1 ws ws' l w :
  wakes (Signal :: l) ws ws' -> w ∈ ws -> Exited ∉ ws ->
  shutdown p1 = false \/ is_running w = true -> wakeups_ok p1 ws'.
Proof.
  intros Hk Hw Hx Hor. pose proof (wakes_woken _ _ _ Hk) as Hwk. split.
  - intros _. eapply signal_awake; [exact Hk | exact Hw |]. intros ->. done.
  - intros Hs H0 _. destruct Hor as [|Hr]; [congruence|].
    rewrite (woken_count is_running _ _ eq_refl Hwk) in H0.
    rewrite (count_zero _ _ _ H0 Hw) in Hr. done.
  - intros H. exfalso. apply Hx, (woken_elem _ _ _ Hwk H). done.
Qed.

Lemma push_buffers p i b t :
  buffers_ok p -> task_prio_buffer p !! i = Some b -> task_for i t ->
  ring_used b < capacity b - 1 -> buffers_ok (set_buffer p i (ring_push b t)).
Proof.
  intros Hb Hi Ht Hu. destruct (bo_ring p Hb i b Hi) as [Hring Hcap].
  apply set_buffer_ok; [done | by apply ring_push_ok | done |].
  rewrite ring_push_contents; [|done|].
  - apply Forall_app. split; [by apply (bo_tasks p Hb) | by apply Forall_singleton].
  - by apply ring_room.
Qed.

Lemma push_used p i b (t : context) :
  buffers_ok p -> task_prio_buffer p !! i = Some b -> ring_used b < capacity b - 1 ->
  ring_used (ring_push b t) = ring_used b + 1.
Proof.
  intros Hb Hi Hu. destruct (bo_ring p Hb i b Hi) as [Hring Hcap].
  apply ring_push_used; [done | by apply ring_room].
Qed.

(** A slot granted to a new chain leaves one for every running chain. *)
Lemma new_slot_reserved p ws i b (t : context) prio :
  buffers_ok p -> counters_ok p ws -> priority_index prio = Some i ->
  task_prio_buffer p !! i = Some b -> ring_used b < capacity b - 1 ->
  (if bool_decide (prio = PRIORITY_BLOCKING) then max_blocking_threads p else num_threads p)
    < capacity b - 1 - ring_used b ->
  reserve_ok p ws -> reserve_ok (set_buffer p i (ring_push b t)) ws.
Proof.
  intros Hb Hc Hprio Hi Hu Hg Hr j b1 Hj. cbn in Hj.
  apply list_lookup_insert_Some in Hj as [(-> & <- & _)|(_ & Hj)]; [|by apply Hr].
  rewrite (push_used p j b t Hb Hi Hu). cbn [capacity ring_push].
  destruct Hc as [Hct Hcs Hca Hcb Hcc Hctk]. case_bool_decide as E.
  - subst prio. injection Hprio as <-.
    assert (count (may_continue 2) ws <= count runs_blocking ws).
    { apply count_mono. intros [| |t' []|] H; try done. cbn in *.
      apply bool_decide_eq_true_1, priority_index_blocking in H. unfold is_blocking_task.
      by apply bool_decide_eq_true_2. }
    lia.
  - pose proof (count_le (may_continue j) ws). lia.
Qed.

Lemma some_worker p ws : counters_ok p ws -> exists w, w ∈ ws.
Proof.
  intros []. destruct ws as [|w ws]; cbn in *; [lia|]. exists w. left.
Qed.

Lemma step_new_inv p p' ws ws' f arg prio gen ok l :
  tc_thread_schedule_new p (Some f) arg prio gen = Some (ok, p', l) -> wakes l ws ws' ->
  pool_inv (p, ws) -> pool_inv (p', ws').
Proof.
  intros Hn Hk [Hb Hp Hr Hc Hw]. unfold tc_thread_schedule_new in Hn. cbn in *.
  destruct (shutdown p) eqn:Es.
  { injection Hn as <- <- <-. inversion Hk; subst. by split. }
  destruct (priority_index prio) as [i|] eqn:Ei; [|done]. cbn in Hn.
  destruct (task_prio_buffer p !! i) as [b|] eqn:Eb; [|done]. cbn in Hn.
  destruct (bo_ring p Hb i b Eb) as [Hring Hcap].
  rewrite enqueue_result in Hn by done. cbn [orb] in Hn.
  match type of Hn with context [if ?c then (true, _) else _] => destruct c eqn:Eg end;
    cbn [negb] in Hn; injection Hn as <- <- <-; [|inversion Hk; subst; by split].
  apply andb_true_iff in Eg as [Hu%Nat.ltb_lt Eg%Nat.ltb_lt]. pose proof (wakes_woken _ _ _ Hk) as Hwk.
  assert (Exited ∉ ws) as Hx by (intros H; destruct (wo_exit p ws Hw H); congruence).
  destruct (some_worker p ws Hc) as [w Hin]. split; cbn [fst snd].
  - by apply push_buffers.
  - destruct Hp. by split.
  - eapply woken_reserve; [exact Hwk|]. by eapply (new_slot_reserved p ws i b _ prio).
  - apply (woken_counters p ws ws' Hwk) in Hc. destruct Hc. by split.
  - apply (wakeups_signal _ ws ws' [] w Hk); [done | done | by left].
Qed.

(** *** Continuing a chain *)

Lemma continue_counters p ws i t c :
  ws !! i = Some (Running t false) -> counters_ok p ws -> counters_ok p (<[i := Running t c]> ws).
Proof.
  intros Hi [Hct Hcs Hca Hcb Hcc Hctk].
  pose proof (count_insert is_running ws i _ (Running t c) Hi) as Hrun.
  pose proof (count_insert runs_blocking ws i _ (Running t c) Hi) as Hrb.
  cbn [is_running runs_blocking bit] in *. split; rewrite ?length_insert; try lia.
  intros t' c' [[= -> ->]|H]%elem_of_insert_inv; [|by apply (Hctk t' c')].
  apply (Hctk t false). apply list_elem_of_lookup. by exists i.
Qed.

Lemma continue_reserve p ws i t c :
  ws !! i = Some (Running t false) -> reserve_ok p ws -> reserve_ok p (<[i := Running t c]> ws).
Proof.
  intros Hi Hr j b Hj. specialize (Hr j b Hj).
  pose proof (count_insert (may_continue j) ws i _ (Running t c) Hi) as H.
  cbn [may_continue] in H. destruct c; cbn [bit] in H; lia.
Qed.

Lemma continue_wakeups p ws i t c :
  ws !! i = Some (Running t false) -> wakeups_ok p ws -> wakeups_ok p (<[i := Running t c]> ws).
Proof.
  intros Hi Hw. pose proof (elem_of_insert_eq ws i _ (Running t c) Hi) as Hin. split.
  - intros _. by exists (Running t c).
  - intros _ H0 _. by pose proof (count_zero _ _ _ H0 Hin).
  - intros [?|H]%elem_of_insert_inv; [done|]. destruct (wo_exit p ws Hw H) as (_ & H0 & _).
    assert (Running t false ∈ ws) as Hr by (apply list_elem_of_lookup; by exists i).
    by pose proof (count_zero _ _ _ H0 Hr).
Qed.

(** A running task that has not continued yet finds room in its buffer. *)
Lemma continuation_room p ws i t k b :
  pool_inv (p, ws) -> ws !! i = Some (Running t false) ->
  priority_index (ctx_priority t) = Some k -> task_prio_buffer p !! k = Some b ->
  ring_used b < capacity b - 1.
Proof.
  intros [Hb Hp Hr Hc Hw] Hi Hk Hbk. cbn in *. specialize (Hr k b Hbk).
  assert (0 < count (may_continue k) ws); [|lia].
  apply (count_pos _ _ (Running t false)); [apply list_elem_of_lookup; by exists i|].
  cbn. by apply bool_decide_eq_true_2.
Qed.

Lemma continued_reserve p ws i t k b (t' : context) :
  pool_inv (p, ws) -> ws !! i = Some (Running t false) ->
  priority_index (ctx_priority t) = Some k -> task_prio_buffer p !! k = Some b ->
  reserve_ok (set_buffer p k (ring_push b t')) (<[i := Running t true]> ws).
Proof.
  intros HI Hi Hk Hbk j b1 Hj. pose proof (continuation_room p ws i t k b HI Hi Hk Hbk) as Hu.
  destruct HI as [Hb Hp Hr Hc Hw]. cbn in *.
  pose proof (count_insert (may_continue j) ws i _ (Running t true) Hi) as Hcnt.
  cbn [may_continue bit] in Hcnt.
  apply list_lookup_insert_Some in Hj as [(-> & <- & _)|(Hne & Hj)].
  - rewrite bool_decide_eq_true_2 in Hcnt by done. specialize (Hr j b Hbk). cbn [bit] in Hcnt.
    rewrite (push_used p j b t' Hb Hbk Hu). cbn [capacity ring_push]. lia.
  - specialize (Hr j b1 Hj). rewrite bool_decide_eq_false_2 in Hcnt by congruence.
    cbn [bit] in Hcnt. lia.
Qed.

(** Both continuation functions: the next task of the chain is stored. *)
Lemma continue_push_inv p ws ws' i t k b f arg gen :
  pool_inv (p, ws) -> ws !! i = Some (Running t false) ->
  priority_index (ctx_priority t) = Some k -> task_prio_buffer p !! k = Some b ->
  wakes [Signal] (<[i := Running t true]> ws) ws' ->
  pool_inv (set_buffer p k (ring_push b (Context (ctx_priority t) (Some f) arg gen)), ws').
Proof.
  intros HI Hi Hk Hbk Hkk. pose proof (continuation_room p ws i t k b HI Hi Hk Hbk) as Hu.
  pose proof (continued_reserve p ws i t k b (Context (ctx_priority t) (Some f) arg gen) HI Hi Hk Hbk) as Hr'.
  destruct HI as [Hb Hp Hr Hc Hw]. cbn in *. pose proof (wakes_woken _ _ _ Hkk) as Hwk.
  pose proof (continue_counters p ws i t true Hi Hc) as Hc'.
  pose proof (continue_wakeups p ws i t true Hi Hw) as Hw'.
  pose proof (elem_of_insert_eq ws i _ (Running t true) Hi) as Hin. split; cbn [fst snd].
  - apply push_buffers; [done | done | by split; eauto | done].
  - destruct Hp. by split.
  - by eapply woken_reserve.
  - apply (woken_counters _ _ _ Hwk) in Hc' as []. by split.
  - apply (wakeups_signal _ _ _ _ _ Hkk Hin); [|by right]. intros H.
    destruct (wo_exit _ _ Hw' H) as (_ & H0 & _). by pose proof (count_zero _ _ _ H0 Hin).
Qed.

Lemma running_index p ws i t c :
  pool_inv (p, ws) -> ws !! i = Some (Running t c) ->
  exists k b, priority_index (ctx_priority t) = Some k /\ task_prio_buffer p !! k = Some b.
Proof.
  intros [Hb Hp Hr Hc Hw] Hi. cbn in *.
  destruct (co_tasks p ws Hc t c) as (k & Hk & _); [apply list_elem_of_lookup; by exists i|].
  pose proof (priority_index_lt _ _ Hk) as Hlt. rewrite <- (bo_length p Hb) in Hlt.
  destruct (lookup_lt_is_Some_2 _ _ Hlt) as [b Hb']. by exists k, b.
Qed.

(** The enqueue of a continuation succeeds. *)
Lemma continuation_enqueued p ws i t k b (t' : context) blk :
  pool_inv (p, ws) -> ws !! i = Some (Running t false) ->
  priority_index (ctx_priority t) = Some k -> task_prio_buffer p !! k = Some b ->
  task_buffer_enqueue p b t' true blk = (true, ring_push b t').
Proof.
  intros HI Hi Hk Hbk. pose proof (continuation_room p ws i t k b HI Hi Hk Hbk) as Hu.
  destruct (bo_ring p (pi_buffers _ HI) k b Hbk) as [Hring _].
  rewrite enqueue_result by done. apply Nat.ltb_lt in Hu. by rewrite Hu.
Qed.

Lemma step_next_inv i p p' ws ws' t f g arg gen l :
  ws !! i = Some (Running t false) ->
  tc_thread_schedule_next p f g arg (ctx_priority t) gen = Some (p', l) ->
  wakes l (<[i := Running t true]> ws) ws' -> pool_inv (p, ws) -> pool_inv (p', ws').
Proof.
  intros Hi Hn Hk HI. destruct (running_index p ws i t false HI Hi) as (k & b & Hkx & Hbk).
  unfold tc_thread_schedule_next in Hn.
  destruct (if shutdown p then g else f) as [h|].
  - rewrite Hkx in Hn. cbn [mbind option_bind] in Hn. rewrite Hbk in Hn. cbn [mbind option_bind] in Hn.
    erewrite continuation_enqueued in Hn by done. injection Hn as <- <-.
    by eapply continue_push_inv.
  - injection Hn as <- <-. inversion Hk; subst. destruct HI as [Hb Hp Hr Hc Hw].
    split; cbn in *; eauto using continue_reserve, continue_counters, continue_wakeups.
Qed.

Lemma step_next2_inv i p p' ws ws' t f arg gen ok l :
  ws !! i = Some (Running t false) ->
  tc_thread_schedule_next2 p f arg (ctx_priority t) gen = Some (ok, p', l) ->
  wakes l (<[i := Running t ok]> ws) ws' -> pool_inv (p, ws) -> pool_inv (p', ws').
Proof.
  intros Hi Hn Hk HI. destruct (running_index p ws i t false HI Hi) as (k & b & Hkx & Hbk).
  unfold tc_thread_schedule_next2 in Hn.
  destruct (shutdown p); [|destruct f as [h|]].
  - injection Hn as <- <- <-. inversion Hk; subst. by rewrite list_insert_id.
  - rewrite Hkx in Hn. cbn [mbind option_bind] in Hn. rewrite Hbk in Hn. cbn [mbind option_bind] in Hn.
    erewrite continuation_enqueued in Hn by done. injection Hn as <- <- <-.
    by eapply continue_push_inv.
  - injection Hn as <- <- <-. inversion Hk; subst. by rewrite list_insert_id.
Qed.

(** *** Shutdown and the end of a task *)

Lemma step_stop_inv p p' ws ws' l :
  tc_thread_pool_stop p = (p', l) -> wakes l ws ws' -> pool_inv (p, ws) -> pool_inv (p', ws').
Proof.
  intros [= <- <-] Hk [Hb Hp Hr Hc Hw]. cbn in *. pose proof (wakes_woken _ _ _ Hk) as Hwk.
  pose proof (broadcast_no_waiting _ _ _ Hk (list_elem_of_here _ _)) as Hnw.
  split; cbn; [by destruct Hb | by destruct Hp | by eapply woken_reserve | |].
  - apply (woken_counters _ _ _ Hwk) in Hc as []. by split.
  - split; [|done|].
    + intros H. destruct (wo_live p ws Hw H) as (w & Hin & Ha). by eapply woken_awake.
    + intros H. apply (woken_elem _ _ _ Hwk) in H; [|done].
      destruct (wo_exit p ws Hw H) as (_ & ? & ?).
      by rewrite (woken_count is_running _ _ eq_refl Hwk).
Qed.

Lemma finish_reserve p ws i t c a k :
  ws !! i = Some (Running t c) -> reserve_ok p ws ->
  reserve_ok (set_counters p a k) (<[i := Idle]> ws).
Proof.
  intros Hi Hr j b Hj. specialize (Hr j b Hj).
  pose proof (count_insert (may_continue j) ws i _ Idle Hi) as H. cbn [may_continue bit] in H. lia.
Qed.

Lemma finish_counters p ws i t c :
  ws !! i = Some (Running t c) -> counters_ok p ws ->
  counters_ok (fst (worker_finish p (is_blocking_task t))) (<[i := Idle]> ws).
Proof.
  intros Hi [Hct Hcs Hca Hcb Hcc Hctk].
  pose proof (count_insert is_running ws i _ Idle Hi) as Hrun.
  pose proof (count_insert runs_blocking ws i _ Idle Hi) as Hrb.
  cbn [is_running runs_blocking bit] in *.
  split; cbn; rewrite ?length_insert; try lia.
  - destruct (is_blocking_task t); cbn [bit] in Hrb; lia.
  - destruct (is_blocking_task t); lia.
  - intros t' c' [?|H]%elem_of_insert_inv; [done | by apply (Hctk t' c')].
Qed.

Lemma finish_wakeups p p1 ws ws' i t c l :
  ws !! i = Some (Running t c) -> worker_finish p (is_blocking_task t) = (p1, l) ->
  wakes l (<[i := Idle]> ws) ws' -> counters_ok p1 ws' -> wakeups_ok p ws -> wakeups_ok p1 ws'.
Proof.
  intros Hi Hf Hk Hc Hw. pose proof (wakes_woken _ _ _ Hk) as Hwk. split.
  - intros _. eapply (woken_awake _ _ Idle Hwk); [by eapply elem_of_insert_eq | done].
  - intros Hs H0 Hn. eapply broadcast_no_waiting; [exact Hk|].
    pose proof (co_active _ _ Hc) as Ha. rewrite H0 in Ha.
    unfold worker_finish in Hf. apply pair_equal_spec in Hf as [Hp1 Hl]. rewrite Hp1 in Hl.
    rewrite Hs, Ha, Hn in Hl. cbn in Hl. rewrite <- Hl. apply elem_of_app. right. left.
  - intros H. exfalso. apply (woken_elem _ _ _ Hwk) in H; [|done].
    apply elem_of_insert_inv in H as [?|H]; [done|]. destruct (wo_exit _ _ Hw H) as (_ & H0 & _).
    assert (Running t c ∈ ws) as Hr by (apply list_elem_of_lookup; by exists i).
    by pose proof (count_zero _ _ _ H0 Hr).
Qed.

Lemma step_finish_inv i p p' ws ws' t c l :
  ws !! i = Some (Running t c) -> worker_finish p (is_blocking_task t) = (p', l) ->
  wakes l (<[i := Idle]> ws) ws' -> pool_inv (p, ws) -> pool_inv (p', ws').
Proof.
  intros Hi Hf Hk [Hb Hp Hr Hc Hw]. cbn in *. pose proof (wakes_woken _ _ _ Hk) as Hwk.
  pose proof (finish_counters p ws i t c Hi Hc) as Hc'. rewrite Hf in Hc'. cbn in Hc'.
  apply (woken_counters _ _ _ Hwk) in Hc'.
  pose proof (finish_wakeups p p' ws ws' i t c l Hi Hf Hk Hc' Hw) as Hw'.
  injection Hf as <- _. split; cbn; [by destruct Hb | by destruct Hp | | done | done].
  eapply woken_reserve; [exact Hwk|]. by eapply finish_reserve.
Qed.

Lemma pool_step_inv s s' : pool_step s s' -> pool_inv s -> pool_inv s'.
Proof.
  intros H. destruct H; eauto using step_run_inv, step_wait_inv, step_exit_inv, step_spurious_inv,
    step_new_inv, step_next_inv, step_next2_inv, step_stop_inv, step_finish_inv.
Qed.

(** *** The start *)

Lemma init_num_threads_range ideal reserved n :
  (0 < ideal < 2 ^ 31)%Z -> (0 <= reserved < 2 ^ 31)%Z ->
  init_num_threads ideal reserved = Some n -> (1 <= n <= 16)%Z /\ (n <= ideal - reserved)%Z.
Proof.
  intros Hi Hr. unfold init_num_threads, TC_THREADS_MAX_THREADS.
  rewrite wrapu_small by width_lia. destruct (Z.leb_spec ideal reserved); [done|].
  rewrite wraps_small by width_lia. case_bools; intros [= <-]; lia.
Qed.

Lemma count_idle f n : f Idle = false -> count f (replicate n Idle) = 0.
Proof. intros Hf. unfold count. induction n; cbn; [done|]. rewrite Hf. cbn. lia. Qed.

Lemma initial_buffers_inv (high medium blocking low : list context) i b :
  initial_buffers high medium blocking low !! i = Some b ->
  length high = 64 -> length medium = 128 -> length blocking = 128 -> length low = 256 ->
  ring_ok b /\ capacity b = buffer_capacity i /\ ring_contents b = [].
Proof.
  intros Hb H1 H2 H3 H4. unfold initial_buffers in Hb.
  destruct i as [|[|[|[|i]]]]; cbn in Hb; try done; injection Hb as <-;
    (split_and!; [apply init_ring_ok; [assumption | by apply Nat.ltb_lt] | done
                 | by apply init_ring_contents, Nat.ltb_lt]).
Qed.

Lemma initial_inv s : initial s -> pool_inv s.
Proof.
  destruct s as [p ws]. intros (ideal & pat & res & mb & hi & me & bl & lo & ok & Hinit & L1 & L2 & L3 & L4
    & Hne & Hlet & Hid & Hre & Hws). cbn [fst snd] in *. unfold tc_thread_pool_init in Hinit.
  destruct (init_num_threads ideal res) as [n|] eqn:En; [|done]. cbn in Hinit.
  destruct (init_num_threads_range _ _ _ Hid Hre En) as [Hn _].
  destruct (forallb ok _); [|done]. injection Hinit as <-. cbn in Hws. subst ws.
  assert (forall w, w ∈ replicate (Z.to_nat n) Idle -> w = Idle) as Hall
    by (intros w H; by apply elem_of_replicate in H as [-> _]).
  split; cbn [fst snd].
  - split; cbn [task_prio_buffer]; [done | |]; intros i b Hb;
      destruct (initial_buffers_inv _ _ _ _ _ _ Hb L1 L2 L3 L4) as (? & ? & Hc); [done |].
    rewrite Hc. constructor.
  - split; cbn; [done | done | lia].
  - intros i b Hb. cbn in Hb.
    destruct (initial_buffers_inv _ _ _ _ _ _ Hb L1 L2 L3 L4) as (? & ? & Hc).
    rewrite count_idle by done. apply (f_equal length) in Hc. rewrite length_ring_contents in Hc.
    cbn in Hc. lia.
  - split; cbn; rewrite ?count_idle, ?length_replicate by done; try lia.
    intros t c H%Hall. done.
  - split.
    + intros _. exists Idle. split; [|done]. apply elem_of_replicate. split; [done | lia].
    + intros _ _ _ H%Hall. done.
    + intros H%Hall. done.
Qed.

Lemma reachable_inv s : reachable s -> pool_inv s.
Proof.
  intros (s0 & Hi & Hs). apply (star_invariant pool_step pool_inv pool_step_inv s0 s Hs).
  by apply initial_inv.
Qed.
End System.
