(* ===== verification/ThreadPoolExample.v ===== *)
(** * A pool to try things on

    A concrete pool and some of the states it reaches, for the theorems'
    instances. *)

From S2P Require Import Prelude ThreadPool ThreadPoolSystem.

Local Open Scope nat_scope.

(** A small pool, used by the witnesses: one worker of each of three threads,
    the pattern "ABCD", arguments of any type [A]. *)
Section Example_pool.
Variable A : Type.

Definition ex_slot : tc_thread_pool_context unit A := null_context.

Definition ex_pool : tc_thread_pool unit A :=
  ThreadPool (initial_buffers (replicate 64 ex_slot) (replicate 128 ex_slot)
                (replicate 128 ex_slot) (replicate 256 ex_slot))
    [65; 66; 67; 68]%Z 3 0 0%Z 0 2 false.

Definition ex_start : @system unit A := (ex_pool, replicate 3 Idle).

Definition ex_task (q : tc_thread_pool_task_priority) (g : Z) : tc_thread_pool_context unit A :=
  Context q (Some tt) None g.

(** The pool after a step that must succeed. *)
Definition pool_of {R} (r : option (R * tc_thread_pool unit A * list wakeup)) : tc_thread_pool unit A :=
  match r with Some (_, p, _) => p | None => ex_pool end.

Definition ex_scheduled (q : tc_thread_pool_task_priority) : tc_thread_pool unit A :=
  pool_of (tc_thread_schedule_new ex_pool (Some tt) None q 7).

Definition ex_taken (p : tc_thread_pool unit A) : tc_thread_pool unit A :=
  match worker_take p with TurnRun _ p' => p' | _ => ex_pool end.

Lemma ex_start_reachable : reachable ex_start.
Proof.
  exists ex_start. split; [|constructor].
  exists 4%Z, [65; 66; 67; 68]%Z, 1%Z, 2, (replicate 64 ex_slot), (replicate 128 ex_slot),
    (replicate 128 ex_slot), (replicate 256 ex_slot), (fun _ => true).
  split_and!; try done; try lia. repeat constructor; lia.
Qed.

Lemma ex_scheduled_reachable q :
  q <> PRIORITY_INVALID -> reachable (ex_scheduled q, replicate 3 Idle).
Proof.
  intros Hq. destruct ex_start_reachable as (s0 & Hi & Hs). exists s0. split; [done|].
  eapply star_trans; [exact Hs|]. eapply star_one.
  apply (step_new _ _ _ _ tt None q 7 true [Signal]); [by destruct q|].
  apply wakes_signal_lost; [|constructor]. intros H. by apply elem_of_replicate in H as [? _].
Qed.

Lemma ex_running_reachable q :
  q <> PRIORITY_INVALID ->
  reachable (ex_taken (ex_scheduled q), [Running (ex_task q 7) false; Idle; Idle]).
Proof.
  intros Hq. destruct (ex_scheduled_reachable q Hq) as (s0 & Hi & Hs). exists s0. split; [done|].
  eapply star_trans; [exact Hs|]. apply star_one.
  apply (step_run 0 _ _ (replicate 3 Idle)); [done | by destruct q].
Qed.

Lemma ex_exited_reachable :
  reachable (fst (tc_thread_pool_stop ex_pool), [Exited; Idle; Idle]).
Proof.
  destruct ex_start_reachable as (s0 & Hi & Hs). exists s0. split; [done|].
  eapply star_trans; [exact Hs|]. eapply star_trans.
  { apply star_one. eapply step_stop; [reflexivity|]. apply wakes_broadcast. apply wakes_nil. }
  apply star_one. apply (step_exit 0); [done | done |]. apply wakes_broadcast. apply wakes_nil.
Qed.
End Example_pool.
