(* ===== verification/ThreadPoolProps.v ===== *)
(** * What the thread pool promises

    The ring buffers refine bounded first-in first-out queues, and the system
    of workers of [ThreadPoolSystem] keeps its promises in every reachable
    state: no fault and no empty task, the cap on blocking tasks, room for
    every continuation of a running chain, no lost wake-up, and a shutdown
    that drains the queues. *)

From S2P Require Import Prelude ThreadPool ThreadPoolSpec ThreadPoolSystem ThreadPoolExample.

Local Open Scope nat_scope.

(** ** Ring buffers refine bounded queues *)

Section Queue.
Context {F A : Type}.
Abbreviation context := (tc_thread_pool_context F A).
Implicit Types (p : tc_thread_pool F A) (b : tc_thread_pool_task_buf F A).

Inductive queue_op :=
| Enqueue (t : context) (is_yield is_blocking : bool)
| Dequeue.

Inductive queue_answer :=
| Enqueued (ok : bool)
| Dequeued (t : context).

(** The C code, one operation after the other. *)
Definition ring_exec p b (op : queue_op) : queue_answer * tc_thread_pool_task_buf F A :=
  match op with
  | Enqueue t y k => let '(ok, b') := task_buffer_enqueue p b t y k in (Enqueued ok, b')
  | Dequeue => let '(t, b') := task_buffer_dequeue b in (Dequeued t, b')
  end.

(** The specification: a list with room for [n] tasks, of which a new chain
    leaves [reserved] free. *)
Definition queue_exec p (n : nat) (q : list context) (op : queue_op) :
    queue_answer * list context :=
  match op with
  | Enqueue t y k =>
      let reserved := if k then max_blocking_threads p else num_threads p in
      if (length q <? n) && (y || (reserved <? n - length q))
      then (Enqueued true, q ++ [t]) else (Enqueued false, q)
  | Dequeue =>
      match q with [] => (Dequeued null_context, []) | t :: q' => (Dequeued t, q') end
  end.

Fixpoint exec_all {S} (exec : S -> queue_op -> queue_answer * S) (s : S) (ops : list queue_op) :
    list queue_answer * S :=
  match ops with
  | [] => ([], s)
  | op :: ops' =>
      let '(a, s') := exec s op in
      let '(r, s'') := exec_all exec s' ops' in (a :: r, s'')
  end.

Lemma ring_exec_refines p b op :
  ring_ok b ->
  fst (ring_exec p b op) = fst (queue_exec p (capacity b - 1) (ring_contents b) op) /\
  ring_contents (snd (ring_exec p b op)) = snd (queue_exec p (capacity b - 1) (ring_contents b) op) /\
  ring_ok (snd (ring_exec p b op)) /\ capacity (snd (ring_exec p b op)) = capacity b.
Proof.
  intros H. destruct op as [t y k|]; cbn [ring_exec queue_exec].
  - rewrite enqueue_result, length_ring_contents by done.
    destruct (ring_used b <? capacity b - 1) eqn:Eu; cbn [andb]; [|done].
    destruct (y || _); [|done]. cbn [fst snd]. split_and!; try done; [|by apply ring_push_ok].
    apply ring_push_contents; [done|]. apply ring_room; [done | by apply Nat.ltb_lt].
  - destruct (task_buffer_is_empty b) eqn:Ee.
    + assert (ring_contents b = []) as ->.
      { apply nil_length_inv. rewrite length_ring_contents. rewrite ring_empty in Ee by done.
        by apply Nat.eqb_eq. }
      unfold task_buffer_dequeue. unfold task_buffer_is_empty in Ee. rewrite Ee. cbn.
      split_and!; try done. apply nil_length_inv. rewrite length_ring_contents.
      pose proof (ring_empty b H) as E. unfold task_buffer_is_empty in E. rewrite Ee in E.
      symmetry in E. by apply Nat.eqb_eq.
    + pose proof (dequeue_contents b H Ee) as Ec. rewrite Ec.
      rewrite (dequeue_pop b Ee) in *. cbn in *. split_and!; try done. by apply ring_pop_ok.
Qed.

(** C3. A task buffer is a bounded queue: whatever sequence of enqueue and
    dequeue operations is run on a well-formed ring buffer, the answers are
    those of a first-in first-out list of at most [capacity - 1] tasks that
    keeps the reserved slots free of new chains, and the ring ends up
    holding that list. *)
Theorem ring_refines_queue p b ops :
  ring_ok b ->
  let '(answers, b') := exec_all (ring_exec p) b ops in
  exec_all (queue_exec p (capacity b - 1)) (ring_contents b) ops = (answers, ring_contents b') /\
  ring_ok b' /\ capacity b' = capacity b.
Proof.
  revert b. induction ops as [|op ops IH]; intros b H; [done|]. cbn [exec_all].
  destruct (ring_exec_refines p b op H) as (Ea & Ec & Hok & Hcap).
  destruct (ring_exec p b op) as [a b1], (queue_exec p _ (ring_contents b) op) as [a' q1].
  cbn [fst snd] in *. subst a' q1. specialize (IH b1 Hok). rewrite Hcap in IH.
  destruct (exec_all (ring_exec p) b1 ops) as [r b2]. destruct IH as (-> & ? & ?). done.
Qed.
End Queue.


Lemma ring_refines_queue_witness :
  ring_ok (init_task_buffer (replicate 4 (ex_slot unit)) 4) /\
  let '(answers, b') := exec_all (ring_exec (ex_pool unit)) (init_task_buffer (replicate 4 (ex_slot unit)) 4)
      [Enqueue (ex_task unit PRIORITY_HIGH 1) true false; Enqueue (ex_task unit PRIORITY_HIGH 2) false false; Dequeue] in
  exec_all (queue_exec (ex_pool unit) 3) [] 
      [Enqueue (ex_task unit PRIORITY_HIGH 1) true false; Enqueue (ex_task unit PRIORITY_HIGH 2) false false; Dequeue]
    = (answers, ring_contents b') /\ ring_ok b' /\ capacity b' = 4.
Proof.
  assert (ring_ok (init_task_buffer (replicate 4 (ex_slot unit)) 4)) as H by (repeat split; cbn; lia).
  split; [exact H|].
  exact (ring_refines_queue (ex_pool unit) _
    [Enqueue (ex_task unit PRIORITY_HIGH 1) true false; Enqueue (ex_task unit PRIORITY_HIGH 2) false false; Dequeue] H).
Defined.

(** ** Reachable states *)

Section Promises.
Context {F A : Type}.
Implicit Types (p : tc_thread_pool F A) (t : tc_thread_pool_context F A) (ws : list (@worker F A)).

Lemma not_eligible p : thread_pool_has_tasks p = false -> forall i, i < 4 -> buffer_eligible p i = false.
Proof.
  intros H i Hi. destruct (buffer_eligible p i) eqn:E; [|done].
  assert (thread_pool_has_tasks p = true); [|congruence]. apply has_tasks_spec. by exists i.
Qed.

(** C8. In every reachable state a worker's turn is defined, and it runs a
    task with a function: the oldest task of the first eligible buffer in
    cyclic order from the pattern's next letter.  It waits or leaves only
    when no buffer is eligible, and leaves only after shutdown with no task
    running. *)
Theorem worker_turn_spec p ws :
  reachable (p, ws) ->
  match worker_take p with
  | TurnFault => False
  | TurnWait => forall i, i < 4 -> buffer_eligible p i = false
  | TurnExit => (forall i, i < 4 -> buffer_eligible p i = false) /\
                shutdown p = true /\ count is_running ws = 0
  | TurnRun t p' =>
      exists k b, let i := (pattern_priority p + k) mod 4 in
        k < 4 /\ buffer_eligible p i = true /\
        (forall j, j < k -> buffer_eligible p ((pattern_priority p + j) mod 4) = false) /\
        task_prio_buffer p !! i = Some b /\ head (ring_contents b) = Some t /\
        task_prio_buffer p' = <[i := ring_pop b]> (task_prio_buffer p) /\
        task_for i t
  end.
Proof.
  intros [Hb Hp Hr Hc Hw]%reachable_inv. cbn in *.
  destruct (worker_take p) as [| | |t p'] eqn:E.
  - unfold worker_take in E. destruct (thread_pool_has_tasks p) eqn:Eh; cbn [negb] in E;
      [destruct (task_pool_dequeue p) as [[]|]; done|].
    destruct (shutdown p); cbn [andb] in E; [|done].
    destruct (Z.eqb_spec (active_threads p) 0) as [E0|]; [|done].
    split_and!; [by apply not_eligible | done |]. pose proof (co_active p ws Hc). lia.
  - unfold worker_take in E. destruct (thread_pool_has_tasks p) eqn:Eh; cbn [negb] in E;
      [destruct (task_pool_dequeue p) as [[]|]; done | by apply not_eligible].
  - unfold worker_take in E. destruct (thread_pool_has_tasks p); cbn [negb] in E; [|destruct (_ && _); done].
    unfold task_pool_dequeue in E.
    pose proof (pattern_cell_letter p _ Hp (round_robin_position_lt p Hp)).
    destruct (Z.leb_spec 0 (pattern_cell p (round_robin_position p) - 65)); [|lia].
    destruct (Z.ltb_spec (pattern_cell p (round_robin_position p) - 65) 4); [|lia].
    cbn [andb] in E. by destruct (dequeue_loop _ _ _).
  - destruct (worker_take_run p t p' Hb Hp E) as (k & b & Hk & Hel & Hpre & Hbk & Hne & Hcont & ->).
    exists k, b. cbn zeta. split_and!; try done; [by rewrite Hcont|].
    pose proof (bo_tasks p Hb _ b Hbk) as Ht. rewrite Hcont in Ht. by inversion Ht.
Qed.

(** C4. A running task can always continue its chain: in every reachable
    state, for a running task that has not continued yet, neither
    [tc_thread_schedule_next] nor [tc_thread_schedule_next2] at the task's
    own priority fails its assertion, whatever other threads scheduled. *)
Theorem continuation_never_fails p ws i t f g arg gen :
  reachable (p, ws) -> ws !! i = Some (Running t false) ->
  is_Some (tc_thread_schedule_next p f g arg (ctx_priority t) gen) /\
  is_Some (tc_thread_schedule_next2 p f arg (ctx_priority t) gen).
Proof.
  intros HI%reachable_inv Hi. destruct (running_index p ws i t false HI Hi) as (k & b & Hk & Hb).
  unfold tc_thread_schedule_next, tc_thread_schedule_next2. split.
  - destruct (if shutdown p then g else f); [|done]. rewrite Hk. cbn [mbind option_bind].
    rewrite Hb. cbn [mbind option_bind]. by erewrite continuation_enqueued by done.
  - destruct (shutdown p); [done|]. destruct f; [|done]. rewrite Hk. cbn [mbind option_bind].
    rewrite Hb. cbn [mbind option_bind]. by erewrite continuation_enqueued by done.
Qed.

(** C10. At most [max_blocking_threads] blocking tasks run at any time, and
    the pool's counters are exactly the numbers of running tasks. *)
Theorem blocking_cap p ws :
  reachable (p, ws) ->
  count runs_blocking ws <= max_blocking_threads p /\
  blocking_active p = count runs_blocking ws /\
  active_threads p = Z.of_nat (count is_running ws).
Proof. intros [_ _ _ [] _]%reachable_inv. cbn [fst snd] in *. split_and!; [lia | done | done]. Qed.

(** C11. No wake-up is lost: whenever a buffer holds a task that may run,
    some worker is awake (it will test the queue, or is running a task and
    will test it afterwards); workers never all sleep on runnable work. *)
Theorem no_stranded_task p ws i :
  reachable (p, ws) -> i < 4 -> buffer_eligible p i = true -> exists w, w ∈ ws /\ awake w = true.
Proof.
  intros [_ _ _ _ Hw]%reachable_inv Hi He. apply (wo_live p ws Hw), has_tasks_spec. by exists i.
Qed.

(** Shutdown cannot deadlock: after [tc_thread_pool_stop], as long as
    some worker has not left, some worker is awake. *)
Theorem shutdown_not_stuck p ws w :
  reachable (p, ws) -> shutdown p = true -> w ∈ ws -> w <> Exited -> exists w', w' ∈ ws /\ awake w' = true.
Proof.
  intros [_ _ _ _ Hw]%reachable_inv Hs Hin Hx. cbn in *.
  destruct (decide (0 < count is_running ws)) as [Hc|Hc].
  { apply count_pos_inv in Hc as (v & Hv & Hr). exists v. split; [done | by destruct v]. }
  destruct (thread_pool_has_tasks p) eqn:Eh; [by apply (wo_live p ws Hw)|].
  assert (Waiting ∉ ws) as Hnw by (apply (wo_drain p ws Hw); [done | lia | done]).
  exists w. split; [done|]. by destruct w.
Qed.

(** Shutdown drains: once any worker has left, no task is running and,
    when blocking tasks are allowed at all, every buffer is empty, so every
    task that was accepted has been run. *)
Theorem exit_drained p ws b :
  reachable (p, ws) -> Exited ∈ ws -> 0 < max_blocking_threads p -> b ∈ task_prio_buffer p ->
  ring_contents b = [] /\ count is_running ws = 0.
Proof.
  intros [Hb _ _ Hc Hw]%reachable_inv Hx Hm Hin. cbn in *.
  destruct (wo_exit p ws Hw Hx) as (_ & H0 & Hn). split; [|done].
  apply list_elem_of_lookup in Hin as [i Hi].
  pose proof (lookup_lt_Some _ _ _ Hi) as Hlt. rewrite (bo_length p Hb) in Hlt.
  pose proof (not_eligible p Hn i Hlt) as He. unfold buffer_eligible in He. rewrite Hi in He.
  destruct (bo_ring p Hb i b Hi) as [Hring _]. rewrite (ring_empty b Hring) in He.
  destruct (Nat.eqb_spec (ring_used b) 0) as [E|].
  { apply nil_length_inv. by rewrite length_ring_contents. }
  assert (blocking_active p = 0) as E0.
  { rewrite (co_blocking p ws Hc). apply Nat.le_0_r. rewrite <- H0. apply count_mono. by intros []. }
  rewrite E0 in He. destruct (i =? 2); cbn [andb] in He; [|done].
  destruct (Nat.leb_spec (max_blocking_threads p) 0); [lia | done].
Qed.

(** [tc_thread_schedule_new] on every branch, in any reachable state:
    it refuses after shutdown and when the buffer would not keep one slot
    per thread (or per allowed blocking thread) free for continuations, and
    otherwise appends the task to the buffer of its priority, changes no
    other buffer and signals one worker. *)
Theorem schedule_new_spec p ws f arg prio gen i :
  reachable (p, ws) -> priority_index prio = Some i ->
  exists b, task_prio_buffer p !! i = Some b /\
    let reserved := if bool_decide (prio = PRIORITY_BLOCKING) then max_blocking_threads p else num_threads p in
    if shutdown p || (capacity b - 1 <=? ring_used b + reserved)
    then tc_thread_schedule_new p f arg prio gen = Some (false, p, [])
    else exists b', tc_thread_schedule_new p f arg prio gen = Some (true, set_buffer p i b', [Signal]) /\
                    ring_ok b' /\ ring_contents b' = ring_contents b ++ [Context prio f arg gen].
Proof.
  intros [Hb _ _ _ _]%reachable_inv Hi. cbn in *. pose proof (priority_index_lt _ _ Hi) as Hlt.
  rewrite <- (bo_length p Hb) in Hlt. destruct (lookup_lt_is_Some_2 _ _ Hlt) as [b Hbi].
  exists b. split; [done|]. destruct (bo_ring p Hb i b Hbi) as [Hring _]. cbn zeta.
  unfold tc_thread_schedule_new. destruct (shutdown p); [done|]. rewrite Hi. cbn [mbind option_bind orb].
  rewrite Hbi. cbn [mbind option_bind]. rewrite enqueue_result by done. cbn [orb].
  set (r := if bool_decide _ then _ else _).
  pose proof (ring_used_lt b Hring) as Hused.
  destruct (Nat.leb_spec (capacity b - 1) (ring_used b + r)) as [Hfull|Hroom].
  - destruct (Nat.ltb_spec r (capacity b - 1 - ring_used b)); [lia|]. by rewrite andb_false_r.
  - destruct (Nat.ltb_spec (ring_used b) (capacity b - 1)); [|lia].
    destruct (Nat.ltb_spec r (capacity b - 1 - ring_used b)); [|lia]. cbn [andb negb].
    eexists. split; [done|]. split; [by apply ring_push_ok|]. apply ring_push_contents; [done|].
    by apply ring_room.
Qed.

(** [tc_thread_pool_init] gives up when the machine has no more threads
    than are reserved, or when a synchronisation object or a thread cannot
    be created, and otherwise starts between 1 and 16 workers, never more
    than the unreserved ones; [max_blocking_threads] is stored as given. *)
Theorem init_spec ideal pattern reserved mb (hi me bl lo : list (tc_thread_pool_context F A)) m c th :
  (0 < ideal < 2 ^ 31)%Z -> (0 <= reserved < 2 ^ 31)%Z ->
  match tc_thread_pool_init ideal pattern reserved mb hi me bl lo m c th with
  | None => (ideal <= reserved)%Z \/ m = false \/ c = false \/
            exists i, i < 16 /\ th i = false
  | Some p => (reserved < ideal)%Z /\
              Z.of_nat (num_threads p) = Z.min 16 (ideal - reserved) /\
              max_blocking_threads p = mb /\ active_threads p = 0%Z /\
              thread_pool_has_tasks p = false /\ shutdown p = false
  end.
Proof.
  intros Hi Hr. unfold tc_thread_pool_init.
  destruct (init_num_threads ideal reserved) as [n|] eqn:En.
  - destruct (init_num_threads_range _ _ _ Hi Hr En) as [Hn Hn'].
    destruct m; cbn [negb]; [|auto]. destruct c; cbn [negb]; [|auto].
    destruct (forallb th _) eqn:Eth.
    + cbn. split_and!; try done; [lia|]. rewrite Z2Nat.id by lia.
      unfold init_num_threads, TC_THREADS_MAX_THREADS in En. rewrite wrapu_small in En by width_lia.
      destruct (Z.leb_spec ideal reserved); [done|]. rewrite wraps_small in En by width_lia.
      destruct (Z.leb_spec (Z.of_nat 16) (ideal - reserved)); injection En as <-; lia.
    + right; right; right. apply forallb_false in Eth as (i & Hin & Hfalse).
      apply elem_of_seq in Hin. exists i. split; [lia | done].
  - left. unfold init_num_threads in En. rewrite wrapu_small in En by width_lia.
    destruct (Z.leb_spec ideal reserved); [done|]. done.
Qed.
End Promises.

(** The cap on blocking tasks is not clamped to what a buffer can hold:
    a pool whose [max_blocking_threads] is at least 127 refuses every new
    blocking task, whatever state it has reached. *)
Theorem blocking_starved {F A} (p : tc_thread_pool F A) ws f arg gen :
  reachable (p, ws) -> 127 <= max_blocking_threads p ->
  tc_thread_schedule_new p f arg PRIORITY_BLOCKING gen = Some (false, p, []).
Proof.
  intros [Hb _ _ _ _]%reachable_inv Hm. cbn in *.
  destruct (lookup_lt_is_Some_2 (task_prio_buffer p) 2) as [b Hbi]; [rewrite (bo_length p Hb); lia|].
  destruct (bo_ring p Hb 2 b Hbi) as [Hring Hcap]. cbn in Hcap.
  unfold tc_thread_schedule_new. destruct (shutdown p); [done|]. cbn [priority_index mbind option_bind].
  rewrite Hbi. cbn [mbind option_bind]. rewrite enqueue_result by done. cbn [orb].
  rewrite bool_decide_eq_true_2 by done. rewrite Hcap.
  destruct (Nat.ltb_spec (max_blocking_threads p) (128 - 1 - ring_used b)); [lia|].
  by rewrite andb_false_r.
Qed.

(** ** Witnesses *)

Lemma worker_turn_spec_witness :
  reachable (ex_scheduled unit PRIORITY_LOW, replicate 3 Idle) /\
  match worker_take (ex_scheduled unit PRIORITY_LOW) with
  | TurnRun t p' => exists k b, let i := (pattern_priority (ex_scheduled unit PRIORITY_LOW) + k) mod 4 in
      k < 4 /\ buffer_eligible (ex_scheduled unit PRIORITY_LOW) i = true /\
      (forall j, j < k -> buffer_eligible (ex_scheduled unit PRIORITY_LOW) ((pattern_priority (ex_scheduled unit PRIORITY_LOW) + j) mod 4) = false) /\
      task_prio_buffer (ex_scheduled unit PRIORITY_LOW) !! i = Some b /\ head (ring_contents b) = Some t /\
      task_prio_buffer p' = <[i := ring_pop b]> (task_prio_buffer (ex_scheduled unit PRIORITY_LOW)) /\
      task_for i t
  | _ => False
  end.
Proof.
  assert (reachable (ex_scheduled unit PRIORITY_LOW, replicate 3 Idle)) as H by by apply (ex_scheduled_reachable unit).
  split; [exact H|]. pose proof (worker_turn_spec _ _ H) as W.
  destruct (worker_take (ex_scheduled unit PRIORITY_LOW)) eqn:E; try exact W; vm_compute in E; discriminate E.
Defined.

Lemma continuation_never_fails_witness :
  is_Some (tc_thread_schedule_next (ex_taken unit (ex_scheduled unit PRIORITY_HIGH)) (Some tt) None None PRIORITY_HIGH 7) /\
  is_Some (tc_thread_schedule_next2 (ex_taken unit (ex_scheduled unit PRIORITY_HIGH)) (Some tt) None PRIORITY_HIGH 7).
Proof.
  apply (continuation_never_fails _ [Running (ex_task unit PRIORITY_HIGH 7) false; Idle; Idle] 0
    (ex_task unit PRIORITY_HIGH 7) (Some tt) None None 7); [by apply (ex_running_reachable unit) | reflexivity].
Defined.

Lemma blocking_cap_witness :
  count runs_blocking [Running (ex_task unit PRIORITY_BLOCKING 7) false; Idle; Idle] <= 2 /\
  blocking_active (ex_taken unit (ex_scheduled unit PRIORITY_BLOCKING)) = 1 /\
  active_threads (ex_taken unit (ex_scheduled unit PRIORITY_BLOCKING)) = 1%Z.
Proof.
  apply (blocking_cap (ex_taken unit (ex_scheduled unit PRIORITY_BLOCKING))
    [Running (ex_task unit PRIORITY_BLOCKING 7) false; Idle; Idle]). by apply (ex_running_reachable unit).
Defined.

Lemma no_stranded_task_witness :
  buffer_eligible (ex_scheduled unit PRIORITY_LOW) 3 = true /\
  exists w, w ∈ replicate 3 (@Idle unit unit) /\ awake w = true.
Proof.
  split; [vm_compute; reflexivity|].
  apply (no_stranded_task (ex_scheduled unit PRIORITY_LOW) _ 3);
    [by apply (ex_scheduled_reachable unit) | lia | vm_compute; reflexivity].
Defined.

Lemma shutdown_not_stuck_witness :
  exists w', w' ∈ [@Exited unit unit; Idle; Idle] /\ awake w' = true.
Proof.
  apply (shutdown_not_stuck (fst (tc_thread_pool_stop (ex_pool unit))) _ Idle);
    [apply (ex_exited_reachable unit) | reflexivity | right; left | discriminate].
Defined.

Lemma exit_drained_witness :
  ring_contents (init_task_buffer (replicate 64 (ex_slot unit)) 64) = [] /\
  count is_running [@Exited unit unit; Idle; Idle] = 0.
Proof.
  apply (exit_drained (fst (tc_thread_pool_stop (ex_pool unit))));
    [apply (ex_exited_reachable unit) | left | cbn; lia | left].
Defined.

Lemma schedule_new_spec_witness :
  exists b, task_prio_buffer (ex_pool unit) !! 1 = Some b /\
    exists b', tc_thread_schedule_new (ex_pool unit) (Some tt) None PRIORITY_MEDIUM 9
               = Some (true, set_buffer (ex_pool unit) 1 b', [Signal]) /\
      ring_ok b' /\ ring_contents b' = ring_contents b ++ [ex_task unit PRIORITY_MEDIUM 9].
Proof.
  destruct (schedule_new_spec (ex_pool unit) (replicate 3 Idle) (Some tt) None PRIORITY_MEDIUM 9 1) as (b & Hb & H);
    [apply (ex_start_reachable unit) | reflexivity |].
  injection Hb as <-. exists (init_task_buffer (replicate 128 (ex_slot unit)) 128). split; [reflexivity|]. exact H.
Defined.

Lemma init_spec_witness :
  match tc_thread_pool_init 8 [65]%Z 2 3 [(ex_slot unit)] [(ex_slot unit)] [(ex_slot unit)] [(ex_slot unit)] true true (fun _ => true) with
  | None => (8 <= 2)%Z \/ true = false \/ true = false \/ exists i, i < 16 /\ true = false
  | Some p => (2 < 8)%Z /\ Z.of_nat (num_threads p) = Z.min 16 (8 - 2) /\
              max_blocking_threads p = 3 /\ active_threads p = 0%Z /\
              thread_pool_has_tasks p = false /\ shutdown p = false
  end.
Proof.
  apply (init_spec 8 [65]%Z 2 3 [(ex_slot unit)] [(ex_slot unit)] [(ex_slot unit)] [(ex_slot unit)] true true (fun _ => true)); lia.
Defined.

(** A pool started with 127 allowed blocking threads. *)
Definition ex_unclamped : tc_thread_pool unit unit :=
  ThreadPool (task_prio_buffer (ex_pool unit)) [65]%Z 1 0 0%Z 0 127 false.

Lemma ex_unclamped_reachable : reachable (ex_unclamped, [Idle]).
Proof.
  exists (ex_unclamped, [Idle]). split; [|constructor].
  exists 1%Z, [65]%Z, 0%Z, 127, (replicate 64 (ex_slot unit)), (replicate 128 (ex_slot unit)),
    (replicate 128 (ex_slot unit)), (replicate 256 (ex_slot unit)), (fun _ => true).
  split_and!; try done; try lia. repeat constructor; lia.
Qed.

Lemma blocking_starved_witness :
  tc_thread_schedule_new ex_unclamped (Some tt) None PRIORITY_BLOCKING 1 = Some (false, ex_unclamped, []).
Proof. apply (blocking_starved ex_unclamped [Idle]); [apply ex_unclamped_reachable | cbn; lia]. Defined.
