(* ===== verification/TaskBacklog.v ===== *)
(** * The task backlog

    [src/src/task_backlog.c]: tasks that wait for the result of a blocking
    task, kept in a list of blocks of 32 entries and handed to the thread pool
    when the result is there.

    The backlog is a client of the thread pool: its functions are written
    against the interface [Scheduler] and its theorems use only the laws
    [SchedulerLaws]; [TaskBacklogProps] shows that the pool meets them. *)

From S2P Require Import Prelude ThreadPool.

Local Open Scope nat_scope.

(** ** What the backlog needs from the thread pool *)

(** [None] is a failed assertion inside the scheduler. *)
Class Scheduler (F A S : Type) := {
  sched_new : S -> option F -> option A -> tc_thread_pool_task_priority -> Z -> option (bool * S);
  sched_next2 : S -> option F -> option A -> tc_thread_pool_task_priority -> Z -> option (bool * S);
  sched_ok : S -> Prop;
  queued : S -> list (tc_thread_pool_context F A) }.

(** An accepted task joins the queued ones, a refused one changes nothing. *)
Class SchedulerLaws (F A S : Type) {sch : Scheduler F A S} : Prop := {
  sched_new_law s f a q g ok s' :
    sched_ok s -> sched_new s f a q g = Some (ok, s') ->
    sched_ok s' /\ queued s' ≡ₚ (if ok then [Context q f a g] else []) ++ queued s;
  sched_next2_law s f a q g ok s' :
    sched_ok s -> sched_next2 s f a q g = Some (ok, s') ->
    sched_ok s' /\ queued s' ≡ₚ (if ok then [Context q f a g] else []) ++ queued s }.

(** ** Data *)

Definition TC_TASK_BACKLOG_BUFFER_SIZE : nat := 32.

(** [F] success handlers, [G] failure handlers, [C] contexts, [R] results. *)
Section TaskBacklog.
Context {F G C R : Type}.

Record tc_task_backlog_args := Args { args_result : R; args_context : C }.

Record tc_task_backlog_entry := Entry {
  success_handler : option F;
  failure_handler : G;
  entry_context : C;
  entry_priority : tc_thread_pool_task_priority;
  entry_session_generation : Z }.

(** A block is the list of the entries in use ([count] of them); the backlog is
    the chain of its blocks from [head_block] on, so that [tail_block] is the
    last one and both are [NULL] together. *)
Definition tc_task_backlog_block : Type := list tc_task_backlog_entry.
Definition tc_task_backlog : Type := list tc_task_backlog_block.

Definition tc_task_backlog_initialize : tc_task_backlog := [].

(** The blocks the finalizer frees, in order. *)
Fixpoint tc_task_backlog_finalize (block : tc_task_backlog) : list tc_task_backlog_block :=
  match block with
  | [] => []
  | b :: next_block => b :: tc_task_backlog_finalize next_block
  end.

Definition tc_task_backlog_block_new (h : heap) : option tc_task_backlog_block * heap :=
  let '(ok, h') := p_malloc h in (if ok then Some [] else None, h').

(** The assignment through [tail_block]. *)
Fixpoint store_in_tail (backlog : tc_task_backlog) (entry : tc_task_backlog_entry) : tc_task_backlog :=
  match backlog with
  | [] => []
  | [block] => [block ++ [entry]]
  | block :: rest => block :: store_in_tail rest entry
  end.

Definition tail_count (backlog : tc_task_backlog) : nat := length (default [] (last backlog)).

Definition tc_task_backlog_push (backlog : tc_task_backlog) (entry : tc_task_backlog_entry) (h : heap) :
    bool * tc_task_backlog * heap :=
  (* the first block *)
  let '(ok1, backlog1, h1) :=
    match backlog with
    | [] => match tc_task_backlog_block_new h with
            | (None, h') => (false, backlog, h')
            | (Some b, h') => (true, [b], h')
            end
    | _ => (true, backlog, h)
    end in
  if negb ok1 then (false, backlog1, h1)
  else
    (* a full tail block *)
    let '(ok2, backlog2, h2) :=
      if tail_count backlog1 =? TC_TASK_BACKLOG_BUFFER_SIZE
      then match tc_task_backlog_block_new h1 with
           | (None, h') => (false, backlog1, h')
           | (Some b, h') => (true, backlog1 ++ [b], h')
           end
      else (true, backlog1, h1) in
    if negb ok2 then (false, backlog2, h2)
    else (true, store_in_tail backlog2 entry, h2).

(** ** Handing the entries to the pool *)

(** What the two functions below do besides changing the pool. *)
Inductive backlog_event :=
| Failed (entry : tc_task_backlog_entry)      (* [failure_handler] called *)
| Allocated                                   (* an argument record *)
| Freed
| Acquired                                    (* [aquire_handler(result)] *)
| Released                                    (* [release_handler(result)] *)
| Scheduled (continued : bool) (t : tc_thread_pool_context F tc_task_backlog_args).

Context {S : Type} {sch : Scheduler F tc_task_backlog_args S}.

(** [has_aquire], [has_release]: the handler pointers are not [NULL]. *)
Variables has_aquire has_release : bool.

Definition acquire : list backlog_event := if has_aquire then [Acquired] else [].
Definition release : list backlog_event := if has_release then [Released] else [].

(** The outcome of one scheduling call for [entry]. *)
Definition after_schedule (entry : tc_task_backlog_entry) (args : tc_task_backlog_args)
    (q : tc_thread_pool_task_priority) (continued success : bool) : list backlog_event :=
  if success
  then [Scheduled continued (Context q (success_handler entry) (Some args) (entry_session_generation entry))]
  else Failed entry :: release ++ [Freed].

(** One turn of the inner loop of [tc_task_schedule_backlog]. *)
Definition schedule_entry (pool : S) (h : heap) (entry : tc_task_backlog_entry) (result : option R)
    (current_priority : tc_thread_pool_task_priority) (task_chain_continued : bool) :
    option (S * heap * bool * list backlog_event) :=
  match result with
  | None => Some (pool, h, task_chain_continued, [Failed entry])
  | Some r =>
      let '(ok, h1) := p_malloc h in
      if negb ok then Some (pool, h1, task_chain_continued, [Failed entry])
      else
        let args := Args r (entry_context entry) in
        if bool_decide (entry_priority entry = current_priority) && negb task_chain_continued then
          '(continue_success, pool1) ←
            sched_next2 pool (success_handler entry) (Some args) current_priority
              (entry_session_generation entry);
          Some (pool1, h1, continue_success,
                Allocated :: acquire ++ after_schedule entry args current_priority true continue_success)
        else
          '(success, pool1) ←
            sched_new pool (success_handler entry) (Some args) (entry_priority entry)
              (entry_session_generation entry);
          Some (pool1, h1, task_chain_continued,
                Allocated :: acquire ++ after_schedule entry args (entry_priority entry) false success)
  end.

Fixpoint schedule_block (pool : S) (h : heap) (block : tc_task_backlog_block) (result : option R)
    (current_priority : tc_thread_pool_task_priority) (task_chain_continued : bool) :
    option (S * heap * bool * list backlog_event) :=
  match block with
  | [] => Some (pool, h, task_chain_continued, [])
  | entry :: block' =>
      '(pool1, h1, c1, ev1) ← schedule_entry pool h entry result current_priority task_chain_continued;
      '(pool2, h2, c2, ev2) ← schedule_block pool1 h1 block' result current_priority c1;
      Some (pool2, h2, c2, ev1 ++ ev2)
  end.

Fixpoint schedule_blocks (pool : S) (h : heap) (backlog : tc_task_backlog) (result : option R)
    (current_priority : tc_thread_pool_task_priority) (task_chain_continued : bool) :
    option (S * heap * bool * list backlog_event) :=
  match backlog with
  | [] => Some (pool, h, task_chain_continued, [])
  | block :: next_block =>
      '(pool1, h1, c1, ev1) ← schedule_block pool h block result current_priority task_chain_continued;
      '(pool2, h2, c2, ev2) ← schedule_blocks pool1 h1 next_block result current_priority c1;
      Some (pool2, h2, c2, ev1 ++ ev2)
  end.

Definition tc_task_schedule_backlog (backlog : tc_task_backlog) (pool : S) (h : heap) (result : option R)
    (current_priority : tc_thread_pool_task_priority) : option (S * heap * bool * list backlog_event) :=
  schedule_blocks pool h backlog result current_priority false.

Definition tc_task_backlog_invoke_handler (entry : tc_task_backlog_entry) (pool : S) (h : heap)
    (result : option R) (current_priority : tc_thread_pool_task_priority) :
    option (S * heap * list backlog_event) :=
  match result with
  | None => Some (pool, h, [Failed entry])
  | Some r =>
      let '(ok, h1) := p_malloc h in
      if negb ok then Some (pool, h1, [Failed entry])
      else
        let args := Args r (entry_context entry) in
        if bool_decide (current_priority <> PRIORITY_INVALID) &&
           bool_decide (current_priority = entry_priority entry) then
          '(success, pool1) ←
            sched_next2 pool (success_handler entry) (Some args) current_priority
              (entry_session_generation entry);
          Some (pool1, h1, Allocated :: acquire ++ after_schedule entry args current_priority true success)
        else
          '(success, pool1) ←
            sched_new pool (success_handler entry) (Some args) (entry_priority entry)
              (entry_session_generation entry);
          Some (pool1, h1, Allocated :: acquire ++ after_schedule entry args (entry_priority entry) false success)
  end.
End TaskBacklog.

Arguments tc_task_backlog_args : clear implicits.
Arguments tc_task_backlog_entry : clear implicits.
Arguments tc_task_backlog_block : clear implicits.
Arguments tc_task_backlog : clear implicits.
Arguments backlog_event : clear implicits.
