(* ===== verification/TaskBacklogProps.v ===== *)
(** * What the task backlog promises

    Pushing refines appending to a list; handing the entries over treats each
    one exactly once and in order, and balances references and allocations;
    run by a task of the pool, it is a sequence of the pool's own steps and
    never fails an assertion. *)

From S2P Require Import Prelude ThreadPool ThreadPoolSpec ThreadPoolSystem ThreadPoolExample TaskBacklog.

Local Open Scope nat_scope.
Set Default Proof Using "Type*".

(** ** The pool implements the interface *)

Section PoolScheduler.
Context {F A : Type}.
Implicit Types (p : tc_thread_pool F A).

Definition pool_answer (r : option (bool * tc_thread_pool F A * list wakeup)) :
    option (bool * tc_thread_pool F A) :=
  '(ok, p, _) ← r; Some (ok, p).

Definition pool_queued p : list (tc_thread_pool_context F A) :=
  concat (map ring_contents (task_prio_buffer p)).

#[export] Instance pool_scheduler : Scheduler F A (tc_thread_pool F A) := {
  sched_new p f a q g := pool_answer (tc_thread_schedule_new p f a q g);
  sched_next2 p f a q g := pool_answer (tc_thread_schedule_next2 p f a q g);
  sched_ok p := Forall ring_ok (task_prio_buffer p);
  queued := pool_queued }.

Lemma concat_insert_snoc {X Y} (f : X -> list Y) (l : list X) i x x' y :
  l !! i = Some x -> f x' = f x ++ [y] -> concat (map f (<[i := x']> l)) ≡ₚ y :: concat (map f l).
Proof.
  intros Hi Hf. revert i Hi. induction l as [|z l IH]; intros [|i] Hi; try done.
  - injection Hi as ->. cbn. rewrite Hf, <- app_assoc. cbn. by rewrite <- Permutation_middle.
  - cbn [insert list_insert map concat]. fold (<[i := x']> l). cbn in Hi.
    change (list_insert i x' l) with (<[i := x']> l). rewrite (IH i Hi). by rewrite Permutation_middle.
Qed.

(** Both scheduling functions go through one enqueue. *)
Lemma enqueue_law p i b t y k ok b' :
  sched_ok p -> task_prio_buffer p !! i = Some b -> task_buffer_enqueue p b t y k = (ok, b') ->
  ok = true -> sched_ok (set_buffer p i b') /\ queued (set_buffer p i b') ≡ₚ [t] ++ queued p.
Proof.
  intros Hok Hi He ->. pose proof (Forall_lookup_1 _ _ _ _ Hok Hi) as Hring.
  rewrite enqueue_result in He by done.
  destruct (Nat.ltb_spec (ring_used b) (capacity b - 1)) as [Hu|]; cbn [andb] in He; [|done].
  destruct (y || _); [|done]. injection He as <-. split.
  - apply Forall_insert; [done | by apply ring_push_ok].
  - cbn. unfold pool_queued. cbn. eapply concat_insert_snoc; [exact Hi|].
    by apply ring_push_contents, ring_room.
Qed.

#[export] Instance pool_scheduler_laws : SchedulerLaws F A (tc_thread_pool F A).
Proof.
  split; intros p f a q g ok p' Hok Hn; cbn [sched_new sched_next2 pool_scheduler] in Hn.
  - unfold tc_thread_schedule_new in Hn. destruct (shutdown p); [by injection Hn as <- <-|].
    destruct (priority_index q) as [i|]; [|done]. cbn [mbind option_bind] in Hn.
    destruct (task_prio_buffer p !! i) as [b|] eqn:Hi; [|done]. cbn [mbind option_bind] in Hn.
    destruct (task_buffer_enqueue p b _ false _) as [[] b'] eqn:He; injection Hn as <- <-; [|done].
    by eapply enqueue_law.
  - unfold tc_thread_schedule_next2 in Hn. destruct (shutdown p); [by injection Hn as <- <-|].
    destruct f as [f|]; [|by injection Hn as <- <-].
    destruct (priority_index q) as [i|]; [|done]. cbn [mbind option_bind] in Hn.
    destruct (task_prio_buffer p !! i) as [b|] eqn:Hi; [|done]. cbn [mbind option_bind] in Hn.
    destruct (task_buffer_enqueue p b _ true _) as [[] b'] eqn:He; [injection Hn as <- <- | done].
    by eapply enqueue_law.
Qed.

(** A task that continues its chain joins the queued ones too. *)
Lemma next_law p f sd a q g p' ws :
  sched_ok p -> shutdown p = false -> tc_thread_schedule_next p (Some f) sd a q g = Some (p', ws) ->
  sched_ok p' /\ pool_queued p' ≡ₚ Context q (Some f) a g :: pool_queued p.
Proof.
  intros Hok Hs Hn. unfold tc_thread_schedule_next in Hn. rewrite Hs in Hn.
  destruct (priority_index q) as [i|]; [|done]. cbn [mbind option_bind] in Hn.
  destruct (task_prio_buffer p !! i) as [b|] eqn:Hi; [|done]. cbn [mbind option_bind] in Hn.
  destruct (task_buffer_enqueue p b _ true _) as [[] b'] eqn:He; [injection Hn as <- <- | done].
  by eapply enqueue_law.
Qed.

Lemma concat_insert_head {X Y} (f : X -> list Y) (l : list X) i x x' y :
  l !! i = Some x -> f x = y :: f x' -> concat (map f l) ≡ₚ y :: concat (map f (<[i := x']> l)).
Proof.
  intros Hi Hf. revert i Hi. induction l as [|z l IH]; intros [|i] Hi; try done.
  - injection Hi as ->. cbn. by rewrite Hf.
  - cbn [map concat]. rewrite (IH i Hi). cbn. by rewrite Permutation_middle.
Qed.

(** A worker takes a task out of the queue, and there is room for its
    continuation where it was. *)
Lemma taken_law p t p' :
  buffers_ok p -> pattern_ok p -> worker_take p = TurnRun t p' ->
  sched_ok p' /\ shutdown p' = shutdown p /\ pool_queued p ≡ₚ t :: pool_queued p' /\
  exists i b, priority_index (ctx_priority t) = Some i /\ task_prio_buffer p' !! i = Some b /\
    ((head_index b + 1) mod capacity b =? tail_index b) = false.
Proof.
  intros Hb Hp Ht. destruct (worker_take_run p t p' Hb Hp Ht) as (k & b & _ & _ & _ & Hbk & Hne & Hcont & ->).
  set (i := (pattern_priority p + k) mod 4) in *. destruct (bo_ring p Hb i b Hbk) as [Hring _].
  split_and!; [| done | by eapply concat_insert_head |].
  - cbn. apply Forall_insert; [|by apply ring_pop_ok]. apply Forall_lookup_2. intros j b' Hj. by apply (bo_ring p Hb j).
  - exists i, (ring_pop b). split_and!.
    + pose proof (bo_tasks p Hb i b Hbk) as Hf. rewrite Hcont in Hf. apply Forall_inv in Hf. by destruct Hf.
    + cbn. apply list_lookup_insert_eq. by eapply lookup_lt_Some.
    + apply Nat.eqb_neq. apply ring_room; [by apply ring_pop_ok|].
      pose proof (ring_pop_used b Hring Hne). pose proof (ring_used_lt b Hring). cbn. lia.
Qed.
End PoolScheduler.

(** ** Pushing *)

Section Push.
Context {F G C : Type}.
Implicit Types (backlog : tc_task_backlog F G C) (e : tc_task_backlog_entry F G C).

(** Every block but the last is full, none is empty or overfull. *)
Fixpoint backlog_ok backlog : Prop :=
  match backlog with
  | [] => True
  | [b] => 0 < length b <= TC_TASK_BACKLOG_BUFFER_SIZE
  | b :: rest => length b = TC_TASK_BACKLOG_BUFFER_SIZE /\ backlog_ok rest
  end.

Lemma store_in_tail_entries backlog e :
  backlog <> [] -> concat (store_in_tail backlog e) = concat backlog ++ [e].
Proof.
  induction backlog as [|b [|b' rest] IH]; intros H; [done | cbn; by rewrite !app_nil_r |].
  change (store_in_tail (b :: b' :: rest) e) with (b :: store_in_tail (b' :: rest) e).
  cbn [concat]. rewrite IH by done. cbn [concat]. by rewrite !app_assoc.
Qed.

Lemma store_in_tail_ok backlog e :
  backlog <> [] -> backlog_ok backlog -> tail_count backlog <> TC_TASK_BACKLOG_BUFFER_SIZE ->
  backlog_ok (store_in_tail backlog e).
Proof.
  induction backlog as [|b [|b' rest] IH]; intros H Hok Hc; [done | |].
  - cbn in *. rewrite length_app. cbn. lia.
  - destruct Hok as [Hb Hrest]. change (store_in_tail (b :: b' :: rest) e) with (b :: store_in_tail (b' :: rest) e).
    assert (backlog_ok (store_in_tail (b' :: rest) e)) as IH' by (apply IH; [done | done | exact Hc]).
    destruct (store_in_tail (b' :: rest) e) eqn:E; [|done]. destruct rest; done.
Qed.

Lemma store_in_new_ok backlog e :
  backlog_ok backlog -> (backlog <> [] -> tail_count backlog = TC_TASK_BACKLOG_BUFFER_SIZE) ->
  backlog_ok (store_in_tail (backlog ++ [[]]) e).
Proof.
  induction backlog as [|b [|b' rest] IH]; intros Hok Hc.
  - cbn. unfold TC_TASK_BACKLOG_BUFFER_SIZE. lia.
  - cbn in *. specialize (Hc ltac:(done)). unfold tail_count in Hc. cbn in Hc.
    split; [done|]. unfold TC_TASK_BACKLOG_BUFFER_SIZE. lia.
  - destruct Hok as [Hb Hrest]. cbn [app] in *.
    change (store_in_tail (b :: b' :: rest ++ [[]]) e) with (b :: store_in_tail (b' :: rest ++ [[]]) e).
    assert (backlog_ok (store_in_tail (b' :: rest ++ [[]]) e)) as IH'.
    { apply IH; [done|]. intros _. by apply Hc. }
    destruct (store_in_tail (b' :: rest ++ [[]]) e) eqn:E; [|done]. destruct rest; done.
Qed.

(** [tc_task_backlog_push] refines appending to a list: when it returns
    TRUE the entries are the old ones followed by the new one and the blocks
    stay packed; it returns FALSE only when the allocator refuses, and then
    the entries are unchanged. *)
Theorem push_refines_append backlog e h :
  backlog_ok backlog ->
  let '(ok, backlog', h') := tc_task_backlog_push backlog e h in
  backlog_ok backlog' /\
  concat backlog' = concat backlog ++ (if ok then [e] else []) /\
  (ok = false -> h_grants h (h_next h) = false).
Proof.
  intros Hok. unfold tc_task_backlog_push, tc_task_backlog_block_new, p_malloc.
  destruct backlog as [|b0 rest].
  - destruct (h_grants h (h_next h)) eqn:E; cbn; [|done].
    unfold TC_TASK_BACKLOG_BUFFER_SIZE. split_and!; [lia | lia | done | done].
  - cbn [negb]. set (bl := b0 :: rest) in *.
    destruct (Nat.eqb_spec (tail_count bl) TC_TASK_BACKLOG_BUFFER_SIZE) as [Ef|Ef].
    + destruct (h_grants h (h_next h)) eqn:E; cbn [negb].
      * split_and!; [by apply store_in_new_ok | | done].
        rewrite store_in_tail_entries by (by destruct bl). rewrite concat_app. cbn. by rewrite app_nil_r.
      * by rewrite app_nil_r.
    + cbn [negb]. split_and!; [by apply store_in_tail_ok | by apply store_in_tail_entries | done].
Qed.
End Push.

(** ** Handing over, against the interface *)

Section HandOver.
Context {F G C R S : Type}.
Context {sch : Scheduler F (tc_task_backlog_args C R) S} {laws : SchedulerLaws F (tc_task_backlog_args C R) S}.
Variables has_aquire has_release : bool.
Abbreviation entry := (tc_task_backlog_entry F G C).
Abbreviation event := (backlog_event F G C R).

Definition is_outcome (e : event) : bool :=
  match e with Failed _ | Scheduled _ _ => true | _ => false end.
Definition is_scheduled (e : event) : bool := match e with Scheduled _ _ => true | _ => false end.
Definition is_continued (e : event) : bool := match e with Scheduled c _ => c | _ => false end.
Definition is_allocated (e : event) : bool := match e with Allocated => true | _ => false end.
Definition is_freed (e : event) : bool := match e with Freed => true | _ => false end.
Definition is_acquired (e : event) : bool := match e with Acquired => true | _ => false end.
Definition is_released (e : event) : bool := match e with Released => true | _ => false end.

Definition number (f : event -> bool) (ev : list event) : nat := length (List.filter f ev).

Lemma number_app f ev1 ev2 : number f (ev1 ++ ev2) = number f ev1 + number f ev2.
Proof. unfold number. by rewrite List.filter_app, length_app. Qed.

Definition tasks_of (ev : list event) : list (tc_thread_pool_context F (tc_task_backlog_args C R)) :=
  omap (fun e => match e with Scheduled _ t => Some t | _ => None end) ev.

(** The two ways an entry may end: its failure handler was called, or its
    success handler was queued with the result and its context. *)
Definition outcome_for (result : option R) (e : entry) (o : event) : Prop :=
  o = Failed e \/
  exists c r, result = Some r /\
    o = Scheduled c (Context (entry_priority e) (success_handler e) (Some (Args r (entry_context e)))
                       (entry_session_generation e)).

Record run_ok (result : option R) (entries : list entry) (s s' : S) (ev : list event) : Prop := {
  ro_outcomes : Forall2 (outcome_for result) entries (List.filter is_outcome ev);
  ro_args : number is_allocated ev = number is_freed ev + number is_scheduled ev;
  ro_refs : has_aquire = has_release ->
            number is_acquired ev = number is_released ev + (if has_aquire then number is_scheduled ev else 0);
  ro_sched : sched_ok s';
  ro_queue : queued s' ≡ₚ tasks_of ev ++ queued s }.

Lemma run_ok_nil result s : sched_ok s -> run_ok result [] s s [].
Proof. intros H. split; try done. by destruct has_aquire. Qed.

Lemma run_ok_app result es1 es2 s1 s2 s3 ev1 ev2 :
  run_ok result es1 s1 s2 ev1 -> run_ok result es2 s2 s3 ev2 -> run_ok result (es1 ++ es2) s1 s3 (ev1 ++ ev2).
Proof.
  intros [O1 A1 R1 S1 Q1] [O2 A2 R2 S2 Q2]. split.
  - rewrite List.filter_app. by apply Forall2_app.
  - rewrite !number_app. lia.
  - intros H. rewrite !number_app. specialize (R1 H). specialize (R2 H). destruct has_aquire; lia.
  - done.
  - unfold tasks_of in *. rewrite Q2, Q1, omap_app, !app_assoc. f_equiv. apply Permutation_app_comm.
Qed.

(** One scheduling call, with the bookkeeping around it. *)
Lemma run_ok_call (result : option R) (r : R) (e : entry) (s s' : S) (c ok : bool) :
  result = Some r -> sched_ok s' ->
  queued s' ≡ₚ (if ok then [Context (entry_priority e) (success_handler e) (Some (Args r (entry_context e)))
                              (entry_session_generation e)] else []) ++ queued s ->
  run_ok result [e] s s'
    (Allocated :: acquire has_aquire ++
       after_schedule has_release e (Args r (entry_context e)) (entry_priority e) c ok).
Proof.
  intros Hr Hs' Hq. unfold after_schedule, acquire, release.
  destruct ok; (split; [ | | | done | ]).
  - destruct has_aquire; cbn; (constructor; [right; by exists c, r | constructor]).
  - by destruct has_aquire.
  - intros _. by destruct has_aquire.
  - destruct has_aquire; exact Hq.
  - destruct has_aquire, has_release; cbn; (constructor; [by left | constructor]).
  - by destruct has_aquire, has_release.
  - intros H. by destruct has_aquire, has_release.
  - destruct has_aquire, has_release; exact Hq.
Qed.

Lemma run_ok_failed (result : option R) (e : entry) (s : S) : sched_ok s -> run_ok result [e] s s [Failed e].
Proof. intros H. split; try done; [constructor; [by left | constructor] | by destruct has_aquire]. Qed.

Lemma schedule_entry_ok s h e result cur c s' h' c' ev :
  sched_ok s ->
  schedule_entry has_aquire has_release s h e result cur c = Some (s', h', c', ev) ->
  run_ok result [e] s s' ev /\ number is_continued ev + bit c = bit c'.
Proof.
  intros Hs. unfold schedule_entry. destruct result as [r|].
  2: { intros [= <- <- <- <-]. split; [by apply run_ok_failed | done]. }
  destruct (p_malloc h) as [[] h1]; cbn [negb].
  2: { intros [= <- <- <- <-]. split; [by apply run_ok_failed | done]. }
  destruct (bool_decide (entry_priority e = cur)) eqn:Ep, c; cbn [andb negb].
  1, 3, 4: destruct (sched_new _ _ _ _ _) as [[ok s1]|] eqn:En; [|done]; cbn [mbind option_bind];
    intros [= <- <- <- <-]; destruct (sched_new_law _ _ _ _ _ _ _ Hs En) as [Hs1 Hq];
    (split; [by apply run_ok_call | unfold acquire, release, after_schedule; by destruct has_aquire, has_release, ok]).
  apply bool_decide_eq_true_1 in Ep as <-.
  destruct (sched_next2 _ _ _ _ _) as [[ok s1]|] eqn:En; [|done]; cbn [mbind option_bind].
  intros [= <- <- <- <-]. destruct (sched_next2_law _ _ _ _ _ _ _ Hs En) as [Hs1 Hq].
  split; [by apply run_ok_call | unfold acquire, release, after_schedule; by destruct has_aquire, has_release, ok].
Qed.

Lemma schedule_block_ok block s h result cur c s' h' c' ev :
  sched_ok s ->
  schedule_block has_aquire has_release s h block result cur c = Some (s', h', c', ev) ->
  run_ok result block s s' ev /\ number is_continued ev + bit c = bit c'.
Proof.
  revert s h c s' h' c' ev. induction block as [|e block IH]; intros s h c s' h' c' ev Hs; cbn [schedule_block].
  - intros [= <- <- <- <-]. split; [by apply run_ok_nil | done].
  - destruct (schedule_entry _ _ s h e result cur c) as [[[[s1 h1] c1] ev1]|] eqn:E1; [|done]. cbn [mbind option_bind].
    destruct (schedule_block _ _ s1 h1 block result cur c1) as [[[[s2 h2] c2] ev2]|] eqn:E2; [|done].
    cbn [mbind option_bind]. intros [= <- <- <- <-].
    destruct (schedule_entry_ok _ _ _ _ _ _ _ _ _ _ Hs E1) as [R1 N1].
    destruct (IH _ _ _ _ _ _ _ (ro_sched _ _ _ _ _ R1) E2) as [R2 N2].
    split; [by apply (run_ok_app result [e] block s s1) | rewrite number_app; lia].
Qed.

Lemma schedule_blocks_ok backlog s h result cur c s' h' c' ev :
  sched_ok s ->
  schedule_blocks has_aquire has_release s h backlog result cur c = Some (s', h', c', ev) ->
  run_ok result (concat backlog) s s' ev /\ number is_continued ev + bit c = bit c'.
Proof.
  revert s h c s' h' c' ev. induction backlog as [|b backlog IH]; intros s h c s' h' c' ev Hs; cbn [schedule_blocks].
  - intros [= <- <- <- <-]. split; [by apply run_ok_nil | done].
  - destruct (schedule_block _ _ s h b result cur c) as [[[[s1 h1] c1] ev1]|] eqn:E1; [|done]. cbn [mbind option_bind].
    destruct (schedule_blocks _ _ s1 h1 backlog result cur c1) as [[[[s2 h2] c2] ev2]|] eqn:E2; [|done].
    cbn [mbind option_bind]. intros [= <- <- <- <-].
    destruct (schedule_block_ok _ _ _ _ _ _ _ _ _ _ Hs E1) as [R1 N1].
    destruct (IH _ _ _ _ _ _ _ (ro_sched _ _ _ _ _ R1) E2) as [R2 N2].
    split; [by apply (run_ok_app result b (concat backlog) s s1) | rewrite number_app; lia].
Qed.

(** Without a result every entry fails, and nothing else happens. *)
Lemma schedule_blocks_none (backlog : tc_task_backlog F G C) s h cur c :
  schedule_blocks has_aquire has_release s h backlog None cur c = Some (s, h, c, map Failed (concat backlog)).
Proof.
  assert (forall b : list entry, schedule_block has_aquire has_release s h b None cur c = Some (s, h, c, map Failed b)) as Hb.
  { clear. induction b as [|e b IH]; [done|]. cbn. by rewrite IH. }
  induction backlog as [|b bl IH]; [done|]. cbn [schedule_blocks]. rewrite Hb. cbn [mbind option_bind].
  rewrite IH. cbn [mbind option_bind concat]. by rewrite map_app.
Qed.

(** C18. Handing a backlog over treats every entry exactly once, in the order
    they were pushed: its success handler is queued with the result, or its
    failure handler is called.  Each argument record not queued is freed, each
    reference taken for a task not queued is given back, at most one task
    continues the caller's chain, and the pool gains exactly the queued
    tasks.  Without a result every entry fails. *)
Theorem schedule_backlog_spec backlog s h result cur s' h' c' ev :
  sched_ok s ->
  tc_task_schedule_backlog has_aquire has_release backlog s h result cur = Some (s', h', c', ev) ->
  Forall2 (outcome_for result) (concat backlog) (List.filter is_outcome ev) /\
  number is_allocated ev = number is_freed ev + number is_scheduled ev /\
  (has_aquire = true -> has_release = true ->
   number is_acquired ev = number is_released ev + number is_scheduled ev) /\
  number is_continued ev <= 1 /\
  queued s' ≡ₚ tasks_of ev ++ queued s /\
  (result = None -> ev = map Failed (concat backlog)).
Proof.
  intros Hs H. pose proof H as H'. apply schedule_blocks_ok in H' as [[O A Rf _ Q] N]; [|done].
  split_and!; [done | done | | | done |].
  - intros H1 H2. rewrite H1, H2 in Rf. exact (Rf eq_refl).
  - cbn [bit] in N. destruct c'; cbn [bit] in N; lia.
  - intros ->. unfold tc_task_schedule_backlog in H. rewrite schedule_blocks_none in H. by injection H as _ _ _ <-.
Qed.

(** [tc_task_backlog_invoke_handler] does the same for its one entry, and
    continues the caller's chain exactly when the caller has a valid priority
    and it is the entry's. *)
Theorem invoke_handler_spec e s h result cur s' h' ev :
  sched_ok s ->
  tc_task_backlog_invoke_handler has_aquire has_release e s h result cur = Some (s', h', ev) ->
  (exists o, List.filter is_outcome ev = [o] /\ outcome_for result e o /\
             (is_scheduled o = true -> is_continued o = true <->
                cur <> PRIORITY_INVALID /\ cur = entry_priority e)) /\
  number is_allocated ev = number is_freed ev + number is_scheduled ev /\
  (has_aquire = true -> has_release = true ->
   number is_acquired ev = number is_released ev + number is_scheduled ev) /\
  queued s' ≡ₚ tasks_of ev ++ queued s.
Proof.
  intros Hs H.
  assert (run_ok result [e] s s' ev /\
          exists o, List.filter is_outcome ev = [o] /\
            (is_scheduled o = true -> is_continued o = true <-> cur <> PRIORITY_INVALID /\ cur = entry_priority e))
    as [[O A Rf _ Q] (o & Ho & Hc)].
  { unfold tc_task_backlog_invoke_handler in H. destruct result as [r|].
    2: { injection H as <- <- <-. split; [by apply run_ok_failed | by exists (Failed e)]. }
    destruct (p_malloc h) as [[] h1]; cbn [negb] in H.
    2: { injection H as <- <- <-. split; [by apply run_ok_failed | by exists (Failed e)]. }
    destruct (bool_decide_reflect (cur <> PRIORITY_INVALID)) as [Hi|Hi],
      (bool_decide_reflect (cur = entry_priority e)) as [Hp|Hp]; cbn [andb] in H.
    2, 3, 4: destruct (sched_new _ _ _ _ _) as [[ok s1]|] eqn:En; [|done]; cbn [mbind option_bind] in H;
      injection H as <- <- <-; destruct (sched_new_law _ _ _ _ _ _ _ Hs En) as [Hs1 Hq];
      (split; [by apply run_ok_call|]); unfold acquire, release, after_schedule;
      destruct has_aquire, has_release, ok; eexists; (split; [reflexivity | cbn; intuition congruence]).
    subst cur. destruct (sched_next2 _ _ _ _ _) as [[ok s1]|] eqn:En; [|done]; cbn [mbind option_bind] in H.
    injection H as <- <- <-. destruct (sched_next2_law _ _ _ _ _ _ _ Hs En) as [Hs1 Hq].
    split; [by apply run_ok_call|]. unfold acquire, release, after_schedule.
    destruct has_aquire, has_release, ok; eexists; (split; [reflexivity | cbn; intuition congruence]). }
  split_and!; [|done| |done].
  - exists o. split_and!; [done | | done]. rewrite Ho in O. by inversion O.
  - intros H1 H2. rewrite H1, H2 in Rf. exact (Rf eq_refl).
Qed.
End HandOver.

(** ** Run by a task of the pool *)

Section InPool.
Context {F G C R : Type}.
Variables has_aquire has_release : bool.
Abbreviation task_args := (tc_task_backlog_args C R).
Implicit Types (p : tc_thread_pool F task_args) (ws : list (@worker F task_args)).

Definition is_waiting (w : @worker F task_args) : bool := match w with Waiting => true | _ => false end.

(** A list of wake-ups can always be delivered. *)
Lemma wakes_total l ws : exists ws', wakes l ws ws'.
Proof.
  revert ws. induction l as [|[] l IH]; intros ws.
  - exists ws. constructor.
  - destruct (list_find is_waiting ws) as [[i w]|] eqn:E.
    + apply list_find_Some in E as (Hi & Hw & _). destruct w; try done.
      destruct (IH (<[i := Idle]> ws)) as [ws' H]. exists ws'. by eapply wakes_signal.
    + apply list_find_None in E. destruct (IH ws) as [ws' H]. exists ws'.
      apply wakes_signal_lost; [|done]. intros Hin. rewrite Forall_forall in E. by apply (E Waiting).
  - destruct (IH (map wake ws)) as [ws' H]. exists ws'. by constructor.
Qed.

Lemma woken_running ws ws' i t c :
  Forall2 woken ws ws' -> ws !! i = Some (Running t c) -> ws' !! i = Some (Running t c).
Proof.
  intros H Hi. destruct (Forall2_lookup_l _ _ _ _ _ H Hi) as (w & Hw & [->|[? _]]); done.
Qed.

(** One accepted or refused new chain is one step of the system. *)
Lemma sched_new_step p ws (f : F) (a : option task_args) q g (i : nat) t (c : bool) :
  reachable (p, ws) -> q <> PRIORITY_INVALID -> ws !! i = Some (Running t c) ->
  exists (ok : bool) p' ws', sched_new p (Some f) a q g = Some (ok, p') /\
    star pool_step (p, ws) (p', ws') /\ ws' !! i = Some (Running t c).
Proof.
  intros HI%reachable_inv Hq Hi. pose proof (pi_buffers _ HI) as Hb. cbn [fst] in Hb.
  destruct (tc_thread_schedule_new p (Some f) a q g) as [[[ok p'] l]|] eqn:En.
  - destruct (wakes_total l ws) as [ws' Hw]. exists ok, p', ws'. split_and!.
    + cbn. by rewrite En.
    + apply star_one. by eapply step_new.
    + eapply woken_running; [by eapply wakes_woken | done].
  - exfalso. unfold tc_thread_schedule_new in En. destruct (shutdown p); [done|].
    destruct (priority_index q) as [k|] eqn:Ek; [|by destruct q]. cbn [mbind option_bind] in En.
    pose proof (priority_index_lt _ _ Ek) as Hlt. rewrite <- (bo_length p Hb) in Hlt.
    destruct (lookup_lt_is_Some_2 _ _ Hlt) as [b Hk]. rewrite Hk in En. cbn [mbind option_bind] in En.
    by destruct (task_buffer_enqueue _ _ _ _ _) as [[] ?].
Qed.

Lemma sched_next2_step p ws (f : F) (a : option task_args) g (i : nat) t :
  reachable (p, ws) -> ws !! i = Some (Running t false) ->
  exists (ok : bool) p' ws', sched_next2 p (Some f) a (ctx_priority t) g = Some (ok, p') /\
    star pool_step (p, ws) (p', ws') /\ ws' !! i = Some (Running t ok).
Proof.
  intros HI%reachable_inv Hi. destruct (running_index p ws i t false HI Hi) as (k & b & Hk & Hb).
  destruct (tc_thread_schedule_next2 p (Some f) a (ctx_priority t) g) as [[[ok p'] l]|] eqn:En.
  - destruct (wakes_total l (<[i := Running t ok]> ws)) as [ws' Hw]. exists ok, p', ws'. split_and!.
    + cbn. by rewrite En.
    + apply star_one. by eapply step_next2.
    + eapply woken_running; [by eapply wakes_woken|]. apply list_lookup_insert_eq. by eapply lookup_lt_Some.
  - exfalso. unfold tc_thread_schedule_next2 in En. destruct (shutdown p); [done|].
    rewrite Hk in En. cbn [mbind option_bind] in En. rewrite Hb in En. cbn [mbind option_bind] in En.
    by erewrite continuation_enqueued in En by done.
Qed.

Definition entry_ok (e : tc_task_backlog_entry F G C) : Prop :=
  is_Some (success_handler e) /\ entry_priority e <> PRIORITY_INVALID.

Lemma reachable_star s s' : reachable s -> star (@pool_step F task_args) s s' -> reachable s'.
Proof. intros (s0 & H0 & H) H'. exists s0. split; [done | by eapply star_trans]. Qed.

(** The common shape of the three loops' results. *)
Definition runs_in_pool p ws i t (c : bool)
    (r : option (tc_thread_pool F task_args * heap * bool * list (backlog_event F G C R))) : Prop :=
  exists p' h' c' ev ws', r = Some (p', h', c', ev) /\
    star pool_step (p, ws) (p', ws') /\ ws' !! i = Some (Running t c').

Lemma schedule_entry_runs p ws i t c h e result :
  reachable (p, ws) -> ws !! i = Some (Running t c) -> entry_ok e ->
  runs_in_pool p ws i t c (schedule_entry has_aquire has_release p h e result (ctx_priority t) c).
Proof.
  intros HI Hi [[f Hf] Hq]. unfold schedule_entry, runs_in_pool. destruct result as [r|].
  2: { do 4 eexists. exists ws. split_and!; [done | constructor | done]. }
  destruct (p_malloc h) as [[] h1]; cbn [negb].
  2: { do 4 eexists. exists ws. split_and!; [done | constructor | done]. }
  rewrite Hf. destruct (bool_decide_reflect (entry_priority e = ctx_priority t)) as [Ep|Ep], c; cbn [andb negb].
  1, 3, 4: match goal with |- context [sched_new _ _ ?a ?q ?g] =>
      destruct (sched_new_step p ws f a q g i t _ HI Hq Hi) as (ok & p' & ws' & -> & Hs & Hi') end;
    cbn [mbind option_bind]; do 4 eexists; exists ws'; split_and!; done.
  match goal with |- context [sched_next2 _ _ ?a _ ?g] =>
    destruct (sched_next2_step p ws f a g i t HI Hi) as (ok & p' & ws' & -> & Hs & Hi') end.
  cbn [mbind option_bind]. do 4 eexists. exists ws'. split_and!; done.
Qed.

Lemma schedule_block_runs block p ws i t c h result :
  reachable (p, ws) -> ws !! i = Some (Running t c) -> Forall entry_ok block ->
  runs_in_pool p ws i t c (schedule_block has_aquire has_release p h block result (ctx_priority t) c).
Proof.
  revert p ws c h. induction block as [|e block IH]; intros p ws c h HI Hi Hb; cbn [schedule_block].
  - do 4 eexists. exists ws. split_and!; [done | constructor | done].
  - inversion Hb; subst.
    destruct (schedule_entry_runs p ws i t c h e result) as (p1 & h1 & c1 & ev1 & ws1 & -> & S1 & Hi1); [done..|].
    cbn [mbind option_bind]. pose proof (reachable_star _ _ HI S1) as HI1.
    destruct (IH p1 ws1 c1 h1 HI1 Hi1) as (p2 & h2 & c2 & ev2 & ws2 & -> & S2 & Hi2); [done|].
    cbn [mbind option_bind]. do 4 eexists. exists ws2. split_and!; [done | by eapply star_trans | done].
Qed.

(** C19. A task that hands over a backlog at its own priority, before it has
    continued its chain, never fails an assertion, and all it does to the pool
    is a sequence of the pool's own steps, so every promise of the pool still
    holds afterwards; the task has continued its chain exactly when one of the
    entries did. *)
Theorem backlog_runs_in_pool backlog p ws i t h result :
  reachable (p, ws) -> ws !! i = Some (Running t false) -> Forall (Forall entry_ok) backlog ->
  exists p' h' c' ev ws',
    tc_task_schedule_backlog has_aquire has_release backlog p h result (ctx_priority t) = Some (p', h', c', ev) /\
    star pool_step (p, ws) (p', ws') /\ ws' !! i = Some (Running t c').
Proof.
  unfold tc_task_schedule_backlog. generalize false as c. intros c HI Hi Hb. revert p ws c h HI Hi.
  induction Hb as [|b backlog Hb _ IH]; intros p ws c h HI Hi; cbn [schedule_blocks].
  - do 4 eexists. exists ws. split_and!; [done | constructor | done].
  - destruct (schedule_block_runs b p ws i t c h result) as (p1 & h1 & c1 & ev1 & ws1 & -> & S1 & Hi1); [done..|].
    cbn [mbind option_bind]. pose proof (reachable_star _ _ HI S1) as HI1.
    destruct (IH p1 ws1 c1 h1 HI1 Hi1) as (p2 & h2 & c2 & ev2 & ws2 & -> & S2 & Hi2).
    cbn [mbind option_bind]. do 4 eexists. exists ws2. split_and!; [done | by eapply star_trans | done].
Qed.
End InPool.

(** ** The theorems at concrete inputs *)

Definition ex_entry (c : nat) (q : tc_thread_pool_task_priority) : tc_task_backlog_entry unit unit nat :=
  Entry (Some tt) tt c q 5%Z.

Lemma push_refines_append_witness :
  backlog_ok [replicate 32 (ex_entry 0 PRIORITY_HIGH)] /\
  let '(ok, backlog', h') := tc_task_backlog_push [replicate 32 (ex_entry 0 PRIORITY_HIGH)] (ex_entry 1 PRIORITY_LOW) ample_heap in
  backlog_ok backlog' /\
  concat backlog' = concat [replicate 32 (ex_entry 0 PRIORITY_HIGH)] ++ (if ok then [ex_entry 1 PRIORITY_LOW] else []) /\
  (ok = false -> true = false).
Proof.
  assert (backlog_ok [replicate 32 (ex_entry 0 PRIORITY_HIGH)]) as H
    by (cbn; unfold TC_TASK_BACKLOG_BUFFER_SIZE; lia).
  split; [exact H|]. exact (push_refines_append _ (ex_entry 1 PRIORITY_LOW) ample_heap H).
Defined.

Definition ex_backlog : tc_task_backlog unit unit nat :=
  [[ex_entry 0 PRIORITY_HIGH; ex_entry 1 PRIORITY_LOW]; [ex_entry 2 PRIORITY_HIGH]].

Abbreviation ex_args := (tc_task_backlog_args nat nat).

Lemma ex_pool_ok : sched_ok (ex_pool ex_args).
Proof. repeat constructor; cbn; lia. Qed.

Lemma schedule_backlog_spec_witness :
  match tc_task_schedule_backlog true true ex_backlog (ex_pool ex_args) ample_heap (Some 9) PRIORITY_HIGH with
  | Some (s', _, _, ev) =>
      Forall2 (outcome_for (Some 9)) (concat ex_backlog) (List.filter is_outcome ev) /\
      number is_scheduled ev = 3 /\ number is_continued ev <= 1 /\
      queued s' ≡ₚ tasks_of ev ++ queued (ex_pool ex_args)
  | None => False
  end.
Proof.
  destruct (tc_task_schedule_backlog true true ex_backlog (ex_pool ex_args) ample_heap (Some 9) PRIORITY_HIGH)
    as [[[[s' h'] c'] ev]|] eqn:E; [|vm_compute in E; discriminate E].
  destruct (schedule_backlog_spec true true ex_backlog (ex_pool ex_args) ample_heap (Some 9) PRIORITY_HIGH
    s' h' c' ev ex_pool_ok E) as (H1 & _ & _ & H2 & H3 & _).
  split; [exact H1|]. split; [|split; [exact H2 | exact H3]].
  vm_compute in E. injection E as <- <- <- <-. reflexivity.
Defined.

Lemma invoke_handler_spec_witness :
  match tc_task_backlog_invoke_handler true true (ex_entry 4 PRIORITY_LOW) (ex_pool ex_args) ample_heap (Some 9) PRIORITY_HIGH with
  | Some (s', _, ev) => queued s' ≡ₚ tasks_of ev ++ queued (ex_pool ex_args)
  | None => False
  end.
Proof.
  destruct (tc_task_backlog_invoke_handler true true (ex_entry 4 PRIORITY_LOW) (ex_pool ex_args) ample_heap (Some 9) PRIORITY_HIGH)
    as [[[s' h'] ev]|] eqn:E; [|vm_compute in E; discriminate E].
  exact (proj2 (proj2 (proj2 (invoke_handler_spec true true (ex_entry 4 PRIORITY_LOW) (ex_pool ex_args) ample_heap (Some 9)
    PRIORITY_HIGH s' h' ev ex_pool_ok E)))).
Defined.

Lemma backlog_runs_in_pool_witness :
  exists p' h' c' ev ws',
    tc_task_schedule_backlog true true ex_backlog (ex_taken ex_args (ex_scheduled ex_args PRIORITY_HIGH)) ample_heap
      (Some 9) PRIORITY_HIGH = Some (p', h', c', ev) /\
    star pool_step (ex_taken ex_args (ex_scheduled ex_args PRIORITY_HIGH),
                    [Running (ex_task ex_args PRIORITY_HIGH 7) false; Idle; Idle]) (p', ws') /\
    ws' !! 0 = Some (Running (ex_task ex_args PRIORITY_HIGH 7) c').
Proof.
  apply (backlog_runs_in_pool true true ex_backlog _ _ 0 (ex_task ex_args PRIORITY_HIGH 7) ample_heap (Some 9));
    [by apply (ex_running_reachable ex_args) | reflexivity |].
  repeat constructor; try (by eexists); discriminate.
Defined.
