(* ===== verification/Buffer.v ===== *)
(** * Growable buffers

    [src/cNBT/buffer.c]: the byte buffers the NBT library writes to and reads
    files into.  A buffer is its bytes in use ([len] of them; [None] is a
    [NULL] data pointer) and its capacity, a [size_t].  Allocation may fail;
    the doubling loop of [buffer_reserve] works modulo 2^64 and can run for
    ever, which is the outer [None]. *)

From S2P Require Import Prelude.

Local Open Scope Z_scope.

Record buffer := Buffer { b_data : option (list Z); b_cap : Z }.

Definition BUFFER_INIT : buffer := Buffer None 0.

(** The first [len] bytes. *)
Definition b_bytes (b : buffer) : list Z := default [] (b_data b).
Definition b_len (b : buffer) : Z := Z.of_nat (length (b_bytes b)).

(** 0 is success, 1 a failed allocation. *)
Definition lazy_init (b : buffer) (h : heap) : Z * buffer * heap :=
  let cap := 1024 in
  let '(ok, h') := p_malloc h in
  (if ok then (0, Buffer (Some []) cap) else (1, Buffer None cap), h').

Definition buffer_free (b : buffer) : buffer := Buffer None 0.

(** [while(b->cap < reserved_amount) b->cap *= 2]; more than 64 rounds reach
    capacity 0 and never end. *)
Fixpoint grow_loop (fuel : nat) (cap reserved_amount : Z) : option Z :=
  match fuel with
  | O => None
  | S fuel' =>
      if cap <? reserved_amount then grow_loop fuel' (u64 (cap * 2)) reserved_amount
      else Some cap
  end.

Definition buffer_reserve (b : buffer) (reserved_amount : Z) (h : heap) :
    option (Z * buffer * heap) :=
  let '(fail, b1, h1) :=
    match b_data b with None => lazy_init b h | Some _ => (0, b, h) end in
  if negb (fail =? 0) then Some (1, b1, h1)
  else if reserved_amount <=? b_cap b1 then Some (0, b1, h1)
  else
    cap ← grow_loop 65 (b_cap b1) reserved_amount;
    let '(ok, h2) := p_malloc h1 in                       (* realloc *)
    if ok then Some (0, Buffer (b_data b1) cap, h2)
    else Some (1, buffer_free b1, h2).

Definition buffer_append (b : buffer) (data : list Z) (h : heap) : option (Z * buffer * heap) :=
  let '(fail, b1, h1) :=
    match b_data b with None => lazy_init b h | Some _ => (0, b, h) end in
  if negb (fail =? 0) then Some (1, b1, h1)
  else
    '(r, b2, h2) ← buffer_reserve b1 (u64 (b_len b1 + Z.of_nat (length data))) h1;
    if negb (r =? 0) then Some (1, b2, h2)
    else Some (0, Buffer (Some (b_bytes b2 ++ data)) (b_cap b2), h2).

(** ** Properties *)

(** A buffer's bytes fit its capacity, and an allocated buffer has the initial
    capacity at least. *)
Definition buffer_ok (b : buffer) : Prop :=
  match b_data b with
  | None => True
  | Some bs => Z.of_nat (length bs) <= b_cap b /\ 1024 <= b_cap b <= 2 ^ 63
  end.

Lemma buffer_init_ok : buffer_ok BUFFER_INIT.
Proof. exact I. Qed.

(** The loop ends with the smallest doubling that is large enough. *)
Lemma grow_loop_ends k cap r :
  0 < cap -> cap * 2 ^ Z.of_nat k <= 2 ^ 63 -> r <= cap * 2 ^ Z.of_nat k ->
  exists cap', grow_loop (S k) cap r = Some cap' /\ r <= cap' /\ cap <= cap' <= cap * 2 ^ Z.of_nat k.
Proof.
  revert cap. induction k as [|k IH]; intros cap Hc Hb Hr.
  - change (2 ^ Z.of_nat 0) with 1 in *. cbn. destruct (Z.ltb_spec cap r); [lia|].
    exists cap. split; [done | lia].
  - rewrite Nat2Z.inj_succ, Z.pow_succ_r in * by lia.
    assert (1 <= 2 ^ Z.of_nat k) as Hp by (apply (Z.pow_le_mono_r 2 0); lia).
    cbn [grow_loop]. destruct (Z.ltb_spec cap r).
    + assert (u64 (cap * 2) = cap * 2) as ->.
      { apply wrapu_small. split; [lia|]. change (2 ^ 64) with (2 * 2 ^ 63). nia. }
      destruct (IH (cap * 2)) as (cap' & E & ? & ?); [lia | nia | nia |].
      exists cap'. split; [exact E | nia].
    + exists cap. split; [done | nia].
Qed.

Lemma grow_loop_fuel k k' cap r c :
  (k <= k')%nat -> grow_loop k cap r = Some c -> grow_loop k' cap r = Some c.
Proof.
  revert k' cap. induction k as [|k IH]; intros k' cap Hk; [done|].
  destruct k' as [|k']; [lia|]. cbn. destruct (cap <? r); [|done]. apply IH. lia.
Qed.

Lemma grow_loop_reaches cap r :
  1024 <= cap <= 2 ^ 63 -> (exists k, cap = 2 ^ k /\ 0 <= k) -> r <= 2 ^ 63 ->
  exists cap', grow_loop 65 cap r = Some cap' /\ r <= cap' /\ cap <= cap' <= 2 ^ 63.
Proof.
  intros Hc (k & -> & Hk) Hr.
  assert (k <= 63) as Hk63 by (apply (Z.pow_le_mono_r_iff 2); lia).
  destruct (grow_loop_ends (Z.to_nat (63 - k)) (2 ^ k) r) as (c & E & ? & ?).
  - lia.
  - rewrite Z2Nat.id, <- Z.pow_add_r by lia. apply Z.eq_le_incl. f_equal. lia.
  - rewrite Z2Nat.id, <- Z.pow_add_r by lia. replace (k + (63 - k)) with 63 by lia. done.
  - exists c. rewrite Z2Nat.id, <- Z.pow_add_r in H0 by lia. replace (k + (63 - k)) with 63 in H0 by lia.
    split; [|done]. eapply grow_loop_fuel; [|exact E]. lia.
Qed.

(** Capacities are powers of two. *)
Definition cap_pow2 (b : buffer) : Prop :=
  match b_data b with None => True | Some _ => exists k, b_cap b = 2 ^ k /\ 0 <= k end.

Lemma grow_loop_pow2 fuel cap r c :
  (exists k, cap = 2 ^ k /\ 0 <= k) -> cap <= 2 ^ 63 -> r <= 2 ^ 63 -> grow_loop fuel cap r = Some c ->
  exists k, c = 2 ^ k /\ 0 <= k.
Proof.
  revert cap. induction fuel as [|fuel IH]; intros cap (k & Ek & Hk) Hc Hr; [done|]. cbn.
  destruct (Z.ltb_spec cap r) as [Hlt|]; [|intros [= <-]; eauto].
  assert (k < 63) as Hk63 by (apply (Z.pow_lt_mono_r_iff 2); lia).
  assert (2 ^ (k + 1) <= 2 ^ 63) by (apply Z.pow_le_mono_r; lia).
  assert (cap * 2 = 2 ^ (k + 1)) as E2 by (rewrite Z.pow_add_r by lia; lia).
  assert (u64 (cap * 2) = cap * 2) as ->.
  { apply wrapu_small. split; [lia|]. change (2 ^ 64) with (2 * 2 ^ 63). lia. }
  apply IH; [exists (k + 1); split; [done | lia] | lia | done].
Qed.

(** [buffer_reserve] on a well-formed buffer: it terminates for every amount
    up to 2^63; success keeps the bytes and makes the room, failure leaves no
    data behind. *)
Lemma buffer_reserve_spec b amount h :
  buffer_ok b -> cap_pow2 b -> amount <= 2 ^ 63 ->
  exists r b' h', buffer_reserve b amount h = Some (r, b', h') /\ h_grants h' = h_grants h /\
    ((r = 0 /\ b_data b' = Some (b_bytes b) /\ amount <= b_cap b' /\ buffer_ok b' /\ cap_pow2 b') \/
     (r = 1 /\ b_data b' = None /\ exists n, h_grants h n = false)).
Proof.
  intros Hok Hp Ha.
  assert (forall bs cap h1, Z.of_nat (length bs) <= cap -> 1024 <= cap <= 2 ^ 63 ->
            (exists k, cap = 2 ^ k /\ 0 <= k) -> h_grants h1 = h_grants h ->
            exists r b' h', buffer_reserve (Buffer (Some bs) cap) amount h1 = Some (r, b', h') /\
              h_grants h' = h_grants h /\
              ((r = 0 /\ b_data b' = Some bs /\ amount <= b_cap b' /\ buffer_ok b' /\ cap_pow2 b') \/
               (r = 1 /\ b_data b' = None /\ exists n, h_grants h n = false))) as Hmain.
  { intros bs cap h1 Hl Hc Hk Hh. unfold buffer_reserve. cbn [b_data b_cap negb Z.eqb].
    destruct (Z.leb_spec amount cap) as [Hfit|Hgrow].
    - do 3 eexists. split; [reflexivity|]. split; [done|]. left. by split_and!.
    - destruct (grow_loop_reaches cap amount Hc Hk Ha) as (c & E & Hr & Hcc). rewrite E. cbn [mbind option_bind].
      unfold p_malloc. destruct (h_grants h1 (h_next h1)) eqn:Eg; do 3 eexists; (split; [reflexivity|]);
        (split; [done|]); [left | right; split_and!; [done | done |]; exists (h_next h1); by rewrite <- Hh].
      split_and!; [done | done | done | |]; unfold buffer_ok, cap_pow2; cbn.
      + lia.
      + eapply grow_loop_pow2; [exact Hk | lia | exact Ha | exact E]. }
  destruct b as [[bs|] cap]; [destruct Hok as [? ?]; by apply (Hmain bs cap h)|].
  pose proof (Hmain [] 1024 (Heap (h_grants h) (S (h_next h)))) as H0.
  unfold buffer_reserve, lazy_init, p_malloc in *. cbn [b_data b_cap] in *.
  destruct (h_grants h (h_next h)) eqn:Eg; cbn [negb Z.eqb] in *.
  - apply H0; [cbn; lia | lia | by exists 10 | done].
  - do 3 eexists. split; [reflexivity|]. split; [done|]. right. split_and!; try done. by exists (h_next h).
Qed.

(** Storing into the room made. *)
Lemma store_ok b bs data :
  buffer_ok b -> cap_pow2 b -> b_data b = Some bs -> Z.of_nat (length bs) + Z.of_nat (length data) <= b_cap b ->
  buffer_ok (Buffer (Some (bs ++ data)) (b_cap b)) /\ cap_pow2 (Buffer (Some (bs ++ data)) (b_cap b)).
Proof.
  unfold buffer_ok, cap_pow2. intros Hok Hp E Hl. rewrite E in *. cbn. rewrite length_app. split; [lia | done].
Qed.

(** [buffer_append]: it always terminates when the result stays below 2^63
    bytes; success appends exactly the data and keeps the buffer well formed,
    failure leaves no data behind. *)
Lemma buffer_append_spec b data h :
  buffer_ok b -> cap_pow2 b -> b_len b + Z.of_nat (length data) <= 2 ^ 63 ->
  exists r b' h', buffer_append b data h = Some (r, b', h') /\ h_grants h' = h_grants h /\
    ((r = 0 /\ b_data b' = Some (b_bytes b ++ data) /\ buffer_ok b' /\ cap_pow2 b') \/
     (r = 1 /\ b_data b' = None /\ exists n, h_grants h n = false)).
Proof.
  intros Hok Hp Hlen.
  assert (forall b1 h1 bs, b_data b1 = Some bs -> buffer_ok b1 -> cap_pow2 b1 -> h_grants h1 = h_grants h ->
            Z.of_nat (length bs) + Z.of_nat (length data) <= 2 ^ 63 ->
            exists r b' h', buffer_append b1 data h1 = Some (r, b', h') /\ h_grants h' = h_grants h /\
              ((r = 0 /\ b_data b' = Some (bs ++ data) /\ buffer_ok b' /\ cap_pow2 b') \/
               (r = 1 /\ b_data b' = None /\ exists n, h_grants h n = false))) as Hmain.
  { intros b1 h1 bs Eb Hok1 Hp1 Hg Hl. unfold buffer_append. rewrite Eb. cbn [negb Z.eqb].
    assert (b_len b1 = Z.of_nat (length bs)) as -> by (unfold b_len, b_bytes; by rewrite Eb).
    rewrite wrapu_small by (split; [lia | change (2 ^ 64) with (2 * 2 ^ 63); lia]).
    destruct (buffer_reserve_spec b1 _ h1 Hok1 Hp1 Hl) as (r & b2 & h2 & E & Eg & Hr). rewrite E. cbn [mbind option_bind].
    destruct Hr as [(-> & Ed & Hcap & Hok2 & Hp2) | (-> & Ed & n & Hn)]; cbn [negb Z.eqb].
    - unfold b_bytes in Ed. rewrite Eb in Ed. cbn in Ed. destruct (store_ok b2 bs data Hok2 Hp2 Ed Hcap) as [? ?].
      do 3 eexists. split; [reflexivity|]. split; [congruence|]. left. unfold b_bytes. rewrite Ed. by split_and!.
    - do 3 eexists. split; [reflexivity|]. split; [congruence|]. right. split_and!; try done.
      exists n. by rewrite <- Hg. }
  destruct b as [[bs|] cap]; [by apply (Hmain (Buffer (Some bs) cap) h bs)|].
  pose proof (Hmain (Buffer (Some []) 1024) (Heap (h_grants h) (S (h_next h))) []) as H0.
  unfold buffer_append, lazy_init, p_malloc in *. cbn [b_data] in *.
  destruct (h_grants h (h_next h)) eqn:Eg; cbn [negb Z.eqb] in *.
  - apply H0; [done | unfold buffer_ok; cbn; lia | by exists 10 | done | done].
  - do 3 eexists. split; [reflexivity|]. split; [done|]. right. split_and!; try done. by exists (h_next h).
Qed.

(** With memory to spare both succeed. *)
Lemma buffer_reserve_ample b amount h :
  buffer_ok b -> cap_pow2 b -> amount <= 2 ^ 63 -> plentiful h ->
  exists b' h', buffer_reserve b amount h = Some (0, b', h') /\ b_data b' = Some (b_bytes b) /\
                amount <= b_cap b' /\ buffer_ok b' /\ cap_pow2 b' /\ plentiful h'.
Proof.
  intros Hok Hp Hlen Hh. destruct (buffer_reserve_spec b amount h Hok Hp Hlen) as (r & b' & h' & E & Eg & Hr).
  assert (plentiful h') as Hh' by (intros n; rewrite Eg; apply Hh).
  destruct Hr as [(-> & ? & ? & ? & ?) | (_ & _ & n & Hn)]; [by exists b', h' | by rewrite Hh in Hn].
Qed.

Lemma buffer_append_ample b data h :
  buffer_ok b -> cap_pow2 b -> b_len b + Z.of_nat (length data) <= 2 ^ 63 -> plentiful h ->
  exists b' h', buffer_append b data h = Some (0, b', h') /\ b_data b' = Some (b_bytes b ++ data) /\
                buffer_ok b' /\ cap_pow2 b' /\ plentiful h'.
Proof.
  intros Hok Hp Hlen Hh. destruct (buffer_append_spec b data h Hok Hp Hlen) as (r & b' & h' & E & Eg & Hr).
  assert (plentiful h') as Hh' by (intros n; rewrite Eg; apply Hh).
  destruct Hr as [(-> & ? & ? & ?) | (_ & _ & n & Hn)]; [by exists b', h' | by rewrite Hh in Hn].
Qed.
