(* ===== verification/Nbt.v ===== *)
(** * NBT trees: reading and writing

    [src/cNBT/nbt_parsing.c]: the binary form of NBT (named binary tag) trees
    in memory, as [nbt_parse] reads and [nbt_dump_binary] writes it.

    A node is its name ([None] is [NULL]) and a payload; the payload's
    constructor is the node's [type].  Names and strings are the bytes the
    library allocated for them, without the terminator it adds.  [float] and
    [double] payloads are their bit patterns, since the library only moves
    them.  The sentinel of a list carries the element type. *)

From S2P Require Import Prelude Buffer.

Local Open Scope Z_scope.

Inductive nbt_status := NBT_OK | NBT_ERR | NBT_EMEM | NBT_EIO | NBT_EZ.

#[export] Instance nbt_status_eq_dec : EqDecision nbt_status.
Proof. solve_decision. Defined.

Inductive nbt_node : Set :=
| NbtNode (name : option (list Z)) (payload : nbt_payload)
with nbt_payload : Set :=
| TagByte (v : Z)
| TagShort (v : Z)
| TagInt (v : Z)
| TagLong (v : Z)
| TagFloat (bits : Z)
| TagDouble (bits : Z)
| TagByteArray (data : list Z)
| TagString (s : list Z)
| TagList (sentinel : Z) (entries : list nbt_node)
| TagCompound (entries : list nbt_node)
| TagIntArray (data : list Z)
| TagLongArray (data : list Z).

Definition node_name (n : nbt_node) : option (list Z) := let 'NbtNode name _ := n in name.
Definition node_payload (n : nbt_node) : nbt_payload := let 'NbtNode _ p := n in p.

(** The values of [nbt_type]. *)
Abbreviation TAG_INVALID := 0 (only parsing).
Abbreviation TAG_BYTE := 1 (only parsing).
Abbreviation TAG_SHORT := 2 (only parsing).
Abbreviation TAG_INT := 3 (only parsing).
Abbreviation TAG_LONG := 4 (only parsing).
Abbreviation TAG_FLOAT := 5 (only parsing).
Abbreviation TAG_DOUBLE := 6 (only parsing).
Abbreviation TAG_BYTE_ARRAY := 7 (only parsing).
Abbreviation TAG_STRING := 8 (only parsing).
Abbreviation TAG_LIST := 9 (only parsing).
Abbreviation TAG_COMPOUND := 10 (only parsing).
Abbreviation TAG_INT_ARRAY := 11 (only parsing).
Abbreviation TAG_LONG_ARRAY := 12 (only parsing).

Definition payload_type (p : nbt_payload) : Z :=
  match p with
  | TagByte _ => TAG_BYTE
  | TagShort _ => TAG_SHORT
  | TagInt _ => TAG_INT
  | TagLong _ => TAG_LONG
  | TagFloat _ => TAG_FLOAT
  | TagDouble _ => TAG_DOUBLE
  | TagByteArray _ => TAG_BYTE_ARRAY
  | TagString _ => TAG_STRING
  | TagList _ _ => TAG_LIST
  | TagCompound _ => TAG_COMPOUND
  | TagIntArray _ => TAG_INT_ARRAY
  | TagLongArray _ => TAG_LONG_ARRAY
  end.

Definition node_type (n : nbt_node) : Z := payload_type (node_payload n).

(** ** Byte order *)

(** Numbers in memory are in the machine's byte order. *)
Class ByteOrder := little_endian : bool.

(** The exchange loop of [swap_bytes]: [b] walks up, [e] down. *)
Fixpoint swap_loop (fuel : nat) (b e : nat) (s : list Z) : list Z :=
  match fuel with
  | O => s
  | S fuel' =>
      if (b <? e)%nat then
        let t := default 0 (s !! b) in
        let u := default 0 (s !! e) in
        swap_loop fuel' (b + 1) (e - 1) (<[e := t]> (<[b := u]> s))
      else s
  end.

Definition swap_bytes (s : list Z) : list Z := swap_loop (length s) 0 (length s - 1) s.

Section Endian.
Context {bo : ByteOrder}.

Definition be2ne (s : list Z) : list Z := if little_endian then swap_bytes s else s.
Definition ne2be (s : list Z) : list Z := be2ne s.

(** An n-byte number in memory, and its value (unsigned). *)
Definition ne_bytes (n : nat) (z : Z) : list Z :=
  if little_endian then rev (be_split n z) else be_split n z.
Definition ne_value (s : list Z) : Z :=
  if little_endian then be_combine (rev s) else be_combine s.

(** ** Reading *)

(** The parser's state: what is left of the input ([*memory], [*length]), the
    allocator and [errno]. *)
Record pstate := PState { ps_mem : list Z; ps_heap : heap; ps_errno : nbt_status }.

(** A failed parse returns [NULL]; [PCrash] is a walk along links that were
    never initialised, whose behaviour is undefined; [NoFuel] is the model's own
    bound, which [nbt_parse] never reaches. *)
Inductive presult (A : Type) :=
| POk (a : A) (st : pstate)
| PFail (st : pstate)
| PCrash
| NoFuel.
Arguments POk {A}.
Arguments PFail {A}.
Arguments PCrash {A}.
Arguments NoFuel {A}.

(** The [parse_error] label: [errno] is set unless a deeper call set it. *)
Definition parse_error {A} (st : pstate) : presult A :=
  PFail (PState (ps_mem st) (ps_heap st)
    (if decide (ps_errno st = NBT_OK) then NBT_ERR else ps_errno st)).

Definition bind {A B} (r : presult A) (k : A -> pstate -> presult B) : presult B :=
  match r with
  | POk a st => k a st
  | PFail st => parse_error st
  | PCrash => PCrash
  | NoFuel => NoFuel
  end.

(** [READ_GENERIC] with [memscan]: the bytes, or [None] when too few are left. *)
Definition memscan (n : nat) (st : pstate) : option (list Z * pstate) :=
  if (length (ps_mem st) <? n)%nat then None
  else Some (take n (ps_mem st), PState (drop n (ps_mem st)) (ps_heap st) (ps_errno st)).

(** With [swapped_memscan]: a number, unsigned. *)
Definition swapped_memscan (n : nat) (st : pstate) : option (Z * pstate) :=
  '(bs, st') ← memscan n st; Some (ne_value (be2ne bs), st').

Definition read_number {A} (n : nat) (st : pstate) (k : Z -> pstate -> presult A) : presult A :=
  match swapped_memscan n st with Some (z, st') => k z st' | None => parse_error st end.

(** [CHECKED_MALLOC]. *)
Definition checked_malloc {A} (st : pstate) (k : pstate -> presult A) : presult A :=
  let '(ok, h') := p_malloc (ps_heap st) in
  if ok then k (PState (ps_mem st) h' (ps_errno st))
  else parse_error (PState (ps_mem st) h' NBT_EMEM).

(** The allocation of [ret->data] in [read_list]: a refusal jumps to a
    [nbt_free_list] of [ret] before the [INIT_LIST_HEAD] of its links. *)
Definition checked_malloc_data {A} (st : pstate) (k : pstate -> presult A) : presult A :=
  let '(ok, h') := p_malloc (ps_heap st) in
  if ok then k (PState (ps_mem st) h' (ps_errno st)) else PCrash.

Definition read_string (st : pstate) : presult (list Z) :=
  read_number 2 st (fun z st =>
  let string_length := s16 z in
  if string_length <? 0 then parse_error st
  else if Z.of_nat (length (ps_mem st)) <? string_length then parse_error st
  else
    checked_malloc st (fun st =>
    match memscan (Z.to_nat string_length) st with
    | None => parse_error st
    | Some (bs, st) => POk bs st
    end)).

(** The three array readers share this shape: a length, an allocation, and
    [length * size] bytes. *)
Definition read_array (size : nat) (st : pstate) : presult (list Z) :=
  read_number 4 st (fun z st =>
  let len := s32 z in
  if len <? 0 then parse_error st
  else
    checked_malloc st (fun st =>
    match memscan (Z.to_nat len * size) st with
    | None => parse_error st
    | Some (bs, st) => POk bs st
    end)).

Definition read_byte_array (st : pstate) : presult (list Z) := read_array 1 st.

(** The byte-swapping loop over the elements; [n] elements of [size] bytes. *)
Fixpoint swap_elements (size n : nat) (data : list Z) : list Z :=
  match n with
  | O => []
  | S n' => ne_value (be2ne (take size data)) :: swap_elements size n' (drop size data)
  end.

Definition read_int_array (st : pstate) : presult (list Z) :=
  bind (read_array 4 st) (fun bs st => POk (s32 <$> swap_elements 4 (length bs / 4) bs) st).

Definition read_long_array (st : pstate) : presult (list Z) :=
  bind (read_array 8 st) (fun bs st => POk (s64 <$> swap_elements 8 (length bs / 8) bs) st).

(** The end of [parse_unnamed_tag]: a payload was read without error. *)
Definition finish_node (name : option (list Z)) (p : nbt_payload) (st : pstate) : presult nbt_node :=
  if decide (ps_errno st = NBT_OK) then POk (NbtNode name p) st else parse_error st.

(** [parse_unnamed_tag], the element loop of [read_list] and the loop of
    [read_compound]. *)
Fixpoint parse_unnamed_tag (fuel : nat) (type : Z) (name : option (list Z)) (st : pstate) :
    presult nbt_node :=
  match fuel with
  | O => NoFuel
  | S fuel' =>
      checked_malloc st (fun st =>
      let number n (sgn : Z -> Z) (tag : Z -> nbt_payload) :=
        read_number n st (fun z st => finish_node name (tag (sgn z)) st) in
      let block {X} (r : presult X) (tag : X -> nbt_payload) :=
        bind r (fun x st => finish_node name (tag x) st) in
      match type with
      | TAG_BYTE => number 1%nat s8 TagByte
      | TAG_SHORT => number 2%nat s16 TagShort
      | TAG_INT => number 4%nat s32 TagInt
      | TAG_LONG => number 8%nat s64 TagLong
      | TAG_FLOAT => number 4%nat (fun z => z) TagFloat
      | TAG_DOUBLE => number 8%nat (fun z => z) TagDouble
      | TAG_BYTE_ARRAY => block (read_byte_array st) TagByteArray
      | TAG_INT_ARRAY => block (read_int_array st) TagIntArray
      | TAG_LONG_ARRAY => block (read_long_array st) TagLongArray
      | TAG_STRING => block (read_string st) TagString
      | TAG_LIST =>
          (* read_list *)
          block (checked_malloc st (fun st =>                        (* ret *)
                 checked_malloc_data st (fun st =>                   (* ret->data *)
                 read_number 1 st (fun type st =>
                 read_number 4 st (fun elems st =>
                 bind (list_loop fuel' type 0 (s32 elems) [] st) (fun entries st =>
                 POk (if type =? TAG_INVALID then TAG_COMPOUND else type, entries) st))))))
            (fun '(sentinel, entries) => TagList sentinel entries)
      | TAG_COMPOUND =>
          (* read_compound *)
          block (checked_malloc st (fun st => compound_loop fuel' [] st)) TagCompound
      | _ => parse_error st
      end)
  end
with list_loop (fuel : nat) (type i elems : Z) (ret : list nbt_node) (st : pstate) :
    presult (list nbt_node) :=
  match fuel with
  | O => NoFuel
  | S fuel' =>
      if i <? elems then
        checked_malloc st (fun st =>
        bind (parse_unnamed_tag fuel' type None st) (fun data st =>
        list_loop fuel' type (i + 1) elems (ret ++ [data]) st))
      else POk ret st
  end
with compound_loop (fuel : nat) (ret : list nbt_node) (st : pstate) : presult (list nbt_node) :=
  match fuel with
  | O => NoFuel
  | S fuel' =>
      read_number 1 st (fun type st =>
      if type =? 0 then POk ret st
      else
        bind (read_string st) (fun name st =>
        checked_malloc st (fun st =>
        bind (parse_unnamed_tag fuel' type (Some name) st) (fun data st =>
        compound_loop fuel' (ret ++ [data]) st))))
  end.

(** A failed [read_string] does not stop [parse_named_tag]: it goes on with a
    [NULL] name, and the error shows in [errno]. *)
Definition parse_named_tag (fuel : nat) (st : pstate) : presult nbt_node :=
  match memscan 1 st with
  | None => parse_error st
  | Some (bs, st) =>
      let type := default 0 (head bs) in
      let go_on name st := bind (parse_unnamed_tag fuel type name st) (fun n st => POk n st) in
      match read_string st with
      | POk name st => go_on (Some name) st
      | PFail st => go_on None st
      | PCrash => PCrash
      | NoFuel => NoFuel
      end
  end.

(** Every byte of input allows two calls; see [nbt_parse_fuel]. *)
Definition parse_fuel (mem : list Z) : nat := 2 * length mem + 2.

Definition nbt_parse (mem : list Z) (h : heap) : presult nbt_node :=
  parse_named_tag (parse_fuel mem) (PState mem h NBT_OK).

(** ** Writing *)

(** [None] is a failed assertion, or a buffer that never stops growing. *)
Definition dumper : Type := buffer * heap -> option (nbt_status * (buffer * heap)).

Definition dump_ok : dumper := fun s => Some (NBT_OK, s).
Definition dump_err : dumper := fun s => Some (NBT_ERR, s).
Definition dump_abort : dumper := fun _ => None.

(** [CHECKED_APPEND]. *)
Definition append (data : list Z) : dumper := fun '(b, h) =>
  '(r, b', h') ← buffer_append b data h;
  Some (if r =? 0 then NBT_OK else NBT_EMEM, (b', h')).

Definition dump_then (c k : dumper) : dumper := fun s =>
  '(status, s') ← c s;
  if decide (status = NBT_OK) then k s' else Some (status, s').

(** A number of [n] bytes, converted to big-endian in a temporary. *)
Definition dump_num (n : nat) (z : Z) : dumper := append (ne2be (ne_bytes n z)).

Definition dump_byte_array_binary (data : list Z) : dumper :=
  dump_then (dump_num 4 (Z.of_nat (length data))) (append data).

Fixpoint dump_elements (size : nat) (data : list Z) : dumper :=
  match data with
  | [] => dump_ok
  | x :: data' => dump_then (dump_num size x) (dump_elements size data')
  end.

Definition dump_int_array_binary (data : list Z) : dumper :=
  dump_then (dump_num 4 (Z.of_nat (length data))) (dump_elements 4 data).

Definition dump_long_array_binary (data : list Z) : dumper :=
  dump_then (dump_num 4 (Z.of_nat (length data))) (dump_elements 8 data).

Definition dump_string_binary (name : list Z) : dumper :=
  let len := Z.of_nat (strlen name) in
  if 32767 <? len then dump_err
  else dump_then (dump_num 2 (s16 len)) (append (c_content name)).

(** The loop of [list_is_homogenous]: [type] so far; [None] is
    [return TAG_INVALID]. *)
Fixpoint homogenous_loop (type : Z) (entries : list nbt_node) : option Z :=
  match entries with
  | [] => Some type
  | n :: entries' =>
      let type' := if type =? TAG_INVALID then node_type n else type in
      if negb (type' =? node_type n) then None else homogenous_loop type' entries'
  end.

Definition list_is_homogenous (sentinel : Z) (entries : list nbt_node) : Z :=
  match homogenous_loop TAG_INVALID entries with
  | None => TAG_INVALID
  | Some type => if type =? TAG_INVALID then sentinel else type
  end.

Fixpoint dump_all {A} (dump : A -> dumper) (l : list A) : dumper :=
  match l with
  | [] => dump_ok
  | x :: l' => dump_then (dump x) (dump_all dump l')
  end.

(** [__dump_binary], with [dump_list_binary] and [dump_compound_binary]. *)
Fixpoint dump_binary (tree : nbt_node) (dump_type : bool) : dumper :=
  let 'NbtNode name p := tree in
  dump_then (if dump_type then append [u8 (payload_type p)] else dump_ok)
  (dump_then (match name with Some s => dump_string_binary s | None => dump_ok end)
  (match p with
   | TagByte v => dump_num 1 v
   | TagShort v => dump_num 2 v
   | TagInt v => dump_num 4 v
   | TagLong v => dump_num 8 v
   | TagFloat bits => dump_num 4 bits
   | TagDouble bits => dump_num 8 bits
   | TagByteArray data => dump_byte_array_binary data
   | TagIntArray data => dump_int_array_binary data
   | TagLongArray data => dump_long_array_binary data
   | TagString s => dump_string_binary s
   | TagList sentinel entries =>
       let type := list_is_homogenous sentinel entries in
       let len := Z.of_nat (length entries) in
       if 2147483647 <? len then dump_err
       else if type =? TAG_INVALID then dump_abort
       else
         dump_then (dump_num 1 (s8 type))
         (dump_then (dump_num 4 (s32 len))
         (dump_all (fun n => dump_binary n false) entries))
   | TagCompound entries =>
       dump_then (dump_all (fun n => dump_binary n true) entries) (append [0])
   end)).

Definition nbt_dump_binary (tree : option nbt_node) (h : heap) :
    option (nbt_status * (buffer * heap)) :=
  match tree with
  | None => Some (NBT_OK, (BUFFER_INIT, h))
  | Some tree => dump_binary tree true (BUFFER_INIT, h)
  end.
End Endian.

Arguments POk {A} a st.
Arguments PFail {A} st.
Arguments PCrash {A}.
Arguments NoFuel {A}.
