(* ===== verification/NbtSpec.v ===== *)
(** * The binary form of NBT trees

    A reference encoder, the agreement of the C writer with it, and the round
    trip through the C reader; the reader's termination on any input. *)

From S2P Require Import Prelude Buffer Nbt.

Local Open Scope Z_scope.

(** ** Induction on trees *)

Section Induction.
Variable P : nbt_node -> Prop.

Definition children (p : nbt_payload) : list nbt_node :=
  match p with TagList _ es | TagCompound es => es | _ => [] end.

Hypothesis step : forall name p, Forall P (children p) -> P (NbtNode name p).

Fixpoint nbt_node_nested_ind (n : nbt_node) : P n :=
  let fix all (l : list nbt_node) : Forall P l :=
    match l with
    | [] => Forall_nil_2 P
    | x :: l' => Forall_cons_2 P x l' (nbt_node_nested_ind x) (all l')
    end in
  match n with
  | NbtNode name p =>
      step name p
        match p with
        | TagList _ es => all es
        | TagCompound es => all es
        | _ => Forall_nil_2 P
        end
  end.
End Induction.

(** ** Byte order *)

(** The exchange loop started at [b] with [b + e] one less than the length
    mirrors everything between [b] and [e]. *)
Lemma swap_loop_lookup fuel b e s i :
  (b + e + 1 = length s)%nat -> (e < b + fuel)%nat ->
  swap_loop fuel b e s !! i
  = (if (b <=? i) && (i <=? e) then s !! (length s - 1 - i) else s !! i)%nat.
Proof.
  revert b e s. induction fuel as [|fuel IH]; intros b e s Hl Hf; cbn [swap_loop].
  - destruct (Nat.leb_spec b i), (Nat.leb_spec i e); cbn [andb]; try done.
    replace (length s - 1 - i)%nat with i by lia. done.
  - destruct (Nat.ltb_spec b e) as [Hbe|Hbe].
    + destruct (lookup_lt_is_Some_2 s b) as [x Hx]; [lia|].
      destruct (lookup_lt_is_Some_2 s e) as [y Hy]; [lia|]. rewrite Hx, Hy. cbn [default].
      rewrite IH by (rewrite ?length_insert; lia). rewrite !length_insert.
      assert (forall j, <[e := x]> (<[b := y]> s) !! j
                = if (j =? e)%nat then Some x else if (j =? b)%nat then Some y else s !! j) as Hget.
      { intros j. destruct (Nat.eqb_spec j e) as [->|].
        - apply list_lookup_insert_eq. rewrite length_insert. lia.
        - rewrite list_lookup_insert_ne by done. destruct (Nat.eqb_spec j b) as [->|].
          + apply list_lookup_insert_eq. lia.
          + by rewrite list_lookup_insert_ne by done. }
      rewrite !Hget. case_bools; try lia; try done; cbn [andb]; try (f_equal; lia).
      all: first [rewrite <- Hx; f_equal; lia | rewrite <- Hy; f_equal; lia].
    + destruct (Nat.leb_spec b i), (Nat.leb_spec i e); cbn [andb]; try done.
      replace (length s - 1 - i)%nat with i by lia. done.
Qed.

Lemma swap_bytes_rev s : swap_bytes s = rev s.
Proof.
  apply list_eq. intros i. unfold swap_bytes. destruct s as [|x s'] eqn:Es; [done|]. rewrite <- Es.
  assert (0 < length s)%nat by (subst; cbn; lia).
  rewrite swap_loop_lookup by lia. rewrite rev_alt. change (rev_append s []) with (reverse s).
  destruct (Nat.leb_spec 0 i); [|lia]. destruct (Nat.leb_spec i (length s - 1)); cbn [andb].
  - rewrite reverse_lookup by lia. f_equal. lia.
  - rewrite !lookup_ge_None_2; [done | rewrite length_reverse; lia | lia].
Qed.

Section Endian.
Context {bo : ByteOrder}.

Lemma ne2be_bytes n z : ne2be (ne_bytes n z) = be_split n z.
Proof.
  unfold ne2be, be2ne, ne_bytes. destruct little_endian; [|done].
  by rewrite swap_bytes_rev, rev_involutive.
Qed.

Lemma ne_value_scanned bs : ne_value (be2ne bs) = be_combine bs.
Proof.
  unfold ne_value, be2ne. destruct little_endian; [|done]. by rewrite swap_bytes_rev, rev_involutive.
Qed.
End Endian.

(** ** The reference encoder *)

Definition encode_string (s : list Z) : list Z := be_split 2 (Z.of_nat (length s)) ++ s.

Fixpoint encode (tree : nbt_node) (with_type : bool) : list Z :=
  let 'NbtNode name p := tree in
  (if with_type then [payload_type p] else []) ++
  (match name with Some s => encode_string s | None => [] end) ++
  match p with
  | TagByte v => be_split 1 v
  | TagShort v => be_split 2 v
  | TagInt v => be_split 4 v
  | TagLong v => be_split 8 v
  | TagFloat v => be_split 4 v
  | TagDouble v => be_split 8 v
  | TagByteArray d => be_split 4 (Z.of_nat (length d)) ++ d
  | TagIntArray d => be_split 4 (Z.of_nat (length d)) ++ concat (map (be_split 4) d)
  | TagLongArray d => be_split 4 (Z.of_nat (length d)) ++ concat (map (be_split 8) d)
  | TagString s => encode_string s
  | TagList t es => [t] ++ be_split 4 (Z.of_nat (length es)) ++ concat (map (fun n => encode n false) es)
  | TagCompound es => concat (map (fun n => encode n true) es) ++ [0]
  end.

Definition encode_payload (p : nbt_payload) : list Z := encode (NbtNode None p) false.

Lemma encode_split name p with_type :
  encode (NbtNode name p) with_type =
  (if with_type then [payload_type p] else []) ++
  (match name with Some s => encode_string s | None => [] end) ++ encode_payload p.
Proof. destruct name; done. Qed.

(** ** Well-formed trees

    What the binary form can represent: numbers in range, strings without
    terminator of at most 32767 bytes, compound entries named and list
    entries unnamed and of the list's type. *)

Definition string_wf (s : list Z) : Prop :=
  no_nul s /\ Forall is_byte s /\ Z.of_nat (length s) <= 32767.

Definition array_wf (w : Z) (d : list Z) : Prop :=
  Forall (in_s w) d /\ Z.of_nat (length d) <= 2147483647.

Fixpoint node_wf (named : bool) (tree : nbt_node) : Prop :=
  let 'NbtNode name p := tree in
  match name with Some s => named = true /\ string_wf s | None => named = false end /\
  match p with
  | TagByte v => in_s 8 v
  | TagShort v => in_s 16 v
  | TagInt v => in_s 32 v
  | TagLong v => in_s 64 v
  | TagFloat v => in_u 32 v
  | TagDouble v => in_u 64 v
  | TagByteArray d => Forall is_byte d /\ Z.of_nat (length d) <= 2147483647
  | TagIntArray d => array_wf 32 d
  | TagLongArray d => array_wf 64 d
  | TagString s => string_wf s
  | TagList t es =>
      1 <= t < 256 /\ Z.of_nat (length es) <= 2147483647 /\
      (fix all (l : list nbt_node) : Prop :=
         match l with [] => True | n :: l' => (node_wf false n /\ node_type n = t) /\ all l' end) es
  | TagCompound es =>
      (fix all (l : list nbt_node) : Prop :=
         match l with [] => True | n :: l' => node_wf true n /\ all l' end) es
  end.

Lemma node_wf_list named name t es :
  node_wf named (NbtNode name (TagList t es)) ->
  1 <= t < 256 /\ Z.of_nat (length es) <= 2147483647 /\
  Forall (fun n => node_wf false n /\ node_type n = t) es.
Proof.
  intros (_ & Ht & Hl & H). split_and!; try done; try lia. clear -H. induction es as [|n es IH]; constructor; tauto.
Qed.

Lemma node_wf_compound named name es :
  node_wf named (NbtNode name (TagCompound es)) -> Forall (node_wf true) es.
Proof. intros (_ & H). induction es as [|n es IH]; constructor; tauto. Qed.

Lemma payload_type_range p : 1 <= payload_type p <= 12.
Proof. destruct p; cbn; lia. Qed.

(** ** The writer *)

Section Writer.
Context {bo : ByteOrder}.

(** With memory to spare, [c] appends exactly [bs]. *)
Definition writes (c : dumper) (bs : list Z) : Prop :=
  forall b h, buffer_ok b -> cap_pow2 b -> b_len b + Z.of_nat (length bs) <= 2 ^ 63 -> plentiful h ->
  exists b' h', c (b, h) = Some (NBT_OK, (b', h')) /\ b_bytes b' = b_bytes b ++ bs /\
                buffer_ok b' /\ cap_pow2 b' /\ plentiful h'.

Lemma writes_ok : writes dump_ok [].
Proof. intros b h Hb Hc _ Hh. exists b, h. by rewrite app_nil_r. Qed.

Lemma writes_append bs : writes (append bs) bs.
Proof.
  intros b h Hb Hc Hl Hh. destruct (buffer_append_ample b bs h Hb Hc Hl Hh) as (b' & h' & E & Eb & ? & ? & ?).
  exists b', h'. unfold append. rewrite E. cbn. split_and!; try done. unfold b_bytes at 1. by rewrite Eb.
Qed.

Lemma writes_then c k bs1 bs2 : writes c bs1 -> writes k bs2 -> writes (dump_then c k) (bs1 ++ bs2).
Proof.
  intros Hc Hk b h Hb Hp Hl Hh. rewrite length_app in Hl.
  destruct (Hc b h Hb Hp) as (b1 & h1 & E1 & Eb1 & Hb1 & Hp1 & Hh1); [lia | done |].
  destruct (Hk b1 h1 Hb1 Hp1) as (b2 & h2 & E2 & Eb2 & Hb2 & Hp2 & Hh2); [|done|].
  { unfold b_len in *. rewrite Eb1, length_app. lia. }
  exists b2, h2. unfold dump_then. rewrite E1. cbn. split_and!; try done.
  by rewrite Eb2, Eb1, app_assoc.
Qed.

Lemma writes_num n z : writes (dump_num n z) (be_split n z).
Proof. unfold dump_num. rewrite ne2be_bytes. apply writes_append. Qed.

Lemma writes_elements n d : writes (dump_elements n d) (concat (map (be_split n) d)).
Proof.
  induction d as [|x d IH]; [apply writes_ok|]. cbn. apply writes_then; [apply writes_num | done].
Qed.

Lemma writes_all {A} (f : A -> dumper) (g : A -> list Z) l :
  Forall (fun x => writes (f x) (g x)) l -> writes (dump_all f l) (concat (map g l)).
Proof. induction 1; [apply writes_ok|]. cbn. by apply writes_then. Qed.

(** Conversion to the signed type first does not change the bytes. *)
Lemma be_split_wraps n z : be_split n (wraps (8 * Z.of_nat n) z) = be_split n z.
Proof.
  destruct n as [|n]; [done|]. apply be_split_cong. set (w := 8 * Z.of_nat (S n)).
  unfold wraps. rewrite Zminus_mod_idemp_l. f_equal. lia.
Qed.

Lemma be_split_byte t : is_byte t -> be_split 1 t = [t].
Proof. intros Ht. cbn. rewrite Z.pow_0_r, Z.div_1_r, wrapu_small by done. done. Qed.

Lemma writes_string s : string_wf s -> writes (dump_string_binary s) (encode_string s).
Proof.
  intros (Hn & _ & Hl). unfold dump_string_binary, strlen. rewrite c_content_no_nul by done.
  destruct (Z.ltb_spec 32767 (Z.of_nat (length s))); [lia|].
  apply writes_then; [|apply writes_append].
  rewrite <- (be_split_wraps 2). apply writes_num.
Qed.

Lemma homogenous_list t es :
  1 <= t < 256 -> Forall (fun n => node_type n = t) es -> list_is_homogenous t es = t.
Proof.
  intros Ht H. unfold list_is_homogenous.
  assert (forall t0, t0 = t \/ t0 = TAG_INVALID ->
            homogenous_loop t0 es = Some t \/ (es = [] /\ homogenous_loop t0 es = Some t0)) as Hloop.
  { induction H as [|n es Hn _ IH]; intros t0 Ht0; [by right|]. left. cbn. rewrite Hn.
    assert ((if t0 =? 0 then t else t0) = t) as -> by (destruct (Z.eqb_spec t0 0); destruct Ht0; lia).
    rewrite Z.eqb_refl. cbn. destruct (IH t (or_introl eq_refl)) as [->|[-> ->]]; done. }
  destruct (Hloop 0 (or_intror eq_refl)) as [->|[-> ->]]; [|done].
  destruct (Z.eqb_spec t 0); [lia | done].
Qed.

Lemma dump_writes n : forall named with_type, node_wf named n -> writes (dump_binary n with_type) (encode n with_type).
Proof.
  induction n as [name p IH] using nbt_node_nested_ind. intros named with_type Hwf.
  cbn [dump_binary encode]. pose proof (payload_type_range p) as Hty.
  apply writes_then; [destruct with_type; [|apply writes_ok]|].
  { rewrite wrapu_small by width_lia. apply writes_append. }
  apply writes_then.
  { destruct name; [|apply writes_ok]. destruct Hwf as [[_ Hs] _]. by apply writes_string. }
  destruct p; try apply writes_num.
  - apply writes_then; [apply writes_num | apply writes_append].
  - by apply writes_string, Hwf.
  - apply node_wf_list in Hwf as (Ht & Hl & Hes). cbn [children] in IH.
    rewrite homogenous_list by (done || (eapply Forall_impl; [exact Hes | by intros ? []])).
    destruct (Z.ltb_spec 2147483647 (Z.of_nat (length entries))); [lia|].
    destruct (Z.eqb_spec sentinel 0); [lia|].
    apply writes_then; [|apply writes_then; [|apply writes_all]].
    + replace [sentinel] with (be_split 1 (s8 sentinel)); [apply writes_num|].
      etrans; [apply (be_split_wraps 1)|]. apply be_split_byte. width_lia.
    + rewrite <- (be_split_wraps 4). apply writes_num.
    + rewrite Forall_forall in *. intros x Hx. apply (IH x Hx false), (Hes x Hx).
  - apply node_wf_compound in Hwf. cbn [children] in IH. apply writes_then; [|apply writes_append].
    apply writes_all. rewrite Forall_forall in *. intros x Hx. by apply (IH x Hx true), Hwf.
  - apply writes_then; [apply writes_num | apply writes_elements].
  - apply writes_then; [apply writes_num | apply writes_elements].
Qed.
End Writer.

(** ** The reader *)

Section Reader.
Context {bo : ByteOrder}.

Definition bump (h : heap) : heap := Heap (h_grants h) (S (h_next h)).

Lemma bump_plentiful h : plentiful h -> plentiful (bump h).
Proof. intros H n. apply H. Qed.

Lemma checked_malloc_data_ample {A} m h e (k : pstate -> presult A) :
  plentiful h -> checked_malloc_data (PState m h e) k = k (PState m (bump h) e).
Proof. intros H. unfold checked_malloc_data, p_malloc. cbn. by rewrite H. Qed.

Lemma checked_malloc_ample {A} m h e (k : pstate -> presult A) :
  plentiful h -> checked_malloc (PState m h e) k = k (PState m (bump h) e).
Proof. intros H. unfold checked_malloc, p_malloc. cbn. by rewrite H. Qed.

Lemma memscan_app n bs rest h e :
  n = length bs -> memscan n (PState (bs ++ rest) h e) = Some (bs, PState rest h e).
Proof.
  intros ->. unfold memscan. cbn [ps_mem ps_heap ps_errno].
  destruct (Nat.ltb_spec (length (bs ++ rest)) (length bs)); [rewrite length_app in *; lia|].
  by rewrite take_app_length, drop_app_length.
Qed.

Lemma read_number_split {A} n z rest h e (k : Z -> pstate -> presult A) :
  read_number n (PState (be_split n z ++ rest) h e) k = k (z mod 2 ^ (8 * Z.of_nat n)) (PState rest h e).
Proof.
  unfold read_number, swapped_memscan. rewrite memscan_app by (by rewrite length_be_split).
  cbn [mbind option_bind]. by rewrite ne_value_scanned, be_combine_split.
Qed.

Lemma read_byte_cons {A} t rest h e (k : Z -> pstate -> presult A) :
  is_byte t -> read_number 1 (PState (t :: rest) h e) k = k t (PState rest h e).
Proof.
  intros Ht. change (t :: rest) with ([t] ++ rest). rewrite <- (be_split_byte t Ht), read_number_split.
  f_equal. apply wrapu_small, Ht.
Qed.

Lemma wraps_mod w z : 0 < w -> in_s w z -> wraps w (z mod 2 ^ w) = z.
Proof.
  intros Hw Hz. unfold wraps. rewrite Zplus_mod_idemp_l. by apply wraps_small.
Qed.

Lemma read_string_encoded s rest h e :
  string_wf s -> plentiful h ->
  read_string (PState (encode_string s ++ rest) h e) = POk s (PState rest (bump h) e).
Proof.
  intros (_ & _ & Hl) Hh. unfold read_string, encode_string. rewrite <- app_assoc, read_number_split.
  change (8 * Z.of_nat 2) with 16. rewrite wraps_mod by width_lia.
  destruct (Z.ltb_spec (Z.of_nat (length s)) 0); [lia|]. cbn [ps_mem].
  destruct (Z.ltb_spec (Z.of_nat (length (s ++ rest))) (Z.of_nat (length s))); [rewrite length_app in *; lia|].
  rewrite checked_malloc_ample by done. by rewrite memscan_app by lia.
Qed.

Lemma read_array_encoded size bs n rest h e :
  Z.of_nat n <= 2147483647 -> length bs = (n * size)%nat -> plentiful h ->
  read_array size (PState ((be_split 4 (Z.of_nat n) ++ bs) ++ rest) h e) = POk bs (PState rest (bump h) e).
Proof.
  intros Hn Hl Hh. unfold read_array. rewrite <- app_assoc, read_number_split.
  change (8 * Z.of_nat 4) with 32. rewrite wraps_mod by width_lia.
  destruct (Z.ltb_spec (Z.of_nat n) 0); [lia|].
  rewrite checked_malloc_ample by done. rewrite memscan_app by (rewrite Nat2Z.id; lia). done.
Qed.

Lemma length_concat_split size d : length (concat (map (be_split size) d)) = (length d * size)%nat.
Proof. induction d as [|x d IH]; [done|]. cbn. rewrite length_app, length_be_split, IH. done. Qed.

Lemma swap_elements_encoded size d :
  swap_elements size (length d) (concat (map (be_split size) d))
  = map (fun x => x mod 2 ^ (8 * Z.of_nat size)) d.
Proof.
  induction d as [|x d IH]; [done|]. cbn [length map concat swap_elements].
  rewrite take_app_length', drop_app_length' by (by rewrite length_be_split).
  by rewrite ne_value_scanned, be_combine_split, IH.
Qed.

Lemma swap_elements_signed size d :
  (0 < size)%nat -> Forall (in_s (8 * Z.of_nat size)) d ->
  wraps (8 * Z.of_nat size) <$> swap_elements size (length (concat (map (be_split size) d)) / size)
                                  (concat (map (be_split size) d)) = d.
Proof.
  intros Hs Hd. rewrite length_concat_split, Nat.div_mul, swap_elements_encoded by lia.
  induction Hd as [|x d Hx _ IH]; [done|]. cbn [map fmap list_fmap]. f_equal; [|exact IH].
  apply wraps_mod; [lia | done].
Qed.

(** What the reader does on the encoding of [n]'s payload. *)
Definition parses (n : nbt_node) : Prop :=
  forall fuel rest h, plentiful h -> (2 * length (encode_payload (node_payload n)) + 2 <= fuel)%nat ->
  exists h', plentiful h' /\
    parse_unnamed_tag fuel (node_type n) (node_name n) (PState (encode_payload (node_payload n) ++ rest) h NBT_OK)
    = POk n (PState rest h' NBT_OK).

Lemma encode_payload_nonempty p : (1 <= length (encode_payload p))%nat.
Proof.
  unfold encode_payload, encode_string. destruct p; cbn; rewrite ?length_app; cbn; lia.
Qed.

Lemma list_loop_encoded t es :
  Forall (fun n => parses n /\ node_name n = None /\ node_type n = t) es ->
  forall fuel i ret rest h, plentiful h ->
  (2 * length (concat (map (fun n => encode n false) es)) + 3 <= fuel)%nat ->
  exists h', plentiful h' /\
    list_loop fuel t i (i + Z.of_nat (length es)) ret
      (PState (concat (map (fun n => encode n false) es) ++ rest) h NBT_OK)
    = POk (ret ++ es) (PState rest h' NBT_OK).
Proof.
  induction 1 as [|n es (Hp & Hname & Ht) _ IH]; intros fuel i ret rest h Hh Hf;
    (destruct fuel as [|fuel]; [cbn in Hf; lia|]); cbn [list_loop map concat length].
  - rewrite Z.add_0_r, Z.ltb_irrefl. exists h. by rewrite app_nil_r.
  - destruct (Z.ltb_spec i (i + Z.of_nat (S (length es)))); [|lia].
    rewrite checked_malloc_ample by done. destruct n as [name p]. cbn in Hname. subst name.
    cbn [map concat length] in Hf. rewrite encode_split in *. cbn [app] in *. rewrite length_app in Hf.
    pose proof (encode_payload_nonempty p) as Hne. rewrite <- app_assoc.
    destruct (Hp fuel (concat (map (fun n => encode n false) es) ++ rest) (bump h)) as (h1 & Hh1 & E1);
      [by apply bump_plentiful | cbn [node_payload]; lia |]. cbn [node_name node_payload] in E1. rewrite <- Ht, E1. cbn [bind].
    destruct (IH fuel (i + 1) (ret ++ [NbtNode None p]) rest h1 Hh1) as (h2 & Hh2 & E2); [lia|].
    rewrite <- Ht in E2. exists h2. split; [done|].
    replace (i + Z.of_nat (S (length es))) with (i + 1 + Z.of_nat (length es)) by lia.
    rewrite E2. by rewrite <- app_assoc.
Qed.

Lemma compound_loop_encoded es :
  Forall (fun n => parses n /\ node_wf true n) es ->
  forall fuel ret rest h, plentiful h ->
  (2 * length (concat (map (fun n => encode n true) es) ++ [0%Z]) + 1 <= fuel)%nat ->
  exists h', plentiful h' /\
    compound_loop fuel ret (PState ((concat (map (fun n => encode n true) es) ++ [0]) ++ rest) h NBT_OK)
    = POk (ret ++ es) (PState rest h' NBT_OK).
Proof.
  induction 1 as [|n es (Hp & Hwf) _ IH]; intros fuel ret rest h Hh Hf;
    (destruct fuel as [|fuel]; [cbn in Hf; lia|]); cbn [compound_loop map concat].
  - cbn [app]. rewrite read_byte_cons by width_lia. exists h. by rewrite app_nil_r.
  - destruct n as [[name|] p]; [|by destruct Hwf]. destruct Hwf as [[_ Hs] _].
    pose proof (payload_type_range p) as Hty. cbn [map concat] in Hf. rewrite encode_split in *. cbn [app] in *.
    rewrite read_byte_cons by width_lia. destruct (Z.eqb_spec (payload_type p) 0); [lia|].
    rewrite <- !app_assoc. rewrite read_string_encoded by done. cbn [bind].
    rewrite checked_malloc_ample by by apply bump_plentiful. cbn [length] in Hf. rewrite !length_app in Hf. cbn [length] in Hf.
    destruct (Hp fuel (concat (map (fun n => encode n true) es) ++ [0] ++ rest) (bump (bump h)))
      as (h1 & Hh1 & E1); [by do 2 apply bump_plentiful | cbn [node_payload]; lia |].
    cbn [node_name node_payload] in E1. unfold node_type in E1. cbn [node_payload] in E1. rewrite E1. cbn [bind].
    destruct (IH fuel (ret ++ [NbtNode (Some name) p]) rest h1 Hh1) as (h2 & Hh2 & E2).
    { rewrite length_app. cbn [length]. lia. }
    exists h2. split; [done|]. rewrite <- app_assoc in E2. cbn [app] in *. rewrite E2. by rewrite <- app_assoc.
Qed.

Lemma parse_encoded n : forall named, node_wf named n -> parses n.
Proof.
  induction n as [name p IH] using nbt_node_nested_ind. intros named Hwf fuel rest h Hh Hf.
  unfold node_type. cbn [node_payload node_name] in *.
  destruct fuel as [|fuel]; [lia|]. pose proof (bump_plentiful h Hh) as Hh1.
  destruct p; cbn [parse_unnamed_tag payload_type]; rewrite checked_malloc_ample by done.
  1-6: exists (bump h); (split; [done|]); destruct Hwf as [_ Hv]; unfold encode_payload; cbn [encode app];
    rewrite read_number_split; unfold finish_node; cbn [ps_errno decide];
    first [rewrite wraps_mod by done | rewrite Z.mod_small by exact Hv]; done.
  - destruct Hwf as [_ [Hd Hl]]. exists (bump (bump h)). split; [by apply bump_plentiful|].
    unfold read_byte_array, encode_payload. cbn [encode app].
    rewrite read_array_encoded by (done || lia). done.
  - destruct Hwf as [_ Hs]. exists (bump (bump h)). split; [by apply bump_plentiful|].
    unfold encode_payload. cbn [encode app]. by rewrite read_string_encoded.
  - apply node_wf_list in Hwf as (Ht & Hl & Hes). unfold encode_payload in *. cbn [encode app] in *.
    rewrite !checked_malloc_ample, ?checked_malloc_data_ample by (by repeat apply bump_plentiful).
    rewrite read_byte_cons by width_lia. rewrite <- app_assoc, read_number_split.
    change (8 * Z.of_nat 4) with 32. rewrite wraps_mod by width_lia.
    cbn [length] in Hf. rewrite length_app, length_be_split in Hf.
    destruct (list_loop_encoded sentinel entries) with (fuel := fuel) (i := 0) (ret := @nil nbt_node) (rest := rest)
      (h := bump (bump (bump h))) as (h' & Hh' & E).
    { rewrite Forall_forall in *. intros x Hx. destruct (Hes x Hx) as [Hw Hty].
      split_and!; [by apply (IH x Hx false) | | done]. destruct x as [[s|] q]; [by destruct Hw as [[? _] _] | done]. }
    { by repeat apply bump_plentiful. }
    { lia. }
    rewrite Z.add_0_l in E. rewrite E. cbn [bind]. destruct (Z.eqb_spec sentinel 0); [lia|].
    exists h'. split; [done|]. done.
  - apply node_wf_compound in Hwf. unfold encode_payload in *. cbn [encode app] in *.
    rewrite !checked_malloc_ample, ?checked_malloc_data_ample by (by repeat apply bump_plentiful).
    destruct (compound_loop_encoded entries) with (fuel := fuel) (ret := @nil nbt_node) (rest := rest)
      (h := bump (bump h)) as (h' & Hh' & E).
    { rewrite Forall_forall in *. intros x Hx. split; [by apply (IH x Hx true), Hwf | by apply Hwf]. }
    { by repeat apply bump_plentiful. }
    { lia. }
    rewrite E. exists h'. done.
  - destruct Hwf as [_ [Hd Hl]]. exists (bump (bump h)). split; [by apply bump_plentiful|].
    unfold read_int_array, encode_payload. cbn [encode app].
    rewrite read_array_encoded by (rewrite ?length_concat_split; done || lia). cbn [bind].
    pose proof (swap_elements_signed 4 data ltac:(lia) Hd) as E. change (8 * Z.of_nat 4) with 32 in E.
    by rewrite E.
  - destruct Hwf as [_ [Hd Hl]]. exists (bump (bump h)). split; [by apply bump_plentiful|].
    unfold read_long_array, encode_payload. cbn [encode app].
    rewrite read_array_encoded by (rewrite ?length_concat_split; done || lia). cbn [bind].
    pose proof (swap_elements_signed 8 data ltac:(lia) Hd) as E. change (8 * Z.of_nat 8) with 64 in E.
    by rewrite E.
Qed.

(** ** Termination of the reader *)

(** A result that is not [NoFuel] and leaves fewer than [n] bytes. *)
Definition leaves {A} (n : nat) (r : presult A) : Prop :=
  match r with POk _ st => (length (ps_mem st) < n)%nat | PFail _ | PCrash => True | NoFuel => False end.

Lemma leaves_weaken {A} n m (r : presult A) : (n <= m)%nat -> leaves n r -> leaves m r.
Proof. destruct r; cbn; [lia | done..]. Qed.

Lemma leaves_bind {A B} n m (r : presult A) (k : A -> pstate -> presult B) :
  leaves n r -> (forall a st, (length (ps_mem st) < n)%nat -> leaves m (k a st)) -> leaves m (bind r k).
Proof. destruct r; cbn; auto. Qed.

Lemma leaves_read_number {A} w m st (k : Z -> pstate -> presult A) :
  (forall z st', (length (ps_mem st') + w = length (ps_mem st))%nat -> leaves m (k z st')) ->
  leaves m (read_number w st k).
Proof.
  intros H. unfold read_number, swapped_memscan, memscan.
  destruct (Nat.ltb_spec (length (ps_mem st)) w); [done|]. cbn [mbind option_bind]. apply H. cbn.
  rewrite length_drop. lia.
Qed.

Lemma leaves_malloc {A} m st (k : pstate -> presult A) :
  (forall st', ps_mem st' = ps_mem st -> leaves m (k st')) -> leaves m (checked_malloc st k).
Proof. intros H. unfold checked_malloc. destruct (p_malloc (ps_heap st)) as [[] h']; [by apply H | done]. Qed.

Lemma leaves_malloc_data {A} m st (k : pstate -> presult A) :
  (forall st', ps_mem st' = ps_mem st -> leaves m (k st')) -> leaves m (checked_malloc_data st k).
Proof. intros H. unfold checked_malloc_data. destruct (p_malloc (ps_heap st)) as [[] h']; [by apply H | done]. Qed.

Lemma leaves_finish m name p st : (length (ps_mem st) < m)%nat -> leaves m (finish_node name p st).
Proof. intros H. unfold finish_node. by destruct (decide _). Qed.

Lemma leaves_memscan {A} w m st (k : list Z -> pstate -> presult A) :
  (forall bs st', (length (ps_mem st') <= length (ps_mem st))%nat -> leaves m (k bs st')) ->
  leaves m (match memscan w st with None => parse_error st | Some (bs, st') => k bs st' end).
Proof.
  intros H. unfold memscan. destruct (_ <? w)%nat; [done|]. apply H. cbn. rewrite length_drop. lia.
Qed.

Lemma leaves_read_string st : leaves (length (ps_mem st) - 1) (read_string st).
Proof.
  unfold read_string. apply leaves_read_number. intros z st1 H1. destruct (_ <? 0); [done|].
  destruct (_ <? _); [done|]. apply leaves_malloc. intros st2 H2. rewrite <- H2 in H1.
  apply (leaves_memscan _ _ st2 (fun bs st => POk bs st)). intros bs st3 H3. cbn. lia.
Qed.

Lemma leaves_read_array size st : leaves (length (ps_mem st) - 3) (read_array size st).
Proof.
  unfold read_array. apply leaves_read_number. intros z st1 H1. destruct (_ <? 0); [done|].
  apply leaves_malloc. intros st2 H2. rewrite <- H2 in H1.
  apply (leaves_memscan _ _ st2 (fun bs st => POk bs st)). intros bs st3 H3. cbn. lia.
Qed.

(** Every tag takes at least a byte, so the three functions end within the
    fuel their input allows. *)
Lemma parse_terminates fuel :
  (forall type name st, (2 * length (ps_mem st) + 2 <= fuel)%nat ->
     leaves (length (ps_mem st)) (parse_unnamed_tag fuel type name st)) /\
  (forall type i elems ret st, (2 * length (ps_mem st) + 3 <= fuel)%nat ->
     leaves (length (ps_mem st) + 1) (list_loop fuel type i elems ret st)) /\
  (forall ret st, (2 * length (ps_mem st) + 1 <= fuel)%nat ->
     leaves (length (ps_mem st)) (compound_loop fuel ret st)).
Proof.
  induction fuel as [|fuel (IHp & IHl & IHc)]; [repeat split; intros; lia|]. split_and!.
  - intros type name st0 Hf. cbn [parse_unnamed_tag]. apply leaves_malloc. intros st Hst. rewrite <- Hst in *.
    assert (forall w (sgn : Z -> Z) tag, (0 < w)%nat ->
      leaves (length (ps_mem st)) (read_number w st (fun z st => finish_node name (tag (sgn z)) st))) as Hnum.
    { intros w sgn tag Hw. apply leaves_read_number. intros z st' H'. apply leaves_finish. lia. }
    assert (forall X (r : presult X) (tag : X -> nbt_payload), leaves (length (ps_mem st)) r ->
      leaves (length (ps_mem st)) (bind r (fun x st => finish_node name (tag x) st))) as Hblock.
    { intros X r tag Hr. eapply leaves_bind; [exact Hr|]. intros x st' H'. by apply leaves_finish. }
    assert (forall size, leaves (length (ps_mem st)) (read_array size st)) as Harr.
    { intros size. eapply leaves_weaken; [|apply leaves_read_array]. lia. }
    repeat match goal with |- leaves _ (match ?t with _ => _ end) => destruct t end; try done;
      try (apply Hnum; lia); try (apply Hblock).
    all: match goal with
      | |- leaves _ (read_byte_array _) => apply Harr
      | |- leaves _ (read_int_array _) => eapply leaves_bind; [apply Harr | done]
      | |- leaves _ (read_long_array _) => eapply leaves_bind; [apply Harr | done]
      | |- leaves _ (read_string _) => eapply leaves_weaken; [|apply leaves_read_string]; lia
      | |- leaves _ (checked_malloc _ _) => apply leaves_malloc; intros st1 H1
      end.
    + apply leaves_malloc_data. intros st2 H2.
      apply leaves_read_number. intros t st3 H3. apply leaves_read_number. intros e st4 H4.
      rewrite H2, H1 in H3. eapply leaves_bind; [apply IHl; lia|]. intros es st5 H5. cbn. lia.
    + rewrite <- H1 in Hf |- *. apply IHc. lia.
  - intros type i elems ret st Hf. cbn [list_loop]. destruct (i <? elems); [|cbn; lia].
    apply leaves_malloc. intros st1 H1. eapply leaves_bind; [apply IHp; rewrite H1; lia|].
    intros n st2 H2. rewrite H1 in H2. eapply leaves_weaken; [|apply IHl]; lia.
  - intros ret st Hf. cbn [compound_loop]. apply leaves_read_number. intros t st1 H1.
    destruct (t =? 0); [cbn; lia|]. eapply leaves_bind; [apply leaves_read_string|]. intros name st2 H2.
    apply leaves_malloc. intros st3 H3. eapply leaves_bind; [apply IHp; rewrite H3; lia|].
    intros n st4 H4. rewrite H3 in H4. eapply leaves_weaken; [|apply IHc]; lia.
Qed.
End Reader.

(** *** The crash *)

Section Crash.
Context {bo : ByteOrder}.

(** An allocation is granted and the next one is refused. *)
Definition refused_after_grant (h : heap) : Prop := exists n, h_grants h n = true /\ h_grants h (S n) = false.

(** A crash comes from such a pair of allocations; no other result changes what
    the allocator will answer. *)
Definition crashes_refused {A} (h : heap) (r : presult A) : Prop :=
  match r with
  | POk _ st | PFail st => h_grants (ps_heap st) = h_grants h
  | PCrash => refused_after_grant h
  | NoFuel => True
  end.

Lemma crashes_same {A} h h' (r : presult A) : h_grants h = h_grants h' -> crashes_refused h r -> crashes_refused h' r.
Proof. intros E. destruct r; cbn; rewrite <- ?E; try done. unfold refused_after_grant. by rewrite E. Qed.

Lemma crashes_bind {A B} h (r : presult A) (k : A -> pstate -> presult B) :
  crashes_refused h r -> (forall a st, crashes_refused (ps_heap st) (k a st)) -> crashes_refused h (bind r k).
Proof. destruct r; cbn; try done. intros E H. by apply (crashes_same _ _ _ E). Qed.

Lemma crashes_read_number {A} w st (k : Z -> pstate -> presult A) :
  (forall z st', crashes_refused (ps_heap st') (k z st')) -> crashes_refused (ps_heap st) (read_number w st k).
Proof.
  intros H. unfold read_number, swapped_memscan, memscan. destruct (_ <? w)%nat; [done|]. cbn [mbind option_bind].
  apply (H _ (PState _ (ps_heap st) _)).
Qed.

Lemma crashes_memscan {A} w st (k : list Z -> pstate -> presult A) :
  (forall bs st', crashes_refused (ps_heap st') (k bs st')) ->
  crashes_refused (ps_heap st) (match memscan w st with None => parse_error st | Some (bs, st') => k bs st' end).
Proof. intros H. unfold memscan. destruct (_ <? w)%nat; [done|]. apply (H _ (PState _ (ps_heap st) _)). Qed.

Lemma crashes_malloc {A} st (k : pstate -> presult A) :
  (forall st', crashes_refused (ps_heap st') (k st')) -> crashes_refused (ps_heap st) (checked_malloc st k).
Proof.
  intros H. unfold checked_malloc, p_malloc. destruct (h_grants _ _); [|done]. by eapply crashes_same; [|apply H].
Qed.

(** The two allocations of [read_list]. *)
Lemma crashes_malloc_data {A} st (k : pstate -> presult A) :
  (forall st', crashes_refused (ps_heap st') (k st')) ->
  crashes_refused (ps_heap st) (checked_malloc st (fun st => checked_malloc_data st k)).
Proof.
  intros H. unfold checked_malloc, checked_malloc_data, p_malloc. destruct (h_grants (ps_heap st) _) eqn:E1; [|done].
  cbn [ps_heap h_grants h_next]. destruct (h_grants (ps_heap st) (S _)) eqn:E2.
  - by eapply crashes_same; [|apply H].
  - by exists (h_next (ps_heap st)).
Qed.

Lemma crashes_finish name p st : crashes_refused (ps_heap st) (finish_node name p st).
Proof. unfold finish_node. by destruct (decide _). Qed.

Lemma crashes_read_string st : crashes_refused (ps_heap st) (read_string st).
Proof.
  unfold read_string. apply crashes_read_number. intros z st1. destruct (_ <? 0); [done|]. destruct (_ <? _); [done|].
  apply crashes_malloc. intros st2. by apply (crashes_memscan _ st2 (fun bs st => POk bs st)).
Qed.

Lemma crashes_read_array size st : crashes_refused (ps_heap st) (read_array size st).
Proof.
  unfold read_array. apply crashes_read_number. intros z st1. destruct (_ <? 0); [done|].
  apply crashes_malloc. intros st2. by apply (crashes_memscan _ st2 (fun bs st => POk bs st)).
Qed.

Lemma parse_crashes fuel :
  (forall type name st, crashes_refused (ps_heap st) (parse_unnamed_tag fuel type name st)) /\
  (forall type i elems ret st, crashes_refused (ps_heap st) (list_loop fuel type i elems ret st)) /\
  (forall ret st, crashes_refused (ps_heap st) (compound_loop fuel ret st)).
Proof.
  induction fuel as [|fuel (IHp & IHl & IHc)]; [done|]. split_and!.
  - intros type name st0. cbn [parse_unnamed_tag]. apply crashes_malloc. intros st.
    assert (forall w (sgn : Z -> Z) tag, crashes_refused (ps_heap st) (read_number w st (fun z st => finish_node name (tag (sgn z)) st))) as Hnum.
    { intros w sgn tag. apply crashes_read_number. intros z st'. apply crashes_finish. }
    assert (forall X (r : presult X) (tag : X -> nbt_payload), crashes_refused (ps_heap st) r ->
      crashes_refused (ps_heap st) (bind r (fun x st => finish_node name (tag x) st))) as Hblock.
    { intros X r tag Hr. apply crashes_bind; [exact Hr|]. intros x st'. apply crashes_finish. }
    repeat match goal with |- crashes_refused _ (match ?t with _ => _ end) => destruct t end;
      try done; try apply Hnum; apply Hblock; try apply crashes_read_array; try apply crashes_read_string.
    all: try (by apply crashes_bind; [apply crashes_read_array | done]).
    + apply crashes_malloc_data. intros st2. apply crashes_read_number. intros t st3. apply crashes_read_number. intros e st4.
      apply crashes_bind; [apply IHl | done].
    + apply crashes_malloc. intros st1. apply IHc.
  - intros type i elems ret st. cbn [list_loop]. destruct (i <? elems); [|done].
    apply crashes_malloc. intros st1. apply crashes_bind; [apply IHp|]. intros n st2. apply IHl.
  - intros ret st. cbn [compound_loop]. apply crashes_read_number. intros t st1. destruct (t =? 0); [done|].
    apply crashes_bind; [apply crashes_read_string|]. intros name st2. apply crashes_malloc. intros st3.
    apply crashes_bind; [apply IHp|]. intros n st4. apply IHc.
Qed.
End Crash.

(** ** Theorems *)

(** Any number of steps left, the parser's failure leaves an error code. *)
Definition failure_set {A} (r : presult A) : Prop :=
  match r with PFail st => ps_errno st <> NBT_OK | _ => True end.

Lemma parse_error_set {A} st : failure_set (@parse_error A st).
Proof. unfold parse_error. cbn. by destruct (decide (ps_errno st = NBT_OK)). Qed.

Lemma bind_set {A B} (r : presult A) (k : A -> pstate -> presult B) :
  (forall a st, failure_set (k a st)) -> failure_set (bind r k).
Proof. intros H. destruct r; cbn [bind]; [apply H | apply parse_error_set | done..]. Qed.

(** A failed [read_string] has not put anything back, and never crashes. *)
Lemma read_string_mem {bo : ByteOrder} st :
  match read_string st with
  | POk _ st' | PFail st' => (length (ps_mem st') <= length (ps_mem st))%nat
  | PCrash => False
  | NoFuel => False
  end.
Proof.
  unfold read_string, read_number, swapped_memscan, memscan, checked_malloc, p_malloc, parse_error.
  repeat match goal with
    | |- context [if ?b then _ else _] => destruct b
    | |- _ => progress cbn [mbind option_bind ps_mem ps_heap ps_errno]
    end; rewrite ?length_drop; lia || done.
Qed.

(** C40. [nbt_parse] ends on every input and every behaviour of the allocator:
    it returns a tree, or [NULL] with [errno] set.  The one exception is a list
    whose own allocation is granted and the next one, of its [data], refused:
    then uninitialised links are followed. *)
Theorem nbt_parse_total {bo : ByteOrder} mem h :
  match nbt_parse mem h with
  | POk _ st => (length (ps_mem st) < length mem)%nat
  | PFail st => ps_errno st <> NBT_OK
  | PCrash => exists n, h_grants h n = true /\ h_grants h (S n) = false
  | NoFuel => False
  end.
Proof.
  assert (forall (r : presult nbt_node), leaves (length mem) r -> failure_set r -> crashes_refused h r ->
    match r with
    | POk _ st => (length (ps_mem st) < length mem)%nat
    | PFail st => ps_errno st <> NBT_OK
    | PCrash => exists n, h_grants h n = true /\ h_grants h (S n) = false
    | NoFuel => False
    end) as Hall by (by intros []).
  unfold nbt_parse, parse_named_tag, memscan. cbn [ps_mem ps_heap ps_errno].
  destruct (Nat.ltb_spec (length mem) 1) as [|Hm]; [apply Hall; [done | apply parse_error_set | done]|].
  set (st := PState _ _ _). pose proof (read_string_mem st) as Hrs. pose proof (crashes_read_string st) as Hcs.
  assert (length (ps_mem st) = length mem - 1)%nat as Hst by (cbn; by rewrite length_drop).
  assert (forall type name st', (length (ps_mem st') <= length (ps_mem st))%nat -> h_grants (ps_heap st') = h_grants h ->
    let r := bind (parse_unnamed_tag (parse_fuel mem) type name st') (fun n st => POk n st) in
    match r with
    | POk _ st => (length (ps_mem st) < length mem)%nat
    | PFail st => ps_errno st <> NBT_OK
    | PCrash => exists n, h_grants h n = true /\ h_grants h (S n) = false
    | NoFuel => False
    end) as Hgo.
  { intros type name st' Hl Hh r. apply Hall.
    - eapply leaves_bind; [apply parse_terminates; unfold parse_fuel; lia|]. intros n st2 H2. cbn. lia.
    - by apply bind_set.
    - apply (crashes_same _ _ _ Hh). by apply crashes_bind; [apply parse_crashes|]. }
  destruct (read_string st) as [s st1|st1| |]; [by apply Hgo.. | done | done].
Qed.

(** A named list, and an allocator that refuses the fourth allocation: after the
    name, the node and the list comes the [data] of the list. *)
Lemma list_crash : @nbt_parse true [9; 0; 0; 1; 0; 0; 0; 0] (Heap (fun n => negb (n =? 3)%nat) 0) = PCrash.
Proof. reflexivity. Qed.

(** The reader on the encoding of a whole tree. *)
Lemma nbt_reads {bo : ByteOrder} n h :
  node_wf true n -> plentiful h ->
  exists h', nbt_parse (encode n true) h = POk n (PState [] h' NBT_OK) /\ plentiful h'.
Proof.
  intros Hwf Hh. destruct n as [[name|] p]; [|by destruct Hwf].
  pose proof (parse_encoded (NbtNode (Some name) p) true Hwf) as Hp. destruct Hwf as [[_ Hs] _].
  destruct (Hp (parse_fuel (encode (NbtNode (Some name) p) true)) [] (bump h)) as (h' & Hh' & E).
  { by apply bump_plentiful. }
  { unfold parse_fuel. rewrite encode_split, !length_app. cbn [node_payload]. lia. }
  exists h'. split; [|done]. unfold nbt_parse. set (fuel := parse_fuel _) in *.
  rewrite encode_split. unfold parse_named_tag. cbn [app].
  change (payload_type p :: encode_string name ++ encode_payload p)
    with ([payload_type p] ++ encode_string name ++ encode_payload p).
  rewrite memscan_app by done. rewrite read_string_encoded by done. cbn [head default].
  unfold node_type in E. cbn [node_name node_payload] in E. rewrite app_nil_r in E. unfold id. by rewrite E.
Qed.

(** C16. Round trip: any tree the binary form can represent is written without
    error, the bytes are those of the reference encoding, and reading them
    gives the tree back and consumes them all. *)
Theorem nbt_roundtrip {bo : ByteOrder} n h1 h2 :
  node_wf true n -> Z.of_nat (length (encode n true)) <= 2 ^ 63 -> plentiful h1 -> plentiful h2 ->
  exists b h1' h2',
    nbt_dump_binary (Some n) h1 = Some (NBT_OK, (b, h1')) /\ b_bytes b = encode n true /\
    nbt_parse (b_bytes b) h2 = POk n (PState [] h2' NBT_OK).
Proof.
  intros Hwf Hl Hh1 Hh2.
  destruct (dump_writes n true true Hwf BUFFER_INIT h1) as (b & h1' & E & Eb & _ & _ & _); [done.. |].
  cbn in Eb. destruct (nbt_reads n h2 Hwf Hh2) as (h2' & Ep & _). exists b, h1', h2'. rewrite Eb. done.
Qed.

(** A tree with every kind of payload. *)
Definition sample_tree : nbt_node :=
  NbtNode (Some [82; 111; 111; 116])
    (TagCompound
       [NbtNode (Some [98]) (TagByte (-5)); NbtNode (Some [115]) (TagShort 300);
        NbtNode (Some []) (TagInt (-70000)); NbtNode (Some [108]) (TagLong 5000000000);
        NbtNode (Some [102]) (TagFloat 0x3FC00000); NbtNode (Some [100]) (TagDouble 7);
        NbtNode (Some [97]) (TagByteArray [0; 255; 7]); NbtNode (Some [116]) (TagString [104; 105]);
        NbtNode (Some [76]) (TagList 10 [NbtNode None (TagCompound [])]);
        NbtNode (Some [69]) (TagList 3 []);
        NbtNode (Some [73]) (TagIntArray [1; -1]); NbtNode (Some [74]) (TagLongArray [-2])]).

Lemma sample_tree_wf : node_wf true sample_tree.
Proof.
  repeat split; repeat constructor; try (cbv; congruence); try done.
Qed.

Lemma nbt_roundtrip_witness :
  exists b h1' h2',
    @nbt_dump_binary true (Some sample_tree) ample_heap = Some (NBT_OK, (b, h1')) /\
    b_bytes b = encode sample_tree true /\
    @nbt_parse true (b_bytes b) ample_heap = POk sample_tree (PState [] h2' NBT_OK).
Proof.
  apply (@nbt_roundtrip true sample_tree ample_heap ample_heap);
    [apply sample_tree_wf | vm_compute; discriminate | apply ample_heap_plentiful | apply ample_heap_plentiful].
Defined.
