(* ===== verification/NbtTree.v ===== *)
(** * Searching NBT trees

    [src/cNBT/nbt_treeops.c]: the traversals of a tree, and the two lookups
    the map loader uses. *)

From S2P Require Import Prelude Buffer Nbt NbtSpec.

Local Open Scope Z_scope.

(** The first result of [f] along a list. *)
Fixpoint first_some {A B} (f : A -> option B) (l : list A) : option B :=
  match l with
  | [] => None
  | x :: l' => match f x with Some r => Some r | None => first_some f l' end
  end.

(** ** Traversals *)

Fixpoint nbt_find (predicate : nbt_node -> bool) (tree : nbt_node) : option nbt_node :=
  if predicate tree then Some tree
  else match tree with
       | NbtNode _ (TagList _ es) => first_some (nbt_find predicate) es
       | NbtNode _ (TagCompound es) => first_some (nbt_find predicate) es
       | _ => None
       end.

(** [nbt_map]: the visitor works on [aux] and stops the walk with [false]. *)
Fixpoint nbt_map {X} (v : nbt_node -> X -> bool * X) (tree : nbt_node) (aux : X) : bool * X :=
  let '(go, aux) := v tree aux in
  if negb go then (false, aux)
  else
    let fix walk (l : list nbt_node) (aux : X) : bool * X :=
      match l with
      | [] => (true, aux)
      | n :: l' => let '(go, aux) := nbt_map v n aux in if negb go then (false, aux) else walk l' aux
      end in
    match tree with
    | NbtNode _ (TagCompound es) => walk es aux
    | NbtNode _ (TagList _ es) => walk es aux
    | _ => (true, aux)
    end.

Fixpoint nbt_filter_inplace (filter : nbt_node -> bool) (tree : nbt_node) : option nbt_node :=
  if negb (filter tree) then None
  else
    let fix keep (l : list nbt_node) : list nbt_node :=
      match l with
      | [] => []
      | n :: l' => match nbt_filter_inplace filter n with Some n' => n' :: keep l' | None => keep l' end
      end in
    match tree with
    | NbtNode name (TagList t es) => Some (NbtNode name (TagList t (keep es)))
    | NbtNode name (TagCompound es) => Some (NbtNode name (TagCompound (keep es)))
    | _ => Some tree
    end.

Fixpoint nbt_size (tree : nbt_node) : nat :=
  match tree with
  | NbtNode _ (TagList _ es) => (foldr (fun n acc => nbt_size n + acc) 0 es + 1)%nat
  | NbtNode _ (TagCompound es) => (foldr (fun n acc => nbt_size n + acc) 0 es + 1)%nat
  | _ => 1%nat
  end.

Fixpoint list_item_loop (l : list nbt_node) (i n : Z) : option nbt_node :=
  match l with
  | [] => None
  | x :: l' => if i =? n then Some x else list_item_loop l' (i + 1) n
  end.

Definition nbt_list_item (list : option nbt_node) (n : Z) : option nbt_node :=
  match list with
  | Some (NbtNode _ (TagList _ es)) => list_item_loop es 0 n
  | Some (NbtNode _ (TagCompound es)) => list_item_loop es 0 n
  | _ => None
  end.

(** ** Lookup by name and by path *)

Definition names_are_equal (node : nbt_node) (name : option (list Z)) : bool :=
  match name, node_name node with
  | None, None => true
  | Some name, Some nname => strcmp nname name =? 0
  | _, _ => false
  end.

Definition nbt_find_by_name (tree : nbt_node) (name : list Z) : option nbt_node :=
  nbt_find (fun n => names_are_equal n (Some name)) tree.

(** The index of the first [c] or of the terminator. *)
Fixpoint index_of (s : list Z) (c : Z) : nat :=
  match s with
  | [] => 0
  | x :: s' => if x =? 0 then 0 else if x =? c then 0 else S (index_of s' c)
  end.

Definition partial_strcmp (s1 : list Z) (len : nat) (s2 : option (list Z)) : Z :=
  match s2 with
  | None => if (len =? 0)%nat then 0 else 1
  | Some s2 =>
      let r := strncmp len s1 s2 in
      if negb (r =? 0) then r
      else if hd0 (drop len s2) =? 0 then 0 else 1
  end.

Definition DOT : Z := 46.

Fixpoint nbt_find_by_path (tree : nbt_node) (path : list Z) : option nbt_node :=
  let e := index_of path DOT in
  let names_match := partial_strcmp path e (node_name tree) =? 0 in
  if negb names_match then None
  else if hd0 (drop e path) =? 0 then Some tree
  else match tree with
       | NbtNode _ (TagList _ es) => first_some (fun n => nbt_find_by_path n (drop (e + 1) path)) es
       | NbtNode _ (TagCompound es) => first_some (fun n => nbt_find_by_path n (drop (e + 1) path)) es
       | _ => None
       end.

(** ** What the lookups mean *)

(** A path segment: no separator and no terminator inside. *)
Definition segment (s : list Z) : Prop := Forall (fun c => c <> 0 /\ c <> DOT) s.

Definition segmentb (s : list Z) : bool := forallb (fun c => negb (c =? 0) && negb (c =? DOT)) s.

Lemma segmentb_ok s : segmentb s = true -> segment s.
Proof.
  unfold segmentb, segment. rewrite forallb_forall, Forall_forall. intros H x Hx%list_elem_of_In.
  specialize (H x Hx). apply andb_true_iff in H as [H1 H2].
  apply negb_true_iff in H1, H2. split; [by apply Z.eqb_neq | by apply Z.eqb_neq].
Qed.

Lemma segment_no_nul s : segment s -> no_nul s.
Proof. intros H. eapply Forall_impl; [exact H|]. by intros x []. Qed.

(** The C string in a node's name, the empty one for [NULL]. *)
Definition name_text (n : nbt_node) : list Z := c_content (default [] (node_name n)).

(** Follow the segments down the tree: the first entry along the way, in
    document order, for which the rest can be followed too. *)
Fixpoint follow (segs : list (list Z)) (tree : nbt_node) : option nbt_node :=
  match segs with
  | [] => None
  | [seg] => if decide (name_text tree = seg) then Some tree else None
  | seg :: segs' =>
      if decide (name_text tree = seg)
      then first_some (follow segs') (children (node_payload tree)) else None
  end.

Fixpoint join_path (segs : list (list Z)) : list Z :=
  match segs with
  | [] => []
  | [seg] => seg
  | seg :: segs' => seg ++ DOT :: join_path segs'
  end.

Lemma index_of_segment seg rest :
  segment seg -> (hd0 rest = 0 \/ hd0 rest = DOT) -> index_of (seg ++ rest) DOT = length seg.
Proof.
  intros Hs Hr. induction Hs as [|c seg [H0 H1] _ IH]; cbn.
  - destruct rest as [|x rest]; [done|]. cbn in *. destruct (Z.eqb_spec x 0); [done|].
    destruct (Z.eqb_spec x DOT); [done|]. destruct Hr; congruence.
  - destruct (Z.eqb_spec c 0); [done|]. destruct (Z.eqb_spec c DOT); [done|]. by rewrite IH.
Qed.

Lemma strncmp_segment seg rest s :
  no_nul seg ->
  strncmp (length seg) (seg ++ rest) s = 0 /\ hd0 (drop (length seg) s) = 0 <-> c_content s = seg.
Proof.
  intros Hs. revert s. induction Hs as [|c seg Hc _ IH]; intros s; cbn [length app].
  - cbn. destruct s as [|x s]; cbn; [done|]. destruct (Z.eqb_spec x 0) as [->|]; [done|].
    split; [intros [_ ?]; done | done].
  - cbn [strncmp hd0 head default tail]. destruct s as [|x s]; cbn [hd0 head default tail drop c_content].
    + cbn. destruct (Z.eqb_spec c 0); [done|]. split; [intros [? _]; lia | done].
    + cbn. destruct (Z.eqb_spec c x) as [<-|Hcx].
      * destruct (Z.eqb_spec c 0); [done|]. rewrite IH. split; [congruence | by intros [= ->]].
      * destruct (Z.eqb_spec x 0) as [->|]; (split; [intros [? _]; lia | intros [=]; congruence]).
Qed.

Lemma partial_strcmp_segment seg rest tree :
  segment seg ->
  (partial_strcmp (seg ++ rest) (length seg) (node_name tree) =? 0) = bool_decide (name_text tree = seg).
Proof.
  intros Hs. unfold name_text, partial_strcmp. destruct (node_name tree) as [s|]; cbn [default].
  - pose proof (strncmp_segment seg rest s (segment_no_nul seg Hs)) as H. unfold id.
    destruct (Z.eqb_spec (strncmp (length seg) (seg ++ rest) s) 0) as [E|E]; cbn [negb].
    + destruct (Z.eqb_spec (hd0 (drop (length seg) s)) 0) as [E'|E']; symmetry.
      * by apply bool_decide_eq_true_2, H.
      * apply bool_decide_eq_false_2. intros H'%H. tauto.
    + symmetry. rewrite bool_decide_eq_false_2; [symmetry; by apply Z.eqb_neq|]. intros H'%H. tauto.
  - destruct seg; cbn; symmetry; [by apply bool_decide_eq_true_2 | by apply bool_decide_eq_false_2].
Qed.

Lemma find_by_path_last seg tree :
  segment seg ->
  nbt_find_by_path tree seg = if decide (name_text tree = seg) then Some tree else None.
Proof.
  intros Hs. rewrite <- (app_nil_r seg) at 1. destruct tree as [name p]. cbn [nbt_find_by_path].
  rewrite index_of_segment by (done || by left). rewrite partial_strcmp_segment by done.
  rewrite drop_app_length. destruct (decide _) as [E|E];
    [by rewrite bool_decide_eq_true_2 by done | by rewrite bool_decide_eq_false_2 by done].
Qed.

Lemma find_by_path_step seg rest tree :
  segment seg ->
  nbt_find_by_path tree (seg ++ DOT :: rest)
  = if decide (name_text tree = seg)
    then first_some (fun n => nbt_find_by_path n rest) (children (node_payload tree)) else None.
Proof.
  intros Hs. destruct tree as [name p]. cbn [nbt_find_by_path].
  rewrite index_of_segment by (done || by right). rewrite partial_strcmp_segment by done.
  rewrite drop_app_length. rewrite drop_app_add. cbn [hd0 head default drop].
  destruct (decide _) as [E|E]; [|by rewrite bool_decide_eq_false_2 by done].
  rewrite bool_decide_eq_true_2 by done. cbn. by destruct p.
Qed.

Lemma first_some_ext {A B} (f g : A -> option B) l :
  (forall x, f x = g x) -> first_some f l = first_some g l.
Proof. intros H. induction l as [|x l IH]; cbn; [done|]. by rewrite H, IH. Qed.

Lemma find_by_path_follow segs tree :
  segs <> [] -> Forall segment segs -> nbt_find_by_path tree (join_path segs) = follow segs tree.
Proof.
  intros Hne Hs. revert tree. induction Hs as [|seg segs Hseg Hs IH]; intros tree; [done|].
  destruct segs as [|seg' segs]; [by apply find_by_path_last|].
  cbn [join_path follow]. rewrite find_by_path_step by done. destruct (decide _); [|done].
  apply first_some_ext. intros x. by apply IH.
Qed.

(** [nbt_find_by_path] on a dotted path follows its segments: it returns
    the first node in document order that the segments lead to, and [NULL]
    exactly when there is none. *)
Theorem find_by_path_spec segs tree :
  segs <> [] -> Forall segment segs ->
  nbt_find_by_path tree (join_path segs) = follow segs tree.
Proof. apply find_by_path_follow. Qed.

Lemma find_by_path_spec_witness :
  nbt_find_by_path sample_tree (join_path [[82; 111; 111; 116]; [116]])
  = Some (NbtNode (Some [116]) (TagString [104; 105])).
Proof.
  etrans; [apply (find_by_path_spec [[82; 111; 111; 116]; [116]] sample_tree)|reflexivity].
  - discriminate.
  - repeat (apply Forall_cons; split; [repeat constructor; discriminate|]). apply Forall_nil. exact I.
Defined.
