(* ===== verification/NbtMemory.v ===== *)
(** * NBT trees in memory

    [src/cNBT/nbt_treeops.c] on a store of blocks: freeing, copying and
    filtering trees, with the doubly linked lists of [src/cNBT/list.h] they are
    made of.

    Every [malloc] is a block at an address of its own; a freed block is gone.
    The state is the blocks, the answers of the allocator and [errno].  A
    computation without a result has used a block that is not there, one of
    another kind, an address twice freed, a failed assertion or memory that was
    never written; or it has run out of fuel, which bounds the depth of the
    recursion and which the theorems show to suffice. *)

From stdpp Require Export gmap.
From S2P Require Import Prelude Nbt.

Local Open Scope Z_scope.

Definition addr : Set := nat.

(** The union [payload]: a number (as its value or its bits), an array, a
    string, a list or compound; [PUnset] was never written. *)
Inductive mem_payload :=
| PUnset
| PValue (v : Z)
| PArray (data : option addr) (length : Z)
| PString (s : option addr)
| PList (l : option addr).

(** A node, a [struct nbt_list] with the two links of its [entry], or bytes,
    of which [None] was never written. *)
Inductive block :=
| BNode (type : Z) (name : option addr) (payload : mem_payload)
| BEntry (data : option addr) (flink blink : option addr)
| BBytes (bs : list (option Z)).

Record memory := Memory { m_blocks : gmap addr block; m_heap : heap; m_errno : nbt_status }.

(** Where [malloc] puts a block: any address that is free. *)
Class Placement := {
  place : gset addr -> addr;
  place_fresh used : place used ∉ used }.

(** ** Computations *)

Definition MM (A : Type) : Type := memory -> option (A * memory).

#[export] Instance MM_ret : MRet MM := fun A a m => Some (a, m).
#[export] Instance MM_bind : MBind MM := fun A B k c m =>
  match c m with Some (a, m') => k a m' | None => None end.

Definition undefined {A} : MM A := fun _ => None.
Definition with_blocks (x : gmap addr block) (m : memory) : memory := Memory x (m_heap m) (m_errno m).

Definition load (a : addr) : MM block := fun m => b ← m_blocks m !! a; Some (b, m).
Definition store (a : addr) (b : block) : MM unit := fun m =>
  match m_blocks m !! a with Some _ => Some (tt, with_blocks (<[a := b]> (m_blocks m)) m) | None => None end.

Definition load_node (p : option addr) : MM (Z * option addr * mem_payload) :=
  match p with
  | None => undefined
  | Some a => b ← load a; match b with BNode t n pl => mret (t, n, pl) | _ => undefined end
  end.
Definition load_entry (p : option addr) : MM (option addr * option addr * option addr) :=
  match p with
  | None => undefined
  | Some a => b ← load a; match b with BEntry d f l => mret (d, f, l) | _ => undefined end
  end.
Definition load_bytes (p : option addr) : MM (list (option Z)) :=
  match p with
  | None => undefined
  | Some a => b ← load a; match b with BBytes bs => mret bs | _ => undefined end
  end.

Definition free (p : option addr) : MM unit := fun m =>
  match p with
  | None => Some (tt, m)
  | Some a =>
      match m_blocks m !! a with
      | Some _ => Some (tt, with_blocks (delete a (m_blocks m)) m)
      | None => None
      end
  end.

Definition set_errno (e : nbt_status) : MM unit := fun m => Some (tt, Memory (m_blocks m) (m_heap m) e).
Definition get_errno : MM nbt_status := fun m => Some (m_errno m, m).

(** ** Lists: [list.h] *)

Definition set_flink (p : option addr) (x : option addr) : MM unit :=
  match p with
  | None => undefined
  | Some a => b ← load a; match b with BEntry d _ l => store a (BEntry d x l) | _ => undefined end
  end.
Definition set_blink (p : option addr) (x : option addr) : MM unit :=
  match p with
  | None => undefined
  | Some a => b ← load a; match b with BEntry d f _ => store a (BEntry d f x) | _ => undefined end
  end.
Definition set_data (p : option addr) (x : option addr) : MM unit :=
  match p with
  | None => undefined
  | Some a => b ← load a; match b with BEntry _ f l => store a (BEntry x f l) | _ => undefined end
  end.

Definition flink (p : option addr) : MM (option addr) := '(_, f, _) ← load_entry p; mret f.
Definition blink (p : option addr) : MM (option addr) := '(_, _, l) ← load_entry p; mret l.

Definition INIT_LIST_HEAD (head : option addr) : MM unit := _ ← set_blink head head; set_flink head head.

Definition list_add_tail (new_element head : option addr) : MM unit :=
  _ ← set_flink new_element head;
  b ← blink head;
  _ ← set_blink new_element b;
  f ← flink new_element;
  _ ← set_blink f new_element;
  b ← blink new_element;
  set_flink b new_element.

Definition list_del (loc : option addr) : MM unit :=
  f ← flink loc;
  b ← blink loc;
  _ ← set_blink f b;
  b ← blink loc;
  f ← flink loc;
  _ ← set_flink b f;
  _ ← set_flink loc None;
  set_blink loc None.

(** ** Freeing *)

Fixpoint nbt_free (fuel : nat) (tree : option addr) : MM unit :=
  match fuel with
  | O => undefined
  | S fuel' =>
      match tree with
      | None => mret tt
      | Some _ =>
          '(type, name, payload) ← load_node tree;
          _ ← (if (type =? TAG_LIST) || (type =? TAG_COMPOUND) then
                 match payload with PList l => nbt_free_list fuel' l | _ => undefined end
               else if (type =? TAG_BYTE_ARRAY) || (type =? TAG_INT_ARRAY) || (type =? TAG_LONG_ARRAY) then
                 match payload with PArray data _ => free data | _ => undefined end
               else if type =? TAG_STRING then
                 match payload with PString s => free s | _ => undefined end
               else mret tt);
          _ ← free name;
          free tree
      end
  end
with nbt_free_list (fuel : nat) (list : option addr) : MM unit :=
  match fuel with
  | O => undefined
  | S fuel' =>
      match list with
      | None => mret tt
      | Some _ =>
          current ← flink list;
          _ ← free_entries fuel' list current;
          '(data, _, _) ← load_entry list;
          _ ← free data;
          free list
      end
  end
(* list_for_each_safe *)
with free_entries (fuel : nat) (head current : option addr) : MM unit :=
  match fuel with
  | O => undefined
  | S fuel' =>
      if bool_decide (current = head) then mret tt
      else
        '(data, temp, _) ← load_entry current;
        _ ← nbt_free fuel' data;
        _ ← free current;
        free_entries fuel' head temp
  end.

(** ** Copying *)

Section Copying.
Context {pm : Placement}.

Definition malloc (b : block) : MM (option addr) := fun m =>
  let '(ok, h) := p_malloc (m_heap m) in
  if ok then
    let a := place (dom (m_blocks m)) in
    Some (Some a, Memory (<[a := b]> (m_blocks m)) h (m_errno m))
  else Some (None, Memory (m_blocks m) h (m_errno m)).

(** [CHECKED_MALLOC] up to the jump. *)
Definition CHECKED_MALLOC (b : block) : MM (option addr) :=
  p ← malloc b;
  match p with None => _ ← set_errno NBT_EMEM; mret None | Some _ => mret p end.

(** Blocks of which nothing is written yet. *)
Definition raw_node : block := BNode TAG_INVALID None PUnset.
Definition raw_list : block := BEntry None None None.
Definition raw_bytes (size : Z) : block := BBytes (replicate (Z.to_nat (u64 size)) None).

(** The C string at the start of a block: [None] when it is not terminated or
    not written. *)
Fixpoint c_text (bs : list (option Z)) : option (list Z) :=
  match bs with
  | [] => None
  | None :: _ => None
  | Some c :: bs' => if c =? 0 then Some [] else (cons c) <$> c_text bs'
  end.

Definition nbt_strdup (s : option addr) : MM (option addr) :=
  bs ← load_bytes s;
  match c_text bs with
  | None => undefined
  | Some text => malloc (BBytes (Some <$> text ++ [0]))
  end.

Definition safe_strdup (s : option addr) : MM (option addr) :=
  match s with None => mret None | Some _ => nbt_strdup s end.

Definition memcpy (dest src : option addr) (n : nat) : MM unit :=
  sbs ← load_bytes src;
  dbs ← load_bytes dest;
  match dest with
  | Some d =>
      if (length sbs <? n)%nat || (length dbs <? n)%nat then undefined
      else store d (BBytes (take n sbs ++ drop n dbs))
  | None => undefined
  end.

(** An array of [size] bytes of which the first [length] are copied. *)
Definition copy_array (data : option addr) (length size : Z) : MM (option addr) :=
  newbuf ← CHECKED_MALLOC (raw_bytes size);
  match newbuf with
  | None => mret None
  | Some _ => _ ← memcpy newbuf data (Z.to_nat (u64 length)); mret newbuf
  end.

(** The [clone_error] of [nbt_clone]. *)
Definition drop_node (name ret : option addr) : MM (option addr) := _ ← free name; _ ← free ret; mret None.

Definition finish_copy (type : Z) (name : option addr) (ret : addr) (payload : mem_payload) : MM (option addr) :=
  _ ← store ret (BNode type name payload); mret (Some ret).

Fixpoint nbt_clone (fuel : nat) (tree : option addr) : MM (option addr) :=
  match fuel with
  | O => undefined
  | S fuel' =>
      match tree with
      | None => mret None
      | Some _ =>
          '(type, name, payload) ← load_node tree;
          if type =? TAG_INVALID then undefined
          else
            ret ← CHECKED_MALLOC raw_node;
            match ret with
            | None => mret None
            | Some r =>
                rname ← safe_strdup name;
                _ ← store r (BNode type rname PUnset);
                if bool_decide (is_Some name) && bool_decide (rname = None) then drop_node rname ret
                else
                  let keep (mk : option addr -> mem_payload) (c : MM (option addr)) :=
                    p ← c; match p with None => drop_node rname ret | Some _ => finish_copy type rname r (mk p) end in
                  if type =? TAG_STRING then
                    match payload with PString s => keep PString (nbt_strdup s) | _ => undefined end
                  else if type =? TAG_BYTE_ARRAY then
                    match payload with
                    | PArray data length => keep (fun p => PArray p length) (copy_array data length length)
                    | _ => undefined
                    end
                  else if type =? TAG_INT_ARRAY then
                    match payload with
                    | PArray data length => keep (fun p => PArray p length) (copy_array data length (length * 4))
                    | _ => undefined
                    end
                  else if (type =? TAG_LIST) || (type =? TAG_COMPOUND) then
                    match payload with PList l => keep PList (clone_list fuel' l) | _ => undefined end
                  else finish_copy type rname r payload
            end
      end
  end
with clone_list (fuel : nat) (list : option addr) : MM (option addr) :=
  match fuel with
  | O => undefined
  | S fuel' =>
      match list with
      | None => undefined
      | Some _ =>
          ret ← CHECKED_MALLOC raw_list;
          match ret with
          | None => _ ← nbt_free_list fuel' None; mret None
          | Some _ =>
              _ ← INIT_LIST_HEAD ret;
              '(data, _, _) ← load_entry list;
              ok ← match data with
                   | None => mret true
                   | Some _ =>
                       rd ← CHECKED_MALLOC raw_node;
                       _ ← set_data ret rd;
                       match rd with
                       | None => mret false
                       | Some d => '(t, _, _) ← load_node data; _ ← store d (BNode t None PUnset); mret true
                       end
                   end;
              pos ← flink list;
              done ← (if negb ok then mret false else clone_entries fuel' list pos ret);
              if done : bool then mret ret else _ ← nbt_free_list fuel' ret; mret None
          end
      end
  end
(* list_for_each *)
with clone_entries (fuel : nat) (list pos ret : option addr) : MM bool :=
  match fuel with
  | O => undefined
  | S fuel' =>
      if bool_decide (pos = list) then mret true
      else
        '(data, _, _) ← load_entry pos;
        new ← CHECKED_MALLOC raw_list;
        match new with
        | None => mret false
        | Some _ =>
            nd ← nbt_clone fuel' data;
            _ ← set_data new nd;
            if bool_decide (nd = None) then _ ← free new; mret false
            else
              _ ← list_add_tail new ret;
              next ← flink pos;
              clone_entries fuel' list next ret
        end
  end.

(** ** Filtering *)

(** A predicate looks at the node and at what hangs on it. *)
Definition predicate : Type := addr -> gmap addr block -> bool.

Definition asks (filter : predicate) (a : addr) : MM bool := fun m => Some (filter a (m_blocks m), m).

(** [if(errno == NBT_OK) errno = NBT_EMEM;] *)
Definition mark_error : MM unit :=
  e ← get_errno; if decide (e = NBT_OK) then set_errno NBT_EMEM else mret tt.

Fixpoint nbt_filter (fuel : nat) (filter : predicate) (tree : option addr) : MM (option addr) :=
  match fuel with
  | O => undefined
  | S fuel' =>
      _ ← set_errno NBT_OK;
      match tree with
      | None => mret None
      | Some a =>
          wanted ← asks filter a;
          if negb wanted then mret None
          else
            '(type, name, payload) ← load_node tree;
            ret ← CHECKED_MALLOC raw_node;
            match ret with
            | None => _ ← mark_error; mret None
            | Some r =>
                rname ← safe_strdup name;
                _ ← store r (BNode type rname PUnset);
                if bool_decide (is_Some name) && bool_decide (rname = None) then _ ← mark_error; drop_node rname ret
                else
                  let keep (mk : option addr -> mem_payload) (c : MM (option addr)) :=
                    p ← c;
                    match p with
                    | None => _ ← mark_error; drop_node rname ret
                    | Some _ => finish_copy type rname r (mk p)
                    end in
                  if type =? TAG_STRING then
                    match payload with PString s => keep PString (nbt_strdup s) | _ => undefined end
                  else if type =? TAG_BYTE_ARRAY then
                    match payload with
                    | PArray data length => keep (fun p => PArray p length) (copy_array data length length)
                    | _ => undefined
                    end
                  else if type =? TAG_INT_ARRAY then
                    match payload with
                    | PArray data length => keep (fun p => PArray p length) (copy_array data length (length * 4))
                    | _ => undefined
                    end
                  else if (type =? TAG_LIST) || (type =? TAG_COMPOUND) then
                    match payload with PList l => keep PList (filter_list fuel' filter l) | _ => undefined end
                  else finish_copy type rname r payload
            end
      end
  end
with filter_list (fuel : nat) (filter : predicate) (list : option addr) : MM (option addr) :=
  match fuel with
  | O => undefined
  | S fuel' =>
      match list with
      | None => undefined
      | Some _ =>
          ret ← CHECKED_MALLOC raw_list;
          match ret with
          | None => _ ← mark_error; _ ← nbt_free_list fuel' None; mret None
          | Some _ =>
              _ ← INIT_LIST_HEAD ret;
              pos ← flink list;
              done ← filter_entries fuel' filter list pos ret;
              if done : bool then mret ret else _ ← mark_error; _ ← nbt_free_list fuel' ret; mret None
          end
      end
  end
with filter_entries (fuel : nat) (filter : predicate) (list pos ret : option addr) : MM bool :=
  match fuel with
  | O => undefined
  | S fuel' =>
      if bool_decide (pos = list) then mret true
      else
        '(data, _, _) ← load_entry pos;
        new_node ← nbt_filter fuel' filter data;
        e ← get_errno;
        if negb (bool_decide (e = NBT_OK)) then mret false
        else if bool_decide (new_node = None) then
          next ← flink pos;
          filter_entries fuel' filter list next ret
        else
          new_entry ← CHECKED_MALLOC raw_list;
          match new_entry with
          | None => mret false
          | Some _ =>
              _ ← set_data new_entry new_node;
              _ ← list_add_tail new_entry ret;
              next ← flink pos;
              filter_entries fuel' filter list next ret
          end
  end.
End Copying.

Fixpoint mem_filter_inplace (fuel : nat) (filter : predicate) (tree : option addr) : MM (option addr) :=
  match fuel with
  | O => undefined
  | S fuel' =>
      match tree with
      | None => mret None
      | Some a =>
          wanted ← asks filter a;
          if negb wanted then _ ← nbt_free fuel' tree; mret None
          else
            '(type, _, payload) ← load_node tree;
            if negb (type =? TAG_LIST) && negb (type =? TAG_COMPOUND) then mret tree
            else
              match payload with
              | PList list =>
                  pos ← flink list;
                  n ← flink pos;
                  _ ← inplace_entries fuel' filter list pos n;
                  mret tree
              | _ => undefined
              end
      end
  end
(* list_for_each_safe *)
with inplace_entries (fuel : nat) (filter : predicate) (list pos n : option addr) : MM unit :=
  match fuel with
  | O => undefined
  | S fuel' =>
      if bool_decide (pos = list) then mret tt
      else
        '(data, _, _) ← load_entry pos;
        d ← mem_filter_inplace fuel' filter data;
        _ ← set_data pos d;
        _ ← (if bool_decide (d = None) then _ ← list_del pos; free pos else mret tt);
        nn ← flink n;
        inplace_entries fuel' filter list n nn
  end.
