(* ===== verification/NbtMemorySpec.v ===== *)
(** * Where a tree lies in memory, and freeing it

    A [layout] is a tree with the address of every block it is made of.  Memory
    [holds] a layout when the blocks at these addresses are the nodes, strings,
    arrays and linked lists of the tree. *)

From S2P Require Import Prelude Nbt NbtMemory.

Local Open Scope Z_scope.

(** A name, string or array is the bytes of its block; a list or compound has
    the block [l] of its sentinel, whose own node carries the element type. *)
Inductive layout : Set :=
| LNode (a : addr) (name : option (addr * list (option Z))) (p : lpayload)
with lpayload : Set :=
| LValue (tag v : Z)
| LArray (tag : Z) (data : addr) (bytes : list (option Z)) (length : Z)
| LString (s : addr) (bytes : list (option Z))
| LSeq (tag : Z) (l : addr) (sentinel : option (addr * Z)) (es : list (addr * layout)).

Definition root (t : layout) : addr := let 'LNode a _ _ := t in a.
Definition lpayload_of (t : layout) : lpayload := let 'LNode _ _ p := t in p.

Definition children (p : lpayload) : list (addr * layout) := match p with LSeq _ _ _ es => es | _ => [] end.

Definition ltag (p : lpayload) : Z :=
  match p with LValue tag _ | LArray tag _ _ _ | LSeq tag _ _ _ => tag | LString _ _ => TAG_STRING end.

Definition pointer (p : lpayload) : mem_payload :=
  match p with
  | LValue _ v => PValue v
  | LArray _ data _ length => PArray (Some data) length
  | LString s _ => PString (Some s)
  | LSeq _ l _ _ => PList (Some l)
  end.

(** Induction over the entries of lists. *)
Fixpoint layout_induct (P : layout -> Prop)
    (H : forall a name p, Forall (fun e => P e.2) (children p) -> P (LNode a name p)) (t : layout) : P t.
Proof.
  destruct t as [a name p]. apply H. destruct p as [| | |tag l s es]; cbn; try apply Forall_nil_2.
  induction es as [|[e t] es IH]; [apply Forall_nil_2|]. apply Forall_cons_2; [apply layout_induct, H | exact IH].
Defined.

(** ** Addresses *)

Definition name_addrs {A} (name : option (addr * A)) : list addr := match name with Some (a, _) => [a] | None => [] end.

Fixpoint addrs (t : layout) : list addr :=
  let 'LNode a name p := t in
  a :: name_addrs name ++
  match p with
  | LValue _ _ => []
  | LArray _ data _ _ => [data]
  | LString s _ => [s]
  | LSeq _ l sentinel es => l :: name_addrs sentinel ++ concat (map (fun e => e.1 :: addrs e.2) es)
  end.

Definition entry_addrs (es : list (addr * layout)) : list addr := concat (map (fun e => e.1 :: addrs e.2) es).

Definition payload_addrs (p : lpayload) : list addr :=
  match p with
  | LValue _ _ => []
  | LArray _ data _ _ => [data]
  | LString s _ => [s]
  | LSeq _ l sentinel es => l :: name_addrs sentinel ++ entry_addrs es
  end.

Lemma addrs_node a name p : addrs (LNode a name p) = a :: name_addrs name ++ payload_addrs p.
Proof. by destruct p. Qed.

(** ** Rings *)

Definition first_of (es : list (addr * layout)) (next : addr) : addr := match es with [] => next | e :: _ => e.1 end.
Definition last_of (es : list (addr * layout)) (prev : addr) : addr := match last es with Some e => e.1 | None => prev end.

(** The entries [es] between [prev] and [next]. *)
Fixpoint chain (m : gmap addr block) (prev : addr) (es : list (addr * layout)) (next : addr) : Prop :=
  match es with
  | [] => True
  | e :: es' =>
      m !! e.1 = Some (BEntry (Some (root e.2)) (Some (first_of es' next)) (Some prev)) /\ chain m e.1 es' next
  end.

Definition ring (m : gmap addr block) (l : addr) (data : option addr) (es : list (addr * layout)) : Prop :=
  m !! l = Some (BEntry data (Some (first_of es l)) (Some (last_of es l))) /\ chain m l es l.

(** ** Holding *)

Definition name_held (m : gmap addr block) (name : option (addr * list (option Z))) : Prop :=
  match name with Some (a, bs) => m !! a = Some (BBytes bs) | None => True end.
Definition sentinel_held (m : gmap addr block) (s : option (addr * Z)) : Prop :=
  match s with Some (a, t) => m !! a = Some (BNode t None PUnset) | None => True end.

Fixpoint holds (m : gmap addr block) (t : layout) : Prop :=
  let 'LNode a name p := t in
  m !! a = Some (BNode (ltag p) (fst <$> name) (pointer p)) /\ name_held m name /\
  match p with
  | LValue tag _ => TAG_BYTE <= tag <= TAG_DOUBLE
  | LArray tag data bs length =>
      m !! data = Some (BBytes bs) /\ tag ∈ [TAG_BYTE_ARRAY; TAG_INT_ARRAY; TAG_LONG_ARRAY]
  | LString s bs => m !! s = Some (BBytes bs)
  | LSeq tag l sentinel es =>
      tag ∈ [TAG_LIST; TAG_COMPOUND] /\ ring m l (fst <$> sentinel) es /\ sentinel_held m sentinel /\
      foldr (fun e acc => holds m e.2 /\ acc) True es
  end.

Definition all_held (m : gmap addr block) (es : list (addr * layout)) : Prop := foldr (fun e acc => holds m e.2 /\ acc) True es.

Lemma all_held_Forall m es : all_held m es <-> Forall (fun e => holds m e.2) es.
Proof. induction es as [|e es IH]; cbn; [done|]. rewrite Forall_cons. unfold all_held in IH. by rewrite IH. Qed.

(** The tree is where its addresses say, once each. *)
Definition laid (m : gmap addr block) (t : layout) : Prop := holds m t /\ NoDup (addrs t).

(** *** Dependence on the blocks of the tree only *)

Lemma elem_of_entry_addrs x es : x ∈ entry_addrs es <-> exists e, e ∈ es /\ (x = e.1 \/ x ∈ addrs e.2).
Proof.
  unfold entry_addrs. induction es as [|e es IH]; cbn; [set_solver|].
  rewrite elem_of_cons, elem_of_app, IH. setoid_rewrite elem_of_cons. naive_solver.
Qed.

Lemma entry_addrs_cons e es : entry_addrs (e :: es) = e.1 :: addrs e.2 ++ entry_addrs es.
Proof. done. Qed.

Lemma entry_addrs_app es es' : entry_addrs (es ++ es') = entry_addrs es ++ entry_addrs es'.
Proof. unfold entry_addrs. by rewrite map_app, concat_app. Qed.

Lemma root_in_addrs t : root t ∈ addrs t.
Proof. destruct t. left. Qed.

Lemma chain_ext m m' prev es next :
  (forall e, e ∈ es -> m' !! e.1 = m !! e.1) -> chain m prev es next -> chain m' prev es next.
Proof.
  revert prev. induction es as [|e es IH]; intros prev H; cbn; [done|]. intros [H1 H2]. split.
  - rewrite H by left. done.
  - apply IH; [|done]. intros e' He'. apply H. by right.
Qed.

Lemma ring_ext m m' l d es :
  (forall x, x = l \/ x ∈ entry_addrs es -> m' !! x = m !! x) -> ring m l d es -> ring m' l d es.
Proof.
  intros H [H1 H2]. split; [rewrite H; [done | by left]|]. eapply chain_ext; [|exact H2].
  intros e He. apply H. right. apply elem_of_entry_addrs. eauto.
Qed.

Lemma holds_ext m m' t : (forall x, x ∈ addrs t -> m' !! x = m !! x) -> holds m t -> holds m' t.
Proof.
  induction t as [a name p IH] using layout_induct. rewrite addrs_node. intros H (Ha & Hn & Hp). split_and!.
  - rewrite H by set_solver. done.
  - destruct name as [[b bs]|]; [|done]. cbn in *. rewrite H by set_solver. done.
  - destruct p as [tag v|tag data bs len|s bs|tag l sen es]; cbn in *.
    + done.
    + rewrite H by set_solver. done.
    + rewrite H by set_solver. done.
    + destruct Hp as (Ht & Hr & Hs & He). split_and!; [done | | | ].
      * eapply ring_ext; [|exact Hr]. intros x Hx. apply H. set_solver.
      * destruct sen as [[b t]|]; [|done]. cbn in *. rewrite H by set_solver. done.
      * apply all_held_Forall in He. apply all_held_Forall. rewrite Forall_forall in *. intros e Hin. apply IH; [done| |by apply He].
        intros x Hx. apply H. apply elem_of_cons; right. apply elem_of_app; right. apply elem_of_cons; right.
        apply elem_of_app; right. apply elem_of_entry_addrs. eauto.
Qed.

Lemma chain_lookup m prev es next e : chain m prev es next -> e ∈ es -> is_Some (m !! e.1).
Proof.
  revert prev. induction es as [|e' es IH]; intros prev; cbn; [by intros _ ?%not_elem_of_nil|].
  intros [H1 H2] [->|Hin]%elem_of_cons; eauto.
Qed.

Lemma holds_lookup m t x : holds m t -> x ∈ addrs t -> is_Some (m !! x).
Proof.
  induction t as [a name p IH] using layout_induct. rewrite addrs_node. intros (Ha & Hn & Hp).
  rewrite elem_of_cons, elem_of_app. intros [->|[Hx|Hx]]; [eauto| |].
  - destruct name as [[b bs]|]; cbn in *; [|by apply not_elem_of_nil in Hx]. apply list_elem_of_singleton in Hx as ->. eauto.
  - destruct p as [tag v|tag data bs len|s bs|tag l sen es]; cbn in *.
    + by apply not_elem_of_nil in Hx.
    + apply list_elem_of_singleton in Hx as ->. destruct Hp as [-> _]. eauto.
    + apply list_elem_of_singleton in Hx as ->. eauto.
    + destruct Hp as (Ht & [Hl Hc] & Hs & He). rewrite elem_of_cons, elem_of_app in Hx. destruct Hx as [->|[Hx|Hx]]; [eauto| |].
      * destruct sen as [[b t]|]; cbn in *; [|by apply not_elem_of_nil in Hx]. apply list_elem_of_singleton in Hx as ->. eauto.
      * apply elem_of_entry_addrs in Hx as (e & Hin & [->|Hx]); [by eapply chain_lookup|].
        apply all_held_Forall in He. rewrite Forall_forall in *. eauto.
Qed.

(** The predicate judges a tree by the tree alone. *)
Definition judges (filter : predicate) (f : layout -> bool) : Prop := forall b t, holds b t -> filter (root t) b = f t.

(** ** Removing blocks *)

Definition without (l : list addr) (m : gmap addr block) : gmap addr block := foldr delete m l.

Lemma lookup_without l m x : without l m !! x = if decide (x ∈ l) then None else m !! x.
Proof.
  induction l as [|a l IH]; [by rewrite decide_False by apply not_elem_of_nil|].
  change (without (a :: l) m) with (delete a (without l m)).
  destruct (decide (x = a)) as [->|Hne].
  - rewrite lookup_delete_eq, decide_True by left. done.
  - rewrite lookup_delete_ne, IH by done. destruct (decide (x ∈ l)).
    + rewrite decide_True by (by right). done.
    + rewrite decide_False by set_solver. done.
Qed.

Lemma without_in l m x : x ∈ l -> without l m !! x = None.
Proof. intros H. by rewrite lookup_without, decide_True. Qed.
Lemma without_out l m x : x ∉ l -> without l m !! x = m !! x.
Proof. intros H. by rewrite lookup_without, decide_False. Qed.

Lemma without_app l l' m : without (l ++ l') m = without l (without l' m).
Proof. unfold without. by rewrite foldr_app. Qed.

Lemma without_perm l l' m : (forall x, x ∈ l <-> x ∈ l') -> without l m = without l' m.
Proof.
  intros H. apply map_eq. intros x. rewrite !lookup_without. destruct (decide (x ∈ l)), (decide (x ∈ l')); firstorder.
Qed.

(** ** Running *)

#[local] Arguments free : simpl never.

Lemma mm_ok {A B} (c : MM A) (k : A -> MM B) a m m' : c m = Some (a, m') -> (c ≫= k) m = k a m'.
Proof. intros H. unfold mbind, MM_bind. by rewrite H. Qed.

Lemma run_mem_free a m : is_Some (m_blocks m !! a) -> free (Some a) m = Some (tt, with_blocks (without [a] (m_blocks m)) m).
Proof. intros [b H]. unfold free. by rewrite H. Qed.

Lemma run_load_node a m t n p : m_blocks m !! a = Some (BNode t n p) -> load_node (Some a) m = Some ((t, n, p), m).
Proof. intros H. unfold load_node. erewrite mm_ok by (unfold load; rewrite H; reflexivity). done. Qed.

Lemma run_load_entry a m d f l : m_blocks m !! a = Some (BEntry d f l) -> load_entry (Some a) m = Some ((d, f, l), m).
Proof. intros H. unfold load_entry. erewrite mm_ok by (unfold load; rewrite H; reflexivity). done. Qed.

Lemma run_flink a m d f l : m_blocks m !! a = Some (BEntry d f l) -> flink (Some a) m = Some (f, m).
Proof. intros H. unfold flink. by rewrite (mm_ok _ _ _ _ _ (run_load_entry _ _ _ _ _ H)). Qed.

(** ** Freeing *)

(** The depth of the recursion. *)
Fixpoint need (t : layout) : nat :=
  let 'LNode _ _ p := t in
  S (match p with
     | LSeq _ _ _ es => S (foldr (fun e acc => S (Nat.max (need e.2) acc)) 1%nat es)
     | _ => 0%nat
     end).

Definition entries_need (es : list (addr * layout)) : nat := foldr (fun e acc => S (Nat.max (need e.2) acc)) 1%nat es.

Definition frees (t : layout) : Prop := forall m fuel,
  laid (m_blocks m) t -> (need t <= fuel)%nat ->
  nbt_free fuel (Some (root t)) m = Some (tt, with_blocks (without (addrs t) (m_blocks m)) m).

Lemma free_entries_run es : Forall (fun e => frees e.2) es -> forall fuel l prev m,
  chain (m_blocks m) prev es l -> all_held (m_blocks m) es -> NoDup (l :: entry_addrs es) -> (entries_need es <= fuel)%nat ->
  free_entries fuel (Some l) (Some (first_of es l)) m = Some (tt, with_blocks (without (entry_addrs es) (m_blocks m)) m).
Proof.
  induction 1 as [|[e t] es IHt _ IH]; intros fuel l prev m Hc Hh Hd Hf; (destruct fuel as [|fuel]; [cbn in Hf; lia|]); cbn [free_entries first_of].
  { rewrite bool_decide_eq_true_2 by done. by destruct m. }
  cbn [fst snd] in *. rewrite entry_addrs_cons in *. cbn [fst snd] in Hd |- *. destruct Hc as [Hlk Hc]. destruct Hh as [Ht Hh].
  cbn in Hf. fold (entries_need es) in Hf. rewrite bool_decide_eq_false_2 by (intros [= ->]; apply NoDup_cons in Hd as [Hd _]; by destruct Hd; left).
  rewrite (mm_ok _ _ _ _ _ (run_load_entry _ _ _ _ _ Hlk)).
  apply NoDup_cons in Hd as [Hl Hd]. apply NoDup_cons in Hd as [He Hd]. pose proof Hd as (Hdt & Hdis & Hde)%NoDup_app.
  rewrite (mm_ok _ _ _ _ _ (IHt m fuel (conj Ht Hdt) ltac:(lia))).
  erewrite mm_ok by (apply run_mem_free; cbn [m_blocks with_blocks]; rewrite without_out by set_solver; eauto).
  cbn [m_blocks with_blocks]. set (m2 := with_blocks _ _).
  assert (forall x, x ∈ entry_addrs es -> m_blocks m2 !! x = m_blocks m !! x) as Hx.
  { intros x Hx. subst m2. cbn [m_blocks with_blocks]. rewrite !without_out by set_solver. done. }
  rewrite (IH fuel l e m2); [| | |apply NoDup_cons; split; [clear -Hl; set_solver | exact Hde]|lia].
  - subst m2. unfold with_blocks. cbn [m_blocks]. do 3 f_equal. rewrite <- !without_app. apply without_perm. set_solver.
  - eapply chain_ext; [|exact Hc]. intros e' He'. apply Hx, elem_of_entry_addrs. eauto.
  - apply all_held_Forall in Hh. apply all_held_Forall. rewrite Forall_forall in *. intros e' He'.
    eapply holds_ext; [|by apply Hh]. intros x Hin. apply Hx, elem_of_entry_addrs. eauto.
Qed.

Lemma free_list_run tag l sen es fuel m :
  Forall (fun e => frees e.2) es -> ring (m_blocks m) l (fst <$> sen) es -> sentinel_held (m_blocks m) sen -> all_held (m_blocks m) es ->
  NoDup (payload_addrs (LSeq tag l sen es)) -> (S (entries_need es) <= fuel)%nat ->
  nbt_free_list fuel (Some l) m = Some (tt, with_blocks (without (payload_addrs (LSeq tag l sen es)) (m_blocks m)) m).
Proof.
  intros IH [Hl Hc] Hs Hh Hd Hf. destruct fuel as [|fuel]; [lia|]. cbn [nbt_free_list]. cbn [payload_addrs] in *.
  apply NoDup_cons in Hd as [Hld Hd]. apply NoDup_app in Hd as (Hds & Hdis & Hde).
  rewrite (mm_ok _ _ _ _ _ (run_flink _ _ _ _ _ Hl)).
  rewrite (mm_ok _ _ _ _ _ (free_entries_run es IH fuel l l m Hc Hh ltac:(apply NoDup_cons; split; [set_solver | done]) ltac:(lia))).
  set (m1 := with_blocks _ _). assert (m_blocks m1 !! l = Some (BEntry (fst <$> sen) (Some (first_of es l)) (Some (last_of es l)))) as Hl1.
  { subst m1. cbn [m_blocks with_blocks]. rewrite without_out by set_solver. done. }
  rewrite (mm_ok _ _ _ _ _ (run_load_entry _ _ _ _ _ Hl1)).
  destruct sen as [[s t]|]; cbn [fmap option_fmap option_map fst name_addrs app] in *.
  - erewrite mm_ok by (apply run_mem_free; subst m1; cbn [m_blocks with_blocks]; rewrite without_out by set_solver; eauto).
    rewrite run_mem_free by (subst m1; cbn [m_blocks with_blocks]; rewrite !without_out by set_solver; eauto).
    done.
  - erewrite mm_ok by reflexivity. rewrite run_mem_free by eauto. done.
Qed.

Lemma tree_free_run t : frees t.
Proof.
  induction t as [a name p IH] using layout_induct.
  intros m fuel [(Ha & Hn & Hp) Hd] Hf. destruct fuel as [|fuel]; [cbn in Hf; lia|]. rewrite addrs_node in *. cbn [nbt_free root].
  rewrite (mm_ok _ _ _ _ _ (run_load_node _ _ _ _ _ Ha)).
  apply NoDup_cons in Hd as [Had Hd]. apply NoDup_app in Hd as (Hdn & Hdis & Hdp).
  set (m1 := with_blocks (without (payload_addrs p) (m_blocks m)) m). rewrite (mm_ok _ _ tt _ m1).
  - destruct name as [[b bs]|]; cbn in Had, Hn, Hdis |- *.
    + erewrite mm_ok by (apply run_mem_free; subst m1; cbn [m_blocks with_blocks]; rewrite without_out by set_solver; eauto).
      rewrite run_mem_free by (subst m1; cbn [m_blocks with_blocks]; rewrite !without_out by set_solver; eauto). done.
    + erewrite mm_ok by reflexivity. rewrite run_mem_free by (subst m1; cbn [m_blocks with_blocks]; rewrite !without_out by set_solver; eauto). done.
  - destruct p as [tag v|tag data bs len|s bs|tag l sen es]; cbn [ltag pointer payload_addrs] in *.
    + assert (tag = 1 \/ tag = 2 \/ tag = 3 \/ tag = 4 \/ tag = 5 \/ tag = 6) as Htag by lia.
      destruct m. by destruct Htag as [-> | [-> | [-> | [-> | [-> | ->]]]]].
    + destruct Hp as [Hb Htag]. rewrite !elem_of_cons in Htag.
      destruct Htag as [-> | [-> | [-> | []%not_elem_of_nil]]]; cbn; rewrite run_mem_free by eauto; done.
    + cbn. rewrite run_mem_free by eauto. done.
    + destruct Hp as (Htag & Hr & Hs & Hh). rewrite !elem_of_cons in Htag. cbn in Hf. fold (entries_need es) in Hf.
      assert (((tag =? TAG_LIST) || (tag =? TAG_COMPOUND)) = true) as -> by (by destruct Htag as [-> | [-> | []%not_elem_of_nil]]).
      apply (free_list_run tag l sen es); [exact IH | done | done | done | done | lia].
Qed.

(** C27. [nbt_free] on a tree frees exactly the blocks of the tree, each once, and
    no other block of the memory changes. *)
Theorem nbt_free_frees t m fuel :
  laid (m_blocks m) t -> (need t <= fuel)%nat ->
  nbt_free fuel (Some (root t)) m = Some (tt, with_blocks (without (addrs t) (m_blocks m)) m).
Proof. apply tree_free_run. Qed.
