(* ===== verification/NbtMemoryBuild.v ===== *)
(** * Building trees in memory

    Blocks that are new, allocation, and lists that grow at their end, for the
    functions that copy trees. *)

From S2P Require Import Prelude Nbt NbtMemory NbtMemorySpec.

Local Open Scope Z_scope.

#[local] Arguments free : simpl never.

Lemma mm_split {A B} (c : MM A) (k : A -> MM B) m b m' :
  (c ≫= k) m = Some (b, m') -> exists a m1, c m = Some (a, m1) /\ k a m1 = Some (b, m').
Proof. unfold mbind, MM_bind. destruct (c m) as [[a m1]|] eqn:E; [|done]. eauto. Qed.

(** ** Growing memory *)

Definition same_heap (m m' : memory) : Prop := h_grants (m_heap m') = h_grants (m_heap m).

#[export] Instance same_heap_preorder : PreOrder same_heap.
Proof. split; [done|]. intros x y z H1 H2. unfold same_heap in *. congruence. Qed.

(** The blocks [l] are new, and nothing else has changed. *)
Record grown (l : list addr) (m m' : gmap addr block) : Prop := {
  gr_nodup : NoDup l;
  gr_new x : x ∈ l -> m !! x = None;
  gr_old x : x ∉ l -> m' !! x = m !! x }.

Lemma grown_nil m : grown [] m m.
Proof. constructor; [apply NoDup_nil_2 | by intros x ?%not_elem_of_nil | done]. Qed.

Lemma grown_insert a b m : m !! a = None -> grown [a] m (<[a := b]> m).
Proof.
  intros H. constructor; [apply NoDup_singleton | by intros x ->%list_elem_of_singleton |].
  intros x Hx. apply lookup_insert_ne. set_solver.
Qed.

Lemma grown_app l l' m m1 m2 :
  grown l m m1 -> grown l' m1 m2 -> (forall x, x ∈ l -> is_Some (m1 !! x)) -> grown (l ++ l') m m2.
Proof.
  intros [H1 H2 H3] [G1 G2 G3] Hs.
  assert (forall x, x ∈ l -> x ∉ l') as Hd by (intros x Hx Hx'; destruct (Hs x Hx); specialize (G2 x Hx'); congruence).
  constructor.
  - apply NoDup_app. split_and!; [done | exact Hd | done].
  - intros x [Hx|Hx]%elem_of_app; [by apply H2|]. destruct (decide (x ∈ l)) as [|Hn]; [by apply H2|].
    rewrite <- H3 by done. by apply G2.
  - intros x Hx. rewrite G3, H3 by set_solver. done.
Qed.

Lemma grown_perm l l' m m' : l ≡ₚ l' -> grown l m m' -> grown l' m m'.
Proof. intros Hp [H1 H2 H3]. constructor; [by rewrite <- Hp | intros x; rewrite <- Hp; apply H2 | intros x; rewrite <- Hp; apply H3]. Qed.

(** Changing new blocks only. *)
Lemma grown_change l m m1 m2 : grown l m m1 -> (forall x, x ∉ l -> m2 !! x = m1 !! x) -> grown l m m2.
Proof. intros [H1 H2 H3] H. constructor; [done..|]. intros x Hx. by rewrite H, H3. Qed.

(** Giving all of them back. *)
Lemma grown_back l m m1 : grown l m m1 -> without l m1 = m.
Proof.
  intros [_ H2 H3]. apply map_eq. intros x. rewrite lookup_without. destruct (decide (x ∈ l)); [by rewrite H2 | by apply H3].
Qed.

(** Freeing some of the new blocks. *)
Lemma grown_drop l l' m m' : grown (l ++ l') m m' -> grown l' m (without l m').
Proof.
  intros [H1 H2 H3]. apply NoDup_app in H1 as (_ & _ & H1). constructor; [done | intros x Hx; apply H2; set_solver|].
  intros x Hx. rewrite lookup_without. destruct (decide (x ∈ l)); [rewrite H2 by set_solver; done | apply H3; set_solver].
Qed.

Lemma holds_old l m m' t : grown l m m' -> holds m t -> holds m' t.
Proof.
  intros [_ H2 H3] Ht. eapply holds_ext; [|exact Ht]. intros x Hx. apply H3. intros Hl.
  destruct (holds_lookup _ _ _ Ht Hx). rewrite H2 in *; done.
Qed.

(** ** Allocating *)

Section Build.
Context {pm : Placement}.

Lemma malloc_cases b m :
  (exists a m1, malloc b m = Some (Some a, m1) /\ m_blocks m !! a = None /\ m_blocks m1 = <[a := b]> (m_blocks m) /\
     same_heap m m1) \/
  (exists m1, malloc b m = Some (None, m1) /\ m_blocks m1 = m_blocks m /\ same_heap m m1 /\ ~ plentiful (m_heap m)).
Proof.
  unfold malloc, p_malloc. destruct (h_grants (m_heap m) (h_next (m_heap m))) eqn:Hg; [left | right].
  - eexists _, _. split; [done|]. split; [|done]. apply not_elem_of_dom, place_fresh.
  - eexists. split; [done|]. split_and!; [done..|]. intros H. by rewrite H in Hg.
Qed.

Lemma checked_malloc_cases b m :
  (exists a m1, CHECKED_MALLOC b m = Some (Some a, m1) /\ m_blocks m !! a = None /\ m_blocks m1 = <[a := b]> (m_blocks m) /\
     same_heap m m1) \/
  (exists m1, CHECKED_MALLOC b m = Some (None, m1) /\ m_blocks m1 = m_blocks m /\ same_heap m m1 /\ ~ plentiful (m_heap m)).
Proof.
  unfold CHECKED_MALLOC. destruct (malloc_cases b m) as [(a & m1 & E & H)|(m1 & E & H)]; rewrite (mm_ok _ _ _ _ _ E).
  - left. by exists a, m1.
  - right. eexists. split; [reflexivity|]. exact H.
Qed.

Lemma run_store a b m : is_Some (m_blocks m !! a) -> store a b m = Some (tt, with_blocks (<[a := b]> (m_blocks m)) m).
Proof. intros [b' H]. unfold store. by rewrite H. Qed.

Lemma run_load_bytes a m bs : m_blocks m !! a = Some (BBytes bs) -> load_bytes (Some a) m = Some (bs, m).
Proof. intros H. unfold load_bytes. erewrite mm_ok by (unfold load; rewrite H; reflexivity). done. Qed.

Lemma run_set_flink a m d f l x : m_blocks m !! a = Some (BEntry d f l) ->
  set_flink (Some a) x m = Some (tt, with_blocks (<[a := BEntry d x l]> (m_blocks m)) m).
Proof. intros H. unfold set_flink. erewrite mm_ok by (unfold load; rewrite H; reflexivity). apply run_store. eauto. Qed.

Lemma run_set_blink a m d f l x : m_blocks m !! a = Some (BEntry d f l) ->
  set_blink (Some a) x m = Some (tt, with_blocks (<[a := BEntry d f x]> (m_blocks m)) m).
Proof. intros H. unfold set_blink. erewrite mm_ok by (unfold load; rewrite H; reflexivity). apply run_store. eauto. Qed.

Lemma run_set_data a m d f l x : m_blocks m !! a = Some (BEntry d f l) ->
  set_data (Some a) x m = Some (tt, with_blocks (<[a := BEntry x f l]> (m_blocks m)) m).
Proof. intros H. unfold set_data. erewrite mm_ok by (unfold load; rewrite H; reflexivity). apply run_store. eauto. Qed.

Lemma run_blink a m d f l : m_blocks m !! a = Some (BEntry d f l) -> blink (Some a) m = Some (l, m).
Proof. intros H. unfold blink. by rewrite (mm_ok _ _ _ _ _ (run_load_entry _ _ _ _ _ H)). Qed.

(** ** Appending to a ring *)

Lemma last_of_snoc es e p : last_of (es ++ [e]) p = e.1.
Proof. unfold last_of. by rewrite last_snoc. Qed.

Lemma first_of_app es es' n : first_of (es ++ es') n = first_of es (first_of es' n).
Proof. by destruct es. Qed.

Lemma chain_app m p es es' n : chain m p (es ++ es') n <-> chain m p es (first_of es' n) /\ chain m (last_of es p) es' n.
Proof.
  revert p. induction es as [|e es IH]; intros p; cbn [chain app].
  - cbn. tauto.
  - rewrite IH, first_of_app. assert (last_of (e :: es) p = last_of es e.1) as ->.
    { unfold last_of. rewrite last_cons. by destruct (last es). }
    tauto.
Qed.

Lemma chain_snoc m p es e n :
  chain m p (es ++ [e]) n <->
  chain m p es e.1 /\ m !! e.1 = Some (BEntry (Some (root e.2)) (Some n) (Some (last_of es p))).
Proof. rewrite chain_app. cbn. tauto. Qed.

Lemma list_add_tail_run m n r d es t f0 b0 :
  ring (m_blocks m) r d es -> m_blocks m !! n = Some (BEntry (Some (root t)) f0 b0) -> NoDup (r :: n :: (fst <$> es)) ->
  exists b', list_add_tail (Some n) (Some r) m = Some (tt, with_blocks b' m) /\ ring b' r d (es ++ [(n, t)]) /\
    (forall x, x <> r -> x <> n -> x ∉ fst <$> es -> b' !! x = m_blocks m !! x).
Proof.
  intros [Hr Hc] Hn Hd. apply NoDup_cons in Hd as [Hrd Hd]. apply NoDup_cons in Hd as [Hnd Hd].
  assert (n <> r) as Hne by (intros ->; apply Hrd; left). assert (r ∉ fst <$> es) as Hre by (intros ?; apply Hrd; by right).
  unfold list_add_tail. rewrite (mm_ok _ _ _ _ _ (run_set_flink _ _ _ _ _ _ Hn)).
  set (m1 := with_blocks _ m).
  assert (m_blocks m1 !! r = Some (BEntry d (Some (first_of es r)) (Some (last_of es r)))) as Hr1 by (cbn; by rewrite lookup_insert_ne).
  rewrite (mm_ok _ _ _ _ _ (run_blink _ _ _ _ _ Hr1)).
  rewrite (mm_ok _ _ _ _ _ (run_set_blink n m1 _ _ _ _ (lookup_insert_eq _ _ _))). set (m2 := with_blocks _ m1).
  rewrite (mm_ok _ _ _ _ _ (run_flink n m2 _ _ _ (lookup_insert_eq _ _ _))).
  assert (m_blocks m2 !! r = Some (BEntry d (Some (first_of es r)) (Some (last_of es r)))) as Hr2 by (cbn; by rewrite lookup_insert_ne).
  rewrite (mm_ok _ _ _ _ _ (run_set_blink r m2 _ _ _ _ Hr2)). set (m3 := with_blocks _ m2).
  assert (m_blocks m3 !! n = Some (BEntry (Some (root t)) (Some r) (Some (last_of es r)))) as Hn3.
  { cbn. rewrite lookup_insert_ne by done. apply lookup_insert_eq. }
  rewrite (mm_ok _ _ _ _ _ (run_blink n m3 _ _ _ Hn3)).
  assert (forall x, x <> r -> x <> n -> m_blocks m3 !! x = m_blocks m !! x) as Hx.
  { intros x H1 H2. cbn. by rewrite !lookup_insert_ne. }
  destruct es as [|e0 es0 _] using rev_ind.
  - change (last_of [] r) with r. rewrite (run_set_flink r m3 _ _ _ _ (lookup_insert_eq _ _ _)). eexists. split; [reflexivity|]. split; [split|].
    + apply lookup_insert_eq.
    + cbn [chain app]. split; [|done]. cbn. by rewrite lookup_insert_ne.
    + intros x H1 H2 _. rewrite lookup_insert_ne by done. by apply Hx.
  - rewrite last_of_snoc. apply chain_snoc in Hc as [Hc He0]. rewrite fmap_app in *. cbn in Hd, Hnd, Hre.
    assert (e0.1 <> r /\ e0.1 <> n) as [Her Hen] by set_solver.
    assert (m_blocks m3 !! e0.1 = Some (BEntry (Some (root e0.2)) (Some r) (Some (last_of es0 r)))) as He3 by (by rewrite Hx).
    rewrite (run_set_flink e0.1 m3 _ _ _ _ He3). eexists. split; [reflexivity|]. split; [split|].
    + rewrite lookup_insert_ne by done. rewrite last_of_snoc. cbn. rewrite lookup_insert_eq.
      do 3 f_equal. rewrite !first_of_app. by destruct es0.
    + apply chain_snoc. rewrite last_of_snoc. cbn [fst snd]. split; [apply chain_snoc; split|].
      * eapply chain_ext; [|exact Hc]. intros e He. apply NoDup_app in Hd as (_ & Hd & _).
        assert (e.1 ∈ fst <$> es0) as Hin by (apply list_elem_of_fmap; eauto).
        rewrite lookup_insert_ne by (intros Heq; apply (Hd e.1 Hin); rewrite <- Heq; left). apply Hx; set_solver.
      * rewrite lookup_insert_eq. done.
      * rewrite lookup_insert_ne by done. rewrite Hn3, ?last_of_snoc. done.
    + intros x H1 H2 H3. rewrite lookup_insert_ne by set_solver. by apply Hx.
Qed.

(** ** Lists that are being built *)

Definition seq_held (m : gmap addr block) (l : addr) (sen : option (addr * Z)) (es : list (addr * layout)) : Prop :=
  ring m l (fst <$> sen) es /\ sentinel_held m sen /\ all_held m es.

Definition seq_addrs (l : addr) (sen : option (addr * Z)) (es : list (addr * layout)) : list addr :=
  l :: name_addrs sen ++ entry_addrs es.

Lemma seq_held_ext m m' l sen es :
  (forall x, x ∈ seq_addrs l sen es -> m' !! x = m !! x) -> seq_held m l sen es -> seq_held m' l sen es.
Proof.
  unfold seq_addrs. intros H (Hr & Hs & He). split_and!.
  - eapply ring_ext; [|exact Hr]. intros x Hx. apply H. set_solver.
  - destruct sen as [[b t]|]; [|done]. cbn in *. rewrite H by set_solver. done.
  - apply all_held_Forall in He. apply all_held_Forall. rewrite Forall_forall in *. intros e Hin.
    eapply holds_ext; [|by apply He]. intros x Hx. apply H. apply elem_of_cons; right. apply elem_of_app; right.
    apply elem_of_entry_addrs. eauto.
Qed.

Lemma seq_held_lookup m l sen es x : seq_held m l sen es -> x ∈ seq_addrs l sen es -> is_Some (m !! x).
Proof.
  intros ([Hl Hc] & Hs & He). unfold seq_addrs. rewrite elem_of_cons, elem_of_app. intros [->|[Hx|Hx]]; [eauto| |].
  - destruct sen as [[b t]|]; cbn in *; [|by apply not_elem_of_nil in Hx]. apply list_elem_of_singleton in Hx as ->. eauto.
  - apply elem_of_entry_addrs in Hx as (e & Hin & [->|Hx]); [by eapply chain_lookup|].
    apply all_held_Forall in He. rewrite Forall_forall in He. eapply holds_lookup; eauto.
Qed.

Lemma old_lookup l m m' x : grown l m m' -> is_Some (m !! x) -> m' !! x = m !! x.
Proof. intros [_ H2 H3] [b Hb]. apply H3. intros Hx. rewrite H2 in Hb by done. done. Qed.

Lemma entry_heads_in es x : x ∈ fst <$> es -> x ∈ entry_addrs es.
Proof. intros (e & -> & He)%list_elem_of_fmap. apply elem_of_entry_addrs. eauto. Qed.

(** The addresses of a list, apart. *)
Lemma seq_addrs_heads l sen es : NoDup (seq_addrs l sen es) -> NoDup (l :: (fst <$> es)).
Proof.
  unfold seq_addrs. intros [Hl Hd]%NoDup_cons. apply NoDup_app in Hd as (_ & _ & Hd). apply NoDup_cons. split.
  - intros Hx%entry_heads_in. apply Hl, elem_of_app. by right.
  - clear Hl. induction es as [|e es IH]; [apply NoDup_nil_2|]. rewrite entry_addrs_cons in Hd. apply NoDup_cons in Hd as [He Hd].
    apply NoDup_app in Hd as (_ & _ & Hd). cbn. apply NoDup_cons. split; [|by apply IH].
    intros Hx%entry_heads_in. apply He, elem_of_app. by right.
Qed.

Lemma seq_addrs_entries l sen es : NoDup (seq_addrs l sen es) -> NoDup (l :: entry_addrs es).
Proof.
  unfold seq_addrs. intros [Hl Hd]%NoDup_cons. apply NoDup_app in Hd as (_ & _ & Hd). apply NoDup_cons. split; [|done].
  intros Hx. apply Hl, elem_of_app. by right.
Qed.

(** No block of a tree in the list is the block of an entry or of the sentinel. *)
Lemma seq_addrs_trees l sen es e x :
  NoDup (seq_addrs l sen es) -> e ∈ es -> x ∈ addrs e.2 -> x <> l /\ x ∉ fst <$> es.
Proof.
  unfold seq_addrs. intros [Hl Hd]%NoDup_cons He Hx. apply NoDup_app in Hd as (_ & _ & Hd). split.
  - intros ->. apply Hl, elem_of_app. right. apply elem_of_entry_addrs. eauto.
  - clear Hl. intros Hin. induction es as [|e0 es IH]; [by apply not_elem_of_nil in He|].
    rewrite entry_addrs_cons in Hd. apply NoDup_cons in Hd as [He0 Hd]. apply NoDup_app in Hd as (_ & Hdis & Hd).
    cbn in Hin. apply elem_of_cons in He as [->|He].
    + apply elem_of_cons in Hin as [->|Hin%entry_heads_in]; [apply He0, elem_of_app; by left | by eapply Hdis].
    + apply elem_of_cons in Hin as [->|Hin]; [apply He0, elem_of_app; right; apply elem_of_entry_addrs; eauto | by apply IH].
Qed.

Lemma seq_addrs_snoc r sen es n t : seq_addrs r sen (es ++ [(n, t)]) = seq_addrs r sen es ++ n :: addrs t.
Proof.
  unfold seq_addrs. rewrite entry_addrs_app, entry_addrs_cons. cbn. by rewrite app_nil_r, <- app_assoc.
Qed.

(** Hanging a new tree into a new entry at the end of a new list. *)
Lemma append_tree b0 b r sen es n t m d f l :
  seq_held b r sen es -> grown (seq_addrs r sen es) b0 b -> grown (n :: addrs t) b (m_blocks m) ->
  m_blocks m !! n = Some (BEntry d f l) -> holds (m_blocks m) t ->
  exists b', (_ ← set_data (Some n) (Some (root t)); list_add_tail (Some n) (Some r)) m = Some (tt, with_blocks b' m) /\
    seq_held b' r sen (es ++ [(n, t)]) /\ grown (seq_addrs r sen (es ++ [(n, t)])) b0 b'.
Proof.
  intros Hs Hg Hgn Hn Ht. pose proof (grown_app _ _ _ _ _ Hg Hgn (fun x => seq_held_lookup _ _ _ _ x Hs)) as Hall.
  rewrite <- seq_addrs_snoc in Hall. pose proof (gr_nodup _ _ _ Hall) as Hd.
  pose proof (seq_addrs_heads _ _ _ Hd) as Hh. rewrite fmap_app in Hh. cbn in Hh.
  rewrite (mm_ok _ _ _ _ _ (run_set_data _ _ _ _ _ _ Hn)). set (m3 := with_blocks _ m).
  assert (forall x, x <> n -> m_blocks m3 !! x = m_blocks m !! x) as Hx3 by (intros x Hx; cbn; by rewrite lookup_insert_ne).
  assert (forall x, x ∈ seq_addrs r sen es -> x <> n /\ x ∉ addrs t) as Hsep.
  { intros x Hx. rewrite seq_addrs_snoc in Hd. apply NoDup_app in Hd as (_ & Hd & _). specialize (Hd x Hx). set_solver. }
  assert (seq_held (m_blocks m3) r sen es) as (Hr3 & Hs3 & He3).
  { eapply seq_held_ext; [|exact Hs]. intros x Hx. rewrite Hx3 by (by apply Hsep).
    apply (old_lookup _ _ _ _ Hgn). by eapply seq_held_lookup. }
  assert (n ∉ addrs t) as Hnt by (apply (NoDup_cons n (addrs t)), (gr_nodup _ _ _ Hgn)).
  assert (holds (m_blocks m3) t) as Ht3 by (eapply holds_ext; [|exact Ht]; intros x Hx; apply Hx3; by intros ->).
  destruct (list_add_tail_run m3 n r (fst <$> sen) es t f l Hr3 (lookup_insert_eq _ _ _)) as (b' & E & Hr' & Hx').
  { eapply NoDup_Permutation_proper; [|exact Hh]. apply perm_skip. change (n :: (fst <$> es)) with ([n] ++ (fst <$> es)). apply Permutation_app_comm. }
  exists b'. split; [exact E|]. assert (forall e x, e ∈ es ++ [(n, t)] -> x ∈ addrs e.2 -> b' !! x = m_blocks m3 !! x) as Htr.
  { intros e x He Hx. destruct (seq_addrs_trees _ _ _ e x Hd He Hx) as [H1 H2]. rewrite fmap_app in H2. cbn in H2. apply Hx'; set_solver. }
  split.
  - split; [exact Hr'|]. split.
    + destruct sen as [[s ty]|]; [|done]. cbn in Hs3 |- *. rewrite Hx'; [exact Hs3|..].
      * intros ->. unfold seq_addrs in Hd. cbn in Hd. apply NoDup_cons in Hd as [Hd _]. apply Hd. left.
      * apply Hsep. unfold seq_addrs. cbn. right. left.
      * intros Hin%entry_heads_in. unfold seq_addrs in Hd. cbn in Hd. rewrite !NoDup_cons, entry_addrs_app in Hd.
        destruct Hd as (_ & Hd & _). apply Hd, elem_of_app. by left.
    + apply all_held_Forall in He3. apply all_held_Forall. rewrite Forall_forall in *. intros e He.
      eapply holds_ext; [intros x Hx; exact (Htr e x He Hx)|]. apply elem_of_app in He as [He|He%list_elem_of_singleton]; [by apply He3 | by rewrite He].
  - eapply grown_change; [exact Hall|]. intros x Hx. rewrite seq_addrs_snoc in Hx. unfold seq_addrs in Hx.
    rewrite Hx'; [apply Hx3; set_solver | set_solver | set_solver |].
    intros Hin%entry_heads_in. apply Hx. set_solver.
Qed.

(** ** Starting and giving up a list *)

Lemma init_list_run r m : m_blocks m !! r = Some raw_list ->
  INIT_LIST_HEAD (Some r) m = Some (tt, with_blocks (<[r := BEntry None (Some r) (Some r)]> (m_blocks m)) m).
Proof.
  intros H. unfold INIT_LIST_HEAD. rewrite (mm_ok _ _ _ _ _ (run_set_blink _ _ _ _ _ _ H)).
  rewrite (run_set_flink r _ _ _ _ _ (lookup_insert_eq _ _ _)). unfold with_blocks. cbn. by rewrite insert_insert_eq.
Qed.

Lemma discard_list_run b0 r sen est m fuel :
  seq_held (m_blocks m) r sen est -> grown (seq_addrs r sen est) b0 (m_blocks m) -> (S (entries_need est) <= fuel)%nat ->
  nbt_free_list fuel (Some r) m = Some (tt, with_blocks b0 m).
Proof.
  intros (Hr & Hs & He) Hg Hf.
  rewrite (free_list_run TAG_LIST r sen est fuel m (proj2 (Forall_forall _ _) (fun e _ => tree_free_run e.2)) Hr Hs He (gr_nodup _ _ _ Hg) Hf).
  cbn [payload_addrs]. fold (seq_addrs r sen est). by rewrite (grown_back _ _ _ Hg).
Qed.
End Build.
