(* ===== verification/NbtMemoryCopy.v ===== *)
(** * The pieces of a copied node

    The node itself, its name, and payloads of one block, for the functions that
    copy trees. *)

From S2P Require Import Prelude Nbt NbtMemory NbtMemorySpec NbtMemoryBuild.

Local Open Scope Z_scope.

#[local] Arguments free : simpl never.

(** The C string of a block, in a block of its own. *)
Definition text_copy (bs bs' : list (option Z)) : Prop :=
  exists text, c_text bs = Some text /\ bs' = Some <$> text ++ [0].

Definition name_copy (name name' : option (addr * list (option Z))) : Prop :=
  match name, name' with
  | None, None => True
  | Some (_, bs), Some (_, bs') => text_copy bs bs'
  | _, _ => False
  end.

(** The first [length] bytes; the other three quarters of an array of integers
    are left as the allocator gave them. *)
Definition array_copy (tag : Z) (bs : list (option Z)) (length : Z) : list (option Z) :=
  take (Z.to_nat length) bs ++ replicate (if tag =? TAG_INT_ARRAY then 3 * Z.to_nat length else 0) None.


Section Copy.
Context {pm : Placement}.

Lemma rich_trans m m' : same_heap m m' -> ~ plentiful (m_heap m') -> ~ plentiful (m_heap m).
Proof. unfold same_heap, plentiful. intros -> H. exact H. Qed.

(** ** Strings and arrays *)

(** A payload of one block: the copy and its block, or nothing. *)
Definition block_cloned (good : list (option Z) -> Prop) (m : memory) (ret : option addr) (m' : memory) : Prop :=
  same_heap m m' /\
  match ret with
  | Some a => m_blocks m !! a = None /\ exists bs', good bs' /\ m_blocks m' = <[a := BBytes bs']> (m_blocks m)
  | None => ~ plentiful (m_heap m) /\ m_blocks m' = m_blocks m
  end.

Lemma strdup_run s bs m : m_blocks m !! s = Some (BBytes bs) -> is_Some (c_text bs) ->
  exists ret m', nbt_strdup (Some s) m = Some (ret, m') /\ block_cloned (text_copy bs) m ret m'.
Proof.
  intros Hs [text Ht]. unfold nbt_strdup. rewrite (mm_ok _ _ _ _ _ (run_load_bytes _ _ _ Hs)), Ht.
  destruct (malloc_cases (BBytes (Some <$> text ++ [0])) m) as [(a & m1 & E & Ha & Eb & Hh)|(m1 & E & Eb & Hh & Hp)]; rewrite E.
  - eexists (Some a), m1. split; [reflexivity|]. split; [done|]. split; [done|]. eexists. split; [|exact Eb]. by exists text.
  - eexists None, m1. split; [reflexivity|]. by split.
Qed.

Lemma copy_array_run tag data bs len m : m_blocks m !! data = Some (BBytes bs) -> 0 <= len < 2 ^ 31 -> len <= Z.of_nat (length bs) ->
  exists ret m', copy_array (Some data) len (if tag =? TAG_INT_ARRAY then len * 4 else len) m = Some (ret, m') /\
    block_cloned (fun bs' => bs' = array_copy tag bs len) m ret m'.
Proof.
  intros Hb Hlen Hbs. unfold copy_array. set (size := if tag =? TAG_INT_ARRAY then len * 4 else len).
  assert (u64 len = len) as -> by (unfold u64; rewrite Z.mod_small; lia).
  assert (u64 size = size) as Hsize by (unfold u64, size; destruct (tag =? TAG_INT_ARRAY); rewrite Z.mod_small; lia).
  destruct (checked_malloc_cases (raw_bytes size) m) as [(a & m1 & E & Ha & Eb & Hh)|(m1 & E & Eb & Hh & Hp)]; rewrite (mm_ok _ _ _ _ _ E).
  2:{ eexists None, m1. split; [reflexivity|]. by split. }
  assert (data <> a) as Hda by congruence. unfold memcpy, raw_bytes in *. rewrite Hsize in Eb.
  assert (m_blocks m1 !! data = Some (BBytes bs)) as Hb1 by (by rewrite Eb, lookup_insert_ne).
  assert (m_blocks m1 !! a = Some (BBytes (replicate (Z.to_nat size) (@None Z)))) as Ha1 by (rewrite Eb; apply lookup_insert_eq).
  eexists (Some a), _. split.
  { erewrite mm_ok; [reflexivity|]. rewrite (mm_ok _ _ _ _ _ (run_load_bytes _ _ _ Hb1)), (mm_ok _ _ _ _ _ (run_load_bytes _ _ _ Ha1)).
    rewrite length_replicate.
    assert ((length bs <? Z.to_nat len)%nat || (Z.to_nat size <? Z.to_nat len)%nat = false) as ->.
    { apply orb_false_iff. rewrite !Nat.ltb_ge. unfold size. destruct (tag =? TAG_INT_ARRAY); lia. }
    apply run_store. eauto. }
  split; [exact Hh|]. split; [done|]. eexists. split; [|cbn; rewrite Eb; apply insert_insert_eq].
  unfold array_copy. f_equal. rewrite drop_replicate. f_equal. unfold size. destruct (tag =? TAG_INT_ARRAY); lia.
Qed.

(** ** Nodes *)

Definition payload_held (m : gmap addr block) (p : lpayload) : Prop :=
  match p with
  | LValue tag _ => TAG_BYTE <= tag <= TAG_DOUBLE
  | LArray tag data bs length =>
      m !! data = Some (BBytes bs) /\ tag ∈ [TAG_BYTE_ARRAY; TAG_INT_ARRAY; TAG_LONG_ARRAY]
  | LString s bs => m !! s = Some (BBytes bs)
  | LSeq tag l sentinel es => tag ∈ [TAG_LIST; TAG_COMPOUND] /\ seq_held m l sentinel es
  end.

Lemma holds_node m a name p :
  holds m (LNode a name p) <-> m !! a = Some (BNode (ltag p) (fst <$> name) (pointer p)) /\ name_held m name /\ payload_held m p.
Proof. by destruct p. Qed.

Lemma payload_held_ext m m' p : (forall x, x ∈ payload_addrs p -> m' !! x = m !! x) -> payload_held m p -> payload_held m' p.
Proof.
  destruct p as [tag v|tag data bs len|s bs|tag l sen es]; cbn; intros H.
  - done.
  - by rewrite H by left.
  - by rewrite H by left.
  - intros [Ht Hs]. split; [done|]. eapply seq_held_ext; [exact H | exact Hs].
Qed.

(** The node [r] of a copy is made and named; its payload is yet to come. *)
Record begun (m0 m : memory) (r : addr) (type : Z) (name : option (addr * list (option Z))) : Prop := {
  bg_heap : same_heap m0 m;
  bg_grown : grown (r :: name_addrs name) (m_blocks m0) (m_blocks m);
  bg_node : m_blocks m !! r = Some (BNode type (fst <$> name) PUnset);
  bg_name : name_held (m_blocks m) name }.

Lemma begun_lookup m0 m r type name x : begun m0 m r type name -> x ∈ r :: name_addrs name -> is_Some (m_blocks m !! x).
Proof.
  intros [_ _ Hr Hn] [->|Hx]%elem_of_cons; [eauto|]. destruct name as [[b bs]|]; cbn in *; [|by apply not_elem_of_nil in Hx].
  apply list_elem_of_singleton in Hx as ->. eauto.
Qed.

Lemma drop_node_blocks m r name type pl :
  m_blocks m !! r = Some (BNode type (fst <$> name) pl) -> name_held (m_blocks m) name -> NoDup (r :: name_addrs name) ->
  drop_node (fst <$> name) (Some r) m = Some (None, with_blocks (without (r :: name_addrs name) (m_blocks m)) m).
Proof.
  intros Hr Hn Hd. unfold drop_node.
  destruct name as [[b bs]|]; cbn [fmap option_fmap option_map fst name_addrs name_held] in *.
  - erewrite mm_ok by (apply run_mem_free; eauto).
    erewrite mm_ok by (apply run_mem_free; cbn [m_blocks with_blocks]; rewrite without_out; [eauto | by apply NoDup_cons in Hd as [Hd _]]).
    done.
  - erewrite mm_ok by reflexivity. erewrite mm_ok by (apply run_mem_free; eauto). done.
Qed.

Lemma drop_node_run m0 m r type name :
  begun m0 m r type name -> drop_node (fst <$> name) (Some r) m = Some (None, with_blocks (m_blocks m0) m).
Proof.
  intros [_ Hg Hr Hn]. rewrite (drop_node_blocks m r name type PUnset Hr Hn (gr_nodup _ _ _ Hg)).
  by rewrite (grown_back _ _ _ Hg).
Qed.

Lemma finish_run m0 m m' r name p :
  begun m0 m r (ltag p) name -> payload_held (m_blocks m') p -> grown (payload_addrs p) (m_blocks m) (m_blocks m') -> same_heap m m' ->
  exists b', finish_copy (ltag p) (fst <$> name) r (pointer p) m' = Some (Some r, with_blocks b' m') /\
    holds b' (LNode r name p) /\ grown (addrs (LNode r name p)) (m_blocks m0) b'.
Proof.
  intros Hb Hp Hg Hh. pose proof (grown_app _ _ _ _ _ (bg_grown _ _ _ _ _ Hb) Hg (fun x => begun_lookup _ _ _ _ _ x Hb)) as Hall.
  change ((r :: name_addrs name) ++ payload_addrs p) with (r :: name_addrs name ++ payload_addrs p) in Hall.
  rewrite <- addrs_node with (p := p) in Hall.
  destruct Hb as [_ Hgb Hr Hn]. assert (forall x b, m_blocks m !! x = Some b -> m_blocks m' !! x = Some b) as Hold.
  { intros x b Hx. rewrite (old_lookup _ _ _ _ Hg); eauto. }
  unfold finish_copy. erewrite mm_ok by (apply run_store; eauto). eexists. split; [reflexivity|].
  pose proof (gr_nodup _ _ _ Hall) as Hd. rewrite addrs_node in Hd. apply NoDup_cons in Hd as [Hrd Hd].
  split; [apply holds_node; split_and!|].
  - apply lookup_insert_eq.
  - destruct name as [[b bs]|]; [|done]. cbn in *. rewrite lookup_insert_ne by set_solver. eauto.
  - eapply payload_held_ext; [|exact Hp]. intros x Hx. apply lookup_insert_ne. set_solver.
  - eapply grown_change; [exact Hall|]. intros x Hx. apply lookup_insert_ne. rewrite addrs_node in Hx. set_solver.
Qed.
(** Strings end. *)
Definition name_ends (name : option (addr * list (option Z))) : Prop :=
  match name with Some (_, bs) => is_Some (c_text bs) | None => True end.

Lemma begin_run name m m1 r type :
  name_held (m_blocks m) name -> name_ends name -> m_blocks m !! r = None -> m_blocks m1 = <[r := raw_node]> (m_blocks m) -> same_heap m m1 ->
  exists name' m2, safe_strdup (fst <$> name) m1 = Some (fst <$> name', m2) /\
    exists b, store r (BNode type (fst <$> name') PUnset) m2 = Some (tt, with_blocks b m2) /\ begun m (with_blocks b m2) r type name' /\
    if bool_decide (is_Some (fst <$> name)) && bool_decide (fst <$> name' = None) then ~ plentiful (m_heap m) else name_copy name name'.
Proof.
  intros Hn Ht Hr Eb Hh.
  assert (forall m2, m_blocks m2 = m_blocks m1 -> same_heap m m2 -> exists b, store r (BNode type None PUnset) m2 = Some (tt, with_blocks b m2) /\
    begun m (with_blocks b m2) r type None) as Hnone.
  { intros m2 Eb2 Hh2. eexists. split; [apply run_store; rewrite Eb2, Eb, lookup_insert_eq; eauto|].
    constructor; [done| |apply lookup_insert_eq | done]. cbn. rewrite Eb2, Eb, insert_insert_eq. by apply grown_insert. }
  destruct name as [[s bs]|]; cbn [fmap option_fmap option_map fst] in *.
  2:{ destruct (Hnone m1 eq_refl Hh) as (b & E & Hb). exists None, m1. split; [done|]. exists b. by split_and!. }
  cbn in Hn. assert (m_blocks m1 !! s = Some (BBytes bs)) as Hs by (rewrite Eb, lookup_insert_ne; [done | congruence]).
  destruct (strdup_run s bs m1 Hs Ht) as (ret & m2 & E & Hh2 & H). cbn [safe_strdup]. rewrite E. destruct ret as [a|].
  - destruct H as (Ha & bs' & Hc & Eb2). exists (Some (a, bs')), m2. split; [done|]. cbn [fmap option_fmap option_map fst].
    assert (a <> r) as Har by (intros ->; rewrite Eb, lookup_insert_eq in Ha; done).
    assert (m_blocks m2 !! r = Some raw_node) as Hr2 by (rewrite Eb2, lookup_insert_ne, Eb by done; apply lookup_insert_eq).
    eexists. split; [apply run_store; eauto|]. split; [|by rewrite andb_false_r].
    constructor; [by etrans| |apply lookup_insert_eq | cbn; rewrite lookup_insert_ne, Eb2 by done; apply lookup_insert_eq].
    cbn. apply (grown_change _ _ (m_blocks m2)).
    + apply (grown_app [r] [a] _ (m_blocks m1)); [rewrite Eb; by apply grown_insert | rewrite Eb2; by apply grown_insert|].
      intros x ->%list_elem_of_singleton. rewrite Eb, lookup_insert_eq. eauto.
    + intros x Hx. apply lookup_insert_ne. set_solver.
  - destruct H as [Hp Eb2]. destruct (Hnone m2 Eb2 ltac:(by etrans)) as (b & E3 & Hb). exists None, m2. split; [done|]. exists b.
    split_and!; [done.. |]. by apply (rich_trans m m1).
Qed.
End Copy.
