(* ===== verification/NbtMemoryClone.v ===== *)
(** * Copying trees in memory

    [nbt_clone]: either a copy of the tree in blocks of its own, or, when the
    allocator refuses at any point, the memory as it was. *)

From S2P Require Import Prelude Nbt NbtMemory NbtMemorySpec NbtMemoryBuild NbtMemoryCopy.

Local Open Scope Z_scope.

#[local] Arguments free : simpl never.

(** ** What a copy is *)

Fixpoint copy_of (t t' : layout) : Prop :=
  let 'LNode _ name p := t in
  let 'LNode _ name' p' := t' in
  name_copy name name' /\
  match p, p' with
  | LValue tag v, LValue tag' v' => tag' = tag /\ v' = v
  | LArray tag _ bs len, LArray tag' _ bs' len' => tag' = tag /\ len' = len /\ bs' = array_copy tag bs len
  | LString _ bs, LString _ bs' => text_copy bs bs'
  | LSeq tag _ sen es, LSeq tag' _ sen' es' =>
      tag' = tag /\ snd <$> sen' = snd <$> sen /\
      (fix go es es' := match es, es' with
       | [], [] => True
       | e :: es, e' :: es' => copy_of e.2 e'.2 /\ go es es'
       | _, _ => False
       end) es es'
  | _, _ => False
  end.

Definition copies_of (es es' : list (addr * layout)) : Prop := Forall2 (fun e e' => copy_of e.2 e'.2) es es'.

(** Strings end, arrays have their lengths, and there are no arrays of longs,
    whose block a copy shares. *)
Fixpoint clonable (t : layout) : Prop :=
  let 'LNode _ name p := t in
  name_ends name /\
  match p with
  | LValue _ _ => True
  | LArray tag _ bs len => tag <> TAG_LONG_ARRAY /\ 0 <= len < 2 ^ 31 /\ len <= Z.of_nat (length bs)
  | LString _ bs => is_Some (c_text bs)
  | LSeq _ _ _ es => foldr (fun e acc => clonable e.2 /\ acc) True es
  end.

Lemma clonable_Forall es : foldr (fun e acc => clonable e.2 /\ acc) True es <-> Forall (fun e : addr * layout => clonable e.2) es.
Proof. induction es as [|e es IH]; cbn; [done|]. by rewrite Forall_cons, IH. Qed.

Lemma copy_entries es es' :
  (fix go es es' := match es, es' with
       | [], [] => True
       | e :: es, e' :: es' => copy_of e.2 e'.2 /\ go es es'
       | _, _ => False
       end) es es' <-> copies_of es es'.
Proof.
  revert es'. induction es as [|e es IH]; intros [|e' es']; cbn.
  - split; [intros _; apply Forall2_nil_2 | done].
  - split; [done | by intros ?%Forall2_nil_cons_inv].
  - split; [done | by intros ?%Forall2_cons_nil_inv].
  - rewrite IH. unfold copies_of. rewrite Forall2_cons. done.
Qed.

(** The same tree in other blocks: names and strings up to their ends, the bytes
    of arrays, numbers, and the structure with its element types. *)
Fixpoint same_tree (t t' : layout) : Prop :=
  let 'LNode _ name p := t in
  let 'LNode _ name' p' := t' in
  name_copy name name' /\
  match p, p' with
  | LValue tag v, LValue tag' v' => tag' = tag /\ v' = v
  | LArray tag _ bs len, LArray tag' _ bs' len' => tag' = tag /\ len' = len /\ bs' = take (Z.to_nat len) bs
  | LString _ bs, LString _ bs' => text_copy bs bs'
  | LSeq tag _ sen es, LSeq tag' _ sen' es' =>
      tag' = tag /\ snd <$> sen' = snd <$> sen /\
      (fix go es es' := match es, es' with
       | [], [] => True
       | e :: es, e' :: es' => same_tree e.2 e'.2 /\ go es es'
       | _, _ => False
       end) es es'
  | _, _ => False
  end.

(** No array but arrays of bytes. *)
Fixpoint only_byte_arrays (t : layout) : Prop :=
  let 'LNode _ _ p := t in
  match p with
  | LArray tag _ _ _ => tag = TAG_BYTE_ARRAY
  | LSeq _ _ _ es => foldr (fun e acc => only_byte_arrays e.2 /\ acc) True es
  | _ => True
  end.

(** Only arrays of integers are copied in part. *)
Lemma copy_same t : forall t', only_byte_arrays t -> copy_of t t' -> same_tree t t'.
Proof.
  induction t as [a name p IH] using layout_induct. intros [a' name' p'] Hb [Hn Hp]. split; [exact Hn|].
  destruct p as [| | |tag l sen es], p' as [| | |tag' l' sen' es']; cbn in *; try done.
  - subst. destruct Hp as (-> & -> & ->). unfold array_copy. cbn. by rewrite app_nil_r.
  - destruct Hp as (Ht & Hs & He). split_and!; [done | done |]. clear Hn Ht Hs.
    revert es' IH Hb He. induction es as [|e es IHe]; intros [|e' es'] IH Hb He; try done.
    apply Forall_cons in IH as [IHt IH]. destruct Hb as [Hb1 Hb2], He as [He1 He2]. split; [by apply IHt | by apply IHe].
Qed.

(** The depth of the recursion, with that of the cleanup. *)
Fixpoint clone_need (t : layout) : nat :=
  let 'LNode _ _ p := t in
  S (match p with
     | LSeq _ _ _ es => S (S (foldr (fun e acc => S (Nat.max (clone_need e.2) acc)) 1%nat es))
     | _ => 0%nat
     end).

Definition entries_clone_need (es : list (addr * layout)) : nat :=
  foldr (fun e acc => S (Nat.max (clone_need e.2) acc)) 1%nat es.

Lemma copy_need t : forall t', copy_of t t' -> (need t' <= clone_need t)%nat.
Proof.
  induction t as [a name p IH] using layout_induct. intros [a' name' p'] [_ H].
  destruct p as [| | |tag l sen es], p' as [| | |tag' l' sen' es']; cbn in *; try done; try lia.
  destruct H as (_ & _ & H). rewrite copy_entries in H.
  enough (entries_need es' <= entries_clone_need es)%nat by (unfold entries_need, entries_clone_need in *; lia).
  revert IH. induction H as [|e e' es es' Hc _ IHe]; intros IH; [cbn; lia|]. apply Forall_cons in IH as [IHt IH].
  specialize (IHe IH). specialize (IHt e'.2 Hc). cbn. unfold entries_need, entries_clone_need in IHe. lia.
Qed.

Lemma copies_need es es' rest : copies_of es es' -> (entries_need es' <= entries_clone_need (es ++ rest))%nat.
Proof.
  induction 1 as [|e e' es es' Hc _ IH]; cbn.
  - destruct rest; cbn; lia.
  - apply copy_need in Hc. unfold entries_need, entries_clone_need in *. lia.
Qed.

Lemma entries_need_app es rest : (entries_clone_need es <= entries_clone_need (es ++ rest))%nat.
Proof. unfold entries_clone_need. induction es as [|e es IH]; cbn; [destruct rest; cbn; lia | lia]. Qed.

Section Clone.
Context {pm : Placement}.

Definition cloned (t : layout) (m : memory) (r : option addr) (m' : memory) : Prop :=
  same_heap m m' /\
  match r with
  | Some a => exists t', a = root t' /\ copy_of t t' /\ holds (m_blocks m') t' /\ grown (addrs t') (m_blocks m) (m_blocks m')
  | None => ~ plentiful (m_heap m) /\ m_blocks m' = m_blocks m
  end.

Definition clones (t : layout) : Prop := forall m fuel,
  laid (m_blocks m) t -> clonable t -> (clone_need t <= fuel)%nat ->
  exists r m', nbt_clone fuel (Some (root t)) m = Some (r, m') /\ cloned t m r m'.

(** ** The loop over the entries *)

Lemma clone_entries_run es : Forall (fun e => clones e.2) es -> forall fuel l prev b0 ed es' r sen m,
  chain b0 prev es l -> all_held b0 es -> NoDup (l :: entry_addrs es) -> Forall (fun e => clonable e.2) es ->
  (entries_clone_need es <= fuel)%nat ->
  seq_held (m_blocks m) r sen es' -> grown (seq_addrs r sen es') b0 (m_blocks m) -> copies_of ed es' ->
  exists ok m' pre rest est, clone_entries fuel (Some l) (Some (first_of es l)) (Some r) m = Some (ok, m') /\
    pre ++ rest = ed ++ es /\ copies_of pre est /\ same_heap m m' /\
    seq_held (m_blocks m') r sen est /\ grown (seq_addrs r sen est) b0 (m_blocks m') /\
    if ok : bool then rest = [] else ~ plentiful (m_heap m).
Proof.
  induction 1 as [|[e t] es IHt _ IH]; intros fuel l prev b0 ed es' r sen m Hc Hh Hd Hcl Hf Hs Hg Hcp;
    (destruct fuel as [|fuel]; [cbn in Hf; lia|]); cbn [clone_entries first_of fst].
  { rewrite bool_decide_eq_true_2 by done. exists true, m, ed, [], es'. by rewrite app_nil_r. }
  destruct Hc as [Hlk Hc]. destruct Hh as [Ht Hh]. apply Forall_cons in Hcl as [Hct Hcl]. cbn [fst snd] in *.
  cbn in Hf. fold (entries_clone_need es) in Hf. rewrite entry_addrs_cons in Hd. cbn [fst snd] in Hd.
  rewrite bool_decide_eq_false_2 by (intros [= ->]; apply NoDup_cons in Hd as [Hd _]; apply Hd; left).
  apply NoDup_cons in Hd as [Hl Hd]. apply NoDup_cons in Hd as [He Hd]. apply NoDup_app in Hd as (Hdt & Hdis & Hde).
  assert (m_blocks m !! e = b0 !! e) as Eold by (eapply old_lookup; [exact Hg | eauto]). rewrite Hlk in Eold.
  rewrite (mm_ok _ _ _ _ _ (run_load_entry _ _ _ _ _ Eold)).
  destruct (checked_malloc_cases raw_list m) as [(n & m1 & E & Hn & Eb & Hh1)|(m1 & E & Eb & Hh1 & Hr)]; rewrite (mm_ok _ _ _ _ _ E).
  2:{ exists false, m1, ed, ((e, t) :: es), es'. rewrite Eb. by split_and!. }
  pose proof (grown_insert n raw_list (m_blocks m) Hn) as Hgn. rewrite <- Eb in Hgn.
  assert (laid (m_blocks m1) t) as Hlt by (split; [by eapply holds_old, holds_old | done]).
  destruct (IHt m1 fuel Hlt Hct ltac:(lia)) as (r1 & m2 & E2 & Hh2 & H2). rewrite (mm_ok _ _ _ _ _ E2).
  destruct r1 as [a'|].
  - destruct H2 as (t' & -> & Hcopy & Ht' & Hg2).
    assert (m_blocks m2 !! n = Some raw_list) as Hn2.
    { rewrite (old_lookup _ _ _ _ Hg2) by (rewrite Eb, lookup_insert_eq; eauto). rewrite Eb. apply lookup_insert_eq. }
    assert (grown (n :: addrs t') (m_blocks m) (m_blocks m2)) as Hgn2.
    { apply (grown_app [n] _ _ _ _ Hgn Hg2). intros x ->%list_elem_of_singleton. rewrite Eb, lookup_insert_eq. eauto. }
    destruct (append_tree b0 (m_blocks m) r sen es' n t' m2 _ _ _ Hs Hg Hgn2 Hn2 Ht') as (b' & E3 & Hs3 & Hg3).
    apply mm_split in E3 as ([] & m3 & E3 & E4). rewrite (mm_ok _ _ _ _ _ E3), bool_decide_eq_false_2 by done.
    rewrite (mm_ok _ _ _ _ _ E4). set (m4 := with_blocks b' m2).
    assert (m_blocks m4 !! e = Some (BEntry (Some (root t)) (Some (first_of es l)) (Some prev))) as Enext.
    { cbn. rewrite (old_lookup _ _ _ _ Hg3); eauto. }
    rewrite (mm_ok _ _ _ _ _ (run_flink _ _ _ _ _ Enext)).
    destruct (IH fuel l e b0 (ed ++ [(e, t)]) (es' ++ [(n, t')]) r sen m4) as (ok & m' & pre & rest & est & Er & Hpre & Hc' & Hh' & Hs' & Hg' & Hok);
      [done | done | apply NoDup_cons; split; [clear -Hl; set_solver | done] | done | lia | done | done | |].
    { apply Forall2_app; [done|]. apply Forall2_cons. split; [exact Hcopy | apply Forall2_nil_2]. }
    exists ok, m', pre, rest, est. rewrite <- app_assoc in Hpre. split_and!; [exact Er | exact Hpre | done | | done | done |].
    + etrans; [exact Hh1|]. etrans; [exact Hh2|]. exact Hh'.
    + destruct ok; [done|]. apply (rich_trans m m1); [done|]. by apply (rich_trans m1 m2).
  - destruct H2 as [Hr Eb2]. assert (m_blocks m2 !! n = Some raw_list) as Hn2 by (rewrite Eb2, Eb; apply lookup_insert_eq).
    rewrite (mm_ok _ _ _ _ _ (run_set_data _ _ _ _ _ _ Hn2)), bool_decide_eq_true_2 by done.
    erewrite mm_ok by (apply run_mem_free; cbn; rewrite lookup_insert_eq; eauto).
    eexists false, _, ed, ((e, t) :: es), es'. split; [reflexivity|].
    assert (without [n] (<[n := BEntry None None None]> (m_blocks m2)) = m_blocks m) as Eback.
    { rewrite Eb2, Eb. cbn. by rewrite insert_insert_eq, delete_insert_id. }
    cbn [m_blocks with_blocks]. rewrite Eback. split_and!; [done | done | by etrans | done | done | by apply (rich_trans m m1)].
Qed.

(** The sentinel of the copy, with the node that carries the element type: the
    list is begun, or the node could not be had. *)
Lemma clone_sentinel_run l sen es m m1 r :
  seq_held (m_blocks m) l sen es -> m_blocks m !! r = None ->
  m_blocks m1 = <[r := BEntry None (Some r) (Some r)]> (m_blocks m) -> same_heap m m1 ->
  exists ok m2, match fst <$> sen with
      | None => mret true
      | Some _ =>
          rd ← CHECKED_MALLOC raw_node;
          _ ← set_data (Some r) rd;
          match rd with
          | None => mret false
          | Some d => '(t, _, _) ← load_node (fst <$> sen); _ ← store d (BNode t None PUnset); mret true
          end
      end m1 = Some (ok, m2) /\ same_heap m m2 /\
    exists sen', seq_held (m_blocks m2) r sen' [] /\ grown (seq_addrs r sen' []) (m_blocks m) (m_blocks m2) /\
      if ok : bool then snd <$> sen' = snd <$> sen else ~ plentiful (m_heap m).
Proof.
  intros (Hr & Hs & _) Hn Eb1 Hh1. pose proof (grown_insert r (BEntry None (Some r) (Some r)) _ Hn) as Hg1. rewrite <- Eb1 in Hg1.
  assert (m_blocks m1 !! r = Some (BEntry None (Some r) (Some r))) as Hr1 by (rewrite Eb1; apply lookup_insert_eq).
  destruct sen as [[s ty]|]; cbn [fmap option_fmap option_map fst].
  2:{ exists true, m1. split; [done|]. split; [done|]. exists None. split_and!; [|exact Hg1 | done].
      split; [|done]. split; [exact Hr1 | done]. }
  assert (m_blocks m1 !! s = m_blocks m !! s) as Hs1 by (apply (old_lookup _ _ _ _ Hg1); eauto). cbn in Hs. rewrite Hs in Hs1.
  destruct (checked_malloc_cases raw_node m1) as [(d & m2 & E & Hd & Eb & Hh)|(m2 & E & Eb & Hh & Hp)]; rewrite (mm_ok _ _ _ _ _ E).
  - assert (d <> r /\ s <> r /\ s <> d) as (Hdr & Hsr & Hsd) by (split_and!; congruence).
    assert (m_blocks m2 !! r = Some (BEntry None (Some r) (Some r))) as Hr2 by (rewrite Eb; by rewrite lookup_insert_ne).
    rewrite (mm_ok _ _ _ _ _ (run_set_data _ _ _ _ _ _ Hr2)). cbv beta iota.
    erewrite mm_ok by (apply run_load_node; cbn; rewrite lookup_insert_ne by done; rewrite Eb, lookup_insert_ne by done; exact Hs1).
    cbv beta iota. erewrite mm_ok by (apply run_store; cbn; rewrite lookup_insert_ne by done; rewrite Eb, lookup_insert_eq; eauto).
    eexists true, _. split; [reflexivity|]. split; [by etrans|]. exists (Some (d, ty)). cbn [m_blocks with_blocks]. rewrite Eb. split_and!; [| |done].
    + split; [split; [rewrite lookup_insert_ne by done; apply lookup_insert_eq | done] | split; [apply lookup_insert_eq | done]].
    + apply (grown_change _ _ (<[d := raw_node]> (m_blocks m1))).
      * apply (grown_app [r] [d] _ (m_blocks m1)); [exact Hg1 | by apply grown_insert|]. intros x ->%list_elem_of_singleton. eauto.
      * unfold seq_addrs. cbn. intros x Hx. rewrite !lookup_insert_ne by set_solver. done.
  - rewrite <- Eb in Hr1. rewrite (mm_ok _ _ _ _ _ (run_set_data _ _ _ _ _ _ Hr1)). eexists false, _. split; [reflexivity|].
    split; [by etrans|]. exists None. cbn [m_blocks with_blocks]. rewrite Eb, Eb1, insert_insert_eq, <- Eb1.
    split_and!; [|exact Hg1 | by apply (rich_trans m m1)]. split; [|done]. split; [rewrite Eb1; apply lookup_insert_eq | done].
Qed.
Definition list_cloned (sen : option (addr * Z)) (es : list (addr * layout)) (m : memory) (ret : option addr) (m' : memory) : Prop :=
  same_heap m m' /\
  match ret with
  | Some r => exists sen' es', copies_of es es' /\ snd <$> sen' = snd <$> sen /\
      seq_held (m_blocks m') r sen' es' /\ grown (seq_addrs r sen' es') (m_blocks m) (m_blocks m')
  | None => ~ plentiful (m_heap m) /\ m_blocks m' = m_blocks m
  end.

(** What has been copied so far is given back. *)
Lemma clone_give_up m0 m r sen es' rest pre fuel :
  seq_held (m_blocks m) r sen es' -> grown (seq_addrs r sen es') (m_blocks m0) (m_blocks m) -> copies_of pre es' ->
  (S (entries_clone_need (pre ++ rest)) <= fuel)%nat ->
  (_ ← nbt_free_list fuel (Some r); mret None) m = Some (@None addr, with_blocks (m_blocks m0) m).
Proof.
  intros Hs Hg Hc Hf. pose proof (copies_need _ _ rest Hc).
  by rewrite (mm_ok _ _ _ _ _ (discard_list_run _ _ _ _ _ fuel Hs Hg ltac:(lia))).
Qed.

Lemma clone_list_run l sen es m fuel :
  Forall (fun e => clones e.2) es -> seq_held (m_blocks m) l sen es -> NoDup (l :: entry_addrs es) ->
  Forall (fun e => clonable e.2) es -> (S (S (entries_clone_need es)) <= fuel)%nat ->
  exists ret m', clone_list fuel (Some l) m = Some (ret, m') /\ list_cloned sen es m ret m'.
Proof.
  intros IH Hs Hd Hcl Hf. destruct fuel as [|fuel]; [lia|]. cbn [clone_list]. pose proof Hs as ([Hl Hc] & _ & He).
  destruct (checked_malloc_cases raw_list m) as [(r & m1 & E & Hr & Eb & Hh)|(m1 & E & Eb & Hh & Hp)]; rewrite (mm_ok _ _ _ _ _ E).
  2:{ destruct fuel as [|fuel]; [lia|]. cbn [nbt_free_list]. eexists None, m1. split; [reflexivity|]. by split. }
  rewrite (mm_ok _ _ _ _ _ (init_list_run r m1 ltac:(by rewrite Eb, lookup_insert_eq))). set (m2 := with_blocks _ m1).
  assert (l <> r) as Hlr by congruence.
  assert (m_blocks m2 = <[r := BEntry None (Some r) (Some r)]> (m_blocks m)) as Eb2 by (cbn; by rewrite Eb, insert_insert_eq).
  assert (m_blocks m2 !! l = Some (BEntry (fst <$> sen) (Some (first_of es l)) (Some (last_of es l)))) as Hl2 by (by rewrite Eb2, lookup_insert_ne).
  rewrite (mm_ok _ _ _ _ _ (run_load_entry _ _ _ _ _ Hl2)). cbv beta iota.
  destruct (clone_sentinel_run l sen es m m2 r Hs Hr Eb2 Hh) as (ok & m3 & E3 & Hh3 & sen' & Hs3 & Hg3 & Hok). rewrite (mm_ok _ _ _ _ _ E3).
  assert (m_blocks m3 !! l = Some (BEntry (fst <$> sen) (Some (first_of es l)) (Some (last_of es l)))) as Hl3 by (rewrite (old_lookup _ _ _ _ Hg3); eauto).
  rewrite (mm_ok _ _ _ _ _ (run_flink _ _ _ _ _ Hl3)). destruct ok; cbn [negb].
  - destruct (clone_entries_run es IH fuel l l (m_blocks m) [] [] r sen' m3) as (ok & m4 & pre & rest & es' & E4 & Hpre & Hc4 & Hh4 & Hs4 & Hg4 & Hok4);
      [done | done | done | done | lia | done | done | apply Forall2_nil_2 |].
    rewrite (mm_ok _ _ _ _ _ E4). cbn in Hpre. destruct ok.
    + subst rest. rewrite app_nil_r in Hpre. subst pre. eexists (Some r), m4. split; [reflexivity|]. split; [by etrans|]. eauto 10.
    + rewrite (clone_give_up m m4 r sen' es' rest pre fuel Hs4 Hg4 Hc4 ltac:(rewrite Hpre; lia)).
      eexists None, _. split; [reflexivity|]. split; [by etrans|]. split; [by apply (rich_trans m m3) | done].
  - erewrite mm_ok by reflexivity. cbv beta iota.
    rewrite (clone_give_up m m3 r sen' [] es [] fuel Hs3 Hg3 ltac:(apply Forall2_nil_2) ltac:(change ([] ++ es) with es; lia)).
    eexists None, _. split; [reflexivity|]. split; [exact Hh3|]. done.
Qed.

(** ** Nodes *)

Definition payload_copy (p p' : lpayload) : Prop :=
  match p, p' with
  | LValue tag v, LValue tag' v' => tag' = tag /\ v' = v
  | LArray tag _ bs len, LArray tag' _ bs' len' => tag' = tag /\ len' = len /\ bs' = array_copy tag bs len
  | LString _ bs, LString _ bs' => text_copy bs bs'
  | LSeq tag _ sen es, LSeq tag' _ sen' es' => tag' = tag /\ snd <$> sen' = snd <$> sen /\ copies_of es es'
  | _, _ => False
  end.

Lemma copy_of_node a name p a' name' p' : copy_of (LNode a name p) (LNode a' name' p') <-> name_copy name name' /\ payload_copy p p'.
Proof. destruct p, p'; cbn; rewrite ?copy_entries; done. Qed.

(** What the copying of a payload [p] leaves. *)
Definition payload_cloned (p : lpayload) (mk : option addr -> mem_payload) (m : memory) (ret : option addr) (m' : memory) : Prop :=
  same_heap m m' /\
  match ret with
  | Some a => exists p', mk (Some a) = pointer p' /\ ltag p' = ltag p /\ payload_copy p p' /\ payload_held (m_blocks m') p' /\
      grown (payload_addrs p') (m_blocks m) (m_blocks m')
  | None => ~ plentiful (m_heap m) /\ m_blocks m' = m_blocks m
  end.

Lemma finish_cloned m0 m m' a r name name' p p' :
  begun m0 m r (ltag p) name' -> name_copy name name' -> ltag p' = ltag p -> payload_copy p p' -> payload_held (m_blocks m') p' ->
  grown (payload_addrs p') (m_blocks m) (m_blocks m') -> same_heap m m' ->
  exists ret m4, finish_copy (ltag p) (fst <$> name') r (pointer p') m' = Some (ret, m4) /\ cloned (LNode a name p) m0 ret m4.
Proof.
  intros Hb Hn Et Hc Hp Hg Hh. rewrite <- Et in *. destruct (finish_run m0 m m' r name' p' Hb Hp Hg Hh) as (b & E & Ht & Hgt).
  eexists _, _. split; [exact E|]. split; [etrans; [exact (bg_heap _ _ _ _ _ Hb)|]; exact Hh|].
  exists (LNode r name' p'). split_and!; [done | by apply copy_of_node | done | done].
Qed.

Lemma keep_run m0 m a r name name' p mk c :
  begun m0 m r (ltag p) name' -> name_copy name name' ->
  (exists ret m', c m = Some (ret, m') /\ payload_cloned p mk m ret m') ->
  exists ret m', (x ← c; match x with None => drop_node (fst <$> name') (Some r) | Some _ => finish_copy (ltag p) (fst <$> name') r (mk x) end) m
    = Some (ret, m') /\ cloned (LNode a name p) m0 ret m'.
Proof.
  intros Hb Hn (ret & m' & E & Hh & H). rewrite (mm_ok _ _ _ _ _ E). destruct ret as [x|].
  - destruct H as (p' & -> & Et & Hc & Hp & Hg). by eapply finish_cloned.
  - destruct H as [Hr Eb]. destruct Hb as [Hb1 Hb2 Hb3 Hb4].
    rewrite (drop_node_run m0 m' r (ltag p)) by (constructor; rewrite ?Eb; try done; by etrans).
    eexists None, _. split; [reflexivity|]. split; [by etrans|]. split; [by apply (rich_trans m0 m) | done].
Qed.

Lemma block_payload good p mk m ret m' (mp : addr -> list (option Z) -> lpayload) :
  block_cloned good m ret m' ->
  (forall a bs, good bs -> mk (Some a) = pointer (mp a bs) /\ ltag (mp a bs) = ltag p /\ payload_copy p (mp a bs) /\
     payload_addrs (mp a bs) = [a] /\ forall b, b !! a = Some (BBytes bs) -> payload_held b (mp a bs)) ->
  payload_cloned p mk m ret m'.
Proof.
  intros [Hh H] Hg. split; [done|]. destruct ret as [a|]; [|done]. destruct H as (Ha & bs & Hb & Eb).
  destruct (Hg a bs Hb) as (H1 & H2 & H3 & H4 & H5). exists (mp a bs). rewrite H4, Eb.
  split_and!; [done..| apply H5, lookup_insert_eq | by apply grown_insert].
Qed.

Lemma clone_run t : clones t.
Proof.
  induction t as [a name p IH] using layout_induct. intros m fuel [Ht Hd] Hc Hf. destruct fuel as [|fuel]; [cbn in Hf; lia|].
  cbn [nbt_clone root]. pose proof Ht as (Ha & Hn & Hp)%holds_node. rewrite (mm_ok _ _ _ _ _ (run_load_node _ _ _ _ _ Ha)).
  assert (ltag p =? TAG_INVALID = false) as ->.
  { destruct p as [tag v|tag data bs len|s bs|tag l sen es]; cbn in *; [lia| |done|];
      destruct Hp as [? Hp]; rewrite ?elem_of_cons, ?elem_of_nil in *; naive_solver. }
  destruct (checked_malloc_cases raw_node m) as [(r & m1 & E & Hr & Eb & Hh)|(m1 & E & Eb & Hh & Hpl)]; rewrite (mm_ok _ _ _ _ _ E).
  2:{ eexists None, m1. split; [reflexivity|]. by split. }
  destruct Hc as [Hcn Hcp].
  destruct (begin_run name m m1 r (ltag p) Hn Hcn Hr Eb Hh) as (name' & m2 & E2 & b & E3 & Hb & Hcopy).
  rewrite (mm_ok _ _ _ _ _ E2), (mm_ok _ _ _ _ _ E3). set (m3 := with_blocks b m2) in *.
  destruct (bool_decide _ && bool_decide _).
  { rewrite (drop_node_run _ _ _ _ _ Hb). eexists None, _. split; [reflexivity|]. split; [exact (bg_heap _ _ _ _ _ Hb) | done]. }
  pose proof (holds_old _ _ _ _ (bg_grown _ _ _ _ _ Hb) Ht) as (_ & _ & Hp3)%holds_node.
  destruct p as [tag v|tag data bs len|s bs|tag l sen es]; cbn [ltag pointer payload_held] in *.
  - assert ((tag =? TAG_STRING) = false /\ (tag =? TAG_BYTE_ARRAY) = false /\ (tag =? TAG_INT_ARRAY) = false /\
      ((tag =? TAG_LIST) || (tag =? TAG_COMPOUND)) = false) as (-> & -> & -> & ->) by (rewrite orb_false_iff; lia).
    apply (finish_cloned m m3 m3 a r name name' (LValue tag v) (LValue tag v)); try done. apply grown_nil.
  - destruct Hp as [Hdata Htag], Hcp as (Hlong & Hlen & Hbs). apply proj1 in Hp3.
    destruct (copy_array_run tag data bs len m3 Hp3 Hlen Hbs) as (ret & m4 & E4 & Hcl).
    assert (tag = TAG_BYTE_ARRAY \/ tag = TAG_INT_ARRAY) as Htag' by (rewrite !elem_of_cons, elem_of_nil in Htag; naive_solver).
    assert (payload_cloned (LArray tag data bs len) (fun x => PArray x len) m3 ret m4) as Hpc.
    { eapply (block_payload _ _ _ _ _ _ (fun x bs' => LArray tag x bs' len)); [exact Hcl|]. intros x bs' ->. by split_and!. }
    destruct Htag' as [-> | ->]; apply (keep_run m m3 a r name name' (LArray _ data bs len) (fun x => PArray x len)); eauto.
  - apply (keep_run m m3 a r name name' (LString s bs) PString); [done..|].
    destruct (strdup_run s bs m3 Hp3 Hcp) as (ret & m4 & E4 & Hcl). exists ret, m4. split; [done|].
    eapply (block_payload _ _ _ _ _ _ LString); [exact Hcl|]. intros x bs' ?. by split_and!.
  - destruct Hp3 as [Htag Hs]. rewrite clonable_Forall in Hcp. cbn [clone_need] in Hf. fold (entries_clone_need es) in Hf.
    rewrite addrs_node in Hd. cbn [payload_addrs] in Hd. apply NoDup_cons in Hd as [_ Hd]. apply NoDup_app in Hd as (_ & _ & Hd).
    destruct (clone_list_run l sen es m3 fuel IH Hs (seq_addrs_entries _ _ _ Hd) Hcp ltac:(lia)) as (ret & m4 & E4 & Hcl).
    assert (payload_cloned (LSeq tag l sen es) PList m3 ret m4) as Hpc.
    { destruct Hcl as [Hh4 Hcl]. split; [done|]. destruct ret as [x|]; [|done]. destruct Hcl as (sen' & es' & Hc & Hsen & Hs' & Hg').
      exists (LSeq tag x sen' es'). by split_and!. }
    rewrite !elem_of_cons, elem_of_nil in Htag.
    destruct Htag as [-> | [-> | []]]; apply (keep_run m m3 a r name name' (LSeq _ l sen es) PList); eauto.
Qed.

(** C25. Copying a tree gives a copy in blocks that were not in use, with every other
    block of the memory as it was; or, when the allocator refuses at any
    point, nothing and the memory with all its blocks as before.  Names,
    strings, byte arrays, numbers and the structure with its element types are
    those of the tree, which has no other arrays (the examples [int_array_quarter]
    and [long_array_freed_twice] say why).  When the allocator grants every
    request there is always a copy. *)
Theorem nbt_clone_spec t m fuel :
  laid (m_blocks m) t -> clonable t -> only_byte_arrays t -> (clone_need t <= fuel)%nat ->
  exists r m', nbt_clone fuel (Some (root t)) m = Some (r, m') /\
    match r with
    | Some a => exists t', a = root t' /\ same_tree t t' /\ laid (m_blocks m') t' /\ laid (m_blocks m') t /\
        (forall x, x ∈ addrs t' -> m_blocks m !! x = None) /\ without (addrs t') (m_blocks m') = m_blocks m
    | None => ~ plentiful (m_heap m) /\ m_blocks m' = m_blocks m
    end.
Proof.
  intros Hl Hc Hb Hf. destruct (clone_run t m fuel Hl Hc Hf) as (r & m' & E & Hh & H). exists r, m'. split; [done|].
  destruct r as [a|]; [|done]. destruct H as (t' & -> & Hcp & Ht & Hg). exists t'. destruct Hl as [Hold Hd].
  split_and!; [done | by apply copy_same | split; [done | by apply Hg] | split; [by eapply holds_old | done] | apply Hg | by apply grown_back].
Qed.
End Clone.
