(* ===== verification/NbtMemoryFilter.v ===== *)
(** * Filtered copies of trees in memory

    [nbt_filter]: a copy of what the predicate keeps, [NULL] for a tree it
    refuses, or [NULL] with [errno] set when the allocator refuses, in which case
    blocks may be lost but nothing that was there is touched. *)

From S2P Require Import Prelude Nbt NbtMemory NbtMemorySpec NbtMemoryBuild NbtMemoryCopy NbtMemoryClone.

Local Open Scope Z_scope.

#[local] Arguments free : simpl never.

(** ** What is kept *)

(** The tree without the entries [f] refuses, and without the nodes that carry
    element types. *)
Fixpoint prune (f : layout -> bool) (t : layout) : layout :=
  let 'LNode a name p := t in
  LNode a name
    match p with
    | LSeq tag l _ es => LSeq tag l None (foldr (fun e acc => if f e.2 then (e.1, prune f e.2) :: acc else acc) [] es)
    | _ => p
    end.

Definition prune_entries (f : layout -> bool) (es : list (addr * layout)) : list (addr * layout) :=
  foldr (fun e acc => if f e.2 then (e.1, prune f e.2) :: acc else acc) [] es.

Definition prune_payload (f : layout -> bool) (p : lpayload) : lpayload :=
  match p with LSeq tag l _ es => LSeq tag l None (prune_entries f es) | _ => p end.

Lemma prune_node f a name p : prune f (LNode a name p) = LNode a name (prune_payload f p).
Proof. by destruct p. Qed.

Lemma prune_entries_app f es es' : prune_entries f (es ++ es') = prune_entries f es ++ prune_entries f es'.
Proof. induction es as [|e es IH]; [done|]. cbn. unfold prune_entries in *. rewrite IH. by destruct (f e.2). Qed.

Lemma prune_only_bytes f t : only_byte_arrays t -> only_byte_arrays (prune f t).
Proof.
  induction t as [a name p IH] using layout_induct. rewrite prune_node. destruct p as [| | |tag l sen es]; try done.
  cbn. intros H. revert IH H. induction es as [|e es IHe]; intros IH H; [done|]. apply Forall_cons in IH as [IHt IH].
  destruct H as [H1 H2]. cbn. destruct (f e.2); [split; [by apply IHt|]|]; by apply IHe.
Qed.

Lemma prune_need f t : (clone_need (prune f t) <= clone_need t)%nat.
Proof.
  induction t as [a name p IH] using layout_induct. rewrite prune_node.
  destruct p as [| | |tag l sen es]; cbn in *; try lia. repeat apply le_n_S.
  induction es as [|e es IHe]; cbn; [lia|]. apply Forall_cons in IH as [IHt IH]. specialize (IHe IH). unfold prune_entries in IHe.
  destruct (f e.2); cbn; lia.
Qed.

Lemma prune_entries_need f es : (entries_clone_need (prune_entries f es) <= entries_clone_need es)%nat.
Proof.
  induction es as [|e es IH]; cbn; [lia|]. pose proof (prune_need f e.2). unfold entries_clone_need, prune_entries in *.
  destruct (f e.2); cbn; lia.
Qed.

(** ** The error number *)

Definition keeps_errno {A} (c : MM A) : Prop := forall m a m', c m = Some (a, m') -> m_errno m' = m_errno m.

Create HintDb errno discriminated.

Lemma keeps_ret {A} (a : A) : keeps_errno (mret a).
Proof. by intros m b m' [= _ <-]. Qed.
Lemma keeps_undefined {A} : keeps_errno (@undefined A).
Proof. by intros m a m'. Qed.
Lemma keeps_bind {A B} (c : MM A) (k : A -> MM B) : keeps_errno c -> (forall a, keeps_errno (k a)) -> keeps_errno (c ≫= k).
Proof. intros Hc Hk m b m' (a & m1 & E1 & E2)%mm_split. rewrite (Hk a _ _ _ E2). by eapply Hc. Qed.
Lemma keeps_load a : keeps_errno (load a).
Proof. intros m b m'. unfold load. destruct (m_blocks m !! a); [|done]. by intros [= _ <-]. Qed.
Lemma keeps_store a b : keeps_errno (store a b).
Proof. intros m x m'. unfold store. destruct (m_blocks m !! a); [|done]. by intros [= _ <-]. Qed.
Lemma keeps_free p : keeps_errno (free p).
Proof. intros m x m'. unfold free. destruct p as [a|]; [|by intros [= _ <-]]. destruct (m_blocks m !! a); [|done]. by intros [= _ <-]. Qed.

#[local] Hint Resolve keeps_ret keeps_undefined keeps_bind keeps_load keeps_store keeps_free : errno.

(** Follows the computation to its primitive steps. *)
Ltac errno_auto := repeat (first [solve [eauto with errno] | apply keeps_bind; [|intros ?] | case_match]).

Lemma keeps_load_bytes p : keeps_errno (load_bytes p).
Proof. unfold load_bytes. errno_auto. Qed.
#[local] Hint Resolve keeps_load_bytes : errno.

Lemma keeps_memcpy d s n : keeps_errno (memcpy d s n).
Proof. unfold memcpy. errno_auto. Qed.
Lemma keeps_drop n r : keeps_errno (drop_node n r).
Proof. unfold drop_node. errno_auto. Qed.

Section Filter.
Context {pm : Placement}.

Lemma keeps_malloc b : keeps_errno (malloc b).
Proof. intros m x m'. unfold malloc. destruct (p_malloc (m_heap m)) as [[] h]; by intros [= _ <-]. Qed.
#[local] Hint Resolve keeps_malloc : errno.

Lemma keeps_strdup s : keeps_errno (nbt_strdup s).
Proof. unfold nbt_strdup. errno_auto. Qed.
Lemma keeps_safe_strdup s : keeps_errno (safe_strdup s).
Proof. unfold safe_strdup. destruct s; [apply keeps_strdup | apply keeps_ret]. Qed.

(** [CHECKED_MALLOC] sets it exactly when it fails. *)
Definition sets_errno (c : MM (option addr)) : Prop := forall m ret m', c m = Some (ret, m') ->
  m_errno m' = match ret with Some _ => m_errno m | None => NBT_EMEM end.

Lemma checked_malloc_errno b : sets_errno (CHECKED_MALLOC b).
Proof.
  intros m ret m' (p & m1 & E1 & E2)%mm_split. apply keeps_malloc in E1. destruct p as [a|].
  - by injection E2 as <- <-.
  - by apply mm_split in E2 as ([] & m2 & [= <-] & [= <- <-]).
Qed.

Lemma copy_array_errno data len size : sets_errno (copy_array data len size).
Proof.
  intros m ret m' (p & m1 & E1 & E2)%mm_split. apply checked_malloc_errno in E1. destruct p as [a|].
  - apply mm_split in E2 as ([] & m2 & E2 & [= <- <-]). apply keeps_memcpy in E2. congruence.
  - by injection E2 as <- <-.
Qed.
Variable filter : predicate.
Variable f : layout -> bool.

(** Failing: the error is reported, and at worst blocks are lost. *)
Definition failed (m m' : memory) : Prop :=
  ~ plentiful (m_heap m) /\ exists lost, grown lost (m_blocks m) (m_blocks m').

Definition filtered (t : layout) (m : memory) (ret : option addr) (m' : memory) : Prop :=
  same_heap m m' /\
  match ret with
  | Some a => f t = true /\ m_errno m' = NBT_OK /\
      exists t', a = root t' /\ copy_of (prune f t) t' /\ holds (m_blocks m') t' /\ grown (addrs t') (m_blocks m) (m_blocks m')
  | None => (f t = false /\ m_errno m' = NBT_OK /\ m_blocks m' = m_blocks m) \/ (m_errno m' = NBT_EMEM /\ failed m m')
  end.

Definition filters (t : layout) : Prop := forall m fuel,
  laid (m_blocks m) t -> clonable t -> (clone_need t <= fuel)%nat ->
  exists ret m', nbt_filter fuel filter (Some (root t)) m = Some (ret, m') /\ filtered t m ret m'.

Lemma failed_later l m m1 m2 :
  grown l (m_blocks m) (m_blocks m1) -> (forall x, x ∈ l -> is_Some (m_blocks m1 !! x)) -> same_heap m m1 -> failed m1 m2 ->
  ~ plentiful (m_heap m) /\ exists lost, grown (l ++ lost) (m_blocks m) (m_blocks m2).
Proof. intros Hg Hl Hh [Hp [lost Hf]]. split; [by apply (rich_trans m m1)|]. exists lost. by eapply grown_app. Qed.

(** ** The loop over the entries *)

Lemma filter_entries_run es : Forall (fun e => filters e.2) es -> forall fuel l prev b0 ed es' r m,
  chain b0 prev es l -> all_held b0 es -> NoDup (l :: entry_addrs es) -> Forall (fun e => clonable e.2) es ->
  (entries_clone_need es <= fuel)%nat -> m_errno m = NBT_OK ->
  seq_held (m_blocks m) r None es' -> grown (seq_addrs r None es') b0 (m_blocks m) -> copies_of (prune_entries f ed) es' ->
  exists ok m' pre rest est, filter_entries fuel filter (Some l) (Some (first_of es l)) (Some r) m = Some (ok, m') /\
    pre ++ rest = ed ++ es /\ copies_of (prune_entries f pre) est /\ same_heap m m' /\ seq_held (m_blocks m') r None est /\
    if ok : bool then rest = [] /\ m_errno m' = NBT_OK /\ grown (seq_addrs r None est) b0 (m_blocks m')
    else m_errno m' = NBT_EMEM /\ ~ plentiful (m_heap m) /\ exists lost, grown (seq_addrs r None est ++ lost) b0 (m_blocks m').
Proof.
  induction 1 as [|[e t] es IHt _ IH]; intros fuel l prev b0 ed es' r m Hc Hh Hd Hcl Hf Herr Hs Hg Hcp;
    (destruct fuel as [|fuel]; [cbn in Hf; lia|]); cbn [filter_entries first_of fst].
  { rewrite bool_decide_eq_true_2 by done. exists true, m, ed, [], es'. by rewrite app_nil_r. }
  destruct Hc as [Hlk Hc]. destruct Hh as [Ht Hh]. apply Forall_cons in Hcl as [Hct Hcl]. cbn [fst snd] in *.
  cbn in Hf. fold (entries_clone_need es) in Hf. rewrite entry_addrs_cons in Hd. cbn [fst snd] in Hd.
  rewrite bool_decide_eq_false_2 by (intros [= ->]; apply NoDup_cons in Hd as [Hd _]; apply Hd; left).
  apply NoDup_cons in Hd as [Hl Hd]. apply NoDup_cons in Hd as [He Hd]. apply NoDup_app in Hd as (Hdt & Hdis & Hde).
  assert (NoDup (l :: entry_addrs es)) as Hde' by (apply NoDup_cons; split; [clear -Hl; set_solver | done]).
  assert (forall lost m', grown lost b0 (m_blocks m') -> m_blocks m' !! e = Some (BEntry (Some (root t)) (Some (first_of es l)) (Some prev))) as Elk.
  { intros lost m' Hgm. rewrite (old_lookup _ _ _ _ Hgm); eauto. }
  rewrite (mm_ok _ _ _ _ _ (run_load_entry _ _ _ _ _ (Elk _ _ Hg))).
  destruct (IHt m fuel (conj (holds_old _ _ _ _ Hg Ht) Hdt) Hct ltac:(lia)) as (ret & m1 & E1 & Hh1 & H1). rewrite (mm_ok _ _ _ _ _ E1).
  erewrite mm_ok by reflexivity.
  destruct ret as [a|]; [|destruct H1 as [(Hft & Herr1 & Eb1)|(Herr1 & Hfail)]].
  - destruct H1 as (Hft & Herr1 & t' & -> & Hcopy & Ht' & Hg1). rewrite Herr1, bool_decide_eq_true_2 by done. cbn [negb].
    rewrite bool_decide_eq_false_2 by done.
    pose proof (grown_app _ _ _ _ _ Hg Hg1 (fun x => seq_held_lookup _ _ _ _ x Hs)) as Hg01.
    destruct (checked_malloc_cases raw_list m1) as [(n & m2 & E2 & Hn & Eb2 & Hh2)|(m2 & E2 & Eb2 & Hh2 & Hr2)]; rewrite (mm_ok _ _ _ _ _ E2);
      apply checked_malloc_errno in E2.
    + assert (m_blocks m2 !! n = Some raw_list) as Hn2 by (rewrite Eb2; apply lookup_insert_eq).
      assert (grown (n :: addrs t') (m_blocks m) (m_blocks m2)) as Hgn.
      { apply (grown_perm (addrs t' ++ [n])); [apply Permutation_app_comm|]. eapply grown_app; [exact Hg1 | rewrite Eb2; by apply grown_insert|].
        intros x Hx. by eapply holds_lookup. }
      assert (holds (m_blocks m2) t') as Ht2 by (rewrite Eb2; eapply holds_old; [by apply grown_insert | done]).
      destruct (append_tree b0 (m_blocks m) r None es' n t' m2 _ _ _ Hs Hg Hgn Hn2 Ht2) as (b' & E3 & Hs3 & Hg3).
      apply mm_split in E3 as ([] & m3 & E3 & E4). rewrite (mm_ok _ _ _ _ _ E3), (mm_ok _ _ _ _ _ E4). set (m4 := with_blocks b' m2).
      rewrite (mm_ok _ _ _ _ _ (run_flink e m4 _ _ _ (Elk _ m4 Hg3))).
      destruct (IH fuel l e b0 (ed ++ [(e, t)]) (es' ++ [(n, t')]) r m4) as (ok & m' & pre & rest & est & Er & Hpre & Hc' & Hh' & Hs' & Hok);
        [done | done | done | done | lia | by rewrite <- Herr1 | done | done | |].
      { rewrite prune_entries_app. cbn. rewrite Hft. apply Forall2_app; [done|]. apply Forall2_cons. split; [exact Hcopy | apply Forall2_nil_2]. }
      exists ok, m', pre, rest, est. rewrite <- app_assoc in Hpre. split_and!; [exact Er | exact Hpre | done | | done |].
      * etrans; [exact Hh1|]. etrans; [exact Hh2|]. exact Hh'.
      * destruct ok; [done|]. destruct Hok as (H1 & H2 & H3). split_and!; [done | | done]. apply (rich_trans m m1); [done|]. by apply (rich_trans m1 m2).
    + exists false, m2, ed, ((e, t) :: es), es'. rewrite Eb2. split_and!; [done..| by etrans | | by rewrite <- E2 | by apply (rich_trans m m1) |].
      * eapply seq_held_ext; [|exact Hs]. intros x Hx. apply (old_lookup _ _ _ _ Hg1). by eapply seq_held_lookup.
      * by exists (addrs t').
  - rewrite Herr1, bool_decide_eq_true_2 by done. cbn [negb]. rewrite bool_decide_eq_true_2 by done.
    rewrite <- Eb1 in Hs, Hg. rewrite (mm_ok _ _ _ _ _ (run_flink _ _ _ _ _ (Elk _ _ Hg))).
    destruct (IH fuel l e b0 (ed ++ [(e, t)]) es' r m1) as (ok & m' & pre & rest & est & Er & Hpre & Hc' & Hh' & Hs' & Hok);
      [done | done | done | done | lia | done | done | done | |].
    { rewrite prune_entries_app. cbn. by rewrite Hft, app_nil_r. }
    exists ok, m', pre, rest, est. rewrite <- app_assoc in Hpre. split_and!; [exact Er | exact Hpre | done | by etrans | done |].
    destruct ok; [done|]. destruct Hok as (H1 & H2 & H3). split_and!; [done | by apply (rich_trans m m1) | done].
  - rewrite Herr1, bool_decide_eq_false_2 by done. cbn [negb].
    destruct Hfail as [Hp [lost Hgl]]. exists false, m1, ed, ((e, t) :: es), es'. split_and!; [done..| | done | done |].
    + eapply seq_held_ext; [|exact Hs]. intros x Hx. apply (old_lookup _ _ _ _ Hgl). by eapply seq_held_lookup.
    + exists lost. eapply grown_app; [exact Hg | exact Hgl|]. intros x Hx. by eapply seq_held_lookup.
Qed.
Lemma mark_error_run m : m_errno m = NBT_OK \/ m_errno m = NBT_EMEM -> mark_error m = Some (tt, Memory (m_blocks m) (m_heap m) NBT_EMEM).
Proof. unfold mark_error. destruct m as [b h e]. cbn. by intros [-> | ->]. Qed.

(** What the copying of a payload leaves, up to the cleanup of the node. *)
Definition payload_filtered (p : lpayload) (mk : option addr -> mem_payload) (m : memory) (ret : option addr) (m' : memory) : Prop :=
  same_heap m m' /\
  match ret with
  | Some a => m_errno m' = NBT_OK /\ exists p', mk (Some a) = pointer p' /\ ltag p' = ltag p /\ payload_copy (prune_payload f p) p' /\
      payload_held (m_blocks m') p' /\ grown (payload_addrs p') (m_blocks m) (m_blocks m')
  | None => (m_errno m' = NBT_OK \/ m_errno m' = NBT_EMEM) /\ failed m m'
  end.

Lemma filter_list_run tag l sen es m fuel :
  Forall (fun e => filters e.2) es -> seq_held (m_blocks m) l sen es -> NoDup (l :: entry_addrs es) ->
  Forall (fun e => clonable e.2) es -> (S (S (entries_clone_need es)) <= fuel)%nat -> tag ∈ [TAG_LIST; TAG_COMPOUND] -> m_errno m = NBT_OK ->
  exists ret m', filter_list fuel filter (Some l) m = Some (ret, m') /\ payload_filtered (LSeq tag l sen es) PList m ret m'.
Proof.
  intros IH ([Hl Hc] & _ & He) Hd Hcl Hf Htag Herr. destruct fuel as [|fuel]; [lia|]. cbn [filter_list].
  destruct (checked_malloc_cases raw_list m) as [(r & m1 & E & Hr & Eb & Hh)|(m1 & E & Eb & Hh & Hp)]; rewrite (mm_ok _ _ _ _ _ E);
    apply checked_malloc_errno in E.
  2:{ destruct fuel as [|fuel]; [lia|]. rewrite (mm_ok _ _ _ _ _ (mark_error_run m1 (or_intror E))). eexists None, _. split; [reflexivity|].
      split; [done|]. split; [by right|]. split; [done|]. exists []. cbn. rewrite Eb. apply grown_nil. }
  rewrite (mm_ok _ _ _ _ _ (init_list_run r m1 ltac:(by rewrite Eb, lookup_insert_eq))). set (m2 := with_blocks _ m1).
  assert (l <> r) as Hlr by congruence.
  assert (m_blocks m2 = <[r := BEntry None (Some r) (Some r)]> (m_blocks m)) as Eb2 by (cbn; by rewrite Eb, insert_insert_eq).
  assert (grown [r] (m_blocks m) (m_blocks m2)) as Hg2 by (rewrite Eb2; by apply grown_insert).
  assert (m_blocks m2 !! l = Some (BEntry (fst <$> sen) (Some (first_of es l)) (Some (last_of es l)))) as Hl2 by (by rewrite Eb2, lookup_insert_ne).
  rewrite (mm_ok _ _ _ _ _ (run_flink _ _ _ _ _ Hl2)).
  destruct (filter_entries_run es IH fuel l l (m_blocks m) [] [] r m2) as (ok & m4 & pre & rest & es' & E4 & Hpre & Hc4 & Hh4 & Hs4 & Hok4);
    [done | done | done | done | lia | by rewrite <- Herr | | done | apply Forall2_nil_2 |].
  { split; [split; [rewrite Eb2; apply lookup_insert_eq | done] | done]. }
  rewrite (mm_ok _ _ _ _ _ E4). cbn in Hpre. destruct ok.
  - destruct Hok4 as (-> & Herr4 & Hg4). rewrite app_nil_r in Hpre. subst pre. eexists (Some r), m4. split; [reflexivity|]. split; [by etrans|].
    split; [done|]. exists (LSeq tag r None es'). by split_and!.
  - destruct Hok4 as (Herr4 & Hp4 & lost & Hg4). rewrite (mm_ok _ _ _ _ _ (mark_error_run m4 (or_intror Herr4))). set (m5 := Memory _ _ _).
    pose proof (copies_need _ _ [] Hc4) as Hneed. rewrite app_nil_r in Hneed. pose proof (prune_entries_need f pre).
    assert (entries_clone_need pre <= entries_clone_need es)%nat by (rewrite <- Hpre; apply entries_need_app).
    destruct Hs4 as (Hr4 & Hsen4 & He4).
    rewrite (mm_ok _ _ _ _ _ (free_list_run TAG_LIST r None es' fuel m5 (proj2 (Forall_forall _ _) (fun e _ => tree_free_run e.2)) Hr4 Hsen4 He4
      (proj1 (proj1 (NoDup_app _ _) (gr_nodup _ _ _ Hg4))) ltac:(lia))).
    eexists None, _. split; [reflexivity|]. split; [by etrans|]. split; [by right|]. split; [by apply (rich_trans m m2)|].
    exists lost. by apply grown_drop.
Qed.

(** ** Nodes *)

Lemma fail_run m0 m m' r type name' : begun m0 m r type name' -> same_heap m m' -> m_errno m' = NBT_OK \/ m_errno m' = NBT_EMEM -> failed m m' ->
  exists m4, (_ ← mark_error; drop_node (fst <$> name') (Some r)) m' = Some (None, m4) /\ same_heap m0 m4 /\ m_errno m4 = NBT_EMEM /\ failed m0 m4.
Proof.
  intros Hb Hh He Hf. rewrite (mm_ok _ _ _ _ _ (mark_error_run _ He)).
  destruct (failed_later _ _ _ _ (bg_grown _ _ _ _ _ Hb) (fun x => begun_lookup _ _ _ _ _ x Hb) (bg_heap _ _ _ _ _ Hb) Hf) as [Hp [lost Hg]].
  destruct Hf as [_ [lost' Hg']]. destruct Hb as [Hb1 Hb2 Hb3 Hb4].
  assert (forall x b, m_blocks m !! x = Some b -> m_blocks m' !! x = Some b) as Hold by (intros x b Hx; rewrite (old_lookup _ _ _ _ Hg'); eauto).
  rewrite (drop_node_blocks _ r name' type PUnset); [| by apply Hold | | exact (gr_nodup _ _ _ Hb2)].
  - eexists. split; [reflexivity|]. split_and!; [by etrans | done|]. split; [done|]. exists lost. by apply grown_drop.
  - destruct name' as [[b bs]|]; [|done]. by apply Hold.
Qed.

Lemma filter_finish m0 m m' a r name name' p p' :
  begun m0 m r (ltag p) name' -> name_copy name name' -> ltag p' = ltag p -> payload_copy (prune_payload f p) p' -> payload_held (m_blocks m') p' ->
  grown (payload_addrs p') (m_blocks m) (m_blocks m') -> same_heap m m' -> m_errno m' = NBT_OK -> f (LNode a name p) = true ->
  exists ret m4, finish_copy (ltag p) (fst <$> name') r (pointer p') m' = Some (ret, m4) /\ filtered (LNode a name p) m0 ret m4.
Proof.
  intros Hb Hn Et Hc Hp Hg Hh He Hf. rewrite <- Et in *. destruct (finish_run m0 m m' r name' p' Hb Hp Hg Hh) as (b & E & Ht & Hgt).
  eexists _, _. split; [exact E|]. split; [etrans; [exact (bg_heap _ _ _ _ _ Hb)|]; exact Hh|]. split_and!; [done | done|].
  exists (LNode r name' p'). split_and!; [done | rewrite prune_node; by apply copy_of_node | done | done].
Qed.

Lemma filter_keep_run m0 m a r name name' p mk c :
  begun m0 m r (ltag p) name' -> name_copy name name' -> f (LNode a name p) = true ->
  (exists ret m', c m = Some (ret, m') /\ payload_filtered p mk m ret m') ->
  exists ret m', (x ← c; match x with
                         | None => _ ← mark_error; drop_node (fst <$> name') (Some r)
                         | Some _ => finish_copy (ltag p) (fst <$> name') r (mk x)
                         end) m = Some (ret, m') /\ filtered (LNode a name p) m0 ret m'.
Proof.
  intros Hb Hn Hf (ret & m' & E & Hh & H). rewrite (mm_ok _ _ _ _ _ E). destruct ret as [x|].
  - destruct H as (He & p' & -> & Et & Hc & Hp & Hg). by eapply filter_finish.
  - destruct H as [He Hfail]. destruct (fail_run m0 m m' r (ltag p) name' Hb Hh He Hfail) as (m4 & E4 & Hh4 & He4 & Hf4).
    exists None, m4. split; [exact E4|]. split; [done|]. right. done.
Qed.

Lemma block_filtered good p mk m ret m' (mp : addr -> list (option Z) -> lpayload) :
  block_cloned good m ret m' -> (m_errno m' = match ret with Some _ => NBT_OK | None => m_errno m' end) ->
  m_errno m' = NBT_OK \/ m_errno m' = NBT_EMEM -> prune_payload f p = p ->
  (forall a bs, good bs -> mk (Some a) = pointer (mp a bs) /\ ltag (mp a bs) = ltag p /\ payload_copy p (mp a bs) /\
     payload_addrs (mp a bs) = [a] /\ forall b, b !! a = Some (BBytes bs) -> payload_held b (mp a bs)) ->
  payload_filtered p mk m ret m'.
Proof.
  intros Hb He Ho Ep Hg. destruct (block_payload good p mk m ret m' mp Hb Hg) as [Hh H]. split; [done|]. rewrite Ep.
  destruct ret as [a|]; [done|]. split; [done|]. destruct H as [Hp Eb]. split; [done|]. exists []. rewrite Eb. apply grown_nil.
Qed.
Lemma array_filtered tag data bs len m :
  m_blocks m !! data = Some (BBytes bs) -> tag ∈ [TAG_BYTE_ARRAY; TAG_INT_ARRAY; TAG_LONG_ARRAY] ->
  0 <= len < 2 ^ 31 -> len <= Z.of_nat (length bs) -> m_errno m = NBT_OK ->
  exists ret m', copy_array (Some data) len (if tag =? TAG_INT_ARRAY then len * 4 else len) m = Some (ret, m') /\
    payload_filtered (LArray tag data bs len) (fun x => PArray x len) m ret m'.
Proof.
  intros Hb Htag Hlen Hbs He. destruct (copy_array_run tag data bs len m Hb Hlen Hbs) as (ret & m' & E & Hcl).
  exists ret, m'. split; [done|]. apply copy_array_errno in E.
  eapply (block_filtered _ _ _ _ _ _ (fun x bs' => LArray tag x bs' len)); [exact Hcl| | |done|].
  - destruct ret; congruence.
  - destruct ret; rewrite E; auto.
  - intros x bs' ->. by split_and!.
Qed.

Lemma string_filtered s bs m : m_blocks m !! s = Some (BBytes bs) -> is_Some (c_text bs) -> m_errno m = NBT_OK ->
  exists ret m', nbt_strdup (Some s) m = Some (ret, m') /\ payload_filtered (LString s bs) PString m ret m'.
Proof.
  intros Hb Ht He. destruct (strdup_run s bs m Hb Ht) as (ret & m' & E & Hcl). exists ret, m'. split; [done|]. apply keeps_strdup in E.
  eapply (block_filtered _ _ _ _ _ _ LString); [exact Hcl| | |done|].
  - destruct ret; congruence.
  - left. congruence.
  - intros x bs' ?. by split_and!.
Qed.

Lemma filter_run t : judges filter f -> filters t.
Proof.
  intros judged.
  induction t as [a name p IH] using layout_induct. intros m fuel [Ht Hd] Hc Hf. destruct fuel as [|fuel]; [cbn in Hf; lia|].
  cbn [nbt_filter root]. erewrite mm_ok by reflexivity. cbv beta iota. set (m0 := Memory (m_blocks m) (m_heap m) NBT_OK).
  rewrite (mm_ok (asks _ _) _ (f (LNode a name p)) m0 m0) by (unfold asks; cbn; by rewrite <- (judged _ _ Ht)).
  destruct (f (LNode a name p)) eqn:Hkeep; cbn [negb].
  2:{ exists None, m0. split; [done|]. split; [done|]. by left. }
  pose proof Ht as (Ha & Hn & Hp)%holds_node. rewrite (mm_ok _ _ _ m0 _ (run_load_node _ m0 _ _ _ Ha)).
  destruct (checked_malloc_cases raw_node m0) as [(r & m1 & E & Hr & Eb & Hh)|(m1 & E & Eb & Hh & Hpl)]; rewrite (mm_ok _ _ _ _ _ E);
    apply checked_malloc_errno in E.
  2:{ rewrite (mm_ok _ _ _ _ _ (mark_error_run m1 (or_intror E))). eexists None, _. split; [reflexivity|]. split; [done|]. right.
      split; [done|]. split; [done|]. exists []. cbn. rewrite Eb. apply grown_nil. }
  destruct Hc as [Hcn Hcp].
  destruct (begin_run name m0 m1 r (ltag p) Hn Hcn Hr Eb Hh) as (name' & m2 & E2 & b & E3 & Hb & Hcopy).
  rewrite (mm_ok _ _ _ _ _ E2), (mm_ok _ _ _ _ _ E3). set (m3 := with_blocks b m2) in *. apply keeps_safe_strdup in E2.
  assert (m_errno m3 = NBT_OK) as He3 by (cbn; by rewrite E2, E).
  destruct (bool_decide _ && bool_decide _).
  { destruct (fail_run m0 m3 m3 r (ltag p) name' Hb ltac:(done) (or_introl He3)) as (m4 & E4 & Hh4 & He4 & Hf4).
    - split; [apply (rich_trans m3 m0); [symmetry; exact (bg_heap _ _ _ _ _ Hb) | done]|]. exists []. apply grown_nil.
    - exists None, m4. split; [exact E4|]. split; [done|]. by right. }
  pose proof (holds_old _ _ _ _ (bg_grown _ _ _ _ _ Hb) Ht) as (_ & _ & Hp3)%holds_node.
  match goal with |- exists ret m', ?c = _ /\ _ =>
    change (exists ret m', c = Some (ret, m') /\ filtered (LNode a name p) m0 ret m') end.
  destruct p as [tag v|tag data bs len|s bs|tag l sen es]; cbn [ltag pointer payload_held] in *.
  - assert ((tag =? TAG_STRING) = false /\ (tag =? TAG_BYTE_ARRAY) = false /\ (tag =? TAG_INT_ARRAY) = false /\
      ((tag =? TAG_LIST) || (tag =? TAG_COMPOUND)) = false) as (-> & -> & -> & ->) by (rewrite orb_false_iff; lia).
    apply (filter_finish m0 m3 m3 a r name name' (LValue tag v) (LValue tag v)); try done. apply grown_nil.
  - destruct Hp as [_ Htag], Hcp as (Hlong & Hlen & Hbs).
    pose proof (array_filtered tag data bs len m3 (proj1 Hp3) Htag Hlen Hbs He3) as Hpc.
    assert (tag = TAG_BYTE_ARRAY \/ tag = TAG_INT_ARRAY) as [-> | ->] by (rewrite !elem_of_cons, elem_of_nil in Htag; naive_solver);
      apply (filter_keep_run m0 m3 a r name name' (LArray _ data bs len) (fun x => PArray x len)); eauto.
  - apply (filter_keep_run m0 m3 a r name name' (LString s bs) PString); [done..|]. by apply string_filtered.
  - destruct Hp3 as [Htag Hs]. rewrite clonable_Forall in Hcp. cbn [clone_need] in Hf. fold (entries_clone_need es) in Hf.
    rewrite addrs_node in Hd. cbn [payload_addrs] in Hd. apply NoDup_cons in Hd as [_ Hd]. apply NoDup_app in Hd as (_ & _ & Hd).
    pose proof (filter_list_run tag l sen es m3 fuel IH Hs (seq_addrs_entries _ _ _ Hd) Hcp ltac:(lia) Htag He3) as Hpc.
    rewrite !elem_of_cons, elem_of_nil in Htag.
    destruct Htag as [-> | [-> | []]]; apply (filter_keep_run m0 m3 a r name name' (LSeq _ l sen es) PList); eauto.
Qed.

(** A refused root is answered before anything is allocated. *)
Lemma filter_refused t m fuel :
  judges filter f -> laid (m_blocks m) t -> (clone_need t <= fuel)%nat -> f t = false ->
  nbt_filter fuel filter (Some (root t)) m = Some (None, Memory (m_blocks m) (m_heap m) NBT_OK).
Proof.
  intros Hj [Ht _] Hf Hft. destruct fuel as [|fuel]; [destruct t; cbn in Hf; lia|]. cbn [nbt_filter].
  erewrite mm_ok by reflexivity. cbv beta iota. set (m0 := Memory _ _ _).
  rewrite (mm_ok (asks _ _) _ false m0 m0) by (unfold asks; cbn; by rewrite (Hj _ _ Ht), Hft). done.
Qed.

(** C28. Filtering a tree without arrays of integers or longs never touches what is
    there.  The result is the same tree, in new blocks, without the entries the
    predicate refuses and without the element types that the heads of its lists
    carry; [NULL] with [errno] clear exactly when the predicate refuses the root;
    or [NULL] with [errno] set when the allocator refuses, where blocks may stay
    behind.  When the allocator grants every request only the first two happen. *)
Theorem nbt_filter_spec t m fuel :
  judges filter f -> laid (m_blocks m) t -> clonable t -> only_byte_arrays t -> (clone_need t <= fuel)%nat ->
  exists r m', nbt_filter fuel filter (Some (root t)) m = Some (r, m') /\
    laid (m_blocks m') t /\ (r = None /\ m_errno m' = NBT_OK <-> f t = false) /\ (plentiful (m_heap m) -> m_errno m' = NBT_OK) /\
    match r with
    | Some a => m_errno m' = NBT_OK /\ exists t', a = root t' /\ same_tree (prune f t) t' /\ laid (m_blocks m') t' /\
        without (addrs t') (m_blocks m') = m_blocks m
    | None => (m_errno m' = NBT_OK /\ m_blocks m' = m_blocks m) \/
              (m_errno m' = NBT_EMEM /\ exists lost, without lost (m_blocks m') = m_blocks m)
    end.
Proof.
  intros Hj Hl Hc Hby Hf. destruct (filter_run t Hj m fuel Hl Hc Hf) as (r & m' & E & Hh & H). exists r, m'. split; [done|].
  assert (r = None /\ m_errno m' = NBT_OK <-> f t = false) as Hroot.
  { split.
    - intros [-> He]. destruct H as [[Hft _]|[He' _]]; [done | congruence].
    - intros Hft. rewrite (filter_refused t m fuel Hj Hl Hf Hft) in E. by injection E as <- <-. }
  destruct Hl as [Hold Hd]. destruct r as [a|].
  - destruct H as (Hft & He & t' & -> & Hcp & Ht & Hg). split; [split; [by eapply holds_old | done]|].
    split; [exact Hroot|]. split; [done|]. split; [done|]. exists t'.
    split_and!; [done | by apply copy_same; [apply prune_only_bytes|] | split; [done | by apply Hg] | by apply grown_back].
  - destruct H as [(Hft & He & Eb)|(He & Hp & lost & Hg)].
    + split; [by rewrite Eb|]. split; [exact Hroot|]. split; [done|]. by left.
    + split; [split; [by eapply holds_old | done]|]. split; [exact Hroot|]. split; [done|]. right. split; [done|].
      exists lost. by apply grown_back.
Qed.
End Filter.
