(* ===== verification/NbtMemoryInplace.v ===== *)
(** * Filtering trees in place

    [nbt_filter_inplace] on memory: what the predicate refuses is unlinked and
    freed, everything else stays at its address. *)

From S2P Require Import Prelude Nbt NbtMemory NbtMemorySpec NbtMemoryBuild.

Local Open Scope Z_scope.

#[local] Arguments free : simpl never.

(** ** Unlinking *)

Lemma last_of_app es es' p : last_of (es ++ es') p = last_of es' (last_of es p).
Proof. unfold last_of. rewrite last_app. by destruct (last es'). Qed.

Lemma last_of_cons e es p : last_of (e :: es) p = last_of es e.1.
Proof. exact (last_of_app [e] es p). Qed.

(** The back link of what follows [e]: of the next entry, or of the sentinel. *)
Lemma relink_next m l d F e es p :
  m_blocks m !! l = Some (BEntry d F (Some (last_of es e))) -> chain (m_blocks m) e es l -> NoDup (l :: (fst <$> es)) ->
  exists b, set_blink (Some (first_of es l)) (Some p) m = Some (tt, with_blocks b m) /\
    b !! l = Some (BEntry d F (Some (last_of es p))) /\ chain b p es l /\
    forall x, x <> l -> x ∉ fst <$> es -> b !! x = m_blocks m !! x.
Proof.
  intros Hl Hc Hd. destruct es as [|e0 es]; cbn [first_of chain] in *.
  - eexists. split; [apply (run_set_blink _ _ _ _ _ _ Hl)|]. split_and!; [apply lookup_insert_eq | done|].
    intros x Hx _. by apply lookup_insert_ne.
  - destruct Hc as [He Hc]. cbn in Hd. apply NoDup_cons in Hd as [Hle Hd]. apply NoDup_cons in Hd as [Hee Hd].
    eexists. split; [apply (run_set_blink _ _ _ _ _ _ He)|]. split_and!.
    + rewrite lookup_insert_ne by set_solver. rewrite Hl, !last_of_cons. done.
    + apply lookup_insert_eq.
    + eapply chain_ext; [|exact Hc]. intros e' He'. apply lookup_insert_ne. intros Heq. apply Hee. rewrite Heq. by apply list_elem_of_fmap_2.
    + intros x Hx Hn. apply lookup_insert_ne. set_solver.
Qed.

(** The front link of what precedes [e]. *)
Lemma relink_previous m l d L e ed q :
  m_blocks m !! l = Some (BEntry d (Some (first_of ed e)) L) -> chain (m_blocks m) l ed e -> NoDup (l :: (fst <$> ed)) ->
  exists b, set_flink (Some (last_of ed l)) (Some q) m = Some (tt, with_blocks b m) /\
    b !! l = Some (BEntry d (Some (first_of ed q)) L) /\ chain b l ed q /\
    forall x, x <> l -> x ∉ fst <$> ed -> b !! x = m_blocks m !! x.
Proof.
  intros Hl Hc Hd. destruct ed as [|e0 ed _] using rev_ind.
  - eexists. split; [apply (run_set_flink _ _ _ _ _ _ Hl)|]. split_and!; [apply lookup_insert_eq | done|].
    intros x Hx _. by apply lookup_insert_ne.
  - apply chain_snoc in Hc as [Hc He]. rewrite last_of_snoc. rewrite fmap_app in *. apply NoDup_cons in Hd as [Hle Hd].
    apply NoDup_app in Hd as (_ & Hd & _). cbn in Hle, Hd.
    eexists. split; [apply (run_set_flink _ _ _ _ _ _ He)|]. split_and!.
    + rewrite lookup_insert_ne by set_solver. rewrite Hl, !first_of_app. done.
    + apply chain_snoc. split; [|apply lookup_insert_eq]. eapply chain_ext; [|exact Hc].
      intros e' He'. apply lookup_insert_ne. intros Heq. apply (Hd e'.1); [by apply list_elem_of_fmap_2 | rewrite Heq; left].
    + intros x Hx Hn. apply lookup_insert_ne. cbn in Hn. set_solver.
Qed.

(** [list_del], whatever the entry points at. *)
Lemma list_del_run m l d x e ed es :
  m_blocks m !! e = Some (BEntry x (Some (first_of es l)) (Some (last_of ed l))) ->
  m_blocks m !! l = Some (BEntry d (Some (first_of ed e)) (Some (last_of es e))) ->
  chain (m_blocks m) l ed e -> chain (m_blocks m) e es l -> NoDup (e :: l :: (fst <$> ed ++ es)) ->
  exists b, list_del (Some e) m = Some (tt, with_blocks b m) /\ is_Some (b !! e) /\ ring b l d (ed ++ es) /\
    forall y, y <> e -> y <> l -> y ∉ fst <$> ed ++ es -> b !! y = m_blocks m !! y.
Proof.
  intros He Hl Hed Hes Hd. rewrite fmap_app in Hd. apply NoDup_cons in Hd as [Hel Hd]. apply NoDup_cons in Hd as [Hl' Hd].
  apply NoDup_app in Hd as (Hd1 & Hd2 & Hd3). assert (e <> l /\ e ∉ fst <$> ed /\ e ∉ fst <$> es) as (Hne & He1 & He2) by set_solver.
  assert (NoDup (l :: (fst <$> es)) /\ NoDup (l :: (fst <$> ed))) as [Hn1 Hn2] by (rewrite !NoDup_cons; set_solver).
  unfold list_del. rewrite (mm_ok _ _ _ _ _ (run_flink _ _ _ _ _ He)), (mm_ok _ _ _ _ _ (run_blink _ _ _ _ _ He)).
  destruct (relink_next m l d _ e es (last_of ed l) Hl Hes Hn1) as (b1 & E1 & Hl1 & Hes1 & Hx1).
  rewrite (mm_ok _ _ _ _ _ E1). set (m1 := with_blocks b1 m).
  assert (m_blocks m1 !! e = Some (BEntry x (Some (first_of es l)) (Some (last_of ed l)))) as He'. { cbn. by rewrite Hx1. }
  rewrite (mm_ok _ _ _ _ _ (run_blink _ _ _ _ _ He')), (mm_ok _ _ _ _ _ (run_flink _ _ _ _ _ He')).
  assert (chain b1 l ed e) as Hed1.
  { eapply chain_ext; [|exact Hed]. intros e' Hin. assert (e'.1 ∈ fst <$> ed) by (by apply list_elem_of_fmap_2). apply Hx1; set_solver. }
  destruct (relink_previous m1 l d _ e ed (first_of es l) Hl1 Hed1 Hn2) as (b2 & E2 & Hl2 & Hed2 & Hx2).
  rewrite (mm_ok _ _ _ _ _ E2). set (m2 := with_blocks b2 m1).
  assert (m_blocks m2 !! e = Some (BEntry x (Some (first_of es l)) (Some (last_of ed l)))) as He2'. { cbn. by rewrite Hx2. }
  rewrite (mm_ok _ _ _ _ _ (run_set_flink _ _ _ _ _ _ He2')), (run_set_blink e _ _ _ _ _ (lookup_insert_eq _ _ _)).
  eexists. split; [reflexivity|]. cbn [m_blocks with_blocks]. rewrite insert_insert_eq. split; [rewrite lookup_insert_eq; eauto|].
  assert (forall y, y <> e -> <[e := BEntry x None None]> b2 !! y = b2 !! y) as Hx3 by (intros y Hy; by apply lookup_insert_ne).
  split; [split|].
  - rewrite Hx3 by done. by rewrite first_of_app, last_of_app.
  - apply chain_app. split; (eapply chain_ext; [intros e' Hin; apply Hx3; intros Heq; apply list_elem_of_fmap_2 with (f := fst) in Hin; rewrite Heq in Hin; done|]); [done|].
    eapply chain_ext; [|exact Hes1]. intros e' Hin. apply list_elem_of_fmap_2 with (f := fst) in Hin. apply Hx2; set_solver.
  - intros y H1 H2 H3. rewrite fmap_app in H3. rewrite Hx3, Hx2 by set_solver. apply Hx1; set_solver.
Qed.

(** ** What stays *)

(** The tree without the entries [f] refuses, at the same addresses. *)
Fixpoint trim (f : layout -> bool) (t : layout) : layout :=
  let 'LNode a name p := t in
  LNode a name
    match p with
    | LSeq tag l sen es => LSeq tag l sen (foldr (fun e acc => if f e.2 then (e.1, trim f e.2) :: acc else acc) [] es)
    | _ => p
    end.

Definition trim_entries (f : layout -> bool) (es : list (addr * layout)) : list (addr * layout) :=
  foldr (fun e acc => if f e.2 then (e.1, trim f e.2) :: acc else acc) [] es.

Lemma trim_root f t : root (trim f t) = root t.
Proof. by destruct t. Qed.

Lemma trim_addrs f t : addrs (trim f t) `sublist_of` addrs t.
Proof.
  induction t as [a name p IH] using layout_induct. destruct p as [| | |tag l sen es]; try done.
  cbn. apply sublist_skip, sublist_app; [done|]. apply sublist_skip, sublist_app; [done|].
  cbn in IH. induction IH as [|e es He _ IHe]; [done|]. cbn. destruct (f e.2); cbn.
  - apply sublist_skip, sublist_app; [exact He | exact IHe].
  - apply sublist_cons, sublist_inserts_l, IHe.
Qed.

Lemma trim_entries_addrs f es : entry_addrs (trim_entries f es) `sublist_of` entry_addrs es.
Proof.
  induction es as [|e es IH]; [done|]. cbn [trim_entries foldr]. rewrite entry_addrs_cons. destruct (f e.2).
  - rewrite entry_addrs_cons. cbn [fst snd]. apply sublist_skip, sublist_app; [apply trim_addrs | exact IH].
  - apply sublist_cons, sublist_inserts_l, IH.
Qed.

(** Links do not depend on the trees but for their roots. *)
Lemma chain_roots b p ed e t t' es n : root t' = root t -> chain b p (ed ++ (e, t) :: es) n -> chain b p (ed ++ (e, t') :: es) n.
Proof. rewrite !chain_app. cbn. intros ->. done. Qed.

Lemma ring_roots b l d ed e t t' es : root t' = root t -> ring b l d (ed ++ (e, t) :: es) -> ring b l d (ed ++ (e, t') :: es).
Proof.
  intros Hr [H1 H2]. split; [|by eapply chain_roots]. rewrite H1. by rewrite !first_of_app, !last_of_app, !last_of_cons.
Qed.

Lemma all_held_app b es es' : all_held b (es ++ es') <-> all_held b es /\ all_held b es'.
Proof. rewrite !all_held_Forall. apply Forall_app. Qed.

Lemma all_held_ext b b' es : (forall x, x ∈ entry_addrs es -> b' !! x = b !! x) -> all_held b es -> all_held b' es.
Proof.
  rewrite !all_held_Forall, !Forall_forall. intros Hx H e He. eapply holds_ext; [|by apply H].
  intros x Hin. apply Hx, elem_of_entry_addrs. eauto.
Qed.

(** ** The loop over the entries *)

(** Where the loop stands: [ed] has been kept, [es] is to come. *)
Record walking (b : gmap addr block) (l : addr) (d : option addr) (ed es : list (addr * layout)) : Prop := {
  wk_ring : ring b l d (ed ++ es);
  wk_held : all_held b (ed ++ es);
  wk_apart : NoDup (l :: entry_addrs (ed ++ es)) }.

Lemma ring_heads b b' l d es : (forall x, x ∈ l :: (fst <$> es) -> b' !! x = b !! x) -> ring b l d es -> ring b' l d es.
Proof.
  intros Hx [H1 H2]. split; [rewrite Hx by left; done|]. eapply chain_ext; [|exact H2].
  intros e He. apply Hx. right. by apply list_elem_of_fmap_2.
Qed.

(** The blocks of the entry at hand are those of no other entry. *)
Lemma walking_apart b l d ed e t es : walking b l d ed ((e, t) :: es) ->
  e <> l /\ NoDup (addrs t) /\ (forall x, x ∈ e :: addrs t -> x <> l /\ x ∉ entry_addrs ed /\ x ∉ entry_addrs es) /\ e ∉ addrs t.
Proof.
  intros [_ _ Hd]. rewrite entry_addrs_app, entry_addrs_cons in Hd. cbn [fst snd] in Hd.
  apply NoDup_cons in Hd as [Hl Hd]. apply NoDup_app in Hd as (_ & Hd1 & Hd). apply NoDup_cons in Hd as [He Hd]. apply NoDup_app in Hd as (Ht & Hd2 & _).
  split_and!; [set_solver | done | | set_solver]. intros x Hx. split_and!; [set_solver | intros H; specialize (Hd1 x H); set_solver|].
  apply elem_of_cons in Hx as [->|Hx]; [set_solver | by apply Hd2].
Qed.

Lemma walking_entry b l d ed e t es : walking b l d ed ((e, t) :: es) ->
  b !! e = Some (BEntry (Some (root t)) (Some (first_of es l)) (Some (last_of ed l))) /\ laid b t.
Proof.
  intros Hw. pose proof (walking_apart _ _ _ _ _ _ _ Hw) as (_ & Hd & _). destruct Hw as [[_ Hr] Hh _].
  apply chain_app in Hr as [_ [Hr _]]. apply all_held_app in Hh as [_ [Hh _]]. done.
Qed.

(** The entry is kept, its tree trimmed. *)
Lemma walking_kept f b l d ed e t es b' :
  walking b l d ed ((e, t) :: es) -> holds b' (trim f t) -> (forall x, x ∉ addrs t -> b' !! x = b !! x) ->
  walking b' l d (ed ++ [(e, trim f t)]) es /\ b' !! e = b !! e.
Proof.
  intros Hw Ht Hx. pose proof (walking_apart _ _ _ _ _ _ _ Hw) as (Hl & _ & Ha & He). destruct Hw as [Hr Hh Hd].
  split; [|by apply Hx]. constructor; rewrite <- ?app_assoc; cbn [app].
  - apply (ring_roots _ _ _ _ _ t); [apply trim_root|]. eapply ring_heads; [|exact Hr]. intros x Hin. apply Hx. intros Hxt.
    destruct (seq_addrs_trees l None _ (e, t) x Hd ltac:(set_solver) Hxt) as [H1 H2]. apply elem_of_cons in Hin as [->|Hin]; done.
  - apply all_held_app in Hh as [Hh1 [_ Hh2]]. apply all_held_app. split; [|split; [done|]];
      (eapply all_held_ext; [|eassumption]); intros x Hin; apply Hx; intros Hxt; destruct (Ha x) as (_ & H1 & H2); set_solver.
  - eapply sublist_NoDup; [exact Hd|]. apply sublist_skip. rewrite !entry_addrs_app, !entry_addrs_cons. cbn [fst snd].
    apply sublist_app; [done|]. apply sublist_skip, sublist_app; [apply trim_addrs | done].
Qed.

(** The entry is refused: its tree is gone, the entry is unlinked and freed. *)
Lemma walking_dropped m l d ed e t es :
  walking (m_blocks m) l d ed ((e, t) :: es) ->
  exists b, (_ ← set_data (Some e) None; _ ← list_del (Some e); free (Some e)) (with_blocks (without (addrs t) (m_blocks m)) m) =
      Some (tt, with_blocks b m) /\ walking b l d ed es /\ (forall x, x ∈ e :: addrs t -> b !! x = None) /\
    forall x, x <> l -> x ∉ e :: addrs t -> x ∉ fst <$> ed -> x ∉ fst <$> es -> b !! x = m_blocks m !! x.
Proof.
  intros Hw. pose proof (walking_apart _ _ _ _ _ _ _ Hw) as (Hl & _ & Ha & He). pose proof (walking_entry _ _ _ _ _ _ _ Hw) as [Hlk _].
  destruct Hw as [[Hr Hc] Hh Hd]. set (m1 := with_blocks _ m).
  assert (forall x, x ∉ e :: addrs t -> <[e := BEntry None (Some (first_of es l)) (Some (last_of ed l))]> (m_blocks m1) !! x = m_blocks m !! x) as Hx1.
  { intros x Hx. rewrite lookup_insert_ne by set_solver. cbn. apply without_out. set_solver. }
  assert (m_blocks m1 !! e = Some (BEntry (Some (root t)) (Some (first_of es l)) (Some (last_of ed l)))) as He1. { cbn. by rewrite without_out. }
  rewrite (mm_ok _ _ _ _ _ (run_set_data _ _ _ _ _ _ He1)).
  rewrite first_of_app, last_of_app, last_of_cons in Hr. cbn [first_of fst] in Hr. apply chain_app in Hc as [Hc1 [_ Hc2]]. cbn [fst first_of] in Hc1, Hc2.
  destruct (list_del_run (with_blocks (<[e := BEntry None (Some (first_of es l)) (Some (last_of ed l))]> (m_blocks m1)) m1) l d None e ed es)
    as (b & E & Hb & Hrb & Hxb).
  - apply lookup_insert_eq.
  - cbn. rewrite Hx1; [done|]. intros Hin. by destruct (Ha l Hin).
  - eapply chain_ext; [|exact Hc1]. intros e' Hin. apply Hx1. intros Hin'. destruct (Ha _ Hin') as (_ & H1 & _). apply H1, elem_of_entry_addrs. eauto.
  - eapply chain_ext; [|exact Hc2]. intros e' Hin. apply Hx1. intros Hin'. destruct (Ha _ Hin') as (_ & _ & H1). apply H1, elem_of_entry_addrs. eauto.
  - pose proof (seq_addrs_heads l None _ Hd) as Hn. rewrite fmap_app in Hn |- *. cbn in Hn.
    eapply NoDup_Permutation_proper; [|exact Hn]. rewrite <- Permutation_middle. apply perm_swap.
  - erewrite mm_ok by exact E. rewrite run_mem_free by done. eexists. split; [reflexivity|]. cbn [m_blocks with_blocks] in *.
    assert (forall x, x ∈ e :: addrs t -> x <> l /\ x ∉ fst <$> ed ++ es) as Hfar.
    { intros x Hx. destruct (Ha x Hx) as (H1 & H2 & H3). split; [done|]. rewrite fmap_app, elem_of_app.
      intros [H%entry_heads_in|H%entry_heads_in]; done. }
    split; [|split].
    + constructor.
      * eapply ring_heads; [|exact Hrb]. intros x Hx. apply without_out. intros ->%list_elem_of_singleton.
        destruct (Hfar e) as [H1 H2]; [left|]. apply elem_of_cons in Hx as [->|Hx]; done.
      * apply all_held_Forall, Forall_forall. intros e' Hin. assert (e' ∈ ed ++ (e, t) :: es) as Hin' by set_solver.
        apply all_held_Forall in Hh. rewrite Forall_forall in Hh. eapply holds_ext; [|by apply Hh]. intros x Hx.
        destruct (seq_addrs_trees l None _ e' x Hd Hin' Hx) as [H1 H2]. rewrite fmap_app in H2. cbn in H2.
        assert (x ∉ e :: addrs t) as H3.
        { intros H3. destruct (Ha x H3) as (_ & H4 & H5). apply elem_of_app in Hin as [Hin|Hin]; [apply H4 | apply H5]; apply elem_of_entry_addrs; eauto. }
        rewrite without_out by set_solver. rewrite Hxb by (rewrite ?fmap_app; set_solver). by apply Hx1.
      * eapply sublist_NoDup; [exact Hd|]. apply sublist_skip. rewrite !entry_addrs_app, entry_addrs_cons.
        apply sublist_app; [done|]. apply sublist_cons, sublist_inserts_l. done.
    + intros x [->|Hx]%elem_of_cons; [apply without_in; left|]. rewrite without_out by set_solver.
      destruct (Hfar x) as [H1 H2]; [by right|]. rewrite Hxb by set_solver. rewrite lookup_insert_ne by set_solver. by apply without_in.
    + intros x H1 H2 H3 H4. rewrite without_out by set_solver. rewrite Hxb by (rewrite ?fmap_app; set_solver). by apply Hx1.
Qed.


Lemma walking_next m l d ed es : walking (m_blocks m) l d ed es ->
  exists n, flink (Some (first_of es l)) m = Some (Some n, m) /\ match es with [] => True | _ :: es' => n = first_of es' l end.
Proof.
  intros [[Hl Hc] _ _]. destruct es as [|e es].
  - eexists. split; [exact (run_flink _ _ _ _ _ Hl) | done].
  - apply chain_app in Hc as [_ [Hc _]]. eexists. split; [exact (run_flink _ _ _ _ _ Hc) | done].
Qed.

Section Inplace.
Variable filter : predicate.
Variable f : layout -> bool.

Definition trimmed (t : layout) (b : gmap addr block) (ret : option addr) (b' : gmap addr block) : Prop :=
  if f t then
    ret = Some (root t) /\ holds b' (trim f t) /\
    (forall x, x ∈ addrs t -> x ∉ addrs (trim f t) -> b' !! x = None) /\ (forall x, x ∉ addrs t -> b' !! x = b !! x)
  else ret = None /\ b' = without (addrs t) b.

Definition trims (t : layout) : Prop := forall m fuel,
  laid (m_blocks m) t -> (S (need t) <= fuel)%nat ->
  exists ret b', mem_filter_inplace fuel filter (Some (root t)) m = Some (ret, with_blocks b' m) /\ trimmed t (m_blocks m) ret b'.

Lemma inplace_entries_run es : Forall (fun e => trims e.2) es -> forall fuel l d ed n m,
  walking (m_blocks m) l d ed es -> (S (entries_need es) <= fuel)%nat -> match es with [] => True | _ :: es' => n = first_of es' l end ->
  exists b', inplace_entries fuel filter (Some l) (Some (first_of es l)) (Some n) m = Some (tt, with_blocks b' m) /\
    walking b' l d (ed ++ trim_entries f es) [] /\
    (forall x, x ∈ entry_addrs es -> x ∉ entry_addrs (trim_entries f es) -> b' !! x = None) /\
    (forall x, x <> l -> x ∉ entry_addrs es -> x ∉ fst <$> ed -> b' !! x = m_blocks m !! x).
Proof.
  induction 1 as [|[e t] es IHt _ IH]; intros fuel l d ed n m Hw Hf Hn; (destruct fuel as [|fuel]; [cbn in Hf; lia|]); cbn [inplace_entries first_of fst].
  { rewrite bool_decide_eq_true_2 by done. exists (m_blocks m). cbn. rewrite app_nil_r in *. split_and!; [by destruct m | done | set_solver | done]. }
  subst n. cbn in Hf. fold (entries_need es) in Hf. pose proof (walking_apart _ _ _ _ _ _ _ Hw) as (Hel & _ & Ha & Het).
  pose proof (walking_entry _ _ _ _ _ _ _ Hw) as [Hlk Ht]. cbn [snd] in IHt.
  rewrite bool_decide_eq_false_2 by (by intros [= ->]). rewrite (mm_ok _ _ _ _ _ (run_load_entry _ _ _ _ _ Hlk)).
  destruct (IHt m fuel Ht ltac:(lia)) as (ret & b1 & E1 & H1). rewrite (mm_ok _ _ _ _ _ E1). unfold trimmed in H1.
  cbn [trim_entries foldr snd fst]. fold (trim_entries f es). destruct (f t).
  - destruct H1 as (-> & Hkept & Hgone & Hx1). destruct (walking_kept f _ _ _ _ _ _ _ b1 Hw Hkept Hx1) as [Hw1 He1].
    rewrite <- He1 in Hlk. rewrite (mm_ok _ _ _ _ _ (run_set_data e (with_blocks b1 m) _ _ _ _ Hlk)), bool_decide_eq_false_2 by done.
    cbn [m_blocks with_blocks]. rewrite insert_id by done. erewrite mm_ok by reflexivity.
    destruct (walking_next (with_blocks b1 m) _ _ _ _ Hw1) as (n & En & Hn). rewrite (mm_ok _ _ _ _ _ En).
    destruct (IH fuel l d (ed ++ [(e, trim f t)]) n (with_blocks b1 m) Hw1 ltac:(lia) Hn) as (b' & E' & Hw' & Hg' & Hx'). exists b'.
    rewrite <- app_assoc in Hw'. rewrite fmap_app in Hx'. cbn in Hx'. rewrite !entry_addrs_cons. cbn [fst snd]. split_and!; [exact E' | exact Hw' | |].
    + intros x Hin Hout. destruct (decide (x ∈ entry_addrs es)) as [Hes|Hes]; [apply Hg'; set_solver|].
      assert (x ∈ addrs t) as Hxt by set_solver. destruct (Ha x) as (H1 & H2 & _); [by right|].
      rewrite Hx' by (try done; intros [H3%entry_heads_in|H3]%elem_of_app; set_solver). apply Hgone; set_solver.
    + intros x H1 H2 H3. rewrite Hx' by set_solver. apply Hx1. set_solver.
  - destruct H1 as (-> & ->). destruct (walking_dropped _ _ _ _ _ _ _ Hw) as (b2 & E2 & Hw2 & Hg2 & Hx2).
    apply mm_split in E2 as ([] & m2 & E2 & E3). rewrite (mm_ok _ _ _ _ _ E2), bool_decide_eq_true_2 by done. rewrite (mm_ok _ _ _ _ _ E3).
    destruct (walking_next (with_blocks b2 m) _ _ _ _ Hw2) as (n & En & Hn). rewrite (mm_ok _ _ _ _ _ En).
    destruct (IH fuel l d ed n (with_blocks b2 m) Hw2 ltac:(lia) Hn) as (b' & E' & Hw' & Hg' & Hx'). exists b'.
    rewrite !entry_addrs_cons. cbn [fst snd]. split_and!; [exact E' | exact Hw' | |].
    + intros x Hin Hout. destruct (decide (x ∈ entry_addrs es)) as [Hes|Hes]; [by apply Hg'|].
      assert (x ∈ e :: addrs t) as Hxt by set_solver. destruct (Ha x Hxt) as (H1 & H2 & _).
      rewrite Hx' by (try done; by intros H3%entry_heads_in). by apply Hg2.
    + intros x H1 H2 H3. rewrite Hx' by set_solver. apply Hx2; [done | set_solver | done|]. intros H4%entry_heads_in. set_solver.
Qed.

Lemma whole_run t m : holds (m_blocks m) t -> trim f t = t -> exists ret b', (mret (Some (root t)) : MM (option addr)) m = Some (ret, with_blocks b' m) /\
  ret = Some (root t) /\ holds b' (trim f t) /\
  (forall x, x ∈ addrs t -> x ∉ addrs (trim f t) -> b' !! x = None) /\ (forall x, x ∉ addrs t -> b' !! x = m_blocks m !! x).
Proof. intros Ht E. rewrite E. exists (Some (root t)), (m_blocks m). split_and!; [by destruct m | done..]. Qed.

Lemma inplace_run t : judges filter f -> trims t.
Proof.
  intros Hj. induction t as [a name p IH] using layout_induct. intros m fuel Hl Hf. destruct fuel as [|fuel]; [lia|].
  pose proof Hl as [Ht Hd]. cbn [mem_filter_inplace root]. unfold trimmed.
  rewrite (mm_ok (asks _ _) _ (f (LNode a name p)) m m) by (unfold asks; by rewrite <- (Hj _ _ Ht)).
  destruct (f (LNode a name p)); cbn [negb].
  2:{ change (Some a) with (Some (root (LNode a name p))). rewrite (mm_ok _ _ _ _ _ (tree_free_run (LNode a name p) m fuel Hl ltac:(lia))).
      eexists None, _. done. }
  pose proof Ht as (Ha & Hn & Hp). rewrite (mm_ok _ _ _ _ _ (run_load_node _ _ _ _ _ Ha)).
  destruct p as [tag v|tag data bs len|s bs|tag l sen es]; cbn [ltag pointer] in *.
  - rewrite (proj2 (Z.eqb_neq tag TAG_LIST)), (proj2 (Z.eqb_neq tag TAG_COMPOUND)) by lia. by apply (whole_run (LNode a name (LValue tag v))).
  - assert (tag <> TAG_LIST /\ tag <> TAG_COMPOUND) as [->%Z.eqb_neq ->%Z.eqb_neq].
    { destruct Hp as [_ Hp]. rewrite !elem_of_cons, elem_of_nil in Hp. lia. }
    by apply (whole_run (LNode a name (LArray tag data bs len))).
  - by apply (whole_run (LNode a name (LString s bs))).
  - destruct Hp as (Htag & Hr & Hs & Hh). assert (negb (tag =? TAG_LIST) && negb (tag =? TAG_COMPOUND) = false) as ->.
    { rewrite !elem_of_cons, elem_of_nil in Htag. lia. }
    rewrite addrs_node in Hd. cbn [payload_addrs] in Hd. pose proof Hd as [Had Hd']%NoDup_cons. apply NoDup_app in Hd' as (_ & Hnd & Hds).
    assert (walking (m_blocks m) l (fst <$> sen) [] es) as Hw by (constructor; [done | done | by eapply seq_addrs_entries]).
    rewrite (mm_ok _ _ _ _ _ (run_flink _ _ _ _ _ (proj1 Hr))). destruct (walking_next _ _ _ _ _ Hw) as (n & En & Hnx).
    rewrite (mm_ok _ _ _ _ _ En). cbn in Hf. fold (entries_need es) in Hf.
    destruct (inplace_entries_run es IH fuel l (fst <$> sen) [] n m Hw ltac:(lia) Hnx) as (b' & E & [Hr' Hh' _] & Hg & Hx). rewrite (mm_ok _ _ _ _ _ E).
    eexists _, b'. split; [reflexivity|]. split; [done|]. rewrite app_nil_r in *. cbn in Hr', Hh', Hx.
    apply NoDup_cons in Hds as [Hl1 Hds]. apply NoDup_app in Hds as (_ & Hsd & _).
    assert (forall x, x ∉ l :: entry_addrs es -> b' !! x = m_blocks m !! x) as Hx' by (intros x Hin; apply Hx; set_solver).
    cbn [trim]. fold (trim_entries f es). rewrite !addrs_node. cbn [payload_addrs]. split_and!.
    + cbn. split_and!; [rewrite Hx'; [done | set_solver] | | done | done | | exact Hh'].
      * destruct name as [[b bs]|]; [|done]. cbn in *. rewrite Hx'; [done | set_solver].
      * destruct sen as [[b bs]|]; [|done]. cbn in *. rewrite Hx'; [done | set_solver].
    + intros x Hin Hout. apply Hg; set_solver.
    + intros x Hin. apply Hx'. set_solver.
Qed.

(** C26. Filtering in place frees exactly what the predicate refuses: a refused tree
    is freed whole; a tree that is kept stays where it is, with the refused
    entries unlinked and freed at every depth, and no block outside the tree
    changes. *)
Theorem nbt_filter_inplace_spec t m fuel :
  judges filter f -> laid (m_blocks m) t -> (S (need t) <= fuel)%nat ->
  exists ret m', mem_filter_inplace fuel filter (Some (root t)) m = Some (ret, m') /\
    (forall x, x ∉ addrs t -> m_blocks m' !! x = m_blocks m !! x) /\
    if f t then
      ret = Some (root t) /\ laid (m_blocks m') (trim f t) /\ (forall x, x ∈ addrs t -> (is_Some (m_blocks m' !! x) <-> x ∈ addrs (trim f t)))
    else ret = None /\ (forall x, x ∈ addrs t -> m_blocks m' !! x = None).
Proof.
  intros Hj Hl Hf. destruct (inplace_run t Hj m fuel Hl Hf) as (ret & b' & E & H). eexists ret, _. split; [exact E|]. unfold trimmed in H.
  destruct (f t).
  - destruct H as (-> & Hh & Hg & Hx). split; [done|]. split; [done|]. split.
    + split; [done|]. eapply sublist_NoDup; [apply Hl | apply trim_addrs].
    + intros x Hin. split; [|by apply holds_lookup]. intros [b Hb]. destruct (decide (x ∈ addrs (trim f t))) as [|Hn]; [done|].
      cbn in Hb. by rewrite Hg in Hb.
  - destruct H as [-> ->]. split; [intros x Hx; by apply without_out|]. split; [done|]. intros x Hx. by apply without_in.
Qed.
End Inplace.
