(* ===== verification/NbtMemoryExample.v ===== *)
(** * Trees in memory, by example

    A compound with a byte array, a string, an empty list of integers and a
    number, on which the theorems about freeing, copying and filtering apply; and
    the two trees for which copying and filtering go wrong. *)

From S2P Require Import Prelude Nbt NbtMemory NbtMemorySpec NbtMemoryBuild NbtMemoryCopy NbtMemoryClone NbtMemoryFilter NbtMemoryInplace.

Local Open Scope Z_scope.

(** An allocator: the first address that is not in use. *)
#[local] Instance first_free : Placement := { place used := fresh used; place_fresh used := is_fresh used }.

Definition sample_tree : layout :=
  LNode 0%nat (Some (1%nat, [Some 97; Some 0])) (LSeq TAG_COMPOUND 2%nat None
    [ (3%nat, LNode 4%nat None (LArray TAG_BYTE_ARRAY 5%nat [Some 1; Some 2] 2));
      (6%nat, LNode 7%nat None (LString 8%nat [Some 104; Some 0]));
      (9%nat, LNode 10%nat None (LSeq TAG_LIST 11%nat (Some (12%nat, TAG_INT)) []));
      (13%nat, LNode 14%nat None (LValue TAG_INT 42)) ]).

Definition sample_blocks : gmap addr block := list_to_map
  [ (0, BNode TAG_COMPOUND (Some 1) (PList (Some 2))); (1, BBytes [Some 97; Some 0]%Z);
    (2, BEntry None (Some 3) (Some 13));
    (3, BEntry (Some 4) (Some 6) (Some 2)); (4, BNode TAG_BYTE_ARRAY None (PArray (Some 5) 2%Z)); (5, BBytes [Some 1; Some 2]%Z);
    (6, BEntry (Some 7) (Some 9) (Some 3)); (7, BNode TAG_STRING None (PString (Some 8))); (8, BBytes [Some 104; Some 0]%Z);
    (9, BEntry (Some 10) (Some 13) (Some 6)); (10, BNode TAG_LIST None (PList (Some 11)));
    (11, BEntry (Some 12) (Some 11) (Some 11)); (12, BNode TAG_INT None PUnset);
    (13, BEntry (Some 14) (Some 2) (Some 9)); (14, BNode TAG_INT None (PValue 42%Z)) ]%nat.

Definition sample : memory := Memory sample_blocks ample_heap NBT_OK.

Lemma sample_laid : laid (m_blocks sample) sample_tree.
Proof.
  split; [|apply (bool_decide_unpack _); vm_compute; exact I].
  repeat first [split | reflexivity | left; reflexivity | right; left; reflexivity | vm_compute; intros ?; discriminate].
Qed.

Lemma sample_clonable : clonable sample_tree.
Proof. repeat first [split | exact I | vm_compute; intros ?; discriminate | vm_compute; eexists; reflexivity | lia]. Qed.

Lemma sample_bytes : only_byte_arrays sample_tree.
Proof. by repeat split. Qed.

(** Everything but strings. *)
Definition no_strings (a : addr) (b : gmap addr block) : bool :=
  match b !! a with Some (BNode type _ _) => negb (type =? TAG_STRING) | _ => false end.
Definition not_string (t : layout) : bool := negb (ltag (lpayload_of t) =? TAG_STRING).

Lemma no_strings_judges : judges no_strings not_string.
Proof. intros b [a name p] (Ha & _). unfold no_strings. cbn [root]. by rewrite Ha. Qed.

(** ** Witnesses *)

Lemma nbt_free_frees_witness :
  nbt_free 10 (Some (root sample_tree)) sample =
    Some (tt, with_blocks (without (addrs sample_tree) (m_blocks sample)) sample) /\
  without (addrs sample_tree) (m_blocks sample) = ∅.
Proof. split; [apply (nbt_free_frees sample_tree sample 10 sample_laid); vm_compute; lia | vm_compute; reflexivity]. Defined.

Lemma nbt_clone_spec_witness :
  clonable sample_tree /\
  exists r m', nbt_clone 10 (Some (root sample_tree)) sample = Some (r, m') /\
    match r with
    | Some a => exists t', a = root t' /\ same_tree sample_tree t' /\ laid (m_blocks m') t' /\ laid (m_blocks m') sample_tree /\
        (forall x, x ∈ addrs t' -> m_blocks sample !! x = None) /\ without (addrs t') (m_blocks m') = m_blocks sample
    | None => ~ plentiful (m_heap sample) /\ m_blocks m' = m_blocks sample
    end.
Proof. split; [exact sample_clonable | apply (nbt_clone_spec sample_tree sample 10 sample_laid sample_clonable sample_bytes); vm_compute; lia]. Defined.

Lemma nbt_filter_spec_witness :
  judges no_strings not_string /\
  exists r m', nbt_filter 10 no_strings (Some (root sample_tree)) sample = Some (r, m') /\
    laid (m_blocks m') sample_tree /\ (r = None /\ m_errno m' = NBT_OK <-> not_string sample_tree = false) /\ (plentiful (m_heap sample) -> m_errno m' = NBT_OK) /\
    match r with
    | Some a => m_errno m' = NBT_OK /\ exists t', a = root t' /\ same_tree (prune not_string sample_tree) t' /\ laid (m_blocks m') t' /\
        without (addrs t') (m_blocks m') = m_blocks sample
    | None => (m_errno m' = NBT_OK /\ m_blocks m' = m_blocks sample) \/
              (m_errno m' = NBT_EMEM /\ exists lost, without lost (m_blocks m') = m_blocks sample)
    end.
Proof.
  split; [exact no_strings_judges|].
  apply (nbt_filter_spec no_strings not_string sample_tree sample 10 no_strings_judges sample_laid sample_clonable sample_bytes). vm_compute; lia.
Defined.

Lemma nbt_filter_inplace_spec_witness :
  exists ret m', mem_filter_inplace 10 no_strings (Some (root sample_tree)) sample = Some (ret, m') /\
    (forall x, x ∉ addrs sample_tree -> m_blocks m' !! x = m_blocks sample !! x) /\
    ret = Some (root sample_tree) /\ laid (m_blocks m') (trim not_string sample_tree) /\
    (forall x, x ∈ addrs sample_tree -> (is_Some (m_blocks m' !! x) <-> x ∈ addrs (trim not_string sample_tree))).
Proof. apply (nbt_filter_inplace_spec no_strings not_string sample_tree sample 10 no_strings_judges sample_laid). vm_compute; lia. Defined.

(** In place, the entry of the string and its three blocks are gone. *)
Example sample_trimmed :
  addrs (trim not_string sample_tree) = [0; 1; 2; 3; 4; 5; 9; 10; 11; 12; 13; 14]%nat.
Proof. reflexivity. Qed.

(** ** What goes wrong *)

Definition long_blocks : gmap addr block :=
  list_to_map [(0%nat, BNode TAG_LONG_ARRAY None (PArray (Some 1%nat) 1)); (1%nat, BBytes (replicate 8 (Some 0)))].
Definition long_memory : memory := Memory long_blocks ample_heap NBT_OK.

(** The copy of an array of longs shares the array: freeing the copy is fine,
    freeing the tree then frees the array again. *)
Example long_array_freed_twice :
  is_Some ((c ← nbt_clone 5 (Some 0%nat); nbt_free 5 c) long_memory) /\
  (c ← nbt_clone 5 (Some 0%nat); _ ← nbt_free 5 c; nbt_free 5 (Some 0%nat)) long_memory = None.
Proof. split; [vm_compute; eexists; reflexivity | vm_compute; reflexivity]. Qed.

(** Of an array of four integers the copy has the first. *)
Definition int_memory : memory := Memory
  (list_to_map [(0%nat, BNode TAG_INT_ARRAY None (PArray (Some 1%nat) 4)); (1%nat, BBytes (Some <$> [1;0;0;0; 2;0;0;0; 3;0;0;0; 4;0;0;0]))]) ample_heap NBT_OK.

Example int_array_quarter :
  (c ← nbt_clone 5 (Some 0%nat); '(_, _, p) ← load_node c; match p with PArray data _ => load_bytes data | _ => undefined end) int_memory
    ≫= (fun r => Some r.1) = Some ((Some <$> [1; 0; 0; 0]) ++ replicate 12 None).
Proof. vm_compute. reflexivity. Qed.

(** A filtered copy that fails for want of an entry loses the node it was made
    for: the tree [0 .. 3], of which the fourth request fails. *)
Definition short_memory : memory := Memory
  (list_to_map [(0, BNode TAG_COMPOUND None (PList (Some 1))); (1, BEntry None (Some 2) (Some 2));
                (2, BEntry (Some 3) (Some 1) (Some 1)); (3, BNode TAG_INT None (PValue 7%Z))]%nat) (Heap (fun n => (n <? 3)%nat) 0) NBT_OK.

Example filter_loses_a_node :
  (r ← nbt_filter 8 no_strings (Some 0%nat); mret r) short_memory ≫= (fun x => Some (x.1, m_errno x.2, size (m_blocks x.2))) =
    Some (None, NBT_EMEM, 5%nat) /\ size (m_blocks short_memory) = 4%nat.
Proof. split; vm_compute; reflexivity. Qed.
