(* ===== verification/NbtFile.v ===== *)
(** * NBT files

    [src/cNBT/nbt_loading.c]: compressed NBT trees in files.  zlib and the
    C library's streams are parameters: a zlib stream is driven call by call
    as in the source, a [FILE] answers each call from an oracle. *)

From S2P Require Import Prelude Buffer Nbt NbtSpec.

Local Open Scope Z_scope.

Definition CHUNK_SIZE : Z := 4096.

Inductive nbt_compression_strategy := STRAT_GZIP | STRAT_INFLATE.

(** ** zlib *)

Inductive zret :=
  Z_OK | Z_STREAM_END | Z_NEED_DICT | Z_STREAM_ERROR | Z_DATA_ERROR | Z_MEM_ERROR | Z_BUF_ERROR.

#[export] Instance zret_eq_dec : EqDecision zret.
Proof. solve_decision. Defined.

(** A call with [avail] bytes of room answers a return code, the bytes it put
    into that room, and the stream after it. *)
Class Zlib := {
  z_stream : Type;
  deflateInit2 : list Z -> Z -> option z_stream;        (* input, windowBits *)
  deflate_finish : z_stream -> Z -> zret * list Z * z_stream;
  inflateInit2 : list Z -> Z -> option z_stream;
  inflate : z_stream -> Z -> zret * list Z * z_stream }.

(** ** Streams of the C library *)

(** [f_read k] and [f_write k] answer the k-th call: [None] is an error
    ([ferror]); a write answers how many of the bytes it took. *)
Record file := File {
  f_contents : list Z;
  f_read_ok : nat -> bool;
  f_write : nat -> nat -> option nat;
  f_calls : nat }.

(** [fread(_, 1, n, fp)]: the bytes, [feof], or [None] on an error. *)
Definition fread (n : nat) (fp : file) : option (list Z * bool) * file :=
  let fp' := File (drop n (f_contents fp)) (f_read_ok fp) (f_write fp) (S (f_calls fp)) in
  if f_read_ok fp (f_calls fp)
  then (Some (take n (f_contents fp), (length (f_contents fp) <? n)%nat), fp')
  else (None, fp').

(** [fwrite(data, 1, |data|, fp)] at the end of the file. *)
Definition fwrite (data : list Z) (fp : file) : option nat * file :=
  match f_write fp (f_calls fp) (length data) with
  | Some k => (Some k, File (f_contents fp ++ take k data) (f_read_ok fp) (f_write fp) (S (f_calls fp)))
  | None => (None, File (f_contents fp) (f_read_ok fp) (f_write fp) (S (f_calls fp)))
  end.

(** ** Loading and saving *)

(** The two ways a loop of this file ends, with [errno]; the outer [None] is
    the model's bound on the number of rounds. *)
Abbreviation io_result A := (option ((A + nbt_status) * heap)).

(** [reserve_chunk]: [buffer_reserve(&ret, ret.len + CHUNK_SIZE)]. *)
Definition reserve_chunk (ret : buffer) (h : heap) : option (bool * buffer * heap) :=
  '(r, ret', h') ← buffer_reserve ret (u64 (b_len ret + CHUNK_SIZE)) h;
  Some (r =? 0, ret', h').

Definition add_bytes (ret : buffer) (bs : list Z) : buffer :=
  Buffer (Some (b_bytes ret ++ bs)) (b_cap ret).

Fixpoint read_file (fuel : nat) (ret : buffer) (fp : file) (h : heap) : io_result buffer :=
  match fuel with
  | O => None
  | S fuel' =>
      '(ok, ret1, h1) ← reserve_chunk ret h;
      if negb ok then Some (inr NBT_EMEM, h1)
      else
        match fread (Z.to_nat CHUNK_SIZE) fp with
        | (None, _) => Some (inr NBT_EIO, h1)
        | (Some (bs, eof), fp1) =>
            let ret2 := add_bytes ret1 bs in
            if eof then Some (inl ret2, h1) else read_file fuel' ret2 fp1 h1
        end
  end.

Fixpoint write_file (fuel : nat) (fp : file) (data : list Z) : option (nbt_status * file) :=
  match fuel with
  | O => None
  | S fuel' =>
      match fwrite data fp with
      | (None, fp1) => Some (NBT_EIO, fp1)
      | (Some k, fp1) =>
          let left := drop k data in
          if (0 <? length left)%nat then write_file fuel' fp1 left else Some (NBT_OK, fp1)
      end
  end.

Section Compression.
Context {zl : Zlib}.

Fixpoint compress_loop (fuel : nat) (stream : z_stream) (ret : buffer) (h : heap) : io_result buffer :=
  match fuel with
  | O => None
  | S fuel' =>
      '(ok, ret1, h1) ← reserve_chunk ret h;
      if negb ok then Some (inr NBT_EMEM, h1)
      else
        let '(r, bs, stream1) := deflate_finish stream CHUNK_SIZE in
        if decide (r = Z_STREAM_ERROR) then Some (inr NBT_EZ, h1)
        else
          let ret2 := add_bytes ret1 bs in
          let avail_out := CHUNK_SIZE - Z.of_nat (length bs) in
          if avail_out =? 0 then compress_loop fuel' stream1 ret2 h1 else Some (inl ret2, h1)
  end.

Definition compress (fuel : nat) (mem : list Z) (strat : nbt_compression_strategy) (h : heap) :
    io_result buffer :=
  let windowbits := match strat with STRAT_GZIP => 15 + 16 | STRAT_INFLATE => 15 end in
  match deflateInit2 mem windowbits with
  | None => Some (inr NBT_EZ, h)
  | Some stream => compress_loop fuel stream BUFFER_INIT h
  end.

Fixpoint decompress_loop (fuel : nat) (stream : z_stream) (ret : buffer) (h : heap) : io_result buffer :=
  match fuel with
  | O => None
  | S fuel' =>
      '(ok, ret1, h1) ← reserve_chunk ret h;
      if negb ok then Some (inr NBT_EMEM, h1)
      else
        let '(zlib_ret, bs, stream1) := inflate stream CHUNK_SIZE in
        match zlib_ret with
        | Z_MEM_ERROR => Some (inr NBT_EMEM, h1)
        | Z_DATA_ERROR | Z_NEED_DICT => Some (inr NBT_EZ, h1)
        | _ =>
            let ret2 := add_bytes ret1 bs in
            let avail_out := CHUNK_SIZE - Z.of_nat (length bs) in
            if avail_out =? 0 then decompress_loop fuel' stream1 ret2 h1
            else if decide (zlib_ret = Z_STREAM_END) then Some (inl ret2, h1) else Some (inr NBT_EZ, h1)
        end
  end.

Definition decompress (fuel : nat) (mem : list Z) (h : heap) : io_result buffer :=
  match inflateInit2 mem (15 + 32) with
  | None => Some (inr NBT_EZ, h)
  | Some stream => decompress_loop fuel stream BUFFER_INIT h
  end.

Context {bo : ByteOrder}.

Definition nbt_parse_compressed (fuel : nat) (chunk : list Z) (h : heap) : io_result nbt_node :=
  '(r, h1) ← decompress fuel chunk h;
  match r with
  | inr e => Some (inr e, h1)
  | inl decompressed =>
      match nbt_parse (b_bytes decompressed) h1 with
      | POk n st => Some (inl n, ps_heap st)
      | PFail st => Some (inr (ps_errno st), ps_heap st)
      | PCrash => None
      | NoFuel => None
      end
  end.

Definition nbt_parse_file (fuel : nat) (fp : file) (h : heap) : io_result nbt_node :=
  '(r, h1) ← read_file fuel BUFFER_INIT fp h;
  match r with
  | inr e => Some (inr e, h1)
  | inl compressed => nbt_parse_compressed fuel (b_bytes compressed) h1
  end.

(** [fopen] answers [None] when the file cannot be opened. *)
Definition nbt_parse_path (fuel : nat) (fopen : option file) (h : heap) : io_result nbt_node :=
  match fopen with
  | None => Some (inr NBT_EIO, h)
  | Some fp => nbt_parse_file fuel fp h
  end.

Definition nbt_dump_compressed (fuel : nat) (tree : option nbt_node) (strat : nbt_compression_strategy)
    (h : heap) : io_result buffer :=
  '(status, (uncompressed, h1)) ← nbt_dump_binary tree h;
  match b_data uncompressed with
  | None => Some (inr status, h1)
  | Some bytes => compress fuel bytes strat h1
  end.

Definition nbt_dump_file (fuel : nat) (tree : option nbt_node) (fp : file)
    (strat : nbt_compression_strategy) (h : heap) : option (nbt_status * file * heap) :=
  '(r, h1) ← nbt_dump_compressed fuel tree strat h;
  match r with
  | inr e => Some (e, fp, h1)
  | inl compressed =>
      '(status, fp1) ← write_file fuel fp (b_bytes compressed);
      Some (status, fp1, h1)
  end.
End Compression.
