(* ===== verification/NbtFileProps.v ===== *)
(** * What NBT files promise

    With zlib behaving as documented, a tree written to a file is read back;
    and what happens to a tree that cannot be written completely. *)

From S2P Require Import Prelude Buffer Nbt NbtSpec NbtFile.

Local Open Scope Z_scope.

(** ** The documented behaviour of zlib

    A stream can be refused (for want of memory, say).  [deflate] with [Z_FINISH] delivers the compressed form of the input, as
    much per call as there is room for; [inflate] of a compressed form
    delivers the input, and reports the end of the stream at the latest in the
    call that does not fill its room. *)
Class ZlibLaws {zl : Zlib} := {
  deflated : Z -> list Z -> list Z;
  pending : z_stream -> list Z;
  inflating : z_stream -> Prop;
  deflate_init_law data w s : deflateInit2 data w = Some s -> pending s = deflated w data;
  deflate_law s (avail : nat) : (0 < avail)%nat ->
    exists r s', deflate_finish s (Z.of_nat avail) = (r, take avail (pending s), s') /\
                 r <> Z_STREAM_ERROR /\ pending s' = drop avail (pending s);
  inflate_init_law data w s : w = 15 \/ w = 31 -> inflateInit2 (deflated w data) 47 = Some s -> pending s = data /\ inflating s;
  inflate_law s (avail : nat) : (0 < avail)%nat -> inflating s ->
    exists r s', inflate s (Z.of_nat avail) = (r, take avail (pending s), s') /\
                 (r = Z_OK \/ r = Z_STREAM_END) /\ pending s' = drop avail (pending s) /\ inflating s' /\
                 ((length (pending s) < avail)%nat -> r = Z_STREAM_END) }.

(** Streams are not refused; [-15] is a raw stream. *)
Class ZlibReady {zl : Zlib} : Prop := {
  deflate_ready data w : w = 15 \/ w = 31 \/ w = -15 -> is_Some (deflateInit2 data w);
  inflate_ready data : is_Some (inflateInit2 data 47) }.
Arguments ZlibReady : clear implicits.

(** A stand-in that meets the laws: the compressed form is the input. *)
Definition plain_zlib : Zlib :=
  {| z_stream := list Z;
     deflateInit2 data _ := Some data;
     deflate_finish s avail :=
       (if (length s <=? Z.to_nat avail)%nat then Z_STREAM_END else Z_OK,
        take (Z.to_nat avail) s, drop (Z.to_nat avail) s);
     inflateInit2 data _ := Some data;
     inflate s avail :=
       (if (length s <? Z.to_nat avail)%nat then Z_STREAM_END else Z_OK,
        take (Z.to_nat avail) s, drop (Z.to_nat avail) s) |}.

#[export] Instance plain_zlib_laws : @ZlibLaws plain_zlib.
Proof.
  refine (@Build_ZlibLaws plain_zlib (fun _ d => d) (fun s => s) (fun _ => True) _ _ _ _); cbn -[Nat.ltb].
  - by intros data w s [= ->].
  - intros s avail _. rewrite Nat2Z.id. do 2 eexists. split; [reflexivity|]. by destruct (_ <=? _)%nat.
  - by intros data w s _ [= ->].
  - intros s avail Ha _. rewrite Nat2Z.id. do 2 eexists. split; [reflexivity|].
    destruct (Nat.ltb_spec (length s) avail); split_and!; auto; intros; lia.
Defined.

#[export] Instance plain_zlib_ready : ZlibReady plain_zlib.
Proof. split; by eexists. Qed.

(** ** Chunks *)

Definition chunk_room : nat := Z.to_nat CHUNK_SIZE.

(** A reserve makes room for a chunk. *)
Lemma reserve_chunk_ample ret h :
  buffer_ok ret -> cap_pow2 ret -> b_len ret + 4096 <= 2 ^ 63 -> plentiful h ->
  exists ret1 h1, reserve_chunk ret h = Some (true, ret1, h1) /\ plentiful h1 /\
    forall bs, (length bs <= chunk_room)%nat ->
      b_bytes (add_bytes ret1 bs) = b_bytes ret ++ bs /\
      buffer_ok (add_bytes ret1 bs) /\ cap_pow2 (add_bytes ret1 bs).
Proof.
  intros Hok Hp Hl Hh. unfold reserve_chunk, CHUNK_SIZE.
  rewrite wrapu_small by (unfold b_len in *; split; [lia | change (2 ^ 64) with (2 * 2 ^ 63); lia]).
  destruct (buffer_reserve_ample ret _ h Hok Hp Hl Hh) as (b & h' & E & Ed & Hcap & Hok' & Hp' & Hh').
  rewrite E. cbn. exists b, h'. split_and!; [done | done |]. intros bs Hbs.
  assert (length bs <= 4096)%nat by exact Hbs. unfold add_bytes. assert (b_bytes b = b_bytes ret) as ->
    by (unfold b_bytes at 1; by rewrite Ed).
  destruct (store_ok b (b_bytes ret) bs Hok' Hp' Ed) as [? ?]; [unfold b_len in *; lia|]. done.
Qed.

Lemma chunk_fits (l : list Z) : (length (take chunk_room l) <= chunk_room)%nat.
Proof. rewrite length_take. lia. Qed.

(** Whether a chunk was filled, and what is left after it. *)
Lemma chunk_filled (l : list Z) :
  (CHUNK_SIZE - Z.of_nat (length (take chunk_room l)) =? 0) = negb (length l <? chunk_room)%nat.
Proof.
  rewrite length_take. unfold chunk_room, CHUNK_SIZE. change (Z.to_nat 4096) with 4096%nat.
  destruct (Nat.ltb_spec (length l) 4096); cbn [negb]; [apply Z.eqb_neq | apply Z.eqb_eq]; lia.
Qed.

Section Files.
Context {zl : Zlib} {laws : ZlibLaws} {ready : ZlibReady zl} {bo : ByteOrder}.

(** Enough rounds for [n] bytes. *)
Definition rounds_for (fuel n : nat) : Prop := (n < fuel * 4096)%nat.

Lemma rounds_step fuel (l : list Z) :
  rounds_for (S fuel) (length l) -> (chunk_room <= length l)%nat -> rounds_for fuel (length (drop chunk_room l)).
Proof. unfold rounds_for, chunk_room, CHUNK_SIZE. rewrite length_drop. lia. Qed.

(** What the four chunked loops achieve: they end with the data appended. *)
Definition delivers (r : option ((buffer + nbt_status) * heap)) (ret : buffer) (data : list Z) : Prop :=
  exists ret' h', r = Some (inl ret', h') /\ b_bytes ret' = b_bytes ret ++ data /\ plentiful h'.

Lemma compress_loop_delivers fuel s ret h :
  rounds_for fuel (length (pending s)) -> buffer_ok ret -> cap_pow2 ret -> plentiful h ->
  b_len ret + Z.of_nat (length (pending s)) + 4096 <= 2 ^ 63 ->
  delivers (compress_loop fuel s ret h) ret (pending s).
Proof.
  revert s ret h. induction fuel as [|fuel IH]; intros s ret h Hf Hok Hp Hh Hl; [unfold rounds_for in Hf; lia|].
  cbn [compress_loop]. destruct (reserve_chunk_ample ret h) as (ret1 & h1 & -> & Hh1 & Hadd); [done | done | lia | done |].
  cbn [mbind option_bind negb]. destruct (deflate_law s chunk_room) as (r & s' & E & Hr & Hs'); [unfold chunk_room, CHUNK_SIZE; lia|].
  change CHUNK_SIZE with (Z.of_nat chunk_room) at 1. rewrite E. destruct (decide (r = Z_STREAM_ERROR)); [done|].
  destruct (Hadd (take chunk_room (pending s)) (chunk_fits _)) as (Eb & Hok2 & Hp2). rewrite chunk_filled.
  destruct (Nat.ltb_spec (length (pending s)) chunk_room) as [Hlast|Hmore]; cbn [negb].
  - do 2 eexists. split; [reflexivity|]. split; [|done]. by rewrite Eb, take_ge by lia.
  - destruct (IH s' (add_bytes ret1 (take chunk_room (pending s))) h1) as (ret' & h' & E' & Eb' & Hh'); try done.
    { rewrite Hs'. by apply rounds_step. }
    { rewrite Hs'. unfold b_len in *. rewrite Eb, length_app, length_take, length_drop. lia. }
    exists ret', h'. split_and!; [done | | done]. by rewrite Eb', Eb, Hs', <- app_assoc, take_drop.
Qed.

Lemma decompress_loop_delivers fuel s ret h :
  rounds_for fuel (length (pending s)) -> inflating s -> buffer_ok ret -> cap_pow2 ret -> plentiful h ->
  b_len ret + Z.of_nat (length (pending s)) + 4096 <= 2 ^ 63 ->
  delivers (decompress_loop fuel s ret h) ret (pending s).
Proof.
  revert s ret h. induction fuel as [|fuel IH]; intros s ret h Hf Hi Hok Hp Hh Hl; [unfold rounds_for in Hf; lia|].
  cbn [decompress_loop]. destruct (reserve_chunk_ample ret h) as (ret1 & h1 & -> & Hh1 & Hadd); [done | done | lia | done |].
  cbn [mbind option_bind negb]. destruct (inflate_law s chunk_room) as (r & s' & E & Hr & Hs' & Hi' & Hend);
    [unfold chunk_room, CHUNK_SIZE; lia | done |].
  change (inflate s CHUNK_SIZE) with (inflate s (Z.of_nat chunk_room)). rewrite E.
  destruct (Hadd (take chunk_room (pending s)) (chunk_fits _)) as (Eb & Hok2 & Hp2). rewrite chunk_filled.
  destruct (Nat.ltb_spec (length (pending s)) chunk_room) as [Hlast|Hmore]; cbn [negb].
  - rewrite (Hend Hlast). do 2 eexists. split; [reflexivity|]. split; [|done]. by rewrite Eb, take_ge by lia.
  - destruct (IH s' (add_bytes ret1 (take chunk_room (pending s))) h1) as (ret' & h' & E' & Eb' & Hh'); try done.
    { rewrite Hs'. by apply rounds_step. }
    { rewrite Hs'. unfold b_len in *. rewrite Eb, length_app, length_take, length_drop. lia. }
    exists ret', h'. split_and!; [by destruct Hr as [-> | ->] | | done].
    by rewrite Eb', Eb, Hs', <- app_assoc, take_drop.
Qed.

Lemma read_file_delivers fuel ret fp h :
  rounds_for fuel (length (f_contents fp)) -> (forall k, f_read_ok fp k = true) ->
  buffer_ok ret -> cap_pow2 ret -> plentiful h ->
  b_len ret + Z.of_nat (length (f_contents fp)) + 4096 <= 2 ^ 63 ->
  delivers (read_file fuel ret fp h) ret (f_contents fp).
Proof.
  revert ret fp h. induction fuel as [|fuel IH]; intros ret fp h Hf Hrd Hok Hp Hh Hl; [unfold rounds_for in Hf; lia|].
  cbn [read_file]. destruct (reserve_chunk_ample ret h) as (ret1 & h1 & -> & Hh1 & Hadd); [done | done | lia | done |].
  cbn [mbind option_bind negb]. unfold fread. fold chunk_room. rewrite Hrd.
  destruct (Hadd (take chunk_room (f_contents fp)) (chunk_fits _)) as (Eb & Hok2 & Hp2).
  destruct (Nat.ltb_spec (length (f_contents fp)) chunk_room) as [Hlast|Hmore].
  - do 2 eexists. split; [reflexivity|]. split; [|done]. by rewrite Eb, take_ge by lia.
  - destruct (IH (add_bytes ret1 (take chunk_room (f_contents fp)))
      (File (drop chunk_room (f_contents fp)) (f_read_ok fp) (f_write fp) (S (f_calls fp))) h1)
      as (ret' & h' & E' & Eb' & Hh'); try done.
    { by apply rounds_step. }
    { cbn [f_contents]. unfold b_len in *. rewrite Eb, length_app, length_take, length_drop. lia. }
    exists ret', h'. split_and!; [done | | done]. cbn [f_contents] in Eb'. by rewrite Eb', Eb, <- app_assoc, take_drop.
Qed.

(** The [windowBits] a strategy selects. *)
Definition window (strat : nbt_compression_strategy) : Z :=
  match strat with STRAT_GZIP => 31 | STRAT_INFLATE => 15 end.

(** [nbt_dump_file] fills an empty file with the compressed encoding. *)
Lemma dump_file_delivers n fuel fp h strat :
  node_wf true n -> plentiful h -> rounds_for fuel (length (deflated (window strat) (encode n true))) ->
  Z.of_nat (length (encode n true)) + 4096 <= 2 ^ 63 ->
  Z.of_nat (length (deflated (window strat) (encode n true))) + 4096 <= 2 ^ 63 ->
  f_contents fp = [] -> (forall k m, f_write fp k m = Some m) ->
  exists h', nbt_dump_file fuel (Some n) fp strat h
    = Some (NBT_OK, File (deflated (window strat) (encode n true)) (f_read_ok fp) (f_write fp) (S (f_calls fp)), h').
Proof using All.
  set (w := window strat). intros Hwf Hh Hf Hs1 Hs2 He Hwr.
  destruct (dump_writes n true true Hwf BUFFER_INIT h) as (b & ha & E & Eb & _ & _ & Hha); [done | done | change (b_len BUFFER_INIT) with 0; lia | done |].
  cbn in Eb.
  assert (b_data b = Some (encode n true)) as Ed.
  { unfold b_bytes in Eb. destruct (b_data b); cbn in Eb; [by rewrite <- Eb|]. by destruct n as [[|] ?]. }
  destruct (deflate_ready (encode n true) w) as [s Ei]; [subst w; destruct strat; cbn; auto|].
  pose proof (deflate_init_law _ _ _ Ei) as Hpend.
  destruct (compress_loop_delivers fuel s BUFFER_INIT ha) as (c & hb & Ec & Ecb & _); try (rewrite Hpend); try done;
    try (change (b_len BUFFER_INIT) with 0; lia).
  rewrite Hpend in Ecb. cbn in Ecb. exists hb.
  assert (fuel <> 0)%nat by (unfold rounds_for in Hf; lia). destruct fuel as [|fuel]; [done|].
  unfold nbt_dump_file, nbt_dump_compressed, nbt_dump_binary. rewrite E. cbn [mbind option_bind]. rewrite Ed.
  unfold compress. replace (match strat with STRAT_GZIP => 15 + 16 | STRAT_INFLATE => 15 end) with w by (by destruct strat).
  rewrite Ei, Ec. cbn [mbind option_bind]. rewrite Ecb. cbn [write_file]. unfold fwrite. rewrite Hwr, He.
  by rewrite drop_all, firstn_all.
Qed.

(** [nbt_parse_file] reads the compressed encoding back. *)
Lemma parse_file_reads n fuel fp h strat :
  node_wf true n -> plentiful h -> rounds_for fuel (length (encode n true)) ->
  rounds_for fuel (length (f_contents fp)) ->
  Z.of_nat (length (encode n true)) + 4096 <= 2 ^ 63 ->
  Z.of_nat (length (f_contents fp)) + 4096 <= 2 ^ 63 ->
  f_contents fp = deflated (window strat) (encode n true) -> (forall k, f_read_ok fp k = true) ->
  exists h', nbt_parse_file fuel fp h = Some (inl n, h') /\ plentiful h'.
Proof using All.
  intros Hwf Hh Hf1 Hf2 Hs1 Hs2 He Hrd.
  destruct (read_file_delivers fuel BUFFER_INIT fp h) as (c & hc & Er & Erb & Hhc); try done;
    try (change (b_len BUFFER_INIT) with 0; lia).
  destruct (inflate_ready (deflated (window strat) (encode n true))) as [s Ei].
  destruct (inflate_init_law (encode n true) (window strat) s) as [Hp Hinf]; [destruct strat; auto | exact Ei |].
  destruct (decompress_loop_delivers fuel s BUFFER_INIT hc) as (d & hd & Edc & Edb & Hhd); try (rewrite Hp); try done;
    try (change (b_len BUFFER_INIT) with 0; lia).
  rewrite Hp in Edb. cbn in Edb, Erb.
  destruct (nbt_reads n hd Hwf Hhd) as (he & Ep & Hhe).
  exists he. split; [|done]. unfold nbt_parse_file. rewrite Er. cbn [mbind option_bind]. rewrite Erb, He.
  unfold nbt_parse_compressed, decompress. change (15 + 32) with 47. rewrite Ei, Edc. cbn [mbind option_bind].
  by rewrite Edb, Ep.
Qed.

(** File round trip: with zlib as documented, enough memory and a disk
    that takes what it is given, a representable tree is written to an empty
    file and read back from it unchanged.  [fuel] bounds the number of 4096
    byte chunks and only has to cover the data. *)
Theorem nbt_file_roundtrip n fuel fp h1 h2 strat :
  node_wf true n -> plentiful h1 -> plentiful h2 ->
  rounds_for fuel (length (encode n true)) -> rounds_for fuel (length (deflated (window strat) (encode n true))) ->
  Z.of_nat (length (encode n true)) + 4096 <= 2 ^ 63 ->
  Z.of_nat (length (deflated (window strat) (encode n true))) + 4096 <= 2 ^ 63 ->
  f_contents fp = [] -> (forall k, f_read_ok fp k = true) -> (forall k m, f_write fp k m = Some m) ->
  exists fp' h1' h2',
    nbt_dump_file fuel (Some n) fp strat h1 = Some (NBT_OK, fp', h1') /\
    nbt_parse_file fuel fp' h2 = Some (inl n, h2').
Proof using All.
  intros. destruct (dump_file_delivers n fuel fp h1 strat) as (h1' & E1); try done.
  destruct (parse_file_reads n fuel (File (deflated (window strat) (encode n true)) (f_read_ok fp) (f_write fp) (S (f_calls fp))) h2 strat)
    as (h2' & E2 & _); try done.
  by exists (File (deflated (window strat) (encode n true)) (f_read_ok fp) (f_write fp) (S (f_calls fp))), h1', h2'.
Qed.
End Files.

Lemma nbt_file_roundtrip_witness :
  exists fp' h1' h2',
    @nbt_dump_file plain_zlib true 1 (Some sample_tree) (File [] (fun _ => true) (fun _ m => Some m) 0) STRAT_GZIP ample_heap
      = Some (NBT_OK, fp', h1') /\
    @nbt_parse_file plain_zlib true 1 fp' ample_heap = Some (inl sample_tree, h2').
Proof.
  apply (@nbt_file_roundtrip plain_zlib plain_zlib_laws plain_zlib_ready true sample_tree 1
    (File [] (fun _ => true) (fun _ m => Some m) 0) ample_heap ample_heap STRAT_GZIP);
    [exact sample_tree_wf | exact ample_heap_plentiful | exact ample_heap_plentiful
    | apply Nat.ltb_lt; vm_compute; reflexivity | apply Nat.ltb_lt; vm_compute; reflexivity
    | vm_compute; discriminate | vm_compute; discriminate | reflexivity | reflexivity | reflexivity].
Defined.

(** A tree whose writing fails part-way is saved all the same: with zlib
    as documented, when [nbt_dump_binary] stops with an error and a non-empty
    buffer, [nbt_dump_compressed] compresses the partial bytes and reports no
    error. *)
Theorem dump_error_lost {zl : Zlib} {laws : ZlibLaws} {ready : ZlibReady zl} {bo : ByteOrder} tree fuel strat h status b h1 bytes :
  nbt_dump_binary tree h = Some (status, (b, h1)) -> b_data b = Some bytes -> plentiful h1 ->
  let w := match strat with STRAT_GZIP => 31 | STRAT_INFLATE => 15 end in
  rounds_for fuel (length (deflated w bytes)) -> Z.of_nat (length (deflated w bytes)) + 4096 <= 2 ^ 63 ->
  exists c h2, nbt_dump_compressed fuel tree strat h = Some (inl c, h2) /\ b_bytes c = deflated w bytes.
Proof.
  intros E Ed Hh w Hf Hs. unfold nbt_dump_compressed. rewrite E. cbn [mbind option_bind]. rewrite Ed.
  destruct (deflate_ready bytes w) as [s Ei]; [subst w; destruct strat; auto|].
  pose proof (deflate_init_law _ _ _ Ei) as Hpend.
  destruct (compress_loop_delivers fuel s BUFFER_INIT h1) as (c & h2 & Ec & Ecb & _); try (rewrite Hpend); try done;
    try (change (b_len BUFFER_INIT) with 0; lia).
  exists c, h2. unfold compress.
  replace (match strat with STRAT_GZIP => 15 + 16 | STRAT_INFLATE => 15 end) with w by (by destruct strat).
  rewrite Ei, Ec. split; [done|]. by rewrite Ecb, Hpend.
Qed.

(** A compound whose second entry has a name too long for the format. *)
Definition unwritable_tree : nbt_node :=
  NbtNode (Some [87])
    (TagCompound [NbtNode (Some [88]) (TagByte 1); NbtNode (Some (replicate (Z.to_nat 32768) 65)) (TagByte 2)]).

Lemma dump_error_lost_witness :
  match @nbt_dump_binary true (Some unwritable_tree) ample_heap with
  | Some (status, (b, h1)) =>
      status = NBT_ERR /\
      exists c h2, @nbt_dump_compressed plain_zlib true 1 (Some unwritable_tree) STRAT_GZIP ample_heap = Some (inl c, h2) /\
        b_bytes c = [10; 0; 1; 87; 1; 0; 1; 88; 1; 1]
  | None => False
  end.
Proof.
  destruct (@nbt_dump_binary true (Some unwritable_tree) ample_heap) as [[status [b h1]]|] eqn:E;
    [|vm_compute in E; discriminate E].
  assert (status = NBT_ERR /\ b_data b = Some [10; 0; 1; 87; 1; 0; 1; 88; 1; 1] /\ plentiful h1) as (Hs & Hb & Hh).
  { vm_compute in E. injection E as <- <- <-. split; [reflexivity|]. split; [reflexivity | intros n; reflexivity]. }
  split; [exact Hs|].
  apply (@dump_error_lost plain_zlib plain_zlib_laws plain_zlib_ready true (Some unwritable_tree) 1 STRAT_GZIP ample_heap
    status b h1 [10; 0; 1; 87; 1; 0; 1; 88; 1; 1] E Hb Hh); cbn; [unfold rounds_for; cbn; lia | lia].
Defined.
