(* ===== verification/Map.v ===== *)
(** * Maps

    [src/include/TeleClassic26/gameplay/map.h] and [positions.h]: a map in
    memory and the access to its blocks.

    A [pchar] member is the byte stored in it; reading it as a number gives
    [to_char] of the byte.  [pfloat] members are bit patterns, since they are
    only moved.  Strings and arrays are [None] where the pointer is [NULL]. *)

From S2P Require Import Prelude.

Local Open Scope Z_scope.

(** ** Data *)

Record tc_map_custom_blocks_extension := CustomBlocksExtension {
  cb_fallback_blocks : option (list Z);
  cb_extension_version : Z;
  cb_support_level : Z }.

Record tc_map_color_config := ColorConfig { red : Z; green : Z; blue : Z }.

Record tc_map_env_colors_extension := EnvColorsExtension {
  ec_sky : tc_map_color_config;
  ec_cloud : tc_map_color_config;
  ec_fog : tc_map_color_config;
  ec_ambient : tc_map_color_config;
  ec_sunlight : tc_map_color_config;
  ec_extension_version : Z }.

Record tc_map_env_aspect_extension := EnvAspectExtension {
  as_side_block : Z;
  as_edge_block : Z;
  as_clouds_height : Z;
  as_clouds_speed : Z;
  as_edge_height : Z;
  as_use_exponential_fog : Z;
  as_side_offset : Z;
  as_weather_fade : Z;
  as_weather_speed : Z;
  as_extension_version : Z }.

Record tc_map_env_appearance_extension := EnvAppearanceExtension {
  ap_texture_url : option (list Z);
  ap_side_block : Z;
  ap_edge_block : Z;
  ap_side_level : Z;
  ap_cloud_level : Z;
  ap_maximum_view_distance : Z;
  ap_extension_version : Z }.

Record tc_map_env_weather_extension := EnvWeatherExtension {
  ew_extension_version : Z;
  ew_weather_type : Z }.

Record tc_map_block_definition := BlockDefinition {
  bd_textures : list Z;
  bd_coords : list Z;
  bd_fog : list Z;
  bd_block_name : option (list Z);
  bd_speed : Z;
  bd_allow_placement : bool;
  bd_allow_deletion : bool;
  bd_transmits_light : Z;
  bd_walk_sound : Z;
  bd_shape : Z;
  bd_block_draw : Z;
  bd_block_id : Z }.

Record tc_map_block_definition_extension := BlockDefinitionExtension {
  be_extension_version : Z;
  be_block_definitions : list tc_map_block_definition }.

Record block_position := BlockPosition { bp_x : Z; bp_y : Z; bp_z : Z }.

Record spawn_position := SpawnPosition {
  sp_block_position : block_position;
  sp_heading : Z;
  sp_pitch : Z }.

Record player_position := PlayerPosition {
  pp_x : Z; pp_y : Z; pp_z : Z; pp_heading : Z; pp_pitch : Z }.

Record tc_map := Map {
  uuid : list Z;
  time_created : Z;
  last_accessed : Z;
  last_modified : Z;
  map_name : option (list Z);
  created_by_service : option (list Z);
  created_by_username : option (list Z);
  map_gen_software : option (list Z);
  map_gen_name : option (list Z);
  block_array : option (list Z);
  block_array2 : option (list Z);
  block_array_count : Z;
  block_array2_count : Z;
  custom_blocks_extension : option tc_map_custom_blocks_extension;
  env_colors_extension : option tc_map_env_colors_extension;
  env_appearance_extension : option tc_map_env_appearance_extension;
  env_weather_extension : option tc_map_env_weather_extension;
  env_aspect_extension : option tc_map_env_aspect_extension;
  block_definition_extensions : option tc_map_block_definition_extension;
  x_size : Z;
  y_size : Z;
  z_size : Z;
  map_spawn_position : spawn_position;
  format_version : Z;
  is_dirty : bool }.

Definition set_blocks (m : tc_map) (ba ba2 : option (list Z)) (dirty : bool) : tc_map :=
  Map (uuid m) (time_created m) (last_accessed m) (last_modified m) (map_name m)
    (created_by_service m) (created_by_username m) (map_gen_software m) (map_gen_name m)
    ba ba2 (block_array_count m) (block_array2_count m)
    (custom_blocks_extension m) (env_colors_extension m) (env_appearance_extension m)
    (env_weather_extension m) (env_aspect_extension m) (block_definition_extensions m)
    (x_size m) (y_size m) (z_size m) (map_spawn_position m) (format_version m) dirty.

(** ** Block access *)

(** [TELECLASSIC26_MAP_BLOCK_INDEX]: the operands are promoted to [int], so a
    large map can overflow ([None]); the result is converted to [psize]. *)
Definition int_result (z : Z) : option Z :=
  if (- 2 ^ 31 <=? z) && (z <? 2 ^ 31) then Some z else None.

Definition block_index (m : tc_map) (x y z : Z) : option Z :=
  a ← int_result (y * z_size m);
  b ← int_result (a + z);
  c ← int_result (b * x_size m);
  d ← int_result (c + x);
  Some (u64 d).

Section Access.
Context {abi : CharABI}.

(** A cell of an array, outside it [None]. *)
Definition char_cell (a : list Z) (i : Z) : option Z := to_char <$> a !! Z.to_nat i.

Definition tc_map_get_block_index (m : tc_map) (x y z : Z) : option Z :=
  index ← block_index m x y z;
  arr ← block_array m;
  c ← char_cell arr index;
  let block := u16 (Z.land c 0xFF) in
  match block_array2 m with
  | None => Some block
  | Some arr2 =>
      let shift := (index mod 4) * 2 in
      c2 ← char_cell arr2 (index / 4);
      Some (u16 (Z.lor block (Z.shiftl (Z.land (Z.shiftr c2 shift) 0x3) 8)))
  end.

Definition tc_map_set_block_index (m : tc_map) (x y z block : Z) : option tc_map :=
  index ← block_index m x y z;
  arr2 ←
    match block_array2 m with
    | None => Some None
    | Some arr2 =>
        let shift := (index mod 4) * 2 in
        c2 ← char_cell arr2 (index / 4);
        Some (Some (<[Z.to_nat (index / 4) :=
          u8 (Z.lor (Z.land c2 (Z.lnot (Z.shiftl 0x3 shift)))
                    (Z.shiftl (Z.land (Z.shiftr block 8) 0x3) shift))]> arr2))
    end;
  arr ← block_array m;
  _ ← char_cell arr index;
  Some (set_blocks m (Some (<[Z.to_nat index := u8 (Z.land block 0xFF)]> arr)) arr2 true).
End Access.

(** [sizeof] of the structures, which the platform decides. *)
Record sizes := Sizes {
  sizeof_map : Z; sizeof_custom_blocks : Z; sizeof_env_colors : Z; sizeof_env_appearance : Z;
  sizeof_env_weather : Z; sizeof_block_definition_extension : Z }.

Definition size_if {A} (o : option A) (n : Z) : Z := match o with Some _ => n | None => 0 end.
Definition strlen_if (o : option (list Z)) : Z :=
  match o with Some s => Z.of_nat (strlen s) | None => 0 end.

Definition tc_map_get_memory_usage (sz : sizes) (m : tc_map) : option Z :=
  a ← int_result (x_size m * y_size m);
  b ← int_result (a * z_size m);
  let block_array_size := u64 b in
  Some (u64 (sizeof_map sz
    + (match block_array2 m with Some _ => u64 (block_array_size * 10) / 8 | None => block_array_size end)
    + size_if (custom_blocks_extension m) (sizeof_custom_blocks sz)
    + size_if (env_colors_extension m) (sizeof_env_colors sz)
    + size_if (env_appearance_extension m) (sizeof_env_appearance sz)
    + size_if (env_weather_extension m) (sizeof_env_weather sz)
    + size_if (block_definition_extensions m) (sizeof_block_definition_extension sz)
    + strlen_if (map_name m) + strlen_if (created_by_service m) + strlen_if (created_by_username m))).

(** ** Positions *)

(** The shifts are on [int]; block coordinates are 16 bits wide. *)
Definition tc_spawn_position_to_player_position (s : spawn_position) : player_position :=
  let b := sp_block_position s in
  PlayerPosition (s32 (Z.shiftl (bp_x b) 5 + 16)) (s32 (Z.shiftl (bp_y b) 5 + 51))
    (s32 (Z.shiftl (bp_z b) 5 + 16)) (sp_heading s) (sp_pitch s).
