(* ===== verification/MapProps.v ===== *)
(** * What block access promises

    Blocks are stored in one byte and, on maps with extended blocks, two more
    bits; the theorems hold for both signednesses of [char]. *)

From S2P Require Import Prelude Map.

Local Open Scope Z_scope.

(** A map in memory whose arrays have the size the dimensions ask for. *)
Record map_ok (m : tc_map) : Prop := {
  mo_x : 0 < x_size m <= 32767;
  mo_y : 0 < y_size m <= 32767;
  mo_z : 0 < z_size m <= 32767;
  mo_volume : x_size m * y_size m * z_size m < 2 ^ 31;
  mo_blocks : exists a, block_array m = Some a /\ Forall is_byte a /\
                Z.of_nat (length a) = x_size m * y_size m * z_size m;
  mo_blocks2 : match block_array2 m with
               | None => True
               | Some a => Forall is_byte a /\ x_size m * y_size m * z_size m <= 4 * Z.of_nat (length a)
               end }.

Definition inside (m : tc_map) (x y z : Z) : Prop :=
  0 <= x < x_size m /\ 0 <= y < y_size m /\ 0 <= z < z_size m.

(** ** The index *)

Definition linear (m : tc_map) (x y z : Z) : Z := (y * z_size m + z) * x_size m + x.

Lemma linear_range m x y z : inside m x y z -> 0 <= linear m x y z < x_size m * y_size m * z_size m.
Proof.
  unfold inside, linear. intros (Hx & Hy & Hz).
  assert (0 <= y * z_size m + z < y_size m * z_size m) as Ht by nia.
  set (t := y * z_size m + z) in *. rewrite <- Z.mul_assoc. nia.
Qed.

Lemma linear_inj m x y z x' y' z' :
  inside m x y z -> inside m x' y' z' -> linear m x y z = linear m x' y' z' -> x = x' /\ y = y' /\ z = z'.
Proof.
  unfold inside, linear. intros (Hx & Hy & Hz) (Hx' & Hy' & Hz') E.
  assert (y * z_size m + z = y' * z_size m + z' /\ x = x') as [E1 ->].
  { apply (Z.div_mod_unique (x_size m)); lia. }
  assert (y = y' /\ z = z') as [-> ->]; [|done]. apply (Z.div_mod_unique (z_size m)); lia.
Qed.

Lemma int_result_small v : 0 <= v < 2 ^ 31 -> int_result v = Some v.
Proof.
  intros H. unfold int_result. destruct (Z.leb_spec (- 2 ^ 31) v); [|lia].
  destruct (Z.ltb_spec v (2 ^ 31)); [done | lia].
Qed.

Lemma block_index_linear m x y z :
  map_ok m -> inside m x y z -> block_index m x y z = Some (linear m x y z).
Proof.
  intros Hm Hi. pose proof (linear_range m x y z Hi) as Hl. destruct Hm as [Hx Hy Hz Hv _ _].
  unfold inside, linear in *. destruct Hi as (Hix & Hiy & Hiz). unfold block_index.
  rewrite int_result_small by nia. cbn [mbind option_bind].
  rewrite int_result_small by nia. cbn [mbind option_bind].
  rewrite int_result_small by nia. cbn [mbind option_bind].
  rewrite int_result_small by nia. cbn [mbind option_bind].
  rewrite wrapu_small; [done|]. split; [lia|]. change (2 ^ 64) with (2 ^ 31 * 2 ^ 33). nia.
Qed.

(** ** Two bits in a byte *)

Lemma testbit_3 i : 0 <= i -> Z.testbit 3 i = (i <? 2).
Proof.
  intros Hi. destruct (Z.ltb_spec i 2).
  - assert (i = 0 \/ i = 1) as [-> | ->] by lia; done.
  - apply (testbit_small 2); lia.
Qed.

(** The field of width two at [2 k]. *)
Definition field2 (b k : Z) : Z := Z.land (Z.shiftr b (k * 2)) 3.

Lemma field2_testbit b k i : 0 <= k -> 0 <= i -> Z.testbit (field2 b k) i = Z.testbit b (i + k * 2) && (i <? 2).
Proof. intros Hk Hi. unfold field2. rewrite Z.land_spec, Z.shiftr_spec, testbit_3 by lia. done. Qed.

Lemma field2_range b k : 0 <= field2 b k < 4.
Proof. unfold field2. rewrite land_3. apply Z.mod_pos_bound. lia. Qed.

Lemma u8_testbit b i : 0 <= i < 8 -> Z.testbit (u8 b) i = Z.testbit b i.
Proof. intros Hi. unfold wrapu. by rewrite Z.mod_pow2_bits_low by lia. Qed.

(** Storing [v] in field [k] changes that field and no other. *)
Lemma field2_store c v k j :
  0 <= k < 4 -> 0 <= j < 4 -> 0 <= v < 4 ->
  field2 (u8 (Z.lor (Z.land c (Z.lnot (Z.shiftl 3 (k * 2)))) (Z.shiftl v (k * 2)))) j
  = if j =? k then v else field2 c j.
Proof.
  intros Hk Hj Hv. apply Z.bits_inj'. intros i Hi.
  assert (Z.testbit v i && (i <? 2) = Z.testbit v i) as Hvi.
  { destruct (Z.ltb_spec i 2); [apply andb_true_r|]. by rewrite (testbit_small 2 v i) by lia. }
  rewrite field2_testbit by lia. destruct (Z.ltb_spec i 2) as [Hi2|Hi2].
  - rewrite u8_testbit, Z.lor_spec, Z.land_spec, Z.lnot_spec by lia. rewrite andb_true_r.
    rewrite !(Z.shiftl_spec _ _ (i + j * 2)) by lia.
    destruct (Z.eqb_spec j k) as [->|Hjk].
    + replace (i + k * 2 - k * 2) with i by lia. rewrite testbit_3 by lia.
      destruct (Z.ltb_spec i 2); [|lia]. cbn [negb]. by rewrite andb_false_r, orb_false_l.
    + rewrite field2_testbit by lia. destruct (Z.ltb_spec i 2); [|lia].
      assert (Z.testbit 3 (i + j * 2 - k * 2) = false) as ->.
      { destruct (Z.lt_ge_cases (i + j * 2 - k * 2) 0); [by apply Z.testbit_neg_r|].
        rewrite testbit_3 by lia. apply Z.ltb_ge. lia. }
      assert (Z.testbit v (i + j * 2 - k * 2) = false) as ->.
      { destruct (Z.lt_ge_cases (i + j * 2 - k * 2) 0); [by apply Z.testbit_neg_r|].
        apply (testbit_small 2); lia. }
      cbn [negb]. by rewrite orb_false_r, ?andb_true_r.
  - rewrite andb_false_r. destruct (j =? k).
    + by rewrite (testbit_small 2 v i) by lia.
    + rewrite field2_testbit by lia. destruct (Z.ltb_spec i 2); [lia | by rewrite andb_false_r].
Qed.

Lemma field2_to_char {abi : CharABI} b k : is_byte b -> 0 <= k < 4 -> field2 (to_char b) k = field2 b k.
Proof.
  intros Hb Hk. apply Z.bits_inj'. intros i Hi. rewrite !field2_testbit by lia.
  destruct (Z.ltb_spec i 2); [|by rewrite !andb_false_r]. rewrite testbit_to_char; [done | done | lia].
Qed.

(** ** The stored blocks *)

Section Blocks.
Context {abi : CharABI}.

(** The block at linear position [i], from the bytes. *)
Definition stored (a : list Z) (a2 : option (list Z)) (i : Z) : Z :=
  default 0 (a !! Z.to_nat i) +
  match a2 with
  | None => 0
  | Some a2 => 256 * field2 (default 0 (a2 !! Z.to_nat (i / 4))) (i mod 4)
  end.

Lemma cell_inside (a : list Z) i :
  Forall is_byte a -> 0 <= i < Z.of_nat (length a) ->
  exists b, a !! Z.to_nat i = Some b /\ is_byte b.
Proof.
  intros Ha Hi. destruct (lookup_lt_is_Some_2 a (Z.to_nat i)) as [b Hb]; [lia|].
  exists b. split; [done | by apply (Forall_lookup_1 _ _ _ _ Ha Hb)].
Qed.

Lemma get_block_stored m x y z a :
  map_ok m -> inside m x y z -> block_array m = Some a ->
  tc_map_get_block_index m x y z = Some (stored a (block_array2 m) (linear m x y z)).
Proof.
  intros Hm Hi Ha. pose proof (linear_range m x y z Hi) as Hl.
  unfold tc_map_get_block_index, char_cell. rewrite (block_index_linear m x y z Hm Hi), Ha.
  cbn [mbind option_bind]. destruct (mo_blocks m Hm) as (a' & Ha' & Hb & Hlen).
  rewrite Ha in Ha'. injection Ha' as <-.
  destruct (cell_inside a (linear m x y z) Hb) as (b & Eb & Hbb); [lia|]. rewrite Eb. cbn [fmap option_fmap option_map mbind option_bind].
  rewrite land_to_char_255 by done. rewrite (wrapu_small 16 b) by width_lia.
  unfold stored. rewrite Eb. cbn [default]. unfold id. pose proof (mo_blocks2 m Hm) as H2.
  destruct (block_array2 m) as [a2|]; [|f_equal; lia]. destruct H2 as [Hb2 Hlen2].
  destruct (cell_inside a2 (linear m x y z / 4) Hb2) as (b2 & Eb2 & Hbb2).
  { split; [apply Z.div_pos; lia|]. apply Z.div_lt_upper_bound; lia. }
  rewrite Eb2. cbn [fmap option_fmap option_map mbind option_bind default]. f_equal.
  assert (0 <= linear m x y z mod 4 < 4) as Hk by (apply Z.mod_pos_bound; lia).
  fold (field2 (to_char b2) (linear m x y z mod 4)). rewrite field2_to_char by done.
  pose proof (field2_range b2 (linear m x y z mod 4)) as Hf.
  rewrite Z.lor_comm, lor_shiftl_low by width_lia. rewrite wrapu_small; width_lia.
Qed.

(** What a store does to the two arrays. *)
Lemma set_block_stored m x y z block a :
  map_ok m -> inside m x y z -> block_array m = Some a -> in_u 16 block ->
  exists a' a2', tc_map_set_block_index m x y z block = Some (set_blocks m (Some a') a2' true) /\
    map_ok (set_blocks m (Some a') a2' true) /\
    forall i, 0 <= i < x_size m * y_size m * z_size m ->
      stored a' a2' i =
        if i =? linear m x y z
        then block mod (match block_array2 m with Some _ => 1024 | None => 256 end)
        else stored a (block_array2 m) i.
Proof.
  intros Hm Hi Ha Hblk. pose proof (linear_range m x y z Hi) as Hl. set (n := linear m x y z) in *.
  unfold tc_map_set_block_index, char_cell. rewrite (block_index_linear m x y z Hm Hi). fold n.
  cbn [mbind option_bind]. destruct (mo_blocks m Hm) as (a' & Ha' & Hb & Hlen).
  rewrite Ha in Ha'. injection Ha' as <-. rewrite Ha.
  destruct (cell_inside a n Hb) as (b & Eb & Hbb); [lia|].
  assert (u8 (Z.land block 255) = block mod 256) as Elow.
  { rewrite land_ones8. unfold_widths. by rewrite Z.mod_mod by lia. }
  assert (forall i, 0 <= i < x_size m * y_size m * z_size m ->
            default 0 (<[Z.to_nat n := u8 (Z.land block 255)]> a !! Z.to_nat i)
            = if i =? n then block mod 256 else default 0 (a !! Z.to_nat i)) as Harr.
  { intros i Hir. rewrite Elow. destruct (Z.eqb_spec i n) as [->|Hne].
    - by rewrite list_lookup_insert_eq by lia.
    - by rewrite list_lookup_insert_ne by lia. }
  pose proof (mo_blocks2 m Hm) as H2.
  assert (Forall is_byte (<[Z.to_nat n := u8 (Z.land block 255)]> a)) as Hb'
    by (apply Forall_insert; [done | apply u8_range]).
  assert (Z.of_nat (length (<[Z.to_nat n := u8 (Z.land block 255)]> a)) = x_size m * y_size m * z_size m)
    as Hlen' by (by rewrite length_insert).
  destruct (block_array2 m) as [a2|] eqn:E2.
  - destruct H2 as [Hb2 Hlen2].
    destruct (cell_inside a2 (n / 4) Hb2) as (b2 & Eb2 & Hbb2).
    { split; [apply Z.div_pos; lia|]. apply Z.div_lt_upper_bound; lia. }
    rewrite Eb2. cbn [fmap option_fmap option_map mbind option_bind]. rewrite Eb.
    cbn [fmap option_fmap option_map mbind option_bind].
    do 2 eexists. split; [reflexivity|]. split.
    + destruct Hm. split; try done; cbn.
      * by exists (<[Z.to_nat n := u8 (Z.land block 255)]> a).
      * split; [apply Forall_insert; [done | apply u8_range] | by rewrite length_insert].
    + intros i Hir. unfold stored. rewrite Harr by done.
      destruct (decide (i / 4 = n / 4)) as [Eq|Nq].
      * rewrite Eq, list_lookup_insert_eq by (apply lookup_lt_Some in Eb2; lia). cbn [default]. unfold id.
        rewrite field2_store by (try apply Z.mod_pos_bound; try (rewrite land_3; apply Z.mod_pos_bound); lia).
        rewrite Eb2. cbn [default]. unfold id.
        assert ((i mod 4 =? n mod 4) = (i =? n)) as ->.
        { destruct (Z.eqb_spec i n) as [->|]; [apply Z.eqb_refl|]. apply Z.eqb_neq.
          intros E. pose proof (Z.div_mod i 4). pose proof (Z.div_mod n 4). lia. }
        destruct (Z.eqb_spec i n) as [->|].
        -- rewrite land_3, shiftr_div by lia. change (2 ^ 8) with 256. div_mod_lia.
        -- by rewrite field2_to_char by (done || (apply Z.mod_pos_bound; lia)).
      * destruct (Z.eqb_spec i n) as [->|]; [done|].
        rewrite (list_lookup_insert_ne a2) by (intros E; apply Nq; apply Z2Nat.inj in E; try apply Z.div_pos; lia).
        done.
  - cbn [fmap option_fmap option_map mbind option_bind]. rewrite Eb.
    cbn [fmap option_fmap option_map mbind option_bind].
    do 2 eexists. split; [reflexivity|]. split.
    + destruct Hm. split; try done; cbn. by exists (<[Z.to_nat n := u8 (Z.land block 255)]> a).
    + intros i Hir. unfold stored. rewrite Harr by done. destruct (i =? n); lia.
Qed.

(** C38. Setting a block inside a map succeeds, marks the map dirty, keeps it
    well formed, and afterwards every position reads as before except the one
    set, which reads the low 10 bits of the block on maps with extended blocks
    and the low 8 bits otherwise. *)
Theorem set_get_block m x y z block x' y' z' :
  map_ok m -> inside m x y z -> inside m x' y' z' -> in_u 16 block ->
  exists m', tc_map_set_block_index m x y z block = Some m' /\ map_ok m' /\ is_dirty m' = true /\
    tc_map_get_block_index m' x' y' z' =
      if (x' =? x) && (y' =? y) && (z' =? z)
      then Some (block mod (match block_array2 m with Some _ => 1024 | None => 256 end))
      else tc_map_get_block_index m x' y' z'.
Proof.
  intros Hm Hi Hi' Hblk. destruct (mo_blocks m Hm) as (a & Ha & _).
  destruct (set_block_stored m x y z block a Hm Hi Ha Hblk) as (a' & a2' & Es & Hm' & Hst).
  eexists. split_and!; [exact Es | exact Hm' | done |].
  erewrite get_block_stored; [|exact Hm'|exact Hi'|reflexivity].
  change (linear (set_blocks m (Some a') a2' true) x' y' z') with (linear m x' y' z'). cbn [block_array2 set_blocks].
  rewrite Hst by (by apply linear_range). rewrite (get_block_stored m x' y' z' a) by done.
  destruct (Z.eqb_spec (linear m x' y' z') (linear m x y z)) as [E|E].
  - destruct (linear_inj m x' y' z' x y z Hi' Hi E) as (-> & -> & ->). by rewrite !Z.eqb_refl.
  - destruct (Z.eqb_spec x' x) as [->|]; [|done]. destruct (Z.eqb_spec y' y) as [->|]; [|done].
    destruct (Z.eqb_spec z' z) as [->|]; [done | done].
Qed.
End Blocks.

(** A spawn position becomes the centre of its block, 51 units (of 32 per
    block) above its floor; no 16-bit block coordinate overflows, and the
    block is recovered by dividing by 32. *)
Theorem spawn_position_exact s :
  in_s 16 (bp_x (sp_block_position s)) -> in_s 16 (bp_y (sp_block_position s)) ->
  in_s 16 (bp_z (sp_block_position s)) ->
  let p := tc_spawn_position_to_player_position s in
  pp_x p = 32 * bp_x (sp_block_position s) + 16 /\ pp_z p = 32 * bp_z (sp_block_position s) + 16 /\
  pp_y p = 32 * bp_y (sp_block_position s) + 51 /\
  pp_x p / 32 = bp_x (sp_block_position s) /\ pp_z p / 32 = bp_z (sp_block_position s).
Proof.
  intros Hx Hy Hz. cbn. rewrite !shiftl_mul by lia. change (2 ^ 5) with 32.
  rewrite !wraps_small by width_lia. unfold_widths. split_and!; try lia; div_mod_lia.
Qed.

(** ** A small map with extended blocks *)

Definition small_map : tc_map :=
  Map (replicate 16 0) 0 0 0 None None None None None
    (Some (replicate 12 0)) (Some (replicate 3 255)) 12 3 None None None None None None
    2 2 3 (SpawnPosition (BlockPosition 1 1 (-1)) 0 0) 1 false.

Lemma small_map_ok : map_ok small_map.
Proof.
  split; cbn; try lia.
  - exists (replicate 12 0). split_and!; [done | | done]. repeat constructor; width_lia.
  - split; [repeat constructor; width_lia | lia].
Qed.

Lemma set_get_block_witness :
  exists m', @tc_map_set_block_index signed_char_abi small_map 1 0 2 0x2A5 = Some m' /\ map_ok m' /\
    is_dirty m' = true /\ @tc_map_get_block_index signed_char_abi m' 1 0 2 = Some 0x2A5.
Proof.
  apply (@set_get_block signed_char_abi small_map 1 0 2 0x2A5 1 0 2);
    [apply small_map_ok | unfold inside; cbn; lia | unfold inside; cbn; lia | width_lia].
Defined.

Lemma spawn_position_exact_witness :
  pp_z (tc_spawn_position_to_player_position (map_spawn_position small_map)) = -16 /\
  pp_z (tc_spawn_position_to_player_position (map_spawn_position small_map)) / 32 = -1.
Proof.
  assert (in_s 16 1 /\ in_s 16 (-1)) as [H1 H2] by (split; width_lia).
  destruct (spawn_position_exact (map_spawn_position small_map) H1 H1 H2) as (_ & Hz & _ & _ & Hd).
  split; [exact Hz | exact Hd].
Defined.
