(* ===== verification/MapFile.v ===== *)
(** * Loading and saving maps

    [src/src/map.c]: a map as a ClassicWorld NBT tree, in both directions.

    Allocations may fail, and then the whole operation does; releasing memory
    on the way out is not modelled.  [Undefined] stands for an access the C
    standard leaves undefined: a payload read as the member of another type,
    or an overflowing [int] product. *)

From S2P Require Import Prelude Protocol Buffer Nbt NbtSpec NbtTree NbtFile Map.

Local Open Scope Z_scope.

(** ** Computations that allocate *)

Inductive outcome (A : Type) :=
| Done (a : A)
| Fail                    (* [goto fail] *)
| Undefined.
Arguments Done {A}.
Arguments Fail {A}.
Arguments Undefined {A}.

Definition alloc_m (A : Type) : Type := heap -> outcome A * heap.

#[export] Instance alloc_ret : MRet alloc_m := fun A a h => (Done a, h).

#[export] Instance alloc_bind : MBind alloc_m := fun A B k m h =>
  match m h with
  | (Done a, h') => k a h'
  | (Fail, h') => (Fail, h')
  | (Undefined, h') => (Undefined, h')
  end.

Definition fail {A} : alloc_m A := fun h => (Fail, h).
Definition undefined {A} : alloc_m A := fun h => (Undefined, h).
Definition malloc : alloc_m unit := fun h => let '(ok, h') := p_malloc h in (if ok then Done tt else Fail, h').

(** [p_malloc] of a size that may be zero answers [NULL] for it. *)
Definition malloc_bytes (n_bytes : Z) : alloc_m unit := if 0 <? n_bytes then malloc else fail.

(** [if (!n) goto fail]. *)
Definition or_fail {A} (o : option A) : alloc_m A := match o with Some a => mret a | None => fail end.

Definition TC_THREADS_UUID_LEN : nat := 16.

(** ** Building trees *)

Definition nbt_make (name : list Z) : alloc_m unit := _ ← malloc; malloc.

Definition leaf (name : list Z) (p : nbt_payload) : nbt_node := NbtNode (Some name) p.

(** [nbt_put(parent, nbt_make_...(name, v))]: the nodes to add to the parent. *)
Definition put_scalar (name : string) (p : nbt_payload) : alloc_m (list nbt_node) :=
  _ ← nbt_make (cstr name); _ ← malloc; mret [leaf (cstr name) p].

Definition nbt_make_byte (name : string) (v : Z) := put_scalar name (TagByte (s8 v)).
Definition nbt_make_short (name : string) (v : Z) := put_scalar name (TagShort (s16 v)).
Definition nbt_make_int (name : string) (v : Z) := put_scalar name (TagInt (s32 v)).
Definition nbt_make_long (name : string) (v : Z) := put_scalar name (TagLong (s64 v)).
Definition nbt_make_float (name : string) (v : Z) := put_scalar name (TagFloat v).

Definition nbt_make_string (name : string) (v : option (list Z)) : alloc_m (list nbt_node) :=
  _ ← nbt_make (cstr name); _ ← malloc; _ ← malloc;
  mret [leaf (cstr name) (TagString (c_content (default [] v)))].

(** [len] is the length argument, an [int32_t]. *)
Definition nbt_make_byte_array (name : string) (data : list Z) (len : Z) : alloc_m (list nbt_node) :=
  _ ← nbt_make (cstr name);
  _ ← (if 0 <? len then malloc else mret tt);
  _ ← malloc;
  mret [leaf (cstr name) (TagByteArray (take (Z.to_nat len) data))].

(** A compound that is attached to its parent before it is filled. *)
Definition put_compound (name : list Z) (fill : alloc_m (list nbt_node)) : alloc_m (list nbt_node) :=
  _ ← nbt_make name; _ ← malloc; _ ← malloc;
  es ← fill; mret [leaf name (TagCompound es)].

Fixpoint puts (l : list (alloc_m (list nbt_node))) : alloc_m (list nbt_node) :=
  match l with
  | [] => mret []
  | m :: l' => a ← m; b ← puts l'; mret (a ++ b)
  end.

(** [if (pointer) ...]. *)
Definition put_if {A} (o : option A) (f : A -> alloc_m (list nbt_node)) : alloc_m (list nbt_node) :=
  match o with Some a => f a | None => mret [] end.

(** The compound is attached to the parent last. *)
Definition save_color (tag : string) (c : tc_map_color_config) : alloc_m (list nbt_node) :=
  _ ← nbt_make (cstr tag); _ ← malloc;
  es ← puts [nbt_make_short "R" (red c); nbt_make_short "G" (green c); nbt_make_short "B" (blue c)];
  _ ← malloc;
  mret [leaf (cstr tag) (TagCompound es)].

(** ** [tc_map_save] *)

Definition save_created_by (m : tc_map) : alloc_m (list nbt_node) :=
  match created_by_service m, created_by_username m with
  | None, None => mret []
  | _, _ =>
      put_compound (cstr "CreatedBy")
        (puts [put_if (created_by_service m) (fun s => nbt_make_string "Service" (Some s));
               put_if (created_by_username m) (fun s => nbt_make_string "Username" (Some s))])
  end.

Definition save_map_generator (m : tc_map) : alloc_m (list nbt_node) :=
  match map_gen_software m, map_gen_name m with
  | None, None => mret []
  | _, _ =>
      put_compound (cstr "MapGenerator")
        (puts [put_if (map_gen_software m) (fun s => nbt_make_string "Software" (Some s));
               put_if (map_gen_name m) (fun s => nbt_make_string "MapGeneratorName" (Some s))])
  end.

Definition save_spawn (s : spawn_position) : alloc_m (list nbt_node) :=
  put_compound (cstr "Spawn")
    (puts [nbt_make_short "X" (bp_x (sp_block_position s));
           nbt_make_short "Y" (bp_y (sp_block_position s));
           nbt_make_short "Z" (bp_z (sp_block_position s));
           nbt_make_byte "H" (sp_heading s);
           nbt_make_byte "P" (sp_pitch s)]).

Definition save_custom_blocks (e : tc_map_custom_blocks_extension) : alloc_m (list nbt_node) :=
  put_compound (cstr "CustomBlocks")
    (puts [nbt_make_int "ExtensionVersion" (cb_extension_version e);
           nbt_make_short "SupportLevel" (cb_support_level e);
           put_if (cb_fallback_blocks e) (fun f => nbt_make_byte_array "Fallback" f 256)]).

Definition save_env_colors (e : tc_map_env_colors_extension) : alloc_m (list nbt_node) :=
  put_compound (cstr "EnvColors")
    (puts [nbt_make_int "ExtensionVersion" (ec_extension_version e);
           save_color "Sky" (ec_sky e);
           save_color "Cloud" (ec_cloud e);
           save_color "Fog" (ec_fog e);
           save_color "Ambient" (ec_ambient e);
           save_color "Sunlight" (ec_sunlight e)]).

Definition save_env_aspect (e : tc_map_env_aspect_extension) : alloc_m (list nbt_node) :=
  put_compound (cstr "EnvMapAspect")
    (puts [nbt_make_int "ExtensionVersion" (as_extension_version e);
           nbt_make_byte "SideBlock" (as_side_block e);
           nbt_make_byte "EdgeBlock" (as_edge_block e);
           nbt_make_int "CloudsHeight" (as_clouds_height e);
           nbt_make_float "CloudsSpeed" (as_clouds_speed e);
           nbt_make_int "EdgeHeight" (as_edge_height e);
           nbt_make_byte "UseExponentialFog" (as_use_exponential_fog e);
           nbt_make_int "SideOffset" (as_side_offset e);
           nbt_make_float "WeatherFade" (as_weather_fade e);
           nbt_make_float "WeatherSpeed" (as_weather_speed e)]).

Definition save_env_appearance (e : tc_map_env_appearance_extension) : alloc_m (list nbt_node) :=
  put_compound (cstr "EnvMapAppearance")
    (puts ([nbt_make_int "ExtensionVersion" (ap_extension_version e);
            nbt_make_string "TextureURL" (ap_texture_url e);
            nbt_make_byte "SideBlock" (ap_side_block e);
            nbt_make_byte "EdgeBlock" (ap_edge_block e);
            nbt_make_short "SideLevel" (ap_side_level e)] ++
           (if 2 <=? ap_extension_version e
            then [nbt_make_short "CloudLevel" (ap_cloud_level e);
                  nbt_make_short "MaximumViewDistance" (ap_maximum_view_distance e)]
            else []))).

Definition save_env_weather (e : tc_map_env_weather_extension) : alloc_m (list nbt_node) :=
  put_compound (cstr "EnvWeatherType")
    (puts [nbt_make_int "ExtensionVersion" (ew_extension_version e);
           nbt_make_byte "WeatherType" (ew_weather_type e)]).

(** ["Block%u"] of an [unsigned char]. *)
Definition block_tag_name (id : Z) : list Z :=
  cstr "Block" ++
  (if id <? 10 then [48 + id]
   else if id <? 100 then [48 + id / 10; 48 + id mod 10]
   else [48 + id / 100; 48 + id / 10 mod 10; 48 + id mod 10]).

Definition save_block_definition (d : tc_map_block_definition) : alloc_m (list nbt_node) :=
  put_compound (block_tag_name (u8 (bd_block_id d)))
    (puts [nbt_make_byte "ID" (bd_block_id d);
           nbt_make_string "Name" (bd_block_name d);
           nbt_make_float "Speed" (bd_speed d);
           nbt_make_byte_array "Textures" (bd_textures d) 6;
           nbt_make_byte "TransmitsLight" (bd_transmits_light d);
           nbt_make_byte "WalkSound" (bd_walk_sound d);
           nbt_make_byte "Shape" (bd_shape d);
           nbt_make_byte "BlockDraw" (bd_block_draw d);
           nbt_make_byte_array "Fog" (bd_fog d) 4;
           nbt_make_byte_array "Coords" (bd_coords d) 6;
           nbt_make_byte "AllowPlacement" (if bd_allow_placement d then 1 else 0);
           nbt_make_byte "AllowDeletion" (if bd_allow_deletion d then 1 else 0)]).

Definition save_block_definitions (e : tc_map_block_definition_extension) : alloc_m (list nbt_node) :=
  put_compound (cstr "BlockDefinitions")
    (puts (nbt_make_int "ExtensionVersion" (be_extension_version e)
           :: map save_block_definition (be_block_definitions e))).

(** The condition under which a CPE compound is written at all. *)
Definition has_cpe (m : tc_map) : bool :=
  match custom_blocks_extension m, env_colors_extension m, env_appearance_extension m,
        env_weather_extension m, block_definition_extensions m with
  | None, None, None, None, None => false
  | _, _, _, _, _ => true
  end.

Definition save_metadata (m : tc_map) : alloc_m (list nbt_node) :=
  put_compound (cstr "Metadata")
    (if has_cpe m then
       put_compound (cstr "CPE")
         (puts [put_if (custom_blocks_extension m) save_custom_blocks;
                put_if (env_colors_extension m) save_env_colors;
                put_if (env_aspect_extension m) save_env_aspect;
                put_if (env_appearance_extension m) save_env_appearance;
                put_if (env_weather_extension m) save_env_weather;
                put_if (block_definition_extensions m) save_block_definitions])
     else mret []).

(** The tree of [tc_map_save]; a map in memory has its block array. *)
Definition map_tree (m : tc_map) : alloc_m nbt_node :=
  _ ← nbt_make (cstr "ClassicWorld"); _ ← malloc;
  es ← puts
    [nbt_make_byte "FormatVersion" (format_version m);
     nbt_make_string "Name" (map_name m);
     nbt_make_byte_array "UUID" (uuid m) (Z.of_nat TC_THREADS_UUID_LEN);
     nbt_make_short "X" (x_size m);
     nbt_make_short "Y" (y_size m);
     nbt_make_short "Z" (z_size m);
     save_created_by m;
     save_map_generator m;
     nbt_make_long "TimeCreated" (time_created m);
     nbt_make_long "LastAccessed" (last_accessed m);
     nbt_make_long "LastModified" (last_modified m);
     save_spawn (map_spawn_position m);
     nbt_make_byte_array "BlockArray" (default [] (block_array m)) (s32 (block_array_count m));
     put_if (block_array2 m) (fun a => nbt_make_byte_array "BlockArray2" a (s32 (block_array2_count m)));
     save_metadata m];
  mret (leaf (cstr "ClassicWorld") (TagCompound es)).

Definition set_clean (m : tc_map) : tc_map := set_blocks m (block_array m) (block_array2 m) false.

(** [None] is a loop that does not end within [fuel] rounds; otherwise the
    returned [pboolean], the map (its dirty flag is cleared first) and the
    file after the call.  [fopen] is [None] when the file cannot be opened. *)
Definition tc_map_save {zl : Zlib} {bo : ByteOrder} (fuel : nat) (m : tc_map) (fopen : option file) (h : heap) :
    option (bool * tc_map * option file) :=
  if negb (is_dirty m) then Some (true, m, fopen)
  else
    let m' := set_clean m in
    match map_tree m h with
    | (Done root, h1) =>
        match fopen with
        | None => Some (false, m', None)
        | Some fp =>
            '(status, fp1, _) ← nbt_dump_file fuel (Some root) fp STRAT_GZIP h1;
            Some (bool_decide (status = NBT_OK), m', Some fp1)
        end
    | (_, _) => Some (false, m', fopen)
    end.

(** ** [tc_map_load] *)

Definition has_dot (name : list Z) : bool := existsb (fun c => c =? DOT) (c_content name).

Definition nbt_expect (parent : nbt_node) (name : string) (type : Z) : option nbt_node :=
  let name := cstr name in
  n ← (if has_dot name then nbt_find_by_path parent name else nbt_find_by_name parent name);
  if negb (node_type n =? type) then None else Some n.

(** Payloads of a checked type. *)
Definition expect_byte (parent : nbt_node) (name : string) : option Z :=
  n ← nbt_expect parent name TAG_BYTE; match node_payload n with TagByte v => Some v | _ => None end.
Definition expect_short (parent : nbt_node) (name : string) : option Z :=
  n ← nbt_expect parent name TAG_SHORT; match node_payload n with TagShort v => Some v | _ => None end.
Definition expect_int (parent : nbt_node) (name : string) : option Z :=
  n ← nbt_expect parent name TAG_INT; match node_payload n with TagInt v => Some v | _ => None end.
Definition expect_float (parent : nbt_node) (name : string) : option Z :=
  n ← nbt_expect parent name TAG_FLOAT; match node_payload n with TagFloat v => Some v | _ => None end.
Definition expect_string (parent : nbt_node) (name : string) : option (list Z) :=
  n ← nbt_expect parent name TAG_STRING; match node_payload n with TagString s => Some s | _ => None end.
Definition expect_byte_array (parent : nbt_node) (name : string) : option (list Z) :=
  n ← nbt_expect parent name TAG_BYTE_ARRAY; match node_payload n with TagByteArray d => Some d | _ => None end.

Definition p_strdup (s : list Z) : alloc_m (list Z) := _ ← malloc; mret (c_content s).

Definition load_color (parent : nbt_node) (tag : string) (c : tc_map_color_config) :
    alloc_m tc_map_color_config :=
  match nbt_find_by_name parent (cstr tag) with
  | None => mret c
  | Some compound =>
      if negb (node_type compound =? TAG_COMPOUND) then fail
      else
        match expect_short compound "R", expect_short compound "G", expect_short compound "B" with
        | Some r, Some g, Some b => mret (ColorConfig r g b)
        | _, _, _ => fail
        end
  end.

(** [n->payload.tag_string] and [n->payload.tag_long] of a node found by path,
    without a look at its type. *)
Definition untyped_string (root : nbt_node) (path : string) : alloc_m (option (list Z)) :=
  match nbt_find_by_path root (cstr path) with
  | None => mret None
  | Some n =>
      match node_payload n with
      | TagString s => d ← p_strdup s; mret (Some d)
      | _ => undefined
      end
  end.

Definition untyped_long (root : nbt_node) (path : string) (otherwise : Z) : alloc_m Z :=
  match nbt_find_by_path root (cstr path) with
  | None => mret otherwise
  | Some n => match node_payload n with TagLong v => mret v | _ => undefined end
  end.

(** The part of [s] after its last [c] (all of it when there is none), and the
    part before it. *)
Fixpoint after_last (c : Z) (s : list Z) : list Z :=
  match s with
  | [] => []
  | x :: s' => if existsb (fun y => y =? c) s' then after_last c s' else if x =? c then s' else s
  end.

Fixpoint before_last (c : Z) (s : list Z) : list Z :=
  match s with
  | [] => []
  | x :: s' =>
      if existsb (fun y => y =? c) s' then x :: before_last c s'
      else if x =? c then [] else s
  end.

Definition SLASH : Z := 47.

Definition load_name (root : nbt_node) (path : list Z) : alloc_m (list Z) :=
  match expect_string root "ClassicWorld.Name" with
  | Some s => p_strdup s
  | None => base ← p_strdup (after_last SLASH (c_content path)); mret (before_last DOT base)
  end.

Definition load_spawn (root : nbt_node) : alloc_m spawn_position :=
  x ← or_fail (expect_short root "ClassicWorld.Spawn.X");
  y ← or_fail (expect_short root "ClassicWorld.Spawn.Y");
  z ← or_fail (expect_short root "ClassicWorld.Spawn.Z");
  hd ← or_fail (expect_byte root "ClassicWorld.Spawn.H");
  p ← or_fail (expect_byte root "ClassicWorld.Spawn.P");
  mret (SpawnPosition (BlockPosition x y z) (u8 hd) (u8 p)).

(** The block arrays with their counts; the dimensions check multiplies
    [int]s. *)
Definition load_blocks (root : nbt_node) (xs ys zs : Z) :
    alloc_m (list Z * Z * option (list Z) * Z) :=
  d ← or_fail (expect_byte_array root "ClassicWorld.BlockArray");
  let block_array_count := u64 (Z.of_nat (length d)) in
  match (a ← int_result (xs * ys); int_result (a * zs)) with
  | None => undefined
  | Some volume =>
      if negb (block_array_count =? u64 volume) then fail
      else
        _ ← malloc_bytes block_array_count;
        match expect_byte_array root "ClassicWorld.BlockArray2" with
        | None => mret (d, block_array_count, None, 0)
        | Some d2 =>
            let block_array2_count := u64 (Z.of_nat (length d2)) in
            if u64 (block_array2_count * 4) <? block_array_count then fail
            else _ ← malloc_bytes block_array2_count; mret (d, block_array_count, Some d2, block_array2_count)
        end
  end.

(** [if (ext) ...] for an extension compound. *)
Definition load_ext {A} (root : nbt_node) (path : string) (f : nbt_node -> alloc_m A) : alloc_m (option A) :=
  match nbt_expect root path TAG_COMPOUND with
  | None => mret None
  | Some ext => _ ← malloc; a ← f ext; mret (Some a)
  end.

Definition load_version (ext : nbt_node) : Z := default 1 (expect_int ext "ExtensionVersion").

Definition load_custom_blocks (ext : nbt_node) : alloc_m tc_map_custom_blocks_extension :=
  let version := load_version ext in
  level ← or_fail (expect_short ext "SupportLevel");
  d ← or_fail (expect_byte_array ext "Fallback");
  if negb (Z.of_nat (length d) =? 256) then fail
  else _ ← malloc; mret (CustomBlocksExtension (Some (take 256 d)) version level).

Definition no_color : tc_map_color_config := ColorConfig 0 0 0.

Definition load_env_colors (ext : nbt_node) : alloc_m tc_map_env_colors_extension :=
  let version := load_version ext in
  sky ← load_color ext "Sky" no_color;
  cloud ← load_color ext "Cloud" no_color;
  fog ← load_color ext "Fog" no_color;
  ambient ← load_color ext "Ambient" no_color;
  sunlight ← load_color ext "Sunlight" no_color;
  mret (EnvColorsExtension sky cloud fog ambient sunlight version).

Definition load_env_aspect (ext : nbt_node) : alloc_m tc_map_env_aspect_extension :=
  let version := load_version ext in
  side ← or_fail (expect_byte ext "SideBlock");
  edge ← or_fail (expect_byte ext "EdgeBlock");
  ch ← or_fail (expect_int ext "CloudsHeight");
  cs ← or_fail (expect_float ext "CloudsSpeed");
  eh ← or_fail (expect_int ext "EdgeHeight");
  fog ← or_fail (expect_byte ext "UseExponentialFog");
  so ← or_fail (expect_int ext "SideOffset");
  wf ← or_fail (expect_float ext "WeatherFade");
  ws ← or_fail (expect_float ext "WeatherSpeed");
  mret (EnvAspectExtension (u8 side) (u8 edge) ch cs eh (u8 fog) so wf ws version).

Definition load_env_appearance (ys : Z) (ext : nbt_node) : alloc_m tc_map_env_appearance_extension :=
  let version :=
    match expect_int ext "ExtensionVersion" with
    | Some v => v
    | None =>
        match nbt_find_by_name ext (cstr "CloudLevel"), nbt_find_by_name ext (cstr "MaximumViewDistance") with
        | None, None => 1
        | _, _ => 2
        end
    end in
  url ← or_fail (expect_string ext "TextureURL");
  url ← p_strdup url;
  side ← or_fail (expect_byte ext "SideBlock");
  edge ← or_fail (expect_byte ext "EdgeBlock");
  level ← or_fail (expect_short ext "SideLevel");
  if 2 <=? version then
    cl ← or_fail (expect_short ext "CloudLevel");
    mv ← or_fail (expect_short ext "MaximumViewDistance");
    mret (EnvAppearanceExtension (Some url) (u8 side) (u8 edge) level cl mv version)
  else mret (EnvAppearanceExtension (Some url) (u8 side) (u8 edge) level (s16 (ys + 2)) 0 version).

Definition load_env_weather (ext : nbt_node) : alloc_m tc_map_env_weather_extension :=
  let version := load_version ext in
  w ← or_fail (expect_byte ext "WeatherType");
  mret (EnvWeatherExtension version (u8 w)).

(** At least [n] bytes, of which the first [n] are copied. *)
Definition expect_prefix (child : nbt_node) (name : string) (n : nat) : alloc_m (list Z) :=
  d ← or_fail (expect_byte_array child name);
  if (length d <? n)%nat then fail else mret (take n d).

(** Absent means allowed. *)
Definition load_allow (child : nbt_node) (name : string) : bool :=
  match expect_byte child name with None => true | Some v => negb (v =? 1) end.

Definition load_block_definition (child : nbt_node) : alloc_m tc_map_block_definition :=
  _ ← malloc;                          (* the definition *)
  _ ← malloc;                          (* its list cell *)
  id ← or_fail (expect_byte child "ID");
  name ← or_fail (expect_string child "Name");
  name ← p_strdup name;
  speed ← or_fail (expect_float child "Speed");
  textures ← expect_prefix child "Textures" 6;
  light ← or_fail (expect_byte child "TransmitsLight");
  sound ← or_fail (expect_byte child "WalkSound");
  shape ← or_fail (expect_byte child "Shape");
  draw ← or_fail (expect_byte child "BlockDraw");
  fog ← expect_prefix child "Fog" 4;
  coords ← expect_prefix child "Coords" 6;
  mret (BlockDefinition textures coords fog (Some name) speed
          (load_allow child "AllowPlacement") (load_allow child "AllowDeletion")
          (u8 light) (u8 sound) (u8 shape) (u8 draw) (u8 id)).

Definition is_block_entry (child : nbt_node) : bool :=
  (node_type child =? TAG_COMPOUND) &&
  match node_name child with Some s => strncmp 5 s (cstr "Block") =? 0 | None => false end.

(** The loop over the entries; prepending and reversing keeps their order. *)
Fixpoint load_block_entries (entries : list nbt_node) : alloc_m (list tc_map_block_definition) :=
  match entries with
  | [] => mret []
  | child :: entries' =>
      if negb (is_block_entry child) then load_block_entries entries'
      else
        d ← load_block_definition child;
        ds ← load_block_entries entries';
        mret (d :: ds)
  end.

Definition load_block_definitions (ext : nbt_node) : alloc_m tc_map_block_definition_extension :=
  let version := load_version ext in
  ds ← load_block_entries (children (node_payload ext));
  mret (BlockDefinitionExtension version ds).

(** The map of a parsed tree.  [now k] is the k-th value of [time(NULL)]. *)
Definition load_map (root : nbt_node) (path : list Z) (now : nat -> Z) : alloc_m tc_map :=
  _ ← malloc;                          (* the lock *)
  fv ← or_fail (expect_byte root "ClassicWorld.FormatVersion");
  name ← load_name root path;
  id ← or_fail (expect_byte_array root "ClassicWorld.UUID");
  if negb (length id =? TC_THREADS_UUID_LEN)%nat then fail
  else
    xs ← or_fail (expect_short root "ClassicWorld.X");
    ys ← or_fail (expect_short root "ClassicWorld.Y");
    zs ← or_fail (expect_short root "ClassicWorld.Z");
    service ← untyped_string root "ClassicWorld.CreatedBy.Service";
    username ← untyped_string root "ClassicWorld.CreatedBy.Username";
    software ← untyped_string root "ClassicWorld.MapGenerator.Software";
    genname ← untyped_string root "ClassicWorld.MapGenerator.MapGeneratorName";
    created ← untyped_long root "ClassicWorld.TimeCreated" (now 0%nat);
    accessed ← untyped_long root "ClassicWorld.LastAccessed" (now 1%nat);
    modified ← untyped_long root "ClassicWorld.LastModified" (now 2%nat);
    spawn ← load_spawn root;
    '(ba, bac, ba2, ba2c) ← load_blocks root xs ys zs;
    cb ← load_ext root "ClassicWorld.Metadata.CPE.CustomBlocks" load_custom_blocks;
    ec ← load_ext root "ClassicWorld.Metadata.CPE.EnvColors" load_env_colors;
    ea ← load_ext root "ClassicWorld.Metadata.CPE.EnvAspect" load_env_aspect;
    ap ← load_ext root "ClassicWorld.Metadata.CPE.EnvMapAppearance" (load_env_appearance ys);
    ew ← load_ext root "ClassicWorld.Metadata.CPE.EnvWeatherType" load_env_weather;
    bd ← load_ext root "ClassicWorld.Metadata.CPE.BlockDefinitions" load_block_definitions;
    mret (Map id created accessed modified (Some name) service username software genname
            (Some ba) ba2 bac ba2c cb ec ap ew ea bd xs ys zs spawn (u8 fv) false).

(** The whole function; [None] inside is a return of [FALSE], after which the
    caller has no map. *)
Definition tc_map_load {zl : Zlib} {bo : ByteOrder} (fuel : nat) (path : list Z) (fopen : option file)
    (now : nat -> Z) (h : heap) : option (outcome (option tc_map)) :=
  '(r, h1) ← nbt_parse_path fuel fopen h;
  match r with
  | inr _ => Some (Done None)
  | inl root =>
      if negb (node_type root =? TAG_COMPOUND) then Some (Done None)
      else
        match load_map root path now h1 with
        | (Done m, _) => Some (Done (Some m))
        | (Fail, _) => Some (Done None)
        | (Undefined, _) => Some Undefined
        end
  end.
