(* ===== verification/MapFileSpec.v ===== *)
(** * The ClassicWorld layout

    The tree a map is saved as, written as a pure function; the saving code
    builds it whenever memory suffices, and every lookup of the loading code
    on it is computed here. *)

From S2P Require Import Prelude Protocol Buffer Nbt NbtSpec NbtTree NbtFile Map MapFile.

Local Open Scope Z_scope.

(** ** Computations with memory to spare *)

Definition runs {A} (c : alloc_m A) (a : A) : Prop :=
  forall h, plentiful h -> exists h', c h = (Done a, h') /\ plentiful h'.

(** The same for any outcome. *)
Definition ends {A} (c : alloc_m A) (o : outcome A) : Prop :=
  forall h, plentiful h -> exists h', c h = (o, h') /\ plentiful h'.

Lemma loads_bind {A B} (c : alloc_m A) (k : A -> alloc_m B) a o :
  runs c a -> ends (k a) o -> ends (c ≫= k) o.
Proof.
  intros Hc Hk h Hh. destruct (Hc h Hh) as (h1 & E1 & Hh1). destruct (Hk h1 Hh1) as (h2 & E2 & Hh2).
  exists h2. unfold mbind, alloc_bind. by rewrite E1.
Qed.

Lemma ends_fail {A B} (c : alloc_m A) (k : A -> alloc_m B) : ends c Fail -> ends (c ≫= k) Fail.
Proof. intros Hc h Hh. destruct (Hc h Hh) as (h1 & E1 & Hh1). exists h1. unfold mbind, alloc_bind. by rewrite E1. Qed.

Lemma runs_ret {A} (a : A) : runs (mret a) a.
Proof. intros h Hh. by exists h. Qed.

Lemma runs_bind {A B} (c : alloc_m A) (k : A -> alloc_m B) a b :
  runs c a -> runs (k a) b -> runs (c ≫= k) b.
Proof. apply loads_bind. Qed.

Lemma runs_malloc : runs malloc tt.
Proof. intros h Hh. unfold malloc, p_malloc. rewrite Hh. eexists. split; [done|]. intros n. apply Hh. Qed.

Lemma runs_malloc_bytes n : 0 < n -> runs (malloc_bytes n) tt.
Proof. intros Hn. unfold malloc_bytes. destruct (Z.ltb_spec 0 n); [apply runs_malloc | lia]. Qed.

Lemma runs_make name : runs (nbt_make name) tt.
Proof. eapply runs_bind; apply runs_malloc. Qed.

Lemma runs_or_fail {A} (o : option A) a : o = Some a -> runs (or_fail o) a.
Proof. intros ->. apply runs_ret. Qed.

Lemma runs_strdup s : no_nul s -> runs (p_strdup s) s.
Proof.
  intros H. eapply runs_bind; [apply runs_malloc|]. rewrite (c_content_no_nul s H). apply runs_ret.
Qed.

Create HintDb runs.
#[export] Hint Resolve runs_ret runs_malloc runs_make runs_or_fail runs_strdup : runs.

(** Run the next command of a sequence. *)
Ltac run := first [eapply runs_bind; [solve [eauto with runs]|] | solve [eauto with runs]].

Lemma runs_puts cs ls : Forall2 runs cs ls -> runs (puts cs) (concat ls).
Proof. induction 1; cbn; [run|]. eapply runs_bind; [done|]. eapply runs_bind; [done|]. run. Qed.

(** ** The pure layout *)

Definition scalar (name : string) (p : nbt_payload) : list nbt_node := [leaf (cstr name) p].

Definition text (name : string) (s : option (list Z)) : list nbt_node :=
  scalar name (TagString (c_content (default [] s))).

Definition bytes (name : string) (d : list Z) (len : Z) : list nbt_node :=
  scalar name (TagByteArray (take (Z.to_nat len) d)).

Definition opt {A} (o : option A) (f : A -> list nbt_node) : list nbt_node :=
  match o with Some a => f a | None => [] end.

Definition lay_color (tag : string) (c : tc_map_color_config) : list nbt_node :=
  scalar tag (TagCompound (scalar "R" (TagShort (s16 (red c))) ++ scalar "G" (TagShort (s16 (green c))) ++
                           scalar "B" (TagShort (s16 (blue c))))).

Definition lay_created_by (m : tc_map) : list nbt_node :=
  match created_by_service m, created_by_username m with
  | None, None => []
  | s, u => scalar "CreatedBy"
              (TagCompound (opt s (fun t => text "Service" (Some t)) ++ opt u (fun t => text "Username" (Some t))))
  end.

Definition lay_map_generator (m : tc_map) : list nbt_node :=
  match map_gen_software m, map_gen_name m with
  | None, None => []
  | s, u => scalar "MapGenerator"
              (TagCompound (opt s (fun t => text "Software" (Some t)) ++
                            opt u (fun t => text "MapGeneratorName" (Some t))))
  end.

Definition lay_spawn (s : spawn_position) : list nbt_node :=
  scalar "Spawn"
    (TagCompound
       (scalar "X" (TagShort (s16 (bp_x (sp_block_position s)))) ++
        scalar "Y" (TagShort (s16 (bp_y (sp_block_position s)))) ++
        scalar "Z" (TagShort (s16 (bp_z (sp_block_position s)))) ++
        scalar "H" (TagByte (s8 (sp_heading s))) ++ scalar "P" (TagByte (s8 (sp_pitch s))))).

Definition lay_version (v : Z) : list nbt_node := scalar "ExtensionVersion" (TagInt (s32 v)).

Definition lay_custom_blocks_entries (e : tc_map_custom_blocks_extension) : list nbt_node :=
  lay_version (cb_extension_version e) ++ scalar "SupportLevel" (TagShort (s16 (cb_support_level e))) ++
   opt (cb_fallback_blocks e) (fun f => bytes "Fallback" f 256).

Definition lay_custom_blocks (e : tc_map_custom_blocks_extension) : list nbt_node :=
  scalar "CustomBlocks" (TagCompound (lay_custom_blocks_entries e)).

Definition lay_env_colors_entries (e : tc_map_env_colors_extension) : list nbt_node :=
  lay_version (ec_extension_version e) ++ lay_color "Sky" (ec_sky e) ++ lay_color "Cloud" (ec_cloud e) ++
   lay_color "Fog" (ec_fog e) ++ lay_color "Ambient" (ec_ambient e) ++ lay_color "Sunlight" (ec_sunlight e).

Definition lay_env_colors (e : tc_map_env_colors_extension) : list nbt_node :=
  scalar "EnvColors" (TagCompound (lay_env_colors_entries e)).

Definition lay_env_aspect_entries (e : tc_map_env_aspect_extension) : list nbt_node :=
  lay_version (as_extension_version e) ++
   scalar "SideBlock" (TagByte (s8 (as_side_block e))) ++
   scalar "EdgeBlock" (TagByte (s8 (as_edge_block e))) ++
   scalar "CloudsHeight" (TagInt (s32 (as_clouds_height e))) ++
   scalar "CloudsSpeed" (TagFloat (as_clouds_speed e)) ++
   scalar "EdgeHeight" (TagInt (s32 (as_edge_height e))) ++
   scalar "UseExponentialFog" (TagByte (s8 (as_use_exponential_fog e))) ++
   scalar "SideOffset" (TagInt (s32 (as_side_offset e))) ++
   scalar "WeatherFade" (TagFloat (as_weather_fade e)) ++
   scalar "WeatherSpeed" (TagFloat (as_weather_speed e)).

Definition lay_env_aspect (e : tc_map_env_aspect_extension) : list nbt_node :=
  scalar "EnvMapAspect" (TagCompound (lay_env_aspect_entries e)).

Definition lay_env_appearance_entries (e : tc_map_env_appearance_extension) : list nbt_node :=
  lay_version (ap_extension_version e) ++ text "TextureURL" (ap_texture_url e) ++
   scalar "SideBlock" (TagByte (s8 (ap_side_block e))) ++
   scalar "EdgeBlock" (TagByte (s8 (ap_edge_block e))) ++
   scalar "SideLevel" (TagShort (s16 (ap_side_level e))) ++
   (if 2 <=? ap_extension_version e
    then scalar "CloudLevel" (TagShort (s16 (ap_cloud_level e))) ++
         scalar "MaximumViewDistance" (TagShort (s16 (ap_maximum_view_distance e)))
    else []).

Definition lay_env_appearance (e : tc_map_env_appearance_extension) : list nbt_node :=
  scalar "EnvMapAppearance" (TagCompound (lay_env_appearance_entries e)).

Definition lay_env_weather_entries (e : tc_map_env_weather_extension) : list nbt_node :=
  lay_version (ew_extension_version e) ++ scalar "WeatherType" (TagByte (s8 (ew_weather_type e))).

Definition lay_env_weather (e : tc_map_env_weather_extension) : list nbt_node :=
  scalar "EnvWeatherType" (TagCompound (lay_env_weather_entries e)).

Definition lay_flag (name : string) (b : bool) : list nbt_node :=
  scalar name (TagByte (s8 (if b then 1 else 0))).

Definition lay_block_definition (d : tc_map_block_definition) : nbt_node :=
  leaf (block_tag_name (u8 (bd_block_id d)))
    (TagCompound
       (scalar "ID" (TagByte (s8 (bd_block_id d))) ++ text "Name" (bd_block_name d) ++
        scalar "Speed" (TagFloat (bd_speed d)) ++ bytes "Textures" (bd_textures d) 6 ++
        scalar "TransmitsLight" (TagByte (s8 (bd_transmits_light d))) ++
        scalar "WalkSound" (TagByte (s8 (bd_walk_sound d))) ++
        scalar "Shape" (TagByte (s8 (bd_shape d))) ++
        scalar "BlockDraw" (TagByte (s8 (bd_block_draw d))) ++
        bytes "Fog" (bd_fog d) 4 ++ bytes "Coords" (bd_coords d) 6 ++
        lay_flag "AllowPlacement" (bd_allow_placement d) ++ lay_flag "AllowDeletion" (bd_allow_deletion d))).

Definition lay_block_definitions_entries (e : tc_map_block_definition_extension) : list nbt_node :=
  lay_version (be_extension_version e) ++ map lay_block_definition (be_block_definitions e).

Definition lay_block_definitions (e : tc_map_block_definition_extension) : list nbt_node :=
  scalar "BlockDefinitions" (TagCompound (lay_block_definitions_entries e)).

(** The entries of the CPE compound. *)
Definition lay_extensions (m : tc_map) : list nbt_node :=
  opt (custom_blocks_extension m) lay_custom_blocks ++ opt (env_colors_extension m) lay_env_colors ++
  opt (env_aspect_extension m) lay_env_aspect ++ opt (env_appearance_extension m) lay_env_appearance ++
  opt (env_weather_extension m) lay_env_weather ++
  opt (block_definition_extensions m) lay_block_definitions.

Definition lay_metadata (m : tc_map) : list nbt_node :=
  scalar "Metadata"
    (TagCompound (if has_cpe m then scalar "CPE" (TagCompound (lay_extensions m)) else [])).

Definition lay_head (m : tc_map) : list nbt_node :=
  scalar "FormatVersion" (TagByte (s8 (format_version m))) ++ text "Name" (map_name m) ++
  bytes "UUID" (uuid m) 16 ++ scalar "X" (TagShort (s16 (x_size m))) ++
  scalar "Y" (TagShort (s16 (y_size m))) ++ scalar "Z" (TagShort (s16 (z_size m))).

Definition lay_times (m : tc_map) : list nbt_node :=
  scalar "TimeCreated" (TagLong (s64 (time_created m))) ++
  scalar "LastAccessed" (TagLong (s64 (last_accessed m))) ++
  scalar "LastModified" (TagLong (s64 (last_modified m))).

Definition lay_entries (m : tc_map) : list nbt_node :=
  lay_head m ++ lay_created_by m ++ lay_map_generator m ++ lay_times m ++
  lay_spawn (map_spawn_position m) ++
  bytes "BlockArray" (default [] (block_array m)) (s32 (block_array_count m)) ++
  opt (block_array2 m) (fun a => bytes "BlockArray2" a (s32 (block_array2_count m))) ++
  lay_metadata m.

Definition layout (m : tc_map) : nbt_node := leaf (cstr "ClassicWorld") (TagCompound (lay_entries m)).

(** ** Saving builds the layout *)

Lemma runs_puts_last c a : runs c a -> runs (puts [c]) a.
Proof.
  intros H. cbn. eapply runs_bind; [exact H|]. eapply runs_bind; [apply runs_ret|].
  rewrite app_nil_r. apply runs_ret.
Qed.

Lemma runs_puts_cons c cs a b : runs c a -> runs (puts cs) b -> runs (puts (c :: cs)) (a ++ b).
Proof. intros H1 H2. cbn. eapply runs_bind; [exact H1|]. eapply runs_bind; [exact H2|]. apply runs_ret. Qed.

Lemma runs_puts_map {A} (f : A -> alloc_m (list nbt_node)) (g : A -> nbt_node) l :
  (forall x, runs (f x) [g x]) -> runs (puts (map f l)) (map g l).
Proof.
  intros H. induction l as [|x l IH]; [apply runs_ret|]. cbn [map].
  change (g x :: map g l) with ([g x] ++ map g l). by apply runs_puts_cons.
Qed.

Lemma runs_scalar name p : runs (put_scalar name p) (scalar name p).
Proof. unfold put_scalar. repeat run. Qed.

Lemma runs_text name s : runs (nbt_make_string name s) (text name s).
Proof. unfold nbt_make_string. repeat run. Qed.

Lemma runs_bytes name d len : runs (nbt_make_byte_array name d len) (bytes name d len).
Proof. unfold nbt_make_byte_array. run. destruct (0 <? len); repeat run. Qed.

Lemma runs_compound name fill es : runs fill es -> runs (put_compound name fill) [leaf name (TagCompound es)].
Proof. intros H. unfold put_compound. repeat run. Qed.

Lemma runs_put_if {A} (o : option A) f g : (forall a, runs (f a) (g a)) -> runs (put_if o f) (opt o g).
Proof. intros H. destruct o; [apply H | apply runs_ret]. Qed.

#[export] Hint Resolve runs_scalar runs_text runs_bytes runs_compound runs_put_if : runs.
#[export] Hint Unfold nbt_make_byte nbt_make_short nbt_make_int nbt_make_long nbt_make_float : runs.

(** Split a sequence of puts along the layout's appends. *)
Ltac run_puts :=
  first [ apply runs_puts_last; solve [eauto 3 with runs]
        | apply runs_puts_cons; [solve [eauto 3 with runs] | run_puts] ].

Lemma runs_save_color tag c : runs (save_color tag c) (lay_color tag c).
Proof. unfold save_color. run. run. eapply runs_bind; [run_puts|]. run. run. Qed.

#[export] Hint Resolve runs_save_color : runs.

Lemma runs_created_by m : runs (save_created_by m) (lay_created_by m).
Proof.
  unfold save_created_by, lay_created_by.
  destruct (created_by_service m), (created_by_username m); try apply runs_ret; apply runs_compound; run_puts.
Qed.

Lemma runs_map_generator m : runs (save_map_generator m) (lay_map_generator m).
Proof.
  unfold save_map_generator, lay_map_generator.
  destruct (map_gen_software m), (map_gen_name m); try apply runs_ret; apply runs_compound; run_puts.
Qed.

Lemma runs_spawn s : runs (save_spawn s) (lay_spawn s).
Proof. apply runs_compound. run_puts. Qed.

Lemma runs_custom_blocks e : runs (save_custom_blocks e) (lay_custom_blocks e).
Proof. apply runs_compound. run_puts. Qed.

Lemma runs_env_colors e : runs (save_env_colors e) (lay_env_colors e).
Proof. apply runs_compound. run_puts. Qed.

Lemma runs_env_aspect e : runs (save_env_aspect e) (lay_env_aspect e).
Proof. apply runs_compound. run_puts. Qed.

Lemma runs_env_appearance e : runs (save_env_appearance e) (lay_env_appearance e).
Proof.
  apply runs_compound. unfold lay_env_appearance_entries. cbn [app].
  destruct (2 <=? ap_extension_version e); rewrite ?app_nil_r; run_puts.
Qed.

Lemma runs_env_weather e : runs (save_env_weather e) (lay_env_weather e).
Proof. apply runs_compound. run_puts. Qed.

Lemma runs_block_definition d : runs (save_block_definition d) [lay_block_definition d].
Proof. apply runs_compound. run_puts. Qed.

Lemma runs_block_definitions e : runs (save_block_definitions e) (lay_block_definitions e).
Proof.
  apply runs_compound. apply runs_puts_cons; [eauto with runs|]. apply runs_puts_map. apply runs_block_definition.
Qed.

#[export] Hint Resolve runs_created_by runs_map_generator runs_spawn runs_custom_blocks runs_env_colors
  runs_env_aspect runs_env_appearance runs_env_weather runs_block_definitions : runs.

Lemma runs_metadata m : runs (save_metadata m) (lay_metadata m).
Proof. apply runs_compound. destruct (has_cpe m); [|apply runs_ret]. apply runs_compound. run_puts. Qed.

#[export] Hint Resolve runs_metadata : runs.

Lemma lay_entries_flat m :
  lay_entries m =
  scalar "FormatVersion" (TagByte (s8 (format_version m))) ++ text "Name" (map_name m) ++
  bytes "UUID" (uuid m) 16 ++ scalar "X" (TagShort (s16 (x_size m))) ++
  scalar "Y" (TagShort (s16 (y_size m))) ++ scalar "Z" (TagShort (s16 (z_size m))) ++
  lay_created_by m ++ lay_map_generator m ++
  scalar "TimeCreated" (TagLong (s64 (time_created m))) ++
  scalar "LastAccessed" (TagLong (s64 (last_accessed m))) ++
  scalar "LastModified" (TagLong (s64 (last_modified m))) ++
  lay_spawn (map_spawn_position m) ++
  bytes "BlockArray" (default [] (block_array m)) (s32 (block_array_count m)) ++
  opt (block_array2 m) (fun a => bytes "BlockArray2" a (s32 (block_array2_count m))) ++
  lay_metadata m.
Proof. unfold lay_entries, lay_head, lay_times. by rewrite <- !app_assoc. Qed.

(** Given memory, [tc_map_save] builds the layout. *)
Lemma map_tree_layout m : runs (map_tree m) (layout m).
Proof.
  unfold map_tree, layout. run. run. eapply runs_bind; [|apply runs_ret]. rewrite lay_entries_flat. run_puts.
Qed.

(** ** Lookups by path *)

Lemma first_some_app {A B} (f : A -> option B) l k :
  first_some f (l ++ k) = match first_some f l with Some r => Some r | None => first_some f k end.
Proof. induction l as [|x l IH]; cbn; [done|]. by destruct (f x). Qed.

(** Entries of other names are passed over. *)
Lemma follow_other seg segs n : name_text n <> seg -> follow (seg :: segs) n = None.
Proof. intros H. destruct segs; cbn; by rewrite decide_False. Qed.

Definition named_otherwise (seg : list Z) (l : list nbt_node) : Prop := Forall (fun n => name_text n <> seg) l.

Lemma follow_skip seg segs l k :
  named_otherwise seg l -> first_some (follow (seg :: segs)) (l ++ k) = first_some (follow (seg :: segs)) k.
Proof.
  induction 1 as [|n l Hn _ IH]; [done|]. cbn [app first_some]. by rewrite follow_other.
Qed.

Lemma follow_hit seg segs p es :
  c_content seg = seg -> segs <> [] -> children p = es ->
  follow (seg :: segs) (leaf seg p) = first_some (follow segs) es.
Proof.
  intros Hs Hne <-. destruct segs as [|s segs]; [done|]. cbn [follow].
  rewrite decide_True by exact Hs. done.
Qed.

Lemma follow_leaf seg p : c_content seg = seg -> follow [seg] (leaf seg p) = Some (leaf seg p).
Proof. intros Hs. cbn. by rewrite decide_True by exact Hs. Qed.

(** Decide that a concrete list of entries avoids a name. *)
Lemma other_leaf seg name p l :
  c_content name <> seg -> named_otherwise seg l -> named_otherwise seg (leaf name p :: l).
Proof. intros. by constructor. Qed.

Lemma other_app seg l k : named_otherwise seg l -> named_otherwise seg k -> named_otherwise seg (l ++ k).
Proof. intros. by apply Forall_app. Qed.

Lemma other_nil seg : named_otherwise seg [].
Proof. constructor. Qed.

Ltac others :=
  repeat first [ apply other_app | apply other_leaf; [vm_compute; discriminate|] | apply other_nil ].

Lemma other_created seg m : cstr "CreatedBy" <> seg -> named_otherwise seg (lay_created_by m).
Proof.
  intros H. unfold lay_created_by. destruct (created_by_service m), (created_by_username m); others;
    constructor; (exact H || constructor).
Qed.

Lemma other_generator seg m : cstr "MapGenerator" <> seg -> named_otherwise seg (lay_map_generator m).
Proof.
  intros H. unfold lay_map_generator. destruct (map_gen_software m), (map_gen_name m); others;
    constructor; (exact H || constructor).
Qed.

Lemma other_opt {A} seg (o : option A) f : (forall a, named_otherwise seg (f a)) -> named_otherwise seg (opt o f).
Proof. intros H. destruct o; [apply H | constructor]. Qed.

(** Walk past the groups of the layout that cannot match. *)
Ltac skip :=
  rewrite follow_skip;
  [ | solve [ apply other_created; vm_compute; discriminate
            | apply other_generator; vm_compute; discriminate
            | apply other_opt; intros; unfold bytes, scalar; others
            | unfold lay_head, lay_times, lay_spawn, bytes, text, scalar; others ] ].

(** The loader's paths as segments. *)
Lemma expect_follow root name type segs :
  cstr name = join_path segs -> forallb segmentb segs = true -> segs <> [] -> has_dot (cstr name) = true ->
  nbt_expect root name type =
    (n ← follow segs root; if negb (node_type n =? type) then None else Some n).
Proof.
  intros Hn Hs Hne Hd. unfold nbt_expect. rewrite Hd, Hn, find_by_path_follow; [done | done |].
  apply Forall_forall. intros s Hin%list_elem_of_In. apply segmentb_ok. by apply (proj1 (forallb_forall _ _) Hs).
Qed.

Lemma path_follow root path segs :
  cstr path = join_path segs -> forallb segmentb segs = true -> segs <> [] ->
  nbt_find_by_path root (cstr path) = follow segs root.
Proof.
  intros Hn Hs Hne. rewrite Hn, find_by_path_follow; [done | done |].
  apply Forall_forall. intros s Hin%list_elem_of_In. apply segmentb_ok. by apply (proj1 (forallb_forall _ _) Hs).
Qed.

Abbreviation CW := (cstr "ClassicWorld").

(** Everything starts at the root. *)
Lemma follow_layout segs m : segs <> [] -> follow (CW :: segs) (layout m) = first_some (follow segs) (lay_entries m).
Proof. intros H. by apply follow_hit. Qed.

Section Lookups.
Variable m : tc_map.

(** A key among the first entries is found at once; the entries before the
    others are skipped. *)
Ltac look segs :=
  rewrite (expect_follow _ _ _ segs) by done; rewrite follow_layout by done; unfold lay_entries; repeat skip;
  reflexivity.

Lemma look_format_version :
  expect_byte (layout m) "ClassicWorld.FormatVersion" = Some (s8 (format_version m)).
Proof. unfold expect_byte. look [CW; cstr "FormatVersion"]. Qed.

Lemma look_name :
  expect_string (layout m) "ClassicWorld.Name" = Some (c_content (default [] (map_name m))).
Proof. unfold expect_string. look [CW; cstr "Name"]. Qed.

Lemma look_uuid :
  expect_byte_array (layout m) "ClassicWorld.UUID" = Some (take 16 (uuid m)).
Proof. unfold expect_byte_array. look [CW; cstr "UUID"]. Qed.

Lemma look_x : expect_short (layout m) "ClassicWorld.X" = Some (s16 (x_size m)).
Proof. unfold expect_short. look [CW; cstr "X"]. Qed.

Lemma look_y : expect_short (layout m) "ClassicWorld.Y" = Some (s16 (y_size m)).
Proof. unfold expect_short. look [CW; cstr "Y"]. Qed.

Lemma look_z : expect_short (layout m) "ClassicWorld.Z" = Some (s16 (z_size m)).
Proof. unfold expect_short. look [CW; cstr "Z"]. Qed.

Lemma look_spawn_x : expect_short (layout m) "ClassicWorld.Spawn.X" = Some (s16 (bp_x (sp_block_position (map_spawn_position m)))).
Proof. unfold expect_short. look [CW; cstr "Spawn"; cstr "X"]. Qed.

Lemma look_spawn_y : expect_short (layout m) "ClassicWorld.Spawn.Y" = Some (s16 (bp_y (sp_block_position (map_spawn_position m)))).
Proof. unfold expect_short. look [CW; cstr "Spawn"; cstr "Y"]. Qed.

Lemma look_spawn_z : expect_short (layout m) "ClassicWorld.Spawn.Z" = Some (s16 (bp_z (sp_block_position (map_spawn_position m)))).
Proof. unfold expect_short. look [CW; cstr "Spawn"; cstr "Z"]. Qed.

Lemma look_spawn_h : expect_byte (layout m) "ClassicWorld.Spawn.H" = Some (s8 (sp_heading (map_spawn_position m))).
Proof. unfold expect_byte. look [CW; cstr "Spawn"; cstr "H"]. Qed.

Lemma look_spawn_p : expect_byte (layout m) "ClassicWorld.Spawn.P" = Some (s8 (sp_pitch (map_spawn_position m))).
Proof. unfold expect_byte. look [CW; cstr "Spawn"; cstr "P"]. Qed.

Lemma look_block_array :
  expect_byte_array (layout m) "ClassicWorld.BlockArray"
  = Some (take (Z.to_nat (s32 (block_array_count m))) (default [] (block_array m))).
Proof. unfold expect_byte_array. look [CW; cstr "BlockArray"]. Qed.

Lemma look_block_array2 :
  expect_byte_array (layout m) "ClassicWorld.BlockArray2"
  = (take (Z.to_nat (s32 (block_array2_count m)))) <$> block_array2 m.
Proof.
  unfold expect_byte_array. rewrite (expect_follow _ _ _ [CW; cstr "BlockArray2"]) by done.
  rewrite follow_layout by done. unfold lay_entries. do 6 skip. destruct (block_array2 m); reflexivity.
Qed.

(** The times and the creator are read without a type check. *)
Ltac look_path segs :=
  rewrite (path_follow _ _ segs) by done; rewrite follow_layout by done; unfold lay_entries; repeat skip.

Lemma runs_time_created d : runs (untyped_long (layout m) "ClassicWorld.TimeCreated" d) (s64 (time_created m)).
Proof. unfold untyped_long. look_path [CW; cstr "TimeCreated"]. apply runs_ret. Qed.

Lemma runs_last_accessed d : runs (untyped_long (layout m) "ClassicWorld.LastAccessed" d) (s64 (last_accessed m)).
Proof. unfold untyped_long. look_path [CW; cstr "LastAccessed"]. apply runs_ret. Qed.

Lemma runs_last_modified d : runs (untyped_long (layout m) "ClassicWorld.LastModified" d) (s64 (last_modified m)).
Proof. unfold untyped_long. look_path [CW; cstr "LastModified"]. apply runs_ret. Qed.

Lemma follow_none seg segs l : named_otherwise seg l -> first_some (follow (seg :: segs)) l = None.
Proof. intros H. rewrite <- (app_nil_r l), follow_skip by done. done. Qed.

(** An optional string inside an optional compound. *)
Definition text_node (name : string) (s : option (list Z)) : option nbt_node :=
  (fun t => leaf (cstr name) (TagString (c_content t))) <$> s.

Ltac rest_other :=
  repeat (apply other_app);
  solve [ apply other_generator; vm_compute; discriminate
        | apply other_opt; intros; unfold bytes, scalar; others
        | unfold lay_times, lay_spawn, lay_metadata, bytes, text, scalar; others ].

Lemma follow_service :
  follow [CW; cstr "CreatedBy"; cstr "Service"] (layout m) = text_node "Service" (created_by_service m).
Proof.
  rewrite follow_layout by done. unfold lay_entries. skip. rewrite first_some_app.
  rewrite (follow_none _ _ (lay_map_generator m ++ _)) by rest_other.
  unfold lay_created_by. destruct (created_by_service m), (created_by_username m); reflexivity.
Qed.

Lemma follow_username :
  follow [CW; cstr "CreatedBy"; cstr "Username"] (layout m) = text_node "Username" (created_by_username m).
Proof.
  rewrite follow_layout by done. unfold lay_entries. skip. rewrite first_some_app.
  rewrite (follow_none _ _ (lay_map_generator m ++ _)) by rest_other.
  unfold lay_created_by. destruct (created_by_service m), (created_by_username m); reflexivity.
Qed.

Lemma follow_software :
  follow [CW; cstr "MapGenerator"; cstr "Software"] (layout m) = text_node "Software" (map_gen_software m).
Proof.
  rewrite follow_layout by done. unfold lay_entries. skip. skip. rewrite first_some_app.
  rewrite (follow_none _ _ (lay_times m ++ _)) by rest_other.
  unfold lay_map_generator. destruct (map_gen_software m), (map_gen_name m); reflexivity.
Qed.

Lemma follow_generator_name :
  follow [CW; cstr "MapGenerator"; cstr "MapGeneratorName"] (layout m) = text_node "MapGeneratorName" (map_gen_name m).
Proof.
  rewrite follow_layout by done. unfold lay_entries. skip. skip. rewrite first_some_app.
  rewrite (follow_none _ _ (lay_times m ++ _)) by rest_other.
  unfold lay_map_generator. destruct (map_gen_software m), (map_gen_name m); reflexivity.
Qed.

(** The extensions: the CPE compound is searched for the key. *)
Lemma follow_cpe key :
  follow [CW; cstr "Metadata"; cstr "CPE"; key] (layout m)
  = if has_cpe m then first_some (follow [key]) (lay_extensions m) else None.
Proof.
  rewrite follow_layout by done. unfold lay_entries. do 7 skip.
  unfold lay_metadata, scalar. cbn [first_some]. rewrite (follow_hit _ _ _ _ eq_refl) by done.
  cbn [children]. destruct (has_cpe m); [|done]. cbn [first_some].
  rewrite (follow_hit _ _ _ _ eq_refl) by done. cbn [children].
  by destruct (first_some (follow [key]) (lay_extensions m)).
Qed.
End Lookups.

(** ** The extensions *)

Ltac other_exts :=
  repeat (apply other_app); apply other_opt; intros;
  unfold lay_custom_blocks, lay_env_colors, lay_env_aspect, lay_env_appearance, lay_env_weather,
    lay_block_definitions, scalar; others.

(** The entry for [key] among the extensions: those before and after it have
    other names. *)
Lemma ext_entry {A} key (o : option A) (g : A -> nbt_payload) before after :
  c_content key = key -> named_otherwise key before -> named_otherwise key after ->
  first_some (follow [key]) (before ++ opt o (fun a => [leaf key (g a)]) ++ after)
  = (fun a => leaf key (g a)) <$> o.
Proof.
  intros Hk Hb Ha. rewrite follow_skip by done. destruct o as [a|]; cbn [opt app fmap option_fmap option_map].
  - cbn [first_some]. by rewrite follow_leaf.
  - by apply follow_none.
Qed.

Section Extensions.
Variable m : tc_map.

Lemma no_cpe :
  has_cpe m = false ->
  custom_blocks_extension m = None /\ env_colors_extension m = None /\ env_appearance_extension m = None /\
  env_weather_extension m = None /\ block_definition_extensions m = None.
Proof.
  unfold has_cpe. destruct (custom_blocks_extension m), (env_colors_extension m), (env_appearance_extension m),
    (env_weather_extension m), (block_definition_extensions m); done.
Qed.

(** The compound of an extension, for one of the saved keys. *)
Lemma expect_ext {A} (path key : string) (o : option A) (g : A -> list nbt_node) :
  cstr path = join_path [CW; cstr "Metadata"; cstr "CPE"; cstr key] ->
  segmentb (cstr key) = true -> has_dot (cstr path) = true ->
  first_some (follow [cstr key]) (lay_extensions m) = (fun a => leaf (cstr key) (TagCompound (g a))) <$> o ->
  (has_cpe m = false -> o = None) ->
  nbt_expect (layout m) path TAG_COMPOUND = (fun a => leaf (cstr key) (TagCompound (g a))) <$> o.
Proof.
  intros Hp Hs Hd Hf Hno. rewrite (expect_follow _ _ _ [CW; cstr "Metadata"; cstr "CPE"; cstr key]); [|done | |done|done].
  - rewrite follow_cpe, Hf. destruct (has_cpe m); [by destruct o|]. by rewrite Hno.
  - cbn. by rewrite Hs.
Qed.

Ltac find_ext :=
  apply expect_ext; try done;
  [ unfold lay_extensions; repeat (rewrite follow_skip by other_exts);
    apply (ext_entry _ _ _ []); [done | others | solve [other_exts | others]]
  | let H := fresh in intros H%no_cpe; tauto ].

Lemma expect_custom_blocks :
  nbt_expect (layout m) "ClassicWorld.Metadata.CPE.CustomBlocks" TAG_COMPOUND
  = (fun e => leaf (cstr "CustomBlocks") (TagCompound (lay_custom_blocks_entries e))) <$> custom_blocks_extension m.
Proof. find_ext. Qed.

Lemma expect_env_colors :
  nbt_expect (layout m) "ClassicWorld.Metadata.CPE.EnvColors" TAG_COMPOUND
  = (fun e => leaf (cstr "EnvColors") (TagCompound (lay_env_colors_entries e))) <$> env_colors_extension m.
Proof. find_ext. Qed.

Lemma expect_env_appearance :
  nbt_expect (layout m) "ClassicWorld.Metadata.CPE.EnvMapAppearance" TAG_COMPOUND
  = (fun e => leaf (cstr "EnvMapAppearance") (TagCompound (lay_env_appearance_entries e)))
      <$> env_appearance_extension m.
Proof. find_ext. Qed.

Lemma expect_env_weather :
  nbt_expect (layout m) "ClassicWorld.Metadata.CPE.EnvWeatherType" TAG_COMPOUND
  = (fun e => leaf (cstr "EnvWeatherType") (TagCompound (lay_env_weather_entries e))) <$> env_weather_extension m.
Proof. find_ext. Qed.

Lemma expect_block_definitions :
  nbt_expect (layout m) "ClassicWorld.Metadata.CPE.BlockDefinitions" TAG_COMPOUND
  = (fun e => leaf (cstr "BlockDefinitions") (TagCompound (lay_block_definitions_entries e)))
      <$> block_definition_extensions m.
Proof.
  apply expect_ext; try done; [|intros H%no_cpe; tauto].
  unfold lay_extensions. repeat (rewrite follow_skip by other_exts). rewrite <- (app_nil_r (opt _ _)).
  apply (ext_entry _ _ _ []); [done | others | others].
Qed.

(** The loader looks for "EnvAspect", which nothing is saved as. *)
Lemma expect_env_aspect : nbt_expect (layout m) "ClassicWorld.Metadata.CPE.EnvAspect" TAG_COMPOUND = None.
Proof.
  rewrite (expect_follow _ _ _ [CW; cstr "Metadata"; cstr "CPE"; cstr "EnvAspect"]) by done.
  rewrite follow_cpe. destruct (has_cpe m); [|done]. by rewrite follow_none by other_exts.
Qed.
End Extensions.
