(* ===== verification/MapFileProps.v ===== *)
(** * What saving and loading maps promise

    Loading a saved map gives the map back, except for what the theorem names:
    the flags that are saved one way and read the other, and the extension
    that is saved under a name the loader does not look for. *)

From S2P Require Import Prelude Protocol Buffer Nbt NbtSpec NbtTree NbtFile NbtFileProps Map MapFile MapFileSpec.

Local Open Scope Z_scope.

(** ** Maps that can be saved *)

Definition opt_string_wf (o : option (list Z)) : Prop := match o with Some s => string_wf s | None => True end.

Definition color_wf (c : tc_map_color_config) : Prop := in_s 16 (red c) /\ in_s 16 (green c) /\ in_s 16 (blue c).

Definition custom_blocks_wf (e : tc_map_custom_blocks_extension) : Prop :=
  (exists f, cb_fallback_blocks e = Some f /\ length f = 256%nat /\ Forall is_byte f) /\
  in_s 32 (cb_extension_version e) /\ in_s 16 (cb_support_level e).

Definition env_colors_wf (e : tc_map_env_colors_extension) : Prop :=
  color_wf (ec_sky e) /\ color_wf (ec_cloud e) /\ color_wf (ec_fog e) /\ color_wf (ec_ambient e) /\
  color_wf (ec_sunlight e) /\ in_s 32 (ec_extension_version e).

Definition env_appearance_wf (e : tc_map_env_appearance_extension) : Prop :=
  (exists u, ap_texture_url e = Some u /\ string_wf u) /\ is_byte (ap_side_block e) /\ is_byte (ap_edge_block e) /\
  in_s 16 (ap_side_level e) /\ in_s 16 (ap_cloud_level e) /\ in_s 16 (ap_maximum_view_distance e) /\
  in_s 32 (ap_extension_version e).

Definition env_weather_wf (e : tc_map_env_weather_extension) : Prop :=
  in_s 32 (ew_extension_version e) /\ is_byte (ew_weather_type e).

Definition env_aspect_wf (e : tc_map_env_aspect_extension) : Prop :=
  in_u 32 (as_clouds_speed e) /\ in_u 32 (as_weather_fade e) /\ in_u 32 (as_weather_speed e).

Definition block_definition_wf (d : tc_map_block_definition) : Prop :=
  (length (bd_textures d) = 6%nat /\ Forall is_byte (bd_textures d)) /\
  (length (bd_coords d) = 6%nat /\ Forall is_byte (bd_coords d)) /\
  (length (bd_fog d) = 4%nat /\ Forall is_byte (bd_fog d)) /\
  (exists s, bd_block_name d = Some s /\ string_wf s) /\ in_u 32 (bd_speed d) /\
  is_byte (bd_transmits_light d) /\ is_byte (bd_walk_sound d) /\ is_byte (bd_shape d) /\
  is_byte (bd_block_draw d) /\ is_byte (bd_block_id d).

Definition block_definitions_wf (e : tc_map_block_definition_extension) : Prop :=
  in_s 32 (be_extension_version e) /\ Forall block_definition_wf (be_block_definitions e).

Definition opt_wf {A} (P : A -> Prop) (o : option A) : Prop := match o with Some a => P a | None => True end.

Record saveable (m : tc_map) : Prop := {
  sv_uuid : length (uuid m) = 16%nat /\ Forall is_byte (uuid m);
  sv_times : in_s 64 (time_created m) /\ in_s 64 (last_accessed m) /\ in_s 64 (last_modified m);
  sv_name : exists s, map_name m = Some s /\ string_wf s;
  sv_creator : opt_string_wf (created_by_service m) /\ opt_string_wf (created_by_username m) /\
               opt_string_wf (map_gen_software m) /\ opt_string_wf (map_gen_name m);
  sv_dims : in_s 16 (x_size m) /\ in_s 16 (y_size m) /\ in_s 16 (z_size m);
  sv_volume : exists a, int_result (x_size m * y_size m) = Some a /\
                        int_result (a * z_size m) = Some (block_array_count m);
  sv_blocks : exists a, block_array m = Some a /\ Forall is_byte a /\ block_array_count m = Z.of_nat (length a) /\
                        Z.of_nat (length a) <= 2147483647;
  sv_blocks2 : match block_array2 m with
               | None => block_array2_count m = 0
               | Some a => Forall is_byte a /\ block_array2_count m = Z.of_nat (length a) /\
                           block_array_count m <= 4 * Z.of_nat (length a) /\ Z.of_nat (length a) <= 2147483647
               end;
  sv_format : is_byte (format_version m);
  sv_spawn : let s := map_spawn_position m in let b := sp_block_position s in
             in_s 16 (bp_x b) /\ in_s 16 (bp_y b) /\ in_s 16 (bp_z b) /\ is_byte (sp_heading s) /\ is_byte (sp_pitch s);
  sv_custom : opt_wf custom_blocks_wf (custom_blocks_extension m);
  sv_colors : opt_wf env_colors_wf (env_colors_extension m);
  sv_appearance : opt_wf env_appearance_wf (env_appearance_extension m);
  sv_weather : opt_wf env_weather_wf (env_weather_extension m);
  sv_aspect : opt_wf env_aspect_wf (env_aspect_extension m);
  sv_definitions : opt_wf block_definitions_wf (block_definition_extensions m) }.

(** ** What comes back *)

(** The permission flags come back inverted. *)
Definition reloaded_definition (d : tc_map_block_definition) : tc_map_block_definition :=
  BlockDefinition (bd_textures d) (bd_coords d) (bd_fog d) (bd_block_name d) (bd_speed d)
    (negb (bd_allow_placement d)) (negb (bd_allow_deletion d)) (bd_transmits_light d) (bd_walk_sound d)
    (bd_shape d) (bd_block_draw d) (bd_block_id d).

(** Version 1 appearances get the defaults for the fields of version 2. *)
Definition reloaded_appearance (ys : Z) (e : tc_map_env_appearance_extension) : tc_map_env_appearance_extension :=
  if 2 <=? ap_extension_version e then e
  else EnvAppearanceExtension (ap_texture_url e) (ap_side_block e) (ap_edge_block e) (ap_side_level e)
         (s16 (ys + 2)) 0 (ap_extension_version e).

Definition reloaded_definitions (e : tc_map_block_definition_extension) : tc_map_block_definition_extension :=
  BlockDefinitionExtension (be_extension_version e) (map reloaded_definition (be_block_definitions e)).

Definition reloaded (m : tc_map) : tc_map :=
  Map (uuid m) (time_created m) (last_accessed m) (last_modified m) (map_name m)
    (created_by_service m) (created_by_username m) (map_gen_software m) (map_gen_name m)
    (block_array m) (block_array2 m) (block_array_count m) (block_array2_count m)
    (custom_blocks_extension m) (env_colors_extension m)
    (reloaded_appearance (y_size m) <$> env_appearance_extension m)
    (env_weather_extension m) None (reloaded_definitions <$> block_definition_extensions m)
    (x_size m) (y_size m) (z_size m) (map_spawn_position m) (format_version m) false.

(** ** Loading the extensions *)

Lemma u8_s8 b : is_byte b -> u8 (s8 b) = b.
Proof. intros Hb. width_lia. Qed.

Lemma string_content s : string_wf s -> c_content s = s.
Proof. intros (Hn & _). by apply c_content_no_nul. Qed.

Lemma strdup_wf s : string_wf s -> runs (p_strdup s) s.
Proof. intros (Hn & _). by apply runs_strdup. Qed.

Lemma take_whole (d : list Z) n : length d = n -> take n d = d.
Proof. intros <-. apply firstn_all. Qed.

#[local] Hint Resolve strdup_wf : runs.

Lemma load_custom_blocks_runs e :
  custom_blocks_wf e ->
  runs (load_custom_blocks (leaf (cstr "CustomBlocks") (TagCompound (lay_custom_blocks_entries e)))) e.
Proof.
  destruct e as [fb v l]. intros ((f & E & Hlen & Hb) & Hv & Hl). cbn in E, Hv, Hl. subst fb.
  unfold load_custom_blocks.
  eapply runs_bind; [by apply runs_or_fail|]. eapply runs_bind; [by apply runs_or_fail|].
  change (Z.to_nat 256) with 256%nat. rewrite (take_whole f 256 Hlen). rewrite Hlen. cbn [negb Z.eqb].
  run. cbn. change (Z.to_nat 256) with 256%nat. unfold load_version.
  replace (default 1 _) with (s32 v) by reflexivity. rewrite !wraps_small by (lia || done). rewrite ?(take_whole f 256 Hlen). apply runs_ret.
Qed.

Lemma load_color_runs parent tag c d p :
  nbt_find_by_name parent (cstr tag) = Some (leaf p (TagCompound
    (scalar "R" (TagShort (s16 (red c))) ++ scalar "G" (TagShort (s16 (green c))) ++
     scalar "B" (TagShort (s16 (blue c)))))) ->
  color_wf c -> (strcmp p (cstr "R") =? 0) = false -> (strcmp p (cstr "G") =? 0) = false ->
  (strcmp p (cstr "B") =? 0) = false ->
  runs (load_color parent tag d) c.
Proof.
  intros E (Hr & Hg & Hb) Er Eg Eb. unfold load_color. rewrite E. cbn [node_type leaf node_payload payload_type Z.eqb negb].
  unfold expect_short, nbt_expect, nbt_find_by_name, leaf. cbn -[strcmp cstr wraps]. rewrite Er, Eg, Eb.
  cbn -[wraps]. rewrite !wraps_small by (lia || done). destruct c. apply runs_ret.
Qed.

Lemma load_env_colors_runs e :
  env_colors_wf e -> runs (load_env_colors (leaf (cstr "EnvColors") (TagCompound (lay_env_colors_entries e)))) e.
Proof.
  destruct e as [sky cloud fog amb sun v]. intros (H1 & H2 & H3 & H4 & H5 & Hv). cbn in *. unfold load_env_colors.
  repeat (eapply runs_bind; [eapply load_color_runs; [reflexivity | eassumption | reflexivity..]|]).
  unfold load_version. replace (default 1 _) with (s32 v) by reflexivity. rewrite wraps_small by (lia || done). apply runs_ret.
Qed.

Lemma load_env_weather_runs e :
  env_weather_wf e -> runs (load_env_weather (leaf (cstr "EnvWeatherType") (TagCompound (lay_env_weather_entries e)))) e.
Proof.
  destruct e as [v w]. intros (Hv & Hw). cbn in *. unfold load_env_weather.
  eapply runs_bind; [by apply runs_or_fail|]. unfold load_version. replace (default 1 _) with (s32 v) by reflexivity.
  rewrite wraps_small, u8_s8 by (lia || done). apply runs_ret.
Qed.

Lemma load_env_appearance_runs ys e :
  env_appearance_wf e ->
  runs (load_env_appearance ys (leaf (cstr "EnvMapAppearance") (TagCompound (lay_env_appearance_entries e))))
    (reloaded_appearance ys e).
Proof.
  destruct e as [url sb eb sl cl mv v]. intros ((u & E & Hu) & Hsb & Heb & Hsl & Hcl & Hmv & Hv). cbn in *. subst url.
  unfold load_env_appearance, reloaded_appearance. cbn [ap_extension_version ap_texture_url ap_side_block ap_edge_block ap_side_level].
  replace (match expect_int _ "ExtensionVersion" with Some v => v | None => _ end) with (s32 v) by reflexivity.
  rewrite wraps_small by (lia || done).
  eapply runs_bind; [by apply runs_or_fail|]. cbn [default]. unfold id. rewrite string_content by done.
  eapply runs_bind; [by apply strdup_wf|].
  do 3 (eapply runs_bind; [by apply runs_or_fail|]).
  unfold lay_env_appearance_entries. cbn [ap_extension_version].
  destruct (2 <=? v).
  - do 2 (eapply runs_bind; [by apply runs_or_fail|]). cbn [ap_side_block ap_edge_block ap_side_level ap_cloud_level ap_maximum_view_distance].
    rewrite !u8_s8, !wraps_small by (lia || done). apply runs_ret.
  - rewrite !u8_s8 by done. rewrite (wraps_small 16 sl) by (lia || done). apply runs_ret.
Qed.

(** *** Block definitions *)

(** The tag of a definition is "Block" and decimal digits. *)
Lemma block_tag_digits id :
  is_byte id -> exists ds, block_tag_name id = cstr "Block" ++ ds /\ Forall (fun c => 48 <= c <= 57) ds /\ (1 <= length ds <= 3)%nat.
Proof.
  intros Hid. unfold block_tag_name. eexists. split; [reflexivity|]. unfold_widths.
  destruct (Z.ltb_spec id 10); [|destruct (Z.ltb_spec id 100)]; (split; [|cbn; lia]);
    rewrite ?Forall_cons, Forall_nil; split_and!; try done; div_mod_lia.
Qed.

(** It is none of the keys looked up inside. *)
Lemma block_tag_other id key c rest :
  is_byte id -> c_content key = c :: rest -> (c <> 66 \/ take 5 (c :: rest) <> cstr "Block" \/ ~ 48 <= default 0 (rest !! 4%nat) <= 57) ->
  (strcmp (block_tag_name id) key =? 0) = false.
Proof.
  intros Hid Hk Hor. apply Z.eqb_neq. intros E. unfold strcmp in E. apply strncmp_eq in E. rewrite Hk in E.
  destruct (block_tag_digits id Hid) as (ds & Eds & Hds & Hl). rewrite Eds in E.
  assert (c_content (cstr "Block" ++ ds) = cstr "Block" ++ ds) as Hc.
  { apply c_content_no_nul. apply Forall_app. split; [repeat constructor; discriminate|].
    eapply Forall_impl; [exact Hds|]. cbn. lia. }
  rewrite Hc in E. destruct ds as [|d ds]; [cbn in Hl; lia|].
  remember (Nat.max _ _) as n. assert (6 <= S n)%nat by (subst n; rewrite length_app; cbn; lia).
  do 5 (destruct n as [|n]; [lia|]). cbn [cstr String.list_ascii_of_string map app take] in E.
  destruct rest as [|r1 [|r2 [|r3 [|r4 [|r5 rest]]]]]; try discriminate E.
  injection E as <- <- <- <- <- <- _. inversion Hds; subst. cbn in Hor.
  destruct Hor as [H'|[H'|H']]; [done | by apply H' | cbn in H'; lia].
Qed.

(** The entries of a definition are its own: no lookup stops at its tag. *)
Lemma definition_find d key c rest :
  is_byte (bd_block_id d) -> c_content (cstr key) = c :: rest ->
  (c <> 66 \/ take 5 (c :: rest) <> cstr "Block" \/ ~ 48 <= default 0 (rest !! 4%nat) <= 57) ->
  nbt_find_by_name (lay_block_definition d) (cstr key)
  = first_some (fun n => nbt_find_by_name n (cstr key)) (children (node_payload (lay_block_definition d))).
Proof.
  intros Hid Hk Hor. unfold nbt_find_by_name at 1, lay_block_definition, leaf. cbn [nbt_find names_are_equal node_name].
  rewrite (wrapu_small 8 (bd_block_id d)) by done. rewrite (block_tag_other _ _ c rest) by done. done.
Qed.

Ltac in_definition := unfold expect_byte, expect_string, expect_float, expect_byte_array, nbt_expect;
  match goal with |- context [has_dot ?k] => change (has_dot k) with false end; cbn iota;
  (erewrite definition_find; [reflexivity | assumption | reflexivity |]);
  first [left; discriminate | right; right; vm_compute; intros [_ H]; by apply H].

Section OneDefinition.
Variable d : tc_map_block_definition.
Hypothesis Hid : is_byte (bd_block_id d).
Abbreviation node := (lay_block_definition d).

Lemma def_id : expect_byte node "ID" = Some (s8 (bd_block_id d)).
Proof using Hid. in_definition. Qed.
Lemma def_name : expect_string node "Name" = Some (c_content (default [] (bd_block_name d))).
Proof using Hid. in_definition. Qed.
Lemma def_speed : expect_float node "Speed" = Some (bd_speed d).
Proof using Hid. in_definition. Qed.
Lemma def_textures : expect_byte_array node "Textures" = Some (take 6 (bd_textures d)).
Proof using Hid. in_definition. Qed.
Lemma def_light : expect_byte node "TransmitsLight" = Some (s8 (bd_transmits_light d)).
Proof using Hid. in_definition. Qed.
Lemma def_sound : expect_byte node "WalkSound" = Some (s8 (bd_walk_sound d)).
Proof using Hid. in_definition. Qed.
Lemma def_shape : expect_byte node "Shape" = Some (s8 (bd_shape d)).
Proof using Hid. in_definition. Qed.
Lemma def_draw : expect_byte node "BlockDraw" = Some (s8 (bd_block_draw d)).
Proof using Hid. in_definition. Qed.
Lemma def_fog : expect_byte_array node "Fog" = Some (take 4 (bd_fog d)).
Proof using Hid. in_definition. Qed.
Lemma def_coords : expect_byte_array node "Coords" = Some (take 6 (bd_coords d)).
Proof using Hid. in_definition. Qed.
Lemma def_placement : load_allow node "AllowPlacement" = negb (bd_allow_placement d).
Proof using Hid.
  unfold load_allow. assert (expect_byte node "AllowPlacement" = Some (s8 (if bd_allow_placement d then 1 else 0))) as ->
    by in_definition. by destruct (bd_allow_placement d).
Qed.
Lemma def_deletion : load_allow node "AllowDeletion" = negb (bd_allow_deletion d).
Proof using Hid.
  unfold load_allow. assert (expect_byte node "AllowDeletion" = Some (s8 (if bd_allow_deletion d then 1 else 0))) as ->
    by in_definition. by destruct (bd_allow_deletion d).
Qed.
End OneDefinition.

Lemma runs_prefix child name n d : expect_byte_array child name = Some d -> length d = n -> runs (expect_prefix child name n) d.
Proof.
  intros E Hl. unfold expect_prefix. eapply runs_bind; [by apply runs_or_fail|].
  destruct (Nat.ltb_spec (length d) n); [lia|]. rewrite take_whole by done. apply runs_ret.
Qed.

Lemma load_block_definition_runs d :
  block_definition_wf d -> runs (load_block_definition (lay_block_definition d)) (reloaded_definition d).
Proof.
  intros ((Ht & _) & (Hc & _) & (Hf & _) & (s & E & Hs) & _ & Hli & Hso & Hsh & Hdr & Hid).
  unfold load_block_definition. run. run.
  eapply runs_bind; [by apply runs_or_fail, def_id|].
  eapply runs_bind; [by apply runs_or_fail, def_name|]. rewrite E. cbn [default]. unfold id. rewrite string_content by done.
  run.
  eapply runs_bind; [by apply runs_or_fail, def_speed|].
  eapply runs_bind; [eapply runs_prefix; [by apply def_textures | rewrite length_take; lia]|].
  eapply runs_bind; [by apply runs_or_fail, def_light|].
  eapply runs_bind; [by apply runs_or_fail, def_sound|].
  eapply runs_bind; [by apply runs_or_fail, def_shape|].
  eapply runs_bind; [by apply runs_or_fail, def_draw|].
  eapply runs_bind; [eapply runs_prefix; [by apply def_fog | rewrite length_take; lia]|].
  eapply runs_bind; [eapply runs_prefix; [by apply def_coords | rewrite length_take; lia]|].
  rewrite def_placement, def_deletion by done. unfold reloaded_definition. rewrite E.
  rewrite !take_whole by done. rewrite !u8_s8 by done. apply runs_ret.
Qed.

Lemma is_block_entry_definition d : is_byte (bd_block_id d) -> is_block_entry (lay_block_definition d) = true.
Proof.
  intros Hid. unfold is_block_entry, lay_block_definition, leaf. cbn [node_type node_payload payload_type node_name].
  rewrite (wrapu_small 8 (bd_block_id d)) by done. reflexivity.
Qed.

Lemma load_block_definitions_runs e :
  block_definitions_wf e ->
  runs (load_block_definitions (leaf (cstr "BlockDefinitions") (TagCompound (lay_block_definitions_entries e))))
    (reloaded_definitions e).
Proof.
  destruct e as [v ds]. intros (Hv & Hds). cbn in Hv, Hds. unfold load_block_definitions.
  cbn [node_payload leaf children]. unfold lay_block_definitions_entries. cbn [be_extension_version be_block_definitions].
  eapply (runs_bind _ _ (map reloaded_definition ds)).
  - unfold lay_version, scalar. cbn [app load_block_entries].
    change (is_block_entry (leaf (cstr "ExtensionVersion") (TagInt (s32 v)))) with false. cbn [negb].
    induction Hds as [|d ds Hd _ IH]; [apply runs_ret|]. cbn [map load_block_entries].
    rewrite is_block_entry_definition by apply Hd. cbn [negb].
    eapply runs_bind; [by apply load_block_definition_runs|]. eapply runs_bind; [exact IH|]. apply runs_ret.
  - unfold load_version. replace (default 1 _) with (s32 v) by reflexivity. rewrite wraps_small by (lia || done). apply runs_ret.
Qed.

(** ** Loading the whole map *)

Lemma runs_load_ext {A B} root path (f : nbt_node -> alloc_m A) (o : option B) (g : B -> nbt_node) (r : B -> A) :
  nbt_expect root path TAG_COMPOUND = g <$> o ->
  (forall b, o = Some b -> runs (f (g b)) (r b)) ->
  runs (load_ext root path f) (r <$> o).
Proof.
  intros E H. unfold load_ext. rewrite E. destruct o as [b|]; cbn; [|apply runs_ret].
  run. eapply runs_bind; [by apply H|]. apply runs_ret.
Qed.

Lemma runs_untyped m path segs name o :
  cstr path = join_path segs -> forallb segmentb segs = true -> segs <> [] ->
  follow segs (layout m) = text_node name o -> opt_string_wf o ->
  runs (untyped_string (layout m) path) o.
Proof.
  intros Hp Hs Hne Hf Ho. unfold untyped_string. rewrite (path_follow _ _ segs), Hf by done.
  destruct o as [s|]; cbn in *; [|apply runs_ret]. rewrite string_content by done.
  eapply runs_bind; [by apply strdup_wf|]. apply runs_ret.
Qed.

Section Load.
Variable m : tc_map.
Hypothesis Hm : saveable m.

Lemma load_name_runs path : runs (load_name (layout m) path) (default [] (map_name m)).
Proof using Hm.
  destruct (sv_name m Hm) as (s & E & Hs). unfold load_name. rewrite look_name, E. cbn [default]. unfold id.
  rewrite string_content by done. by apply strdup_wf.
Qed.

Lemma load_spawn_runs : runs (load_spawn (layout m)) (map_spawn_position m).
Proof using Hm.
  destruct (sv_spawn m Hm) as (Hx & Hy & Hz & Hh & Hp). unfold load_spawn.
  eapply runs_bind; [apply runs_or_fail, look_spawn_x|].
  eapply runs_bind; [apply runs_or_fail, look_spawn_y|].
  eapply runs_bind; [apply runs_or_fail, look_spawn_z|].
  eapply runs_bind; [apply runs_or_fail, look_spawn_h|].
  eapply runs_bind; [apply runs_or_fail, look_spawn_p|].
  rewrite !wraps_small, !u8_s8 by (lia || done). destruct (map_spawn_position m) as [[] ? ?]. apply runs_ret.
Qed.

(** The block arrays of a map without blocks are not allocated. *)
Lemma load_blocks_ends :
  exists a, block_array m = Some a /\
    ends (load_blocks (layout m) (x_size m) (y_size m) (z_size m))
      (if block_array_count m =? 0 then Fail else Done (a, block_array_count m, block_array2 m, block_array2_count m)).
Proof using Hm.
  destruct (sv_blocks m Hm) as (a & Ea & Hb & Hc & Hl). exists a. split; [done|]. unfold load_blocks.
  eapply loads_bind; [apply runs_or_fail, look_block_array|]. rewrite Ea. cbn [default]. unfold id.
  rewrite (wraps_small 32 (block_array_count m)) by width_lia.
  rewrite (take_whole a) by lia. rewrite (wrapu_small 64 (Z.of_nat (length a))) by width_lia.
  destruct (sv_volume m Hm) as (v & E1 & E2). rewrite E1. cbn [mbind option_bind]. rewrite E2.
  rewrite (wrapu_small 64 (block_array_count m)) by width_lia. rewrite Hc, Z.eqb_refl. cbn [negb].
  destruct (Z.eqb_spec (Z.of_nat (length a)) 0) as [->|Hne]; [intros h Hh; by exists h|].
  eapply loads_bind; [apply runs_malloc_bytes; lia|].
  rewrite look_block_array2. pose proof (sv_blocks2 m Hm) as H2. destruct (block_array2 m) as [a2|]; cbn [fmap option_fmap option_map].
  - destruct H2 as (Hb2 & Hc2 & Hle & Hl2). rewrite (wraps_small 32 (block_array2_count m)) by width_lia.
    rewrite (take_whole a2) by lia. rewrite (wrapu_small 64 (Z.of_nat (length a2))) by width_lia.
    rewrite (wrapu_small 64 (_ * 4)) by width_lia.
    destruct (Z.ltb_spec (Z.of_nat (length a2) * 4) (Z.of_nat (length a))); [lia|].
    eapply loads_bind; [apply runs_malloc_bytes; lia|]. rewrite <- Hc2. apply runs_ret.
  - rewrite H2. apply runs_ret.
Qed.

Lemma load_map_ends path now :
  ends (load_map (layout m) path now) (if block_array_count m =? 0 then Fail else Done (reloaded m)).
Proof using Hm.
  unfold load_map. eapply loads_bind; [apply runs_malloc|].
  eapply loads_bind; [apply runs_or_fail, look_format_version|].
  eapply loads_bind; [apply load_name_runs|].
  eapply loads_bind; [apply runs_or_fail, look_uuid|].
  destruct (sv_uuid m Hm) as [Hu _]. rewrite (take_whole (uuid m) 16 Hu), Hu. cbn [negb Nat.eqb TC_THREADS_UUID_LEN].
  destruct (sv_dims m Hm) as (Hx & Hy & Hz).
  eapply loads_bind; [apply runs_or_fail, look_x|]. eapply loads_bind; [apply runs_or_fail, look_y|].
  eapply loads_bind; [apply runs_or_fail, look_z|]. rewrite !wraps_small by (lia || done).
  destruct (sv_creator m Hm) as (C1 & C2 & C3 & C4).
  eapply loads_bind; [eapply runs_untyped; [| | |apply follow_service|done]; done|].
  eapply loads_bind; [eapply runs_untyped; [| | |apply follow_username|done]; done|].
  eapply loads_bind; [eapply runs_untyped; [| | |apply follow_software|done]; done|].
  eapply loads_bind; [eapply runs_untyped; [| | |apply follow_generator_name|done]; done|].
  eapply loads_bind; [apply runs_time_created|]. eapply loads_bind; [apply runs_last_accessed|].
  eapply loads_bind; [apply runs_last_modified|]. eapply loads_bind; [apply load_spawn_runs|].
  destruct load_blocks_ends as (a & Ea & Hbl). destruct (block_array_count m =? 0); [by apply ends_fail|].
  eapply loads_bind; [exact Hbl|]. cbv beta iota.
  eapply loads_bind; [apply (runs_load_ext _ _ _ _ _ id (expect_custom_blocks m)); intros e Ee;
    apply load_custom_blocks_runs; pose proof (sv_custom m Hm) as H; by rewrite Ee in H|].
  eapply loads_bind; [apply (runs_load_ext _ _ _ _ _ id (expect_env_colors m)); intros e Ee;
    apply load_env_colors_runs; pose proof (sv_colors m Hm) as H; by rewrite Ee in H|].
  eapply loads_bind; [unfold load_ext; rewrite expect_env_aspect; apply runs_ret|].
  eapply loads_bind; [apply (runs_load_ext _ _ _ _ _ (reloaded_appearance (y_size m)) (expect_env_appearance m)); intros e Ee;
    apply load_env_appearance_runs; pose proof (sv_appearance m Hm) as H; by rewrite Ee in H|].
  eapply loads_bind; [apply (runs_load_ext _ _ _ _ _ id (expect_env_weather m)); intros e Ee;
    apply load_env_weather_runs; pose proof (sv_weather m Hm) as H; by rewrite Ee in H|].
  eapply loads_bind; [apply (runs_load_ext _ _ _ _ _ reloaded_definitions (expect_block_definitions m)); intros e Ee;
    apply load_block_definitions_runs; pose proof (sv_definitions m Hm) as H; by rewrite Ee in H|].
  destruct (sv_times m Hm) as (T1 & T2 & T3). rewrite !wraps_small by (lia || done).
  rewrite u8_s8 by apply (sv_format m Hm). destruct (sv_name m Hm) as (s & Es & _).
  unfold reloaded. rewrite Ea, Es, !option_fmap_id. apply runs_ret.
Qed.
End Load.
