(* ===== verification/MapFileRoundtrip.v ===== *)
(** * Saving a map and loading it again

    The layout of a saveable map is a tree the binary format can represent;
    with the round trips of trees and files this gives the one of maps. *)

From S2P Require Import Prelude Protocol Buffer Nbt NbtSpec NbtTree NbtFile NbtFileProps.
From S2P Require Import Map MapFile MapFileSpec MapFileProps.

Local Open Scope Z_scope.

(** ** The layout is representable *)

Definition nodes_wf (l : list nbt_node) : Prop := Forall (node_wf true) l.

Create HintDb layout discriminated.

(** Literal names are. *)
Definition literalb (name : string) : bool :=
  forallb (fun c => (0 <? c) && (c <? 256)) (cstr name) && (Z.of_nat (length (cstr name)) <=? 32767).

Lemma literal_wf name : literalb name = true -> string_wf (cstr name).
Proof.
  unfold literalb, string_wf, no_nul. rewrite andb_true_iff, forallb_forall, !Forall_forall, Z.leb_le.
  intros [H ?]. split_and!; [| |done]; intros c Hc; apply list_elem_of_In in Hc; apply H in Hc; unfold_widths; lia.
Qed.

(** Payloads, as those of unnamed nodes. *)
Definition payload_wf (p : nbt_payload) : Prop := node_wf false (NbtNode None p).

Lemma leaf_wf name p : string_wf name -> payload_wf p -> node_wf true (leaf name p).
Proof. intros Hn [_ Hp]. split; [done | exact Hp]. Qed.

Lemma scalar_wf name p : literalb name = true -> payload_wf p -> nodes_wf (scalar name p).
Proof. intros Hn Hp. constructor; [|constructor]. by apply leaf_wf; [apply literal_wf|]. Qed.

Lemma byte_wf v : payload_wf (TagByte (s8 v)).
Proof. split; [done|]. by apply wraps_range. Qed.
Lemma short_wf v : payload_wf (TagShort (s16 v)).
Proof. split; [done|]. by apply wraps_range. Qed.
Lemma int_wf v : payload_wf (TagInt (s32 v)).
Proof. split; [done|]. by apply wraps_range. Qed.
Lemma long_wf v : payload_wf (TagLong (s64 v)).
Proof. split; [done|]. by apply wraps_range. Qed.
Lemma float_wf v : in_u 32 v -> payload_wf (TagFloat v).
Proof. by split. Qed.

Lemma compound_wf es : nodes_wf es -> payload_wf (TagCompound es).
Proof. intros H. split; [done|]. by induction H. Qed.

Lemma nodes_app l k : nodes_wf l -> nodes_wf k -> nodes_wf (l ++ k).
Proof. intros. by apply Forall_app. Qed.

Lemma nodes_nil : nodes_wf [].
Proof. constructor. Qed.

Lemma nodes_opt {A} (P : A -> Prop) (o : option A) f :
  opt_wf P o -> (forall a, P a -> nodes_wf (f a)) -> nodes_wf (opt o f).
Proof. intros Ho H. destruct o; [by apply H | constructor]. Qed.

Lemma text_wf name s : literalb name = true -> string_wf s -> nodes_wf (text name (Some s)).
Proof.
  intros Hn Hs. apply scalar_wf; [done|]. split; [done|]. cbn [default]. unfold id. by rewrite string_content.
Qed.

Lemma text_wf_ex name o : literalb name = true -> (exists s, o = Some s /\ string_wf s) -> nodes_wf (text name o).
Proof. intros Hn (s & -> & Hs). by apply text_wf. Qed.

(** An [int32_t] length keeps an array within what the format can hold. *)
Lemma bytes_wf name d len : literalb name = true -> Forall is_byte d -> len <= 2147483647 -> nodes_wf (bytes name d len).
Proof.
  intros Hn Hd Hl. apply scalar_wf; [done|]. split; [done|]. split; [by apply Forall_take|].
  rewrite length_take. lia.
Qed.

(** Descend into a layout; what remains are side conditions on the map. *)
Ltac layout :=
  repeat first
    [ assumption | apply nodes_nil
    | (apply text_wf_ex; [reflexivity|]) | (apply bytes_wf; [reflexivity | | lia]) | solve [eauto with layout]
    | (apply scalar_wf; [first [assumption | reflexivity]|]) | apply nodes_app | apply compound_wf
    | apply byte_wf | apply short_wf | apply int_wf | apply long_wf | (apply float_wf; assumption) ].

Lemma lay_color_wf tag c : literalb tag = true -> nodes_wf (lay_color tag c).
Proof. intros. unfold lay_color. layout. Qed.

Lemma lay_version_wf v : nodes_wf (lay_version v).
Proof. unfold lay_version. layout. Qed.

#[export] Hint Resolve lay_color_wf lay_version_wf : layout.

Lemma lay_creator_wf (s u : option (list Z)) tag t1 t2 :
  literalb tag = true -> literalb t1 = true -> literalb t2 = true -> opt_string_wf s -> opt_string_wf u ->
  nodes_wf (scalar tag (TagCompound (opt s (fun t => text t1 (Some t)) ++ opt u (fun t => text t2 (Some t))))).
Proof.
  intros ? ? ? Hs Hu. apply scalar_wf; [done|]. apply compound_wf, nodes_app; eapply nodes_opt; eauto using text_wf.
Qed.

Lemma lay_custom_blocks_wf e : custom_blocks_wf e -> nodes_wf (lay_custom_blocks e).
Proof.
  intros ((f & E & _ & Hf) & _). unfold lay_custom_blocks, lay_custom_blocks_entries. rewrite E. cbn [opt]. layout.
Qed.

Lemma lay_env_colors_wf e : nodes_wf (lay_env_colors e).
Proof. unfold lay_env_colors, lay_env_colors_entries. layout. Qed.

Lemma lay_env_aspect_wf e : env_aspect_wf e -> nodes_wf (lay_env_aspect e).
Proof. intros (? & ? & ?). unfold lay_env_aspect, lay_env_aspect_entries. layout. Qed.

Lemma lay_env_appearance_wf e : env_appearance_wf e -> nodes_wf (lay_env_appearance e).
Proof.
  intros (Hu & _). unfold lay_env_appearance, lay_env_appearance_entries.
  apply scalar_wf; [done|]. apply compound_wf. destruct (2 <=? _); layout.
Qed.

Lemma lay_env_weather_wf e : nodes_wf (lay_env_weather e).
Proof. unfold lay_env_weather, lay_env_weather_entries. layout. Qed.

Lemma block_tag_wf id : is_byte id -> string_wf (block_tag_name id).
Proof.
  intros Hid. destruct (block_tag_digits id Hid) as (ds & -> & Hds & Hl). unfold string_wf, no_nul.
  rewrite !Forall_app, length_app. split_and!;
    try (eapply Forall_impl; [exact Hds|]; cbn; unfold_widths; lia);
    try (repeat constructor; try discriminate; unfold_widths; lia).
  cbn [length cstr String.list_ascii_of_string map] . cbn. lia.
Qed.

Lemma lay_block_definition_wf d : block_definition_wf d -> node_wf true (lay_block_definition d).
Proof.
  intros ((_ & Ht) & (_ & Hc) & (_ & Hf) & Hn & Hs & _ & _ & _ & _ & Hid). apply leaf_wf.
  - rewrite wrapu_small by done. by apply block_tag_wf.
  - unfold lay_flag. layout.
Qed.

Lemma lay_block_definitions_wf e : block_definitions_wf e -> nodes_wf (lay_block_definitions e).
Proof.
  intros (_ & Hds). unfold lay_block_definitions, lay_block_definitions_entries.
  apply scalar_wf; [done|]. apply compound_wf, nodes_app; [layout|].
  unfold nodes_wf. rewrite Forall_map. eapply Forall_impl; [exact Hds|]. apply lay_block_definition_wf.
Qed.

Lemma lay_metadata_wf m : saveable m -> nodes_wf (lay_metadata m).
Proof.
  intros Hm. apply scalar_wf; [done|]. apply compound_wf. destruct (has_cpe m); [|constructor].
  apply scalar_wf; [done|]. apply compound_wf. unfold lay_extensions.
  repeat apply nodes_app; (eapply nodes_opt; [first
    [apply (sv_custom m Hm) | apply (sv_colors m Hm) | apply (sv_aspect m Hm) | apply (sv_appearance m Hm)
    | apply (sv_weather m Hm) | apply (sv_definitions m Hm)]|]);
    eauto using lay_custom_blocks_wf, lay_env_colors_wf, lay_env_aspect_wf, lay_env_appearance_wf,
      lay_env_weather_wf, lay_block_definitions_wf.
Qed.

Lemma layout_wf m : saveable m -> node_wf true (layout m).
Proof.
  intros Hm. apply leaf_wf; [by apply literal_wf|]. apply compound_wf.
  destruct (sv_uuid m Hm) as [_ Hu]. pose proof (sv_name m Hm) as Hn.
  destruct (sv_creator m Hm) as (H1 & H2 & H3 & H4). destruct (sv_blocks m Hm) as (a & Ea & Ha & _).
  unfold lay_entries. repeat apply nodes_app.
  all: try solve [unfold lay_head, lay_times, lay_spawn; layout].
  - unfold lay_created_by. destruct (created_by_service m), (created_by_username m); try apply nodes_nil;
      apply lay_creator_wf; done.
  - unfold lay_map_generator. destruct (map_gen_software m), (map_gen_name m); try apply nodes_nil;
      apply lay_creator_wf; done.
  - rewrite Ea. apply bytes_wf; [done | done | width_lia].
  - pose proof (sv_blocks2 m Hm) as H. destruct (block_array2 m); [|constructor]. destruct H as [H _].
    apply bytes_wf; [done | done | width_lia].
  - by apply lay_metadata_wf.
Qed.

(** ** The round trip *)

(** C6. Save and load: with zlib as documented, enough memory and a disk that
    takes what it is given, saving a dirty map whose fields fit their types
    succeeds, clears the dirty flag and fills the file.  Loading that file fails
    for a map without blocks, whose block array [p_malloc] does not allocate;
    any other map comes back but for three things, which [reloaded] spells out:
    the placement and deletion flags of block definitions come back inverted,
    the environment aspect is lost, and a version 1 appearance gets the default
    cloud level and view distance. *)
Theorem map_file_roundtrip {zl : Zlib} {laws : ZlibLaws} {ready : ZlibReady zl} {bo : ByteOrder} m fuel fp h1 h2 path now :
  saveable m -> is_dirty m = true -> plentiful h1 -> plentiful h2 ->
  rounds_for fuel (length (encode (layout m) true)) ->
  rounds_for fuel (length (deflated 31 (encode (layout m) true))) ->
  Z.of_nat (length (encode (layout m) true)) + 4096 <= 2 ^ 63 ->
  Z.of_nat (length (deflated 31 (encode (layout m) true))) + 4096 <= 2 ^ 63 ->
  f_contents fp = [] -> (forall k, f_read_ok fp k = true) -> (forall k n, f_write fp k n = Some n) ->
  exists fp',
    tc_map_save fuel m (Some fp) h1 = Some (true, set_clean m, Some fp') /\
    tc_map_load fuel path (Some fp') now h2 = Some (Done (if block_array_count m =? 0 then None else Some (reloaded m))).
Proof.
  intros Hm Hd Hh1 Hh2 Hf1 Hf2 Hs1 Hs2 He Hrd Hwr. pose proof (layout_wf m Hm) as Hwf.
  destruct (map_tree_layout m h1 Hh1) as (h1' & Et & Hh1').
  destruct (dump_file_delivers (layout m) fuel fp h1' STRAT_GZIP) as (h1'' & E1); try done.
  cbn [window] in E1. set (fp' := File _ _ _ _) in E1. exists fp'.
  destruct (parse_file_reads (layout m) fuel fp' h2 STRAT_GZIP) as (h2' & E2 & Hh2'); try done.
  destruct (load_map_ends m Hm path now h2' Hh2') as (h3 & E3 & _). split.
  - unfold tc_map_save. rewrite Hd. cbn [negb]. by rewrite Et, E1.
  - unfold tc_map_load, nbt_parse_path. rewrite E2. cbn [mbind option_bind negb Z.eqb node_type layout leaf node_payload payload_type].
    change (leaf (cstr "ClassicWorld") (TagCompound (lay_entries m))) with (layout m). rewrite E3.
    by destruct (block_array_count m =? 0).
Qed.

(** A 2 by 1 by 2 map with a creator, weather, an appearance of version 1 and
    one block definition. *)
Definition sample_map : tc_map :=
  Map (replicate 16 7) 1700000000 1700000001 1700000002 (Some (cstr "lobby")) None (Some (cstr "michael"))
    None None (Some [1; 2; 255; 0]) None 4 0 None None
    (Some (EnvAppearanceExtension (Some (cstr "http://t")) 7 8 32 40 512 1))
    (Some (EnvWeatherExtension 1 2)) None
    (Some (BlockDefinitionExtension 1
       [BlockDefinition [1; 2; 3; 4; 5; 6] [0; 0; 0; 16; 16; 16] [0; 255; 128; 64] (Some (cstr "Lamp")) 0x3F800000
          true false 1 3 16 0 200]))
    2 1 2 (SpawnPosition (BlockPosition 1 0 1) 128 0) 1 true.

Lemma sample_map_saveable : saveable sample_map.
Proof.
  assert (forall n, literalb n = true -> exists s, Some (cstr n) = Some s /\ string_wf s) as Hlit
    by (intros n Hn; eexists; split; [reflexivity | by apply literal_wf]).
  assert (forall l, forallb (fun c => (0 <=? c) && (c <? 256)) l = true -> Forall is_byte l) as Hbytes.
  { intros l H. apply List.Forall_forall. intros c Hc. rewrite forallb_forall in H. apply H in Hc. unfold_widths. lia. }
  constructor; cbn -[cstr is_byte in_s in_u]; unfold opt_string_wf;
    repeat first [ done | exact I | apply Hlit; reflexivity | apply Hbytes; reflexivity | apply literal_wf; reflexivity
                 | (eexists; split; [reflexivity|]) | (unfold_widths; lia) | constructor | lia ].
Qed.

Lemma map_file_roundtrip_witness :
  exists fp',
    @tc_map_save plain_zlib true 1 sample_map (Some (File [] (fun _ => true) (fun _ n => Some n) 0)) ample_heap
      = Some (true, set_clean sample_map, Some fp') /\
    @tc_map_load plain_zlib true 1 (cstr "maps/lobby.cw") (Some fp') (fun _ => 0) ample_heap
      = Some (Done (Some (reloaded sample_map))).
Proof.
  apply (@map_file_roundtrip plain_zlib plain_zlib_laws plain_zlib_ready true sample_map 1
    (File [] (fun _ => true) (fun _ n => Some n) 0) ample_heap ample_heap (cstr "maps/lobby.cw") (fun _ => 0));
    [exact sample_map_saveable | reflexivity | exact ample_heap_plentiful | exact ample_heap_plentiful
    | apply Nat.ltb_lt; vm_compute; reflexivity | apply Nat.ltb_lt; vm_compute; reflexivity
    | vm_compute; discriminate | vm_compute; discriminate | reflexivity | reflexivity | reflexivity].
Defined.
