(* ===== verification/MapMemory.v ===== *)
(** * Releasing a map

    [tc_map_finalize] of [src/map.c] on the blocks a map is made of: its
    strings, block arrays, lock and extensions, with the list of its block
    definitions ([src/plist.c] of plibsys).  A computation without a result
    has used or freed a block that is not there. *)

From stdpp Require Import gmap.
From S2P Require Import Prelude.

Local Open Scope Z_scope.

Definition ptr : Set := option nat.

(** What a block holds, as far as it points to others. *)
Inductive map_block :=
| BlockBytes
| BlockLock
| CustomBlocksExt (fallback_blocks : ptr)
| EnvColorsExt
| EnvAppearanceExt (texture_url : ptr)
| EnvWeatherExt
| EnvAspectExt
| BlockDefinitionExt (block_definitions : ptr)
| ListCell (data next : ptr)
| BlockDefinition (block_name : ptr).

(** The pointers of [tc_map_t]. *)
Record map_struct := MapStruct {
  p_name : ptr; p_created_by_service : ptr; p_created_by_username : ptr; p_map_gen_software : ptr; p_map_gen_name : ptr;
  p_block_array : ptr; p_block_array2 : ptr; p_lock : ptr;
  p_custom_blocks : ptr; p_env_colors : ptr; p_env_appearance : ptr; p_env_weather : ptr; p_env_aspect : ptr; p_block_definitions : ptr }.

Abbreviation store := (gmap nat map_block).

(** ** Computations *)

Definition RM (A : Type) : Type := store -> option (A * store).

#[export] Instance RM_ret : MRet RM := fun A a s => Some (a, s).
#[export] Instance RM_bind : MBind RM := fun A B k c s => match c s with Some (a, s') => k a s' | None => None end.

Definition read (p : ptr) : RM map_block := fun s => a ← p; b ← s !! a; Some (b, s).

Definition p_free (p : ptr) : RM unit := fun s =>
  match p with
  | None => Some (tt, s)
  | Some a => match s !! a with Some _ => Some (tt, delete a s) | None => None end
  end.

Definition when_set (p : ptr) (c : RM unit) : RM unit := match p with Some _ => c | None => mret tt end.
Definition bad {A} : RM A := fun _ => None.

(** ** Lists of plibsys *)

Fixpoint foreach_loop (fuel : nat) (cur : ptr) (func : ptr -> RM unit) : RM unit :=
  match cur, fuel with
  | None, _ => mret tt
  | Some _, O => bad
  | Some _, S fuel' =>
      c ← read cur;
      match c with
      | ListCell data _ =>
          _ ← func data;
          c' ← read cur;
          match c' with ListCell _ next => foreach_loop fuel' next func | _ => bad end
      | _ => bad
      end
  end.

(** A list has no more cells than there are blocks. *)
Definition p_list_foreach (l : ptr) (func : ptr -> RM unit) : RM unit := fun s => foreach_loop (size s) l func s.

Fixpoint free_loop (fuel : nat) (cur : ptr) : RM unit :=
  match cur, fuel with
  | None, _ => mret tt
  | Some _, O => bad
  | Some _, S fuel' =>
      c ← read cur;
      match c with ListCell _ next => _ ← p_free cur; free_loop fuel' next | _ => bad end
  end.

Definition p_list_free (l : ptr) : RM unit := fun s => free_loop (size s) l s.

(** ** [tc_map_finalize] *)

Definition free_block_definition (data : ptr) : RM unit :=
  b ← read data;
  match b with BlockDefinition block_name => _ ← p_free block_name; p_free data | _ => bad end.

Definition tc_map_finalize (map : map_struct) : RM unit :=
  _ ← when_set (p_name map) (p_free (p_name map));
  _ ← when_set (p_created_by_service map) (p_free (p_created_by_service map));
  _ ← when_set (p_created_by_username map) (p_free (p_created_by_username map));
  _ ← when_set (p_map_gen_software map) (p_free (p_map_gen_software map));
  _ ← when_set (p_map_gen_name map) (p_free (p_map_gen_name map));
  _ ← when_set (p_block_array map) (p_free (p_block_array map));
  _ ← when_set (p_block_array2 map) (p_free (p_block_array2 map));
  _ ← when_set (p_lock map) (p_free (p_lock map));
  _ ← when_set (p_custom_blocks map)
        (b ← read (p_custom_blocks map);
         match b with CustomBlocksExt fallback_blocks => _ ← p_free fallback_blocks; p_free (p_custom_blocks map) | _ => bad end);
  _ ← when_set (p_env_colors map) (p_free (p_env_colors map));
  _ ← when_set (p_env_appearance map)
        (b ← read (p_env_appearance map);
         match b with EnvAppearanceExt texture_url => _ ← p_free texture_url; p_free (p_env_appearance map) | _ => bad end);
  _ ← when_set (p_env_weather map) (p_free (p_env_weather map));
  _ ← when_set (p_env_aspect map) (p_free (p_env_aspect map));
  when_set (p_block_definitions map)
    (b ← read (p_block_definitions map);
     match b with
     | BlockDefinitionExt block_definitions =>
         _ ← p_list_foreach block_definitions free_block_definition;
         _ ← p_list_free block_definitions;
         p_free (p_block_definitions map)
     | _ => bad
     end).

(** ** What a map owns *)

Definition owned : Type := list (nat * map_block).

Definition own (p : ptr) (b : map_block) : owned := match p with Some a => [(a, b)] | None => [] end.

(** A definition with its cell, its block and its name. *)
Record def_layout := DefLayout { d_cell : nat; d_block : nat; d_name : ptr }.

Definition first_cell (ds : list def_layout) : ptr := d_cell <$> head ds.

Fixpoint cells (ds : list def_layout) : owned :=
  match ds with
  | [] => []
  | d :: ds' => (d_cell d, ListCell (Some (d_block d)) (first_cell ds')) :: cells ds'
  end.

Definition definition_blocks (d : def_layout) : owned := own (d_name d) BlockBytes ++ [(d_block d, BlockDefinition (d_name d))].

(** The inner pointers of the extensions. *)
Record inner := Inner { i_fallback : ptr; i_texture : ptr; i_defs : list def_layout }.

Definition map_owned (m : map_struct) (i : inner) : owned :=
  own (p_name m) BlockBytes ++ own (p_created_by_service m) BlockBytes ++ own (p_created_by_username m) BlockBytes ++
  own (p_map_gen_software m) BlockBytes ++ own (p_map_gen_name m) BlockBytes ++ own (p_block_array m) BlockBytes ++
  own (p_block_array2 m) BlockBytes ++ own (p_lock m) BlockLock ++
  (if p_custom_blocks m then own (i_fallback i) BlockBytes ++ own (p_custom_blocks m) (CustomBlocksExt (i_fallback i)) else []) ++
  own (p_env_colors m) EnvColorsExt ++
  (if p_env_appearance m then own (i_texture i) BlockBytes ++ own (p_env_appearance m) (EnvAppearanceExt (i_texture i)) else []) ++
  own (p_env_weather m) EnvWeatherExt ++ own (p_env_aspect m) EnvAspectExt ++
  (if p_block_definitions m then
     (concat (map definition_blocks (i_defs i)) ++ cells (i_defs i)) ++
     own (p_block_definitions m) (BlockDefinitionExt (first_cell (i_defs i)))
   else []).

(** ** Releasing *)

Definition held (s : store) (l : owned) : Prop := forall a b, (a, b) ∈ l -> s !! a = Some b.
Definition gone (l : owned) (s : store) : store := foldr (fun e => delete e.1) s l.

(** [c] frees the blocks [l], reading the blocks [keep] besides. *)
Definition releases (c : RM unit) (keep l : owned) : Prop := forall s,
  NoDup (l.*1 ++ keep.*1) -> held s (l ++ keep) -> c s = Some (tt, gone l s).

Lemma lookup_gone l s x : gone l s !! x = if decide (x ∈ l.*1) then None else s !! x.
Proof.
  induction l as [|[a b] l IH]; [by rewrite decide_False by apply not_elem_of_nil|].
  change (gone ((a, b) :: l) s) with (delete a (gone l s)). change ((a, b) :: l).*1 with (a :: l.*1).
  destruct (decide (x = a)) as [->|Hne].
  - rewrite lookup_delete_eq, decide_True by left. done.
  - rewrite lookup_delete_ne, IH by done. destruct (decide (x ∈ l.*1)).
    + rewrite decide_True by (by right). done.
    + rewrite decide_False by set_solver. done.
Qed.

Lemma gone_app l l' s : gone l' (gone l s) = gone (l ++ l') s.
Proof.
  apply map_eq. intros x. rewrite !lookup_gone, fmap_app.
  destruct (decide (x ∈ l'.*1)), (decide (x ∈ l.*1)), (decide (x ∈ l.*1 ++ l'.*1)); set_solver.
Qed.

Lemma held_gone l l' s : NoDup (l.*1 ++ l'.*1) -> held s l' -> held (gone l s) l'.
Proof.
  intros Hd Hh a b Hin. rewrite lookup_gone, decide_False; [by apply Hh|]. intros Hx. apply NoDup_app in Hd as (_ & Hd & _).
  apply (Hd a Hx). apply list_elem_of_fmap. by exists (a, b).
Qed.

Lemma releases_keep c keep keep' l : keep ⊆ keep' -> (NoDup keep'.*1 -> NoDup keep.*1) -> releases c keep l -> releases c keep' l.
Proof.
  intros Hs Hn H s Hd Hh. apply H; [|intros a b Hin; apply Hh; set_solver]. apply NoDup_app in Hd as (H1 & H2 & H3). apply NoDup_app. split_and!; [done | | by apply Hn].
  intros x Hx Hk. apply (H2 x Hx). apply list_elem_of_fmap in Hk as (e & -> & He). apply list_elem_of_fmap. exists e. split; [done | set_solver].
Qed.

Lemma releases_alone c keep l : releases c [] l -> releases c keep l.
Proof. apply releases_keep; [set_solver | intros _; apply NoDup_nil_2]. Qed.

Lemma releases_seq c1 c2 keep l1 l2 :
  releases c1 (l2 ++ keep) l1 -> releases c2 keep l2 -> releases (_ ← c1; c2) keep (l1 ++ l2).
Proof.
  intros H1 H2 s Hd Hh. rewrite fmap_app, <- app_assoc in Hd. unfold mbind, RM_bind. rewrite H1.
  - rewrite H2, gone_app; [done | by apply NoDup_app in Hd as (_ & _ & Hd)|]. apply held_gone; [by rewrite fmap_app|]. intros a b Hin. apply Hh. set_solver.
  - by rewrite fmap_app.
  - intros a b Hin. apply Hh. set_solver.
Qed.

Lemma releases_free p b keep : releases (p_free p) keep (own p b).
Proof.
  intros s _ Hh. destruct p as [a|]; [|done]. unfold p_free. rewrite (Hh a b) by (cbn; left). done.
Qed.

Lemma releases_read a b k keep l : (a, b) ∈ l ++ keep -> releases (k b) keep l -> releases (x ← read (Some a); k x) keep l.
Proof.
  intros Hin H s Hd Hh. unfold mbind, RM_bind, read. cbn. rewrite (Hh a b Hin). cbn. by apply H.
Qed.

Lemma releases_when p c keep l : match p with Some _ => releases c keep l | None => l = [] end -> releases (when_set p c) keep l.
Proof. destruct p; [done|]. by intros -> s _ _. Qed.

(** A held list is not longer than the store. *)
Lemma held_size s l : NoDup l.*1 -> held s l -> (length l <= size s)%nat.
Proof.
  intros Hd Hh. rewrite <- size_dom, <- (length_fmap fst), <- (size_list_to_set (C := gset nat)) by done. apply subseteq_size.
  intros x Hx%elem_of_list_to_set. apply list_elem_of_fmap in Hx as ([a b] & -> & Hin). apply elem_of_dom. exists b. by apply Hh.
Qed.

(** ** The list of definitions *)

Lemma definition_releases d keep : releases (free_block_definition (Some (d_block d))) keep (definition_blocks d).
Proof.
  unfold free_block_definition, definition_blocks.
  apply (releases_read _ (BlockDefinition (d_name d))); [rewrite !elem_of_app; left; right; left|].
  apply releases_seq; [apply releases_free | apply (releases_free (Some (d_block d)))].
Qed.

Lemma foreach_releases ds fuel keep : (length ds <= fuel)%nat ->
  releases (foreach_loop fuel (first_cell ds) free_block_definition) (cells ds ++ keep) (concat (map definition_blocks ds)).
Proof.
  revert fuel keep. induction ds as [|d ds IH]; intros fuel keep Hf; [by destruct fuel; intros s _ _|].
  destruct fuel as [|fuel]; [cbn in Hf; lia|]. cbn [foreach_loop first_cell head fmap option_fmap option_map map concat cells].
  apply (releases_read _ (ListCell (Some (d_block d)) (first_cell ds))); [set_solver|].
  apply releases_seq; [apply definition_releases|].
  apply (releases_read _ (ListCell (Some (d_block d)) (first_cell ds))); [set_solver|].
  apply (releases_keep _ (cells ds ++ keep)); [set_solver | by intros [_ ?]%NoDup_cons | apply IH; cbn in Hf; lia].
Qed.

Lemma list_releases ds fuel keep : (length ds <= fuel)%nat -> releases (free_loop fuel (first_cell ds)) keep (cells ds).
Proof.
  revert fuel keep. induction ds as [|d ds IH]; intros fuel keep Hf; [by destruct fuel; intros s _ _|].
  destruct fuel as [|fuel]; [cbn in Hf; lia|]. cbn [free_loop first_cell head fmap option_fmap option_map cells].
  apply (releases_read _ (ListCell (Some (d_block d)) (first_cell ds))); [set_solver|].
  change ((d_cell d, ListCell (Some (d_block d)) (first_cell ds)) :: cells ds) with ([(d_cell d, ListCell (Some (d_block d)) (first_cell ds))] ++ cells ds).
  apply releases_seq; [apply (releases_free (Some (d_cell d))) | apply IH; cbn in Hf; lia].
Qed.

Lemma length_cells ds : length (cells ds) = length ds.
Proof. induction ds as [|d ds IH]; [done|]. cbn. by rewrite IH. Qed.

Lemma p_list_foreach_releases ds keep : releases (p_list_foreach (first_cell ds) free_block_definition) (cells ds ++ keep) (concat (map definition_blocks ds)).
Proof.
  intros s Hd Hh. unfold p_list_foreach. apply (foreach_releases ds (size s) keep); [|done|done]. rewrite <- length_cells. apply held_size.
  - rewrite fmap_app in Hd. by apply NoDup_app in Hd as (_ & _ & [Hd _]%NoDup_app).
  - intros a b Hin. apply Hh. set_solver.
Qed.

Lemma p_list_free_releases ds keep : releases (p_list_free (first_cell ds)) keep (cells ds).
Proof.
  intros s Hd Hh. unfold p_list_free. apply (list_releases ds (size s) keep); [|done|done]. rewrite <- length_cells. apply held_size.
  - by apply NoDup_app in Hd as (Hd & _).
  - intros a b Hin. apply Hh. set_solver.
Qed.

(** ** The members *)

Lemma releases_ptr p b keep : releases (when_set p (p_free p)) keep (own p b).
Proof. apply releases_when. destruct p; [apply (releases_free (Some n)) | done]. Qed.

Lemma releases_custom_blocks p q keep :
  releases (when_set p (b ← read p; match b with CustomBlocksExt x => _ ← p_free x; p_free p | _ => bad end)) keep
    (if p then own q BlockBytes ++ own p (CustomBlocksExt q) else []).
Proof.
  apply releases_when. destruct p as [a|]; [|done]. apply (releases_read _ (CustomBlocksExt q)); [set_solver|].
  apply releases_seq; [apply releases_free | apply (releases_free (Some a))].
Qed.

Lemma releases_env_appearance p q keep :
  releases (when_set p (b ← read p; match b with EnvAppearanceExt x => _ ← p_free x; p_free p | _ => bad end)) keep
    (if p then own q BlockBytes ++ own p (EnvAppearanceExt q) else []).
Proof.
  apply releases_when. destruct p as [a|]; [|done]. apply (releases_read _ (EnvAppearanceExt q)); [set_solver|].
  apply releases_seq; [apply releases_free | apply (releases_free (Some a))].
Qed.

Lemma releases_definitions p ds keep :
  releases (when_set p (b ← read p;
      match b with
      | BlockDefinitionExt x => _ ← p_list_foreach x free_block_definition; _ ← p_list_free x; p_free p
      | _ => bad
      end)) keep
    (if p then (concat (map definition_blocks ds) ++ cells ds) ++ own p (BlockDefinitionExt (first_cell ds)) else []).
Proof.
  apply releases_when. destruct p as [a|]; [|done]. apply (releases_read _ (BlockDefinitionExt (first_cell ds))); [set_solver|].
  rewrite <- app_assoc. apply releases_seq; [rewrite <- app_assoc; apply p_list_foreach_releases|].
  apply releases_seq; [apply p_list_free_releases | apply (releases_free (Some a))].
Qed.

(** C29. Releasing a map frees exactly the blocks the map owns, each once: its
    strings and arrays, its lock, its extensions with what hangs on them and
    every block definition with its name and its list cell.  Nothing else is
    touched. *)
Theorem tc_map_finalize_frees m i s :
  NoDup (map_owned m i).*1 -> held s (map_owned m i) -> tc_map_finalize m s = Some (tt, gone (map_owned m i) s).
Proof.
  intros Hd Hh. enough (releases (tc_map_finalize m) [] (map_owned m i)) as H.
  { apply H; [by rewrite app_nil_r | by rewrite app_nil_r]. }
  clear. unfold tc_map_finalize, map_owned.
  do 8 (apply releases_seq; [apply releases_ptr|]).
  apply releases_seq; [by apply releases_custom_blocks|]. apply releases_seq; [apply releases_ptr|].
  apply releases_seq; [by apply releases_env_appearance|]. do 2 (apply releases_seq; [apply releases_ptr|]).
  by apply releases_definitions.
Qed.

(** ** A map with every kind of block *)

Definition sample_struct : map_struct :=
  (MapStruct (Some 0) None None None None (Some 1) None (Some 2) (Some 3) None (Some 5) None None (Some 6))%nat.
Definition sample_inner : inner := (Inner (Some 4) None [DefLayout 7 8 (Some 9); DefLayout 10 11 None])%nat.
Definition sample_store : store := list_to_map ((20%nat, BlockBytes) :: map_owned sample_struct sample_inner).

Lemma tc_map_finalize_frees_witness :
  tc_map_finalize sample_struct sample_store = Some (tt, gone (map_owned sample_struct sample_inner) sample_store) /\
  gone (map_owned sample_struct sample_inner) sample_store = {[20%nat := BlockBytes]}.
Proof.
  split; [|vm_compute; reflexivity].
  apply (tc_map_finalize_frees sample_struct sample_inner sample_store).
  - apply (bool_decide_unpack _). vm_compute. exact I.
  - intros a b. unfold sample_store. intros Hin. apply elem_of_list_to_map_1; [apply (bool_decide_unpack _); vm_compute; exact I | by right].
Defined.

(** Finalizing does not reset the pointers: a second time frees freed blocks.
    [tc_map_load] clears them after it, and a cleared map frees nothing. *)
Example finalized_twice : (_ ← tc_map_finalize sample_struct; tc_map_finalize sample_struct) sample_store = None /\
  tc_map_finalize (MapStruct None None None None None None None None None None None None None None) ∅ = Some (tt, ∅).
Proof. split; vm_compute; reflexivity. Qed.
