(* ===== verification/PList.v ===== *)
(** * Lists of plibsys

    Every function of [src/plibsys-master/src/plist.c] on linked cells in memory,
    and the list operation each of them is.  A computation without a result has
    used a cell that is not there or has run out of fuel; the loops get one turn
    more than there are cells.

    A list lies in memory as a chain of cells beside other cells, and every
    function is an operation on the list of its data that leaves the other
    cells alone. *)

From stdpp Require Import gmap.
From S2P Require Import Prelude.

Local Open Scope Z_scope.

Section PList.
Context {D : Type} {dec : EqDecision D}.

Definition plink : Type := option nat.

Record PList := Cell { l_data : D; l_next : plink }.

Definition set_next (q : plink) (c : PList) : PList := Cell (l_data c) q.

(** The cells in memory and the allocator. *)
Record memory := Memory { m_cells : gmap nat PList; m_heap : heap }.

Definition PM (A : Type) : Type := memory -> option (A * memory).

#[global] Instance PM_ret : MRet PM := fun A a m => Some (a, m).
#[global] Instance PM_bind : MBind PM := fun A B k c m => match c m with Some (a, m') => k a m' | None => None end.

Definition cell (p : plink) : PM PList := fun m =>
  match p with None => None | Some a => match m_cells m !! a with Some c => Some (c, m) | None => None end end.
Definition store_next (p q : plink) : PM unit := fun m =>
  match p with
  | None => None
  | Some a => match m_cells m !! a with Some c => Some (tt, Memory (<[a := set_next q c]> (m_cells m)) (m_heap m)) | None => None end
  end.
Definition free_cell (p : plink) : PM unit := fun m =>
  match p with
  | None => None
  | Some a => match m_cells m !! a with Some _ => Some (tt, Memory (delete a (m_cells m)) (m_heap m)) | None => None end
  end.
Definition cell_count : PM nat := fun m => Some (S (size (m_cells m)), m).
Definition out_of_fuel {A} : PM A := fun _ => None.

(** Where [p_malloc0] puts a cell. *)
Variable place : gset nat -> nat.

Definition new_cell (d : D) : PM plink := fun m =>
  let '(ok, h) := p_malloc (m_heap m) in
  if ok then let a := place (dom (m_cells m)) in Some (Some a, Memory (<[a := Cell d None]> (m_cells m)) h)
  else Some (None, Memory (m_cells m) h).

(** ** The functions *)

(** [for (cur = list; cur->next != NULL; cur = cur->next)] *)
Fixpoint last_loop (fuel : nat) (cur : plink) : PM plink :=
  match fuel with
  | O => out_of_fuel
  | S fuel' => c ← cell cur; match l_next c with None => mret cur | Some _ => last_loop fuel' (l_next c) end
  end.

Definition p_list_append (list : plink) (data : D) : PM plink :=
  item ← new_cell data;
  match item with
  | None => mret list
  | Some _ =>
      match list with
      | None => mret item
      | Some _ => fuel ← cell_count; cur ← last_loop fuel list; _ ← store_next cur item; mret list
      end
  end.

Fixpoint remove_loop (fuel : nat) (head prev cur : plink) (data : D) : PM plink :=
  match fuel with
  | O => out_of_fuel
  | S fuel' =>
      match cur with
      | None => mret head
      | Some _ =>
          c ← cell cur;
          if bool_decide (l_data c = data) then
            head ← match prev with None => mret (l_next c) | Some _ => _ ← store_next prev (l_next c); mret head end;
            _ ← free_cell cur;
            mret head
          else remove_loop fuel' head cur (l_next c) data
      end
  end.

Definition p_list_remove (list : plink) (data : D) : PM plink :=
  match list with None => mret None | Some _ => fuel ← cell_count; remove_loop fuel list None list data end.

(** The callback works on the user's data and not on the cells. *)
Fixpoint foreach_cells {U : Type} (fuel : nat) (cur : plink) (func : D -> U -> U) (user_data : U) : PM U :=
  match fuel with
  | O => out_of_fuel
  | S fuel' =>
      match cur with
      | None => mret user_data
      | Some _ => c ← cell cur; foreach_cells fuel' (l_next c) func (func (l_data c) user_data)
      end
  end.

Definition p_list_foreach {U : Type} (list : plink) (func : D -> U -> U) (user_data : U) : PM U :=
  fuel ← cell_count; foreach_cells fuel list func user_data.

Fixpoint free_cells (fuel : nat) (cur : plink) : PM unit :=
  match fuel with
  | O => out_of_fuel
  | S fuel' =>
      match cur with
      | None => mret tt
      | Some _ => c ← cell cur; _ ← free_cell cur; free_cells fuel' (l_next c)
      end
  end.

Definition p_list_free (list : plink) : PM unit := fuel ← cell_count; free_cells fuel list.

Definition p_list_last (list : plink) : PM plink :=
  match list with None => mret None | Some _ => fuel ← cell_count; last_loop fuel list end.

Fixpoint length_loop (fuel : nat) (cur : plink) (ret : Z) : PM Z :=
  match fuel with
  | O => out_of_fuel
  | S fuel' => c ← cell cur; match l_next c with None => mret ret | Some _ => length_loop fuel' (l_next c) (ret + 1) end
  end.

Definition p_list_length (list : plink) : PM Z :=
  match list with None => mret 0 | Some _ => fuel ← cell_count; length_loop fuel list 1 end.

Definition p_list_prepend (list : plink) (data : D) : PM plink :=
  item ← new_cell data;
  match item with
  | None => mret list
  | Some _ => match list with None => mret item | Some _ => _ ← store_next item list; mret item end
  end.

Fixpoint reverse_loop (fuel : nat) (prev cur : plink) : PM plink :=
  match fuel with
  | O => out_of_fuel
  | S fuel' =>
      match cur with
      | None => mret prev
      | Some _ => c ← cell cur; _ ← store_next cur prev; reverse_loop fuel' cur (l_next c)
      end
  end.

Definition p_list_reverse (list : plink) : PM plink :=
  match list with
  | None => mret None
  | Some _ => c ← cell list; _ ← store_next list None; fuel ← cell_count; reverse_loop fuel list (l_next c)
  end.
End PList.

Section Chains.
Context {D : Type} {dec : EqDecision D}.
Notation memory := (@memory D).
Notation entry := (nat * D)%type.
Notation cells := (list (nat * @PList D)).
Implicit Types (es : list entry) (m : memory) (rest : cells).

Definition first es (q : plink) : plink := match es with [] => q | e :: _ => Some e.1 end.

(** The cells of a chain that ends at [q]. *)
Fixpoint chain es (q : plink) : cells :=
  match es with [] => [] | (a, d) :: es' => (a, Cell d (first es' q)) :: chain es' q end.

Lemma plist_chain_app es es' q : chain (es ++ es') q = chain es (first es' q) ++ chain es' q.
Proof. induction es as [|[a d] es IH]; cbn [app chain]; [done|]. rewrite IH. by destruct es. Qed.

Lemma chain_addrs es q : (chain es q).*1 = es.*1.
Proof. induction es as [|[a d] es IH]; [done|]. cbn [chain fmap list_fmap fst]. by rewrite IH. Qed.

(** The memory is made of these cells. *)
Definition holds m rest : Prop := m_cells m = list_to_map rest /\ NoDup rest.*1.

Lemma holds_perm m rest rest' : holds m rest -> rest ≡ₚ rest' -> holds m rest'.
Proof. intros [Hm Hd] Hp. split; [|by rewrite <- Hp]. rewrite Hm. by apply list_to_map_proper. Qed.

Lemma bind_cell {B} a c (k : PList -> PM B) m rest :
  holds m ((a, c) :: rest) -> (cell (Some a) ≫= k) m = k c m.
Proof. intros [Hm _]. unfold mbind, PM_bind, cell. rewrite Hm. cbn. by rewrite lookup_insert_eq. Qed.

Lemma bind_store {B} a c q (k : unit -> PM B) m rest :
  holds m ((a, c) :: rest) ->
  exists m', (store_next (Some a) q ≫= k) m = k tt m' /\ holds m' ((a, set_next q c) :: rest) /\ m_heap m' = m_heap m.
Proof.
  intros [Hm Hd]. exists (Memory (list_to_map ((a, set_next q c) :: rest)) (m_heap m)). split; [|by split].
  unfold mbind, PM_bind, store_next. rewrite Hm. cbn. rewrite lookup_insert_eq. by rewrite insert_insert_eq.
Qed.

Lemma bind_free {B} a c (k : unit -> PM B) m rest :
  holds m ((a, c) :: rest) ->
  exists m', (free_cell (Some a) ≫= k) m = k tt m' /\ holds m' rest /\ m_heap m' = m_heap m.
Proof.
  intros [Hm Hd]. cbn in Hd. apply NoDup_cons in Hd as [Ha Hd]. exists (Memory (list_to_map rest) (m_heap m)). split; [|by split].
  unfold mbind, PM_bind, free_cell. rewrite Hm. cbn. rewrite lookup_insert_eq, delete_insert_eq, delete_id; [done|].
  by apply not_elem_of_list_to_map_1.
Qed.

Lemma bind_count {B} (k : nat -> PM B) m rest : holds m rest -> (cell_count ≫= k) m = k (S (length rest)) m.
Proof. intros [Hm Hd]. unfold mbind, PM_bind, cell_count. rewrite Hm. by rewrite map_size_list_to_map. Qed.

Variable place : gset nat -> nat.
Hypothesis place_fresh : forall X, place X ∉ X.

Lemma bind_new {B} d (k : plink -> PM B) m rest :
  holds m rest ->
  (new_cell place d ≫= k) m =
    if (p_malloc (m_heap m)).1 then
      k (Some (place (dom (m_cells m)))) (Memory (<[place (dom (m_cells m)) := Cell d None]> (m_cells m)) (p_malloc (m_heap m)).2)
    else k None (Memory (m_cells m) (p_malloc (m_heap m)).2).
Proof. intros _. unfold mbind, PM_bind, new_cell. by destruct (p_malloc (m_heap m)) as [[] h]. Qed.

Lemma holds_new d m rest h :
  holds m rest ->
  holds (Memory (<[place (dom (m_cells m)) := Cell d None]> (m_cells m)) h) ((place (dom (m_cells m)), Cell d None) :: rest).
Proof using place_fresh.
  intros [Hm Hd]. split; [cbn; by rewrite Hm at 2|]. cbn [fmap list_fmap fst]. apply NoDup_cons. split; [|done].
  apply (not_elem_of_list_to_map_2 (M := gmap nat)). rewrite <- Hm. apply not_elem_of_dom, place_fresh.
Qed.

(** ** Loops *)

Lemma last_loop_spec es a d m rest : forall fuel,
  holds m (chain (es ++ [(a, d)]) None ++ rest) -> (length es < fuel)%nat ->
  last_loop fuel (first (es ++ [(a, d)]) None) m = Some (Some a, m).
Proof.
  revert rest. induction es as [|[b x] es IH]; intros rest fuel Hh Hf; (destruct fuel as [|fuel]; [lia|]); cbn [app first fst last_loop chain] in *.
  - by rewrite (bind_cell _ _ _ _ _ Hh).
  - rewrite (bind_cell _ _ _ _ _ Hh). cbn [l_next].
    assert (exists y, first (es ++ [(a, d)]) None = Some y) as [y Ey] by (destruct es; by eexists). rewrite Ey, <- Ey. cbn [length] in Hf.
    apply (IH ((b, Cell x (first (es ++ [(a, d)]) None)) :: rest)); [|lia]. eapply holds_perm; [exact Hh|]. solve_Permutation.
Qed.

Lemma length_loop_spec es a d m rest : forall fuel n,
  holds m (chain (es ++ [(a, d)]) None ++ rest) -> (length es < fuel)%nat ->
  length_loop fuel (first (es ++ [(a, d)]) None) n m = Some (n + Z.of_nat (length es), m).
Proof.
  revert rest. induction es as [|[b x] es IH]; intros rest fuel n Hh Hf; (destruct fuel as [|fuel]; [lia|]); cbn [app first fst length_loop chain] in *.
  - rewrite (bind_cell _ _ _ _ _ Hh). cbn. by rewrite Z.add_0_r.
  - rewrite (bind_cell _ _ _ _ _ Hh). cbn [l_next].
    assert (exists y, first (es ++ [(a, d)]) None = Some y) as [y Ey] by (destruct es; by eexists). rewrite Ey, <- Ey. cbn [length] in Hf.
    rewrite (IH ((b, Cell x (first (es ++ [(a, d)]) None)) :: rest)); [|eapply holds_perm; [exact Hh|]; solve_Permutation|lia].
    do 2 f_equal. cbn [length]. lia.
Qed.

Lemma foreach_cells_spec {U} (func : D -> U -> U) es m rest : forall fuel u,
  holds m (chain es None ++ rest) -> (length es < fuel)%nat ->
  foreach_cells fuel (first es None) func u m = Some (foldl (fun u e => func e.2 u) u es, m).
Proof.
  revert rest. induction es as [|[b x] es IH]; intros rest fuel u Hh Hf; (destruct fuel as [|fuel]; [lia|]); cbn [first fst foreach_cells chain app foldl length snd] in *; [done|].
  rewrite (bind_cell _ _ _ _ _ Hh). cbn [l_next l_data].
  apply (IH ((b, Cell x (first es None)) :: rest)); [|lia]. eapply holds_perm; [exact Hh|]. solve_Permutation.
Qed.

Lemma free_cells_spec es rest : forall m fuel,
  holds m (chain es None ++ rest) -> (length es < fuel)%nat ->
  exists m', free_cells fuel (first es None) m = Some (tt, m') /\ holds m' rest /\ m_heap m' = m_heap m.
Proof.
  induction es as [|[b x] es IH]; intros m fuel Hh Hf; (destruct fuel as [|fuel]; [lia|]); cbn [first fst free_cells chain app length] in *; [by exists m|].
  rewrite (bind_cell _ _ _ _ _ Hh). cbn [l_next]. destruct (bind_free b _ (fun _ => free_cells fuel (first es None)) m _ Hh) as (m1 & -> & H1 & E1).
  destruct (IH m1 fuel H1 ltac:(lia)) as (m' & -> & H2 & E2). exists m'. split; [done|]. split; [done|]. congruence.
Qed.

Lemma reverse_loop_spec es : forall m done_es rest fuel,
  holds m (chain done_es None ++ chain es None ++ rest) -> (length es < fuel)%nat ->
  exists m', reverse_loop fuel (first done_es None) (first es None) m = Some (first (rev es ++ done_es) None, m') /\
    holds m' (chain (rev es ++ done_es) None ++ rest) /\ m_heap m' = m_heap m.
Proof.
  induction es as [|[b x] es IH]; intros m done_es rest fuel Hh Hf; (destruct fuel as [|fuel]; [lia|]); cbn [first fst reverse_loop chain app length rev] in *; [by exists m|].
  assert (holds m ((b, Cell x (first es None)) :: chain done_es None ++ chain es None ++ rest)) as Hh'
    by (eapply holds_perm; [exact Hh|]; solve_Permutation).
  rewrite (bind_cell _ _ _ _ _ Hh'). cbn [l_next]. 
  destruct (bind_store b _ (first done_es None) (fun _ => reverse_loop fuel (Some b) (first es None)) m _ Hh') as (m1 & -> & H1 & E1).
  destruct (IH m1 ((b, x) :: done_es) rest fuel) as (m' & E2 & H2 & E3); [|lia|].
  { eapply holds_perm; [exact H1|]. cbn [chain]. solve_Permutation. }
  cbn [first fst] in E2. exists m'. rewrite <- app_assoc. cbn [app]. split; [exact E2|]. split; [exact H2|]. congruence.
Qed.

Lemma remove_loop_spec data es2 x rest : forall es1 m fuel,
  holds m (chain (es1 ++ [x]) (first es2 None) ++ chain es2 None ++ rest) -> (length es2 < fuel)%nat ->
  exists m', remove_loop fuel (first (es1 ++ [x]) None) (Some x.1) (first es2 None) data m =
      Some (first (es1 ++ [x]) None, m') /\ m_heap m' = m_heap m /\
    ((Forall (fun e => e.2 <> data) es2 /\ m' = m) \/
     exists ea a eb, es2 = ea ++ (a, data) :: eb /\ Forall (fun e => e.2 <> data) ea /\
       holds m' (chain ((es1 ++ [x]) ++ ea ++ eb) None ++ rest)).
Proof using dec.
  induction es2 as [|[b d] es2 IH] in x |- *; intros es1 m fuel Hh Hf; (destruct fuel as [|fuel]; [lia|]); cbn [first fst remove_loop].
  { exists m. split; [done|]. split; [done|]. by left. }
  cbn [chain app] in Hh. cbn [length] in Hf.
  assert (holds m ((b, Cell d (first es2 None)) :: chain (es1 ++ [x]) (Some b) ++ chain es2 None ++ rest)) as Hb
    by (eapply holds_perm; [exact Hh|]; cbn [first fst]; solve_Permutation).
  rewrite (bind_cell _ _ _ _ _ Hb). cbn [l_data l_next]. destruct (decide (d = data)) as [->|Hne].
  - rewrite bool_decide_eq_true_2 by done. rewrite plist_chain_app in Hb. destruct x as [y dy]. cbn [chain first fst] in Hb.
    assert (holds m ((y, Cell dy (Some b)) :: (b, Cell data (first es2 None)) :: chain es1 (Some y) ++ chain es2 None ++ rest)) as Hy
      by (eapply holds_perm; [exact Hb|]; solve_Permutation).
    set (k := fun _ : unit => (mret (first (es1 ++ [(y, dy)]) None) : PM plink)).
    destruct (bind_store y _ (first es2 None) k m _ Hy) as (m1 & E1 & H1 & F1).
    assert (holds m1 ((b, Cell data (first es2 None)) :: (y, Cell dy (first es2 None)) :: chain es1 (Some y) ++ chain es2 None ++ rest)) as Hb1
      by (eapply holds_perm; [exact H1|]; solve_Permutation).
    destruct (bind_free b _ k m1 _ Hb1) as (m2 & E2 & H2 & F2).
    exists m2. cbn [fst]. split; [|split; [congruence|]].
    + unfold mbind at 1, PM_bind at 1. rewrite E1. exact E2.
    + right. exists [], b, es2. split; [done|]. split; [constructor|]. cbn [app].
      eapply holds_perm; [exact H2|]. rewrite !plist_chain_app. cbn [chain first fst]. solve_Permutation.
  - rewrite bool_decide_eq_false_2 by done.
    destruct (IH (b, d) (es1 ++ [x]) m fuel) as (m' & E1 & F1 & H1); [|lia|].
    { eapply holds_perm; [exact Hh|]. rewrite (plist_chain_app (es1 ++ [x])). cbn [chain first fst]. solve_Permutation. }
    assert (first ((es1 ++ [x]) ++ [(b, d)]) None = first (es1 ++ [x]) None) as Ef by (by destruct es1). rewrite Ef in E1.
    cbn [fst] in E1. exists m'. split; [exact E1|]. split; [done|]. destruct H1 as [[H1 ->]|(ea & a & eb & -> & Ha & H1)].
    + left. split; [by constructor|done].
    + right. exists ((b, d) :: ea), a, eb. split; [done|]. split; [by constructor|].
      eapply holds_perm; [exact H1|]. by rewrite <- !app_assoc.
Qed.

(** ** The functions *)

(** A list of these data lies at [p] beside the cells [rest]. *)
Definition is_list m (p : plink) (ds : list D) rest : Prop :=
  exists es, es.*2 = ds /\ p = first es None /\ holds m (chain es None ++ rest).

Lemma chain_length es rest m : holds m (chain es None ++ rest) -> (length es < S (length (chain es None ++ rest)))%nat.
Proof. intros _. rewrite length_app, <- (length_fmap fst (chain es None)), chain_addrs, length_fmap. lia. Qed.

Theorem p_list_append_spec m p ds d rest :
  is_list m p ds rest ->
  exists p' m', p_list_append place p d m = Some (p', m') /\ m_heap m' = (p_malloc (m_heap m)).2 /\
    is_list m' p' (if (p_malloc (m_heap m)).1 then ds ++ [d] else ds) rest.
Proof using place_fresh.
  intros (es & <- & -> & Hh). unfold p_list_append. rewrite (bind_new d _ m _ Hh).
  destruct (p_malloc (m_heap m)).1; cycle 1.
  { exists (first es None), (Memory (m_cells m) (p_malloc (m_heap m)).2). split; [done|]. split; [done|]. by exists es. }
  pose proof (holds_new d m _ (p_malloc (m_heap m)).2 Hh) as Hn. set (n := place (dom (m_cells m))) in *. set (m1 := Memory _ _) in *.
  destruct es as [|e0 es0 _] using rev_ind; cbn [first].
  { exists (Some n), m1. split; [done|]. split; [done|]. by exists [(n, d)]. }
  assert (exists y, first (es0 ++ [e0]) None = Some y) as [y Ey] by (destruct es0; by eexists). rewrite Ey, <- Ey. destruct e0 as [a x].
  rewrite (bind_count _ _ _ Hn). unfold mbind at 1, PM_bind at 1.
  assert (holds m1 (chain (es0 ++ [(a, x)]) None ++ (n, Cell d None) :: rest)) as Hn' by (eapply holds_perm; [exact Hn|]; solve_Permutation).
  rewrite (last_loop_spec es0 a x m1 _ _ Hn'); [|apply chain_length in Hh; rewrite length_app in Hh; cbn [length] in *; lia].
  rewrite plist_chain_app in Hn'. cbn [chain first fst] in Hn'.
  assert (holds m1 ((a, Cell x None) :: chain es0 (Some a) ++ (n, Cell d None) :: rest)) as Ha by (eapply holds_perm; [exact Hn'|]; solve_Permutation).
  destruct (bind_store a _ (Some n) (fun _ => mret (first (es0 ++ [(a, x)]) None) : PM plink) m1 _ Ha) as (m2 & -> & H2 & F2).
  exists (first (es0 ++ [(a, x)]) None), m2. split; [done|]. split; [by rewrite F2|]. exists ((es0 ++ [(a, x)]) ++ [(n, d)]).
  split; [by rewrite fmap_app|]. split; [by destruct es0|]. eapply holds_perm; [exact H2|].
  rewrite !plist_chain_app. cbn [chain first fst]. solve_Permutation.
Qed.

Theorem p_list_prepend_spec m p ds d rest :
  is_list m p ds rest ->
  exists p' m', p_list_prepend place p d m = Some (p', m') /\ m_heap m' = (p_malloc (m_heap m)).2 /\
    is_list m' p' (if (p_malloc (m_heap m)).1 then d :: ds else ds) rest.
Proof using place_fresh.
  intros (es & <- & -> & Hh). unfold p_list_prepend. rewrite (bind_new d _ m _ Hh).
  destruct (p_malloc (m_heap m)).1; cycle 1.
  { exists (first es None), (Memory (m_cells m) (p_malloc (m_heap m)).2). split; [done|]. split; [done|]. by exists es. }
  pose proof (holds_new d m _ (p_malloc (m_heap m)).2 Hh) as Hn. set (n := place (dom (m_cells m))) in *. set (m1 := Memory _ _) in *.
  destruct es as [|[a x] es]; cbn [first fst].
  { exists (Some n), m1. split; [done|]. split; [done|]. by exists [(n, d)]. }
  match goal with |- context [(_ ≫= ?k) m1] => destruct (bind_store n _ (Some a) k m1 _ Hn) as (m2 & E2 & H2 & F2) end.
  exists (Some n), m2. split; [exact E2|]. split; [by rewrite F2|]. exists ((n, d) :: (a, x) :: es). done.
Qed.

Theorem p_list_remove_spec m p ds d rest :
  is_list m p ds rest ->
  exists p' m', p_list_remove p d m = Some (p', m') /\ m_heap m' = m_heap m /\
    ((d ∉ ds /\ p' = p /\ m' = m) \/ exists d1 d2, ds = d1 ++ d :: d2 /\ d ∉ d1 /\ is_list m' p' (d1 ++ d2) rest).
Proof using dec.
  intros (es & <- & -> & Hh). unfold p_list_remove. destruct es as [|[a x] es]; cbn [first fst].
  { exists None, m. split; [done|]. split; [done|]. left. split; [by apply not_elem_of_nil|done]. }
  rewrite (bind_count _ _ _ Hh). apply chain_length in Hh as Hf. cbn [chain app length remove_loop] in *.
  rewrite (bind_cell _ _ _ _ _ Hh). cbn [l_data l_next]. destruct (decide (x = d)) as [->|Hne].
  - rewrite bool_decide_eq_true_2 by done.
    destruct (bind_free a _ (fun _ => mret (first es None) : PM plink) m _ Hh) as (m1 & E1 & H1 & F1).
    exists (first es None), m1. split; [exact E1|]. split; [done|]. right. exists [], es.*2. split; [done|]. split; [by apply not_elem_of_nil|]. by exists es.
  - rewrite bool_decide_eq_false_2 by done.
    destruct (remove_loop_spec d es (a, x) rest [] m (S (length (chain es None ++ rest)))) as (m' & E1 & F1 & H1); [exact Hh|lia|].
    cbn [app first fst] in E1. exists (Some a), m'. split; [exact E1|]. split; [done|].
    assert (forall l : list entry, Forall (fun e => e.2 <> d) l -> d ∉ l.*2) as Hnot.
    { intros l Hl (e & -> & Hin)%list_elem_of_fmap. rewrite Forall_forall in Hl. by apply (Hl e). }
    destruct H1 as [[H1 ->]|(ea & b & eb & -> & Ha & H1)].
    + left. split; [|done]. cbn [fmap list_fmap snd]. rewrite not_elem_of_cons. split; [congruence|by apply Hnot].
    + right. exists (x :: ea.*2), eb.*2. split; [cbn [fmap list_fmap snd]; by rewrite fmap_app|].
      split; [rewrite not_elem_of_cons; split; [congruence|by apply Hnot]|].
      exists ((a, x) :: ea ++ eb). split; [cbn [fmap list_fmap snd]; by rewrite fmap_app|]. split; [done|exact H1].
Qed.

Theorem p_list_reverse_spec m p ds rest :
  is_list m p ds rest -> exists p' m', p_list_reverse p m = Some (p', m') /\ m_heap m' = m_heap m /\ is_list m' p' (rev ds) rest.
Proof.
  intros (es & <- & -> & Hh). unfold p_list_reverse. destruct es as [|[a x] es]; cbn [first fst].
  { exists None, m. split; [done|]. split; [done|]. by exists []. }
  cbn [chain app] in Hh. rewrite (bind_cell _ _ _ _ _ Hh). cbn [l_next].
  destruct (bind_store a _ None (fun _ => fuel ← cell_count; reverse_loop fuel (Some a) (first es None)) m _ Hh) as (m1 & -> & H1 & F1).
  rewrite (bind_count _ _ _ H1).
  destruct (reverse_loop_spec es m1 [(a, x)] rest (S (length ((a, set_next None (Cell x (first es None))) :: chain es None ++ rest)))) as (m' & E2 & H2 & F2).
  - exact H1.
  - cbn [length]. pose proof (chain_length es rest). rewrite length_app, <- (length_fmap fst (chain es None)), chain_addrs, length_fmap. lia.
  - cbn [first fst] in E2. exists (first (rev es ++ [(a, x)]) None), m'. split; [exact E2|]. split; [congruence|].
    exists (rev es ++ [(a, x)]). split; [|done]. cbn [fmap list_fmap snd rev]. rewrite fmap_app. cbn [fmap list_fmap snd]. f_equal. apply map_rev.
Qed.

Theorem p_list_foreach_spec {U} (func : D -> U -> U) m p ds rest u :
  is_list m p ds rest -> p_list_foreach p func u m = Some (foldl (fun u d => func d u) u ds, m).
Proof.
  intros (es & <- & -> & Hh). unfold p_list_foreach. rewrite (bind_count _ _ _ Hh).
  rewrite (foreach_cells_spec func es m rest _ u Hh (chain_length es rest m Hh)). do 2 f_equal.
  clear. revert u. induction es as [|e es IH]; intros u; [done|]. apply IH.
Qed.

Theorem p_list_free_spec m p ds rest :
  is_list m p ds rest -> exists m', p_list_free p m = Some (tt, m') /\ m_heap m' = m_heap m /\ holds m' rest.
Proof.
  intros (es & <- & -> & Hh). unfold p_list_free. rewrite (bind_count _ _ _ Hh).
  destruct (free_cells_spec es rest m _ Hh (chain_length es rest m Hh)) as (m' & -> & H1 & F1). by exists m'.
Qed.

Theorem p_list_length_spec m p ds rest : is_list m p ds rest -> p_list_length p m = Some (Z.of_nat (length ds), m).
Proof.
  intros (es & <- & -> & Hh). unfold p_list_length. destruct es as [|[a x] es0 _] using rev_ind; cbn [first]; [done|].
  assert (exists y, first (es0 ++ [(a, x)]) None = Some y) as [y Ey] by (destruct es0; by eexists). rewrite Ey, <- Ey.
  rewrite (bind_count _ _ _ Hh). rewrite (length_loop_spec es0 a x m rest _ 1 Hh).
  - rewrite length_fmap, length_app. cbn [length]. do 2 f_equal. lia.
  - apply chain_length in Hh. rewrite length_app in Hh. cbn [length] in Hh. lia.
Qed.

(** [p_list_last] answers the last cell. *)
Theorem p_list_last_spec m es rest :
  holds m (chain es None ++ rest) -> p_list_last (first es None) m = Some (fst <$> last es, m).
Proof.
  intros Hh. unfold p_list_last. destruct es as [|[a x] es0 _] using rev_ind; cbn [first]; [done|].
  assert (exists y, first (es0 ++ [(a, x)]) None = Some y) as [y Ey] by (destruct es0; by eexists). rewrite Ey, <- Ey.
  rewrite (bind_count _ _ _ Hh). rewrite (last_loop_spec es0 a x m rest _ Hh).
  - by rewrite last_snoc.
  - apply chain_length in Hh. rewrite length_app in Hh. cbn [length] in Hh. lia.
Qed.
End Chains.
