(* ===== verification/Heartbeat.v ===== *)
(** * Heartbeats and authentication

    [src/src/heartbeat.c]: the salts announced to the heartbeat services, the
    requests that announce them, and the check of a player's key.

    MD5 and curl are parameters.  The tree of used keys is a [PTree] compared
    with [tc_string_compare]; it is an association list here, of which only
    lookup, insertion and clearing are used, and [AvlTreeHeartbeat] shows that
    the tree answers the same.  Creating a library object is one
    request to the allocator. *)

From S2P Require Import Prelude Protocol.

Local Open Scope Z_scope.

Definition TC_HEARTBEAT_SALT_LENGTH : nat := 16.
Definition TC_URL_BUFFER_SIZE : nat := 256.

(** ** Data *)

Record tc_heartbeat_info := HeartbeatInfo {
  info_port : Z;
  max_players : Z;
  server_name : list Z;
  is_public : bool;
  protocol_version : Z;
  software_name : option (list Z);
  allow_web_play : bool }.

Record tc_heartbeat_service := HeartbeatService {
  current_salt : list Z;
  web_play_url : option (list Z);
  hostname : list Z;
  svc_port : Z;
  use_https : bool;
  dummy_service : bool }.

Definition set_salt (s : tc_heartbeat_service) (salt : list Z) : tc_heartbeat_service :=
  HeartbeatService salt (web_play_url s) (hostname s) (svc_port s) (use_https s) (dummy_service s).

Definition set_web_play_url (s : tc_heartbeat_service) (url : option (list Z)) : tc_heartbeat_service :=
  HeartbeatService (current_salt s) url (hostname s) (svc_port s) (use_https s) (dummy_service s).

(** The keys used in the current cycle, each with the index of its service. *)
Definition tree : Type := list (list Z * nat).

Record tc_heartbeat_manager := HeartbeatManager {
  hm_info : tc_heartbeat_info;
  hm_services : list tc_heartbeat_service;
  auth_tree : tree;
  hm_shutdown : bool;
  hm_started : bool }.

Definition set_auth_tree (m : tc_heartbeat_manager) (t : tree) : tc_heartbeat_manager :=
  HeartbeatManager (hm_info m) (hm_services m) t (hm_shutdown m) (hm_started m).

(** ** Keys *)

Definition tc_string_compare (str1 str2 : list Z) : Z := strncmp TC_PROTOCOL_MAX_STR_LEN str1 str2.

Fixpoint p_tree_lookup (t : tree) (key : list Z) : option nat :=
  match t with
  | [] => None
  | (k, v) :: t' => if tc_string_compare key k =? 0 then Some v else p_tree_lookup t' key
  end.

(** An equal key has its entry replaced; a new one needs a node. *)
Fixpoint tree_replace (t : tree) (key : list Z) (value : nat) : tree :=
  match t with
  | [] => []
  | (k, v) :: t' => if tc_string_compare key k =? 0 then (key, value) :: t' else (k, v) :: tree_replace t' key value
  end.

Definition p_tree_insert (t : tree) (key : list Z) (value : nat) (h : heap) : tree * heap :=
  match p_tree_lookup t key with
  | Some _ => (tree_replace t key value, h)
  | None => let '(ok, h') := p_malloc h in (if ok then (key, value) :: t else t, h')
  end.

(** The hexadecimal MD5 digest of some bytes. *)
Class Md5 := md5_hex : list Z -> list Z.

Section Keys.
Context {md5 : Md5}.

(** The services from index [i] on; the answer is the index of the service. *)
Fixpoint validate_loop (services : list tc_heartbeat_service) (i : nat) (username key : list Z)
    (t : tree) (h : heap) : option nat * tree * heap :=
  match services with
  | [] => (None, t, h)
  | service :: services' =>
      if dummy_service service then (Some i, t, h)
      else
        let '(ok, h1) := p_malloc h in                       (* p_crypto_hash_new *)
        if negb ok then validate_loop services' (S i) username key t h1
        else
          let '(ok, h2) := p_malloc h1 in                    (* p_crypto_hash_get_string *)
          if negb ok then validate_loop services' (S i) username key t h2
          else
            let username_len := strnlen username TC_PROTOCOL_MAX_STR_LEN in
            let hex := md5_hex (take TC_HEARTBEAT_SALT_LENGTH (current_salt service) ++ take username_len username) in
            let hex_len := strlen hex in
            if strncmp hex_len key hex =? 0 then
              let '(t', h3) := p_tree_insert t hex i h2 in (Some i, t', h3)
            else validate_loop services' (S i) username key t h2
  end.

Definition tc_heartbeat_manager_validate (m : tc_heartbeat_manager) (username key : list Z) (h : heap) :
    option nat * tc_heartbeat_manager * heap :=
  match p_tree_lookup (auth_tree m) key with
  | Some _ => (None, m, h)
  | None =>
      let '(service, t, h') := validate_loop (hm_services m) 0 username key (auth_tree m) h in
      (service, set_auth_tree m t, h')
  end.
End Keys.

(** ** Salts *)

(** The successive values of [rand()]. *)
Record rng := Rng { r_value : nat -> Z; r_next : nat }.

Definition rand (r : rng) : Z * rng := (r_value r (r_next r), Rng (r_value r) (S (r_next r))).

Definition base62_alphabet : list Z :=
  cstr "0123456789ABCDEFGHIJKLMNOPQRSTUVWXYZabcdefghijklmnopqrstuvwxyz".

Fixpoint salt_loop (n : nat) (r : rng) : list Z * rng :=
  match n with
  | O => ([], r)
  | S n' =>
      let '(v, r1) := rand r in
      let '(salt, r2) := salt_loop n' r1 in
      (default 0 (base62_alphabet !! Z.to_nat (Z.rem v 62)) :: salt, r2)
  end.

Definition heartbeat_generate_salt (r : rng) : list Z * rng := salt_loop TC_HEARTBEAT_SALT_LENGTH r.

(** ** Requests *)

(** What [snprintf] stores in a buffer of [size] bytes, less the terminator. *)
Definition snprintf (size : nat) (s : list Z) : list Z := take (size - 1) s.

Definition strncat (dest src : list Z) (n : nat) : list Z := dest ++ take n (c_content src).

(** The parts of the address; an entry of the query may be URL-encoded. *)
Record request := Request {
  rq_scheme : list Z;
  rq_host : list Z;
  rq_path : list Z;
  rq_port : list Z;
  rq_query : list (list Z * bool) }.

(** What a request meets: the pieces of the answer, whether the transfer ends
    well as far as the network is concerned, and the status code. *)
Record transfer := Transfer { t_pieces : list (list Z); t_ok : bool; t_code : Z }.

Class Curl := curl_transfer : request -> transfer.

Definition heartbeat_request (service : tc_heartbeat_service) (active_players : Z) (info : tc_heartbeat_info)
    (salt : list Z) : request :=
  Request
    (if use_https service then cstr "https" else cstr "http")
    (hostname service)
    (cstr "/server/heartbeat/")
    (snprintf 6 (dec (svc_port service)))
    ([(snprintf 11 (cstr "port=" ++ dec (info_port info)), false);
      (snprintf 11 (cstr "max=" ++ dec (max_players info)), false);
      (strncat (cstr "name=") (server_name info) TC_PROTOCOL_MAX_STR_LEN, true);
      (snprintf 14 (cstr "public=" ++ (if is_public info then cstr "True" else cstr "False")), false);
      (snprintf 13 (cstr "version=" ++ dec (protocol_version info)), false);
      (strncat (cstr "salt=") salt TC_HEARTBEAT_SALT_LENGTH, false);
      (snprintf 18 (cstr "users=" ++ dec active_players), false)] ++
     match software_name info with
     | Some name => [(strncat (cstr "software=") name TC_PROTOCOL_MAX_STR_LEN, true)]
     | None => []
     end ++
     (if allow_web_play info then [(cstr "web=True", false)] else [])).

(** The write callback: the answer so far, a piece, the number returned. *)
Definition heartbeat_response_wb (response data : list Z) : nat * list Z :=
  let remaining_capacity := (TC_URL_BUFFER_SIZE - length response)%nat in
  if (remaining_capacity <? length data)%nat then (0%nat, response)
  else (length data, response ++ data).

(** curl gives up when the callback does not return the size of the piece. *)
Fixpoint receive (response : list Z) (pieces : list (list Z)) : bool * list Z :=
  match pieces with
  | [] => (true, response)
  | data :: pieces' =>
      let '(n, response') := heartbeat_response_wb response data in
      if (n =? length data)%nat then receive response' pieces' else (false, response')
  end.

Section Sending.
Context {curl : Curl}.

(** The status code is read from the handle after its release; the model reads
    the code of the transfer. *)
Definition tc_heartbeat_send_info (service : tc_heartbeat_service) (active_players : Z)
    (info : tc_heartbeat_info) (salt : list Z) (h : heap) : bool * tc_heartbeat_service * heap :=
  if dummy_service service then (true, service, h)
  else
    let '(ok, h1) := p_malloc h in                           (* curl_easy_init *)
    if negb ok then (false, service, h1)
    else
      let '(ok, h2) := p_malloc h1 in                        (* curl_url *)
      if negb ok then (false, service, h2)
      else
        let '(ok, h3) := p_malloc h2 in                      (* curl_url_get *)
        if negb ok then (false, service, h3)
        else
          let t := curl_transfer (heartbeat_request service active_players info salt) in
          let '(received, response) := receive [] (t_pieces t) in
          if negb (received && t_ok t) then (false, service, h3)
          else if negb (t_code t =? 200) then (false, service, h3)
          else if allow_web_play info then
            let '(ok, h4) := p_malloc h3 in
            if negb ok then (false, set_web_play_url service None, h4)
            else (true, set_web_play_url service (Some response), h4)
          else (true, service, h3).

(** One service of a round of [heartbeat_worker]. *)
Fixpoint worker_services (services : list tc_heartbeat_service) (active_players : Z) (info : tc_heartbeat_info)
    (r : rng) (h : heap) : list tc_heartbeat_service * rng * heap :=
  match services with
  | [] => ([], r, h)
  | service :: services' =>
      let '(salt, r1) := heartbeat_generate_salt r in
      let service1 := set_web_play_url (set_salt service salt) None in
      let '(_, service2, h1) := tc_heartbeat_send_info service1 active_players info salt h in
      let '(services2, r2, h2) := worker_services services' active_players info r1 h1 in
      (service2 :: services2, r2, h2)
  end.

(** A round of [heartbeat_worker] between two sleeps. *)
Definition heartbeat_worker (m : tc_heartbeat_manager) (active_players : Z) (r : rng) (h : heap) :
    tc_heartbeat_manager * rng * heap :=
  let '(services, r', h') := worker_services (hm_services m) active_players (hm_info m) r h in
  (HeartbeatManager (hm_info m) services [] (hm_shutdown m) (hm_started m), r', h').
End Sending.

(** ** Life cycle *)

(** Creating the mutex, the condition variable, the tree and the thread may
    each fail. *)
Definition heartbeat_manager_init (info : tc_heartbeat_info) (services : list tc_heartbeat_service)
    (thread_ok : bool) (h : heap) : option tc_heartbeat_manager * heap :=
  let '(ok, h1) := p_malloc h in
  if negb ok then (None, h1)
  else
    let '(ok, h2) := p_malloc h1 in
    if negb ok then (None, h2)
    else
      let '(ok, h3) := p_malloc h2 in
      if negb ok then (None, h3)
      else if negb thread_ok then (None, h3)
      else (Some (HeartbeatManager info (map (fun s => set_web_play_url s None) services) [] false false), h3).

Definition tc_heartbeat_manager_start (m : tc_heartbeat_manager) : tc_heartbeat_manager :=
  HeartbeatManager (hm_info m) (hm_services m) (auth_tree m) (hm_shutdown m) true.

Definition tc_heartbeat_manager_stop (m : tc_heartbeat_manager) : tc_heartbeat_manager :=
  HeartbeatManager (hm_info m) (hm_services m) (auth_tree m) true (hm_started m).
