(* ===== verification/HeartbeatProps.v ===== *)
(** * What authentication promises

    Which keys are accepted and how often, what the requests carry, and the
    state after a round of heartbeats. *)

From S2P Require Import Prelude Protocol Heartbeat.

Local Open Scope Z_scope.

(** ** Documented behaviour of MD5 strings: 32 lower-case hexadecimal digits. *)
Class Md5Laws {md5 : Md5} := {
  md5_length d : length (md5_hex d) = 32%nat;
  md5_digits d : Forall (fun c => 48 <= c <= 57 \/ 97 <= c <= 102) (md5_hex d) }.

(** The part of a key the tree compares. *)
Definition key_text (k : list Z) : list Z := take TC_PROTOCOL_MAX_STR_LEN (c_content k).

Definition key_used (t : tree) (k : list Z) : Prop := exists k' v, (k', v) ∈ t /\ key_text k' = key_text k.

Lemma compare_eq k k' : tc_string_compare k k' = 0 <-> key_text k = key_text k'.
Proof. apply strncmp_eq. Qed.

Lemma lookup_used t k : is_Some (p_tree_lookup t k) <-> key_used t k.
Proof.
  induction t as [|[k' v] t IH]; cbn [p_tree_lookup].
  - split; [by intros [? ?] | by intros (? & ? & ?%elem_of_nil & _)].
  - destruct (Z.eqb_spec (tc_string_compare k k') 0) as [E|E]; rewrite compare_eq in E.
    + split; [intros _ | by eauto]. exists k', v. split; [by left | done].
    + rewrite IH. split; intros (k'' & w & Hin & Ek).
      * exists k'', w. split; [by right | done].
      * apply elem_of_cons in Hin as [[= -> ->] | Hin]; [by symmetry in Ek | by exists k'', w].
Qed.

Lemma replace_used t k v k' : key_used (tree_replace t k v) k' <-> key_used t k'.
Proof.
  induction t as [|[k1 v1] t IH]; cbn [tree_replace]; [done|].
  assert (forall x w l, key_used ((x, w) :: l) k' <-> key_text x = key_text k' \/ key_used l k') as Hcons.
  { intros x w l. split.
    - intros (k2 & v2 & Hin & E). apply elem_of_cons in Hin as [[= -> ->] | Hin]; [by left | right; by exists k2, v2].
    - intros [E | (k2 & v2 & Hin & E)]; [exists x, w; split; [by left | done] | exists k2, v2; split; [by right | done]]. }
  destruct (Z.eqb_spec (tc_string_compare k k1) 0) as [E|E]; rewrite compare_eq in E; rewrite !Hcons; [by rewrite E | by rewrite IH].
Qed.

Lemma insert_used t k v h t' h' :
  plentiful h -> p_tree_insert t k v h = (t', h') ->
  plentiful h' /\ forall k', key_used t' k' <-> key_used t k' \/ key_text k = key_text k'.
Proof.
  intros Hh. unfold p_tree_insert. destruct (p_tree_lookup t k) eqn:E.
  - intros [= <- <-]. split; [done|]. intros k'. rewrite replace_used. split; [by left|]. intros [?|Ek]; [done|].
    assert (key_used t k) as (x & w & Hin & Ex) by (apply lookup_used; by rewrite E). exists x, w. split; congruence.
  - destruct (p_malloc h) as [ok h1] eqn:Em. destruct (p_malloc_plentiful _ _ _ Hh Em) as [-> Hh1].
    intros [= <- <-]. split; [done|]. intros k'. split.
    + intros (x & w & Hin & Ex). apply elem_of_cons in Hin as [[= -> ->] | Hin]; [by right | left; by exists x, w].
    + intros [(x & w & Hin & Ex) | Ek]; [exists x, w; split; [by right | done] | exists k, v; split; [by left | done]].
Qed.

Section Authentication.
#[local] Set Default Proof Using "Type*".
Context {md5 : Md5} {laws : Md5Laws}.

(** The key a service expects of a player. *)
Definition expected_key (s : tc_heartbeat_service) (username : list Z) : list Z :=
  md5_hex (take TC_HEARTBEAT_SALT_LENGTH (current_salt s) ++
           take (strnlen username TC_PROTOCOL_MAX_STR_LEN) username).

(** A service vouches for a player whose key starts with the expected one. *)
Definition vouches (s : tc_heartbeat_service) (username key : list Z) : Prop :=
  dummy_service s = true \/ take 32 (c_content key) = expected_key s username.

Lemma md5_no_nul d : no_nul (md5_hex d).
Proof. eapply Forall_impl; [apply md5_digits|]. cbn. lia. Qed.

Lemma expected_text s u : c_content (expected_key s u) = expected_key s u.
Proof. apply c_content_no_nul, md5_no_nul. Qed.

Lemma expected_key_text s u : key_text (expected_key s u) = expected_key s u.
Proof. unfold key_text. rewrite expected_text. apply take_ge. unfold expected_key. rewrite md5_length. unfold TC_PROTOCOL_MAX_STR_LEN. lia. Qed.

Lemma strncmp_expected s u k :
  strncmp (strlen (expected_key s u)) k (expected_key s u) = 0 <-> take 32 (c_content k) = expected_key s u.
Proof.
  rewrite strncmp_eq. unfold strlen. rewrite expected_text. unfold expected_key. rewrite md5_length.
  by rewrite (take_ge (md5_hex _)) by (rewrite md5_length; lia).
Qed.

(** Index [i] is the first that vouches, counting from [base]. *)
Definition first_vouching (services : list tc_heartbeat_service) (base i : nat) (u k : list Z) s : Prop :=
  (base <= i)%nat /\ services !! (i - base)%nat = Some s /\ vouches s u k /\
  forall j s', (j < i - base)%nat -> services !! j = Some s' -> ~ vouches s' u k.

Lemma first_vouching_later s0 services base i u k s :
  ~ vouches s0 u k -> first_vouching services (S base) i u k s -> first_vouching (s0 :: services) base i u k s.
Proof.
  intros Hn (Hb & Hl & Hv & Hlt). split; [lia|].
  replace (i - base)%nat with (S (i - S base)) by lia. split_and!; [done | done |].
  intros [|j] s' Hj Hs; cbn in Hs; [by injection Hs as <- | eapply Hlt; [|done]; lia].
Qed.

Lemma validate_loop_spec services base u k t h :
  plentiful h ->
  let '(r, t', h') := validate_loop services base u k t h in
  plentiful h' /\
  ((r = None /\ t' = t /\ Forall (fun s => ~ vouches s u k) services) \/
   (exists i s, r = Some i /\ first_vouching services base i u k s /\
      forall k', key_used t' k' <-> key_used t k' \/ (dummy_service s = false /\ expected_key s u = key_text k'))).
Proof.
  revert base h. induction services as [|s services IH]; intros base h Hh; cbn [validate_loop].
  - split; [done|]. left. by repeat constructor.
  - destruct (dummy_service s) eqn:Hd.
    { split; [done|]. right. exists base, s. split; [done|]. split.
      - split; [lia|]. rewrite Nat.sub_diag. split_and!; [done | by left | lia].
      - intros k'. rewrite Hd. intuition discriminate. }
    destruct (p_malloc h) as [ok h1] eqn:E1. destruct (p_malloc_plentiful _ _ _ Hh E1) as [-> Hh1]. cbn [negb].
    destruct (p_malloc h1) as [ok h2] eqn:E2. destruct (p_malloc_plentiful _ _ _ Hh1 E2) as [-> Hh2]. cbn [negb].
    fold (expected_key s u). destruct (Z.eqb_spec (strncmp (strlen (expected_key s u)) k (expected_key s u)) 0) as [E|E];
      rewrite strncmp_expected in E.
    + destruct (p_tree_insert t (expected_key s u) base h2) as [t' h3] eqn:Ei.
      destruct (insert_used _ _ _ _ _ _ Hh2 Ei) as [Hh3 Hu]. split; [done|]. right. exists base, s. split; [done|]. split.
      * split; [lia|]. rewrite Nat.sub_diag. split_and!; [done | by right | lia].
      * intros k'. rewrite Hu, expected_key_text, Hd. intuition.
    + assert (~ vouches s u k) as Hn by (intros [?|?]; congruence).
      specialize (IH (S base) h2 Hh2). destruct (validate_loop _ _ _ _ _ _) as [[r t'] h'].
      destruct IH as [Hh' IH]. split; [done|]. destruct IH as [(-> & -> & Hall) | (i & s' & -> & Hf & Hu)]; [left | right].
      * by repeat constructor.
      * exists i, s'. split_and!; [done | by apply first_vouching_later | done].
Qed.

(** C15. Authentication: with memory to spare, a key that was used in this cycle
    is refused; otherwise the answer is the first service that vouches for the
    player (a dummy service, or one whose salted digest the key starts with),
    and exactly the digest is recorded as used. *)
Theorem validate_spec m u k h :
  plentiful h ->
  let '(r, m', h') := tc_heartbeat_manager_validate m u k h in
  plentiful h' /\ hm_services m' = hm_services m /\
  ((r = None /\ m' = m /\ (key_used (auth_tree m) k \/ Forall (fun s => ~ vouches s u k) (hm_services m))) \/
   (exists i s, r = Some i /\ ~ key_used (auth_tree m) k /\ first_vouching (hm_services m) 0 i u k s /\
      forall k', key_used (auth_tree m') k' <->
                 key_used (auth_tree m) k' \/ (dummy_service s = false /\ expected_key s u = key_text k'))).
Proof.
  intros Hh. unfold tc_heartbeat_manager_validate. destruct (p_tree_lookup (auth_tree m) k) eqn:E.
  - split_and!; [done | done |]. left. split_and!; [done | done |]. left. apply lookup_used. by rewrite E.
  - pose proof (validate_loop_spec (hm_services m) 0 u k (auth_tree m) h Hh) as H.
    destruct (validate_loop _ _ _ _ _ _) as [[r t'] h']. destruct H as [Hh' H]. split_and!; [done | done |].
    destruct H as [(-> & -> & Hall) | (i & s & -> & Hf & Hu)]; [left | right].
    + split_and!; [done | by destruct m | by right].
    + exists i, s. split_and!; [done | | done | done]. rewrite <- lookup_used, E. by intros [? ?].
Qed.

(** What [validate_spec] says of a success, for the proofs below. *)
Lemma validate_success m u k h i m' h' :
  plentiful h -> tc_heartbeat_manager_validate m u k h = (Some i, m', h') ->
  plentiful h' /\ hm_services m' = hm_services m /\
  exists s, first_vouching (hm_services m) 0 i u k s /\ ~ key_used (auth_tree m) k /\
    forall k', key_used (auth_tree m') k' <->
               key_used (auth_tree m) k' \/ (dummy_service s = false /\ expected_key s u = key_text k').
Proof.
  intros Hh E. unfold tc_heartbeat_manager_validate in E. destruct (p_tree_lookup (auth_tree m) k) eqn:El; [done|].
  pose proof (validate_loop_spec (hm_services m) 0 u k (auth_tree m) h Hh) as H.
  destruct (validate_loop _ _ _ _ _ _) as [[r t'] h'']. destruct H as [Hh' H]. injection E as -> <- <-.
  split_and!; [done | done |]. destruct H as [(? & _) | (i' & s & [= <-] & Hf & Hu)]; [done|].
  exists s. split_and!; [done | | done]. rewrite <- lookup_used, El. by intros [? ?].
Qed.

Lemma validate_keeps m u k h r m' h' :
  plentiful h -> tc_heartbeat_manager_validate m u k h = (r, m', h') ->
  plentiful h' /\ hm_services m' = hm_services m /\
  forall k', key_used (auth_tree m) k' -> key_used (auth_tree m') k'.
Proof.
  intros Hh E. destruct r as [i|].
  - destruct (validate_success _ _ _ _ _ _ _ Hh E) as (? & ? & s & _ & _ & Hu). split_and!; [done | done |].
    intros k' Hk. apply Hu. by left.
  - unfold tc_heartbeat_manager_validate in E. destruct (p_tree_lookup (auth_tree m) k); [by injection E as <- <-|].
    pose proof (validate_loop_spec (hm_services m) 0 u k (auth_tree m) h Hh) as H.
    destruct (validate_loop _ _ _ _ _ _) as [[r t'] h'']. destruct H as [Hh' H]. injection E as -> <- <-.
    split_and!; [done | done |]. by destruct H as [(_ & -> & _) | (? & ? & ? & _)].
Qed.

Lemma validate_used m u k h :
  key_used (auth_tree m) k -> (tc_heartbeat_manager_validate m u k h).1.1 = None.
Proof. intros Hk. unfold tc_heartbeat_manager_validate. by apply lookup_used in Hk as [v ->]. Qed.

(** The answers to a sequence of logins within one cycle. *)
Fixpoint logins (m : tc_heartbeat_manager) (h : heap) (l : list (list Z * list Z)) : list (option nat) :=
  match l with
  | [] => []
  | (u, k) :: l' => let '(r, m', h') := tc_heartbeat_manager_validate m u k h in r :: logins m' h' l'
  end.

Lemma logins_used m h l q u k :
  plentiful h -> key_used (auth_tree m) k -> l !! q = Some (u, k) -> logins m h l !! q = Some None.
Proof.
  revert m h q. induction l as [|[u' k'] l IH]; intros m h q Hh Hk Hq; [done|]. cbn [logins].
  destruct (tc_heartbeat_manager_validate m u' k' h) as [[r m'] h'] eqn:E. destruct q as [|q]; cbn in Hq |- *.
  - injection Hq as -> ->. pose proof (validate_used m u k h Hk) as H. rewrite E in H. cbn in H. by subst.
  - destruct (validate_keeps _ _ _ _ _ _ _ Hh E) as (Hh' & _ & Hkeep). eapply IH; eauto.
Qed.

(** C35. Keys are good for one login where a real service vouches for it: within a
    cycle and with memory for the keys, a key that was accepted by a service that
    is not a dummy one is not accepted again, by any service, provided it is no
    longer than the digest.  A dummy service records no keys, so that one
    ([dummy_key_again]) accepts the same key any number of times. *)
Theorem key_accepted_once m h l p q u1 k1 u2 k2 i j s1 :
  plentiful h -> hm_services m !! i = Some s1 -> dummy_service s1 = false ->
  l !! p = Some (u1, k1) -> l !! q = Some (u2, k2) -> (p < q)%nat -> (length (c_content k1) <= 32)%nat ->
  logins m h l !! p = Some (Some i) -> logins m h l !! q = Some (Some j) -> key_text k1 <> key_text k2.
Proof.
  revert m h p q. induction l as [|[u k] l IH]; intros m h p q Hh Hi Hd Hp Hq Hpq Hlen Rp Rq Ek; [done|].
  cbn [logins] in Rp, Rq. destruct (tc_heartbeat_manager_validate m u k h) as [[r m'] h'] eqn:E.
  destruct (validate_keeps _ _ _ _ _ _ _ Hh E) as (Hh' & Hs & _).
  destruct q as [|q]; [lia|]. change (logins m' h' l !! q = Some (Some j)) in Rq. cbn in Hq.
  destruct p as [|p]; [|change (logins m' h' l !! p = Some (Some i)) in Rp]; cbn in Hp.
  - injection Hp as -> ->. cbn in Rp. injection Rp as ->.
    destruct (validate_success _ _ _ _ _ _ _ Hh E) as (_ & _ & s & (_ & Hl & Hv & _) & _ & Hu).
    rewrite Nat.sub_0_r, Hi in Hl. injection Hl as <-. destruct Hv as [Hv|Hv]; [congruence|].
    rewrite take_ge in Hv by lia.
    assert (key_used (auth_tree m') k2) as Hused.
    { apply Hu. right. split; [done|]. rewrite <- Ek, <- Hv. unfold key_text. symmetry. apply take_ge.
      unfold TC_PROTOCOL_MAX_STR_LEN. lia. }
    rewrite (logins_used _ _ _ _ _ _ Hh' Hused Hq) in Rq. discriminate.
  - rewrite <- Hs in Hi. apply (IH m' h' p q Hh' Hi Hd Hp Hq ltac:(lia) Hlen Rp Rq Ek).
Qed.

(** The first service vouches for everyone, with any key that is not recorded,
    and records none. *)
Theorem dummy_key_again m h u k s rest :
  plentiful h -> hm_services m = s :: rest -> dummy_service s = true -> ~ key_used (auth_tree m) k ->
  exists m' h', tc_heartbeat_manager_validate m u k h = (Some 0%nat, m', h') /\ auth_tree m' = auth_tree m /\ hm_services m' = hm_services m.
Proof.
  intros Hh Hs Hd Hk. unfold tc_heartbeat_manager_validate.
  destruct (p_tree_lookup (auth_tree m) k) as [v|] eqn:E; [exfalso; apply Hk; apply lookup_used; by eexists|].
  rewrite Hs. cbn [validate_loop]. rewrite Hd. by do 2 eexists.
Qed.

(** The protection has a gap: the key is compared with the digest over the
    digest's length only, but looked up among the used keys over 64 bytes.  So
    after a login, the same key with anything appended is accepted again for
    the same player. *)
Theorem replay_with_suffix m h u k i m' h' suffix s :
  plentiful h -> tc_heartbeat_manager_validate m u k h = (Some i, m', h') ->
  hm_services m !! i = Some s -> dummy_service s = false -> suffix <> [] -> no_nul suffix ->
  let k' := expected_key s u ++ suffix in
  ~ key_used (auth_tree m) k' ->
  (tc_heartbeat_manager_validate m' u k' h').1.1 = Some i.
Proof.
  intros Hh E Hi Hd Hne Hnn k' Hnu. destruct (validate_success _ _ _ _ _ _ _ Hh E) as (Hh' & Hs & s' & Hf & _ & Hu).
  destruct Hf as (_ & Hl & Hv & Hlt). rewrite Nat.sub_0_r in Hl, Hlt. rewrite Hi in Hl. injection Hl as <-.
  assert (c_content k' = k') as Hc.
  { apply c_content_no_nul, Forall_app. split; [apply md5_no_nul | done]. }
  assert (take 32 (c_content k') = expected_key s u) as Hpre.
  { rewrite Hc. subst k'. rewrite take_app_le by (unfold expected_key; rewrite md5_length; lia).
    apply take_ge. unfold expected_key. rewrite md5_length. lia. }
  assert (take 32 (c_content k) = take 32 (c_content k')) as Hsame by (destruct Hv; congruence).
  assert (~ key_used (auth_tree m') k') as Hnu'.
  { rewrite Hu. intros [?|[_ Ek]]; [done|]. unfold key_text in Ek. rewrite Hc in Ek.
    apply (f_equal length) in Ek. subst k'. rewrite length_take, length_app in Ek. unfold expected_key in Ek.
    rewrite md5_length in Ek. destruct suffix; [done|]. cbn in Ek. lia. }
  unfold tc_heartbeat_manager_validate. destruct (p_tree_lookup (auth_tree m') k') eqn:El.
  { exfalso. apply Hnu', lookup_used. by rewrite El. }
  pose proof (validate_loop_spec (hm_services m') 0 u k' (auth_tree m') h' Hh') as H.
  destruct (validate_loop _ _ _ _ _ _) as [[r t'] h'']. cbn. destruct H as [_ H]. rewrite Hs in H.
  assert (forall x, vouches x u k' <-> vouches x u k) as Heq by (intros x; unfold vouches; by rewrite Hsame).
  destruct H as [(-> & _ & Hall) | (i' & s' & -> & (_ & Hl' & Hv' & Hlt') & _)].
  - rewrite Forall_lookup in Hall. exfalso. by apply (Hall i s Hi), Heq.
  - rewrite Nat.sub_0_r in Hl', Hlt'. f_equal. destruct (Nat.lt_trichotomy i' i) as [Hx|[Hx|Hx]]; [|done|].
    + exfalso. by apply (Hlt i' s' Hx Hl'), Heq.
    + exfalso. by apply (Hlt' i s Hx Hi), Heq.
Qed.
End Authentication.

(** ** Requests *)

Lemma dec_loop_length fuel n acc k :
  0 <= n < 10 ^ Z.of_nat k -> (1 <= k)%nat -> (length (dec_loop fuel n acc) <= length acc + k)%nat.
Proof.
  revert n acc k. induction fuel as [|fuel IH]; intros n acc k Hn Hk; cbn [dec_loop]; [lia|].
  destruct (Z.eqb_spec (n / 10) 0) as [E|E]; [cbn; lia|]. destruct k as [|k]; [lia|].
  rewrite Nat2Z.inj_succ, Z.pow_succ_r in Hn by lia.
  assert (0 <= n / 10 < 10 ^ Z.of_nat k) by div_mod_lia.
  destruct k as [|k]; [cbn in *; div_mod_lia|].
  specialize (IH (n / 10) (48 + n mod 10 :: acc) (S k)). cbn [length] in IH. lia.
Qed.

Lemma dec_length z k : 0 <= z < 10 ^ Z.of_nat k -> (1 <= k)%nat -> (length (dec z) <= k)%nat.
Proof.
  intros Hz Hk. unfold dec. destruct (Z.ltb_spec z 0); [lia|]. pose proof (dec_loop_length 20 z [] k Hz Hk). cbn in *. lia.
Qed.

Lemma dec_length_int z : in_s 32 z -> (length (dec z) <= 11)%nat.
Proof.
  intros Hz. unfold dec. destruct (Z.ltb_spec z 0).
  - pose proof (dec_loop_length 20 (- z) [] 10) as H'. change (10 ^ Z.of_nat 10) with 10000000000 in H'.
    cbn [length] in *. unfold_widths. lia.
  - pose proof (dec_loop_length 20 z [] 10) as H'. change (10 ^ Z.of_nat 10) with 10000000000 in H'.
    cbn [length] in *. unfold_widths. lia.
Qed.

Lemma snprintf_fits size s : (length s < size)%nat -> snprintf size s = s.
Proof. intros. apply take_ge. lia. Qed.

(** Nothing is cut off a heartbeat: with ports of 16 bits, fewer than a
    million player slots and a protocol version of at most four digits, every
    number of the request is written out in full, and the salt is the one the
    keys are checked against. *)
Theorem heartbeat_request_exact service active info salt :
  in_u 16 (svc_port service) -> in_u 16 (info_port info) -> 0 <= max_players info < 1000000 ->
  0 <= protocol_version info < 10000 -> in_s 32 active -> length salt = TC_HEARTBEAT_SALT_LENGTH -> no_nul salt ->
  let name := take TC_PROTOCOL_MAX_STR_LEN (c_content (server_name info)) in
  exists rest,
    heartbeat_request service active info salt =
    Request (if use_https service then cstr "https" else cstr "http") (hostname service) (cstr "/server/heartbeat/")
      (dec (svc_port service))
      ([(cstr "port=" ++ dec (info_port info), false); (cstr "max=" ++ dec (max_players info), false);
        (cstr "name=" ++ name, true); (cstr "public=" ++ (if is_public info then cstr "True" else cstr "False"), false);
        (cstr "version=" ++ dec (protocol_version info), false); (cstr "salt=" ++ salt, false);
        (cstr "users=" ++ dec active, false)] ++ rest).
Proof.
  intros Hsp Hip Hmax Hver Hact Hsalt Hnn name. unfold heartbeat_request. eexists.
  pose proof (dec_length (svc_port service) 5 ltac:(unfold_widths; lia) ltac:(lia)).
  pose proof (dec_length (info_port info) 5 ltac:(unfold_widths; lia) ltac:(lia)).
  pose proof (dec_length (max_players info) 6 ltac:(lia) ltac:(lia)).
  pose proof (dec_length (protocol_version info) 4 ltac:(lia) ltac:(lia)).
  pose proof (dec_length_int active Hact).
  rewrite !snprintf_fits by (rewrite ?length_app; destruct (is_public info); cbn -[dec]; lia).
  unfold strncat. rewrite (c_content_no_nul salt), <- Hsalt, (firstn_all salt) by done. reflexivity.
Qed.

(** ** A round of heartbeats *)

Definition base62 (c : Z) : Prop := 48 <= c <= 57 \/ 65 <= c <= 90 \/ 97 <= c <= 122.

Lemma alphabet_base62 v : 0 <= v -> base62 (default 0 (base62_alphabet !! Z.to_nat (Z.rem v 62))).
Proof.
  intros Hv. assert (Forall base62 base62_alphabet) as Hall.
  { assert (forallb (fun c => (48 <=? c) && (c <=? 57) || (65 <=? c) && (c <=? 90) || (97 <=? c) && (c <=? 122))
              base62_alphabet = true) as Hb by reflexivity.
    apply List.Forall_forall. intros c Hc. rewrite forallb_forall in Hb. apply Hb in Hc. unfold base62. lia. }
  destruct (base62_alphabet !! Z.to_nat (Z.rem v 62)) as [c|] eqn:E.
  - rewrite Forall_lookup in Hall. by eapply Hall.
  - exfalso. apply lookup_ge_None in E. pose proof (Z.rem_bound_pos v 62 Hv ltac:(lia)).
    change (length base62_alphabet) with 62%nat in E. lia.
Qed.

Definition salt_ok (salt : list Z) : Prop := length salt = TC_HEARTBEAT_SALT_LENGTH /\ Forall base62 salt.

Lemma salt_loop_ok n r salt r' :
  (forall k, 0 <= r_value r k) -> salt_loop n r = (salt, r') ->
  length salt = n /\ Forall base62 salt /\ r_value r' = r_value r.
Proof.
  revert r salt r'. induction n as [|n IH]; intros r salt r' Hr; cbn [salt_loop].
  - by intros [= <- <-].
  - cbn [rand]. destruct (salt_loop n _) as [s r2] eqn:E. apply IH in E as (Hl & Hs & Hv); [|exact Hr].
    intros [= <- <-]. cbn. split_and!; [lia | | done]. constructor; [by apply alphabet_base62 | done].
Qed.

Lemma receive_bounded pieces response ok response' :
  (length response <= TC_URL_BUFFER_SIZE)%nat -> receive response pieces = (ok, response') ->
  (length response' <= TC_URL_BUFFER_SIZE)%nat /\ (ok = true -> response' = response ++ concat pieces).
Proof.
  revert response. induction pieces as [|d pieces IH]; intros response Hl; cbn [receive].
  - intros [= <- <-]. cbn. by rewrite app_nil_r.
  - unfold heartbeat_response_wb. destruct (Nat.ltb_spec (TC_URL_BUFFER_SIZE - length response) (length d)).
    + destruct (Nat.eqb_spec 0 (length d)); [lia|]. by intros [= <- <-].
    + rewrite Nat.eqb_refl. intros E. apply IH in E as [? E]; [|rewrite length_app; lia]. split; [done|].
      intros Hok. rewrite (E Hok). cbn. by rewrite app_assoc.
Qed.

(** The stored web play address is an answer that fits the buffer. *)
Definition url_ok (s : tc_heartbeat_service) : Prop :=
  match web_play_url s with Some url => (length url <= TC_URL_BUFFER_SIZE)%nat | None => True end.

Section Round.
Context {curl : Curl}.

Lemma send_info_keeps s active info salt h ok s' h' :
  url_ok s -> tc_heartbeat_send_info s active info salt h = (ok, s', h') ->
  url_ok s' /\ current_salt s' = current_salt s /\ hostname s' = hostname s /\ dummy_service s' = dummy_service s.
Proof.
  intros Hu. unfold tc_heartbeat_send_info. destruct (receive [] _) as [rc resp] eqn:Er.
  apply receive_bounded in Er as [Hb _]; [|cbn; lia].
  repeat first [ match goal with |- context [if ?b then _ else _] => destruct b eqn:? end
               | match goal with |- context [match p_malloc ?h with _ => _ end] => destruct (p_malloc h) end ];
    by intros [= <- <- <-].
Qed.

Lemma worker_services_ok services active info r h services' r' h' :
  (forall k, 0 <= r_value r k) -> worker_services services active info r h = (services', r', h') ->
  Forall2 (fun s s' => salt_ok (current_salt s') /\ url_ok s' /\ hostname s' = hostname s /\
                       dummy_service s' = dummy_service s) services services'.
Proof.
  revert r h services'. induction services as [|s services IH]; intros r h services' Hr; cbn [worker_services].
  - intros [= <- <- <-]. constructor.
  - destruct (heartbeat_generate_salt r) as [salt r1] eqn:Es.
    destruct (salt_loop_ok _ _ _ _ Hr Es) as (Hl & Hb & Hv).
    destruct (tc_heartbeat_send_info _ _ _ _ _) as [[ok s2] h1] eqn:Ei.
    apply send_info_keeps in Ei as (Hu & Hsalt & Hhost & Hdummy); [|done].
    destruct (worker_services services _ _ _ _) as [[ss r2] h2] eqn:Ew. intros [= <- <- <-].
    constructor; [|eapply IH; [|exact Ew]; by rewrite Hv]. rewrite Hsalt, Hhost, Hdummy. done.
Qed.

(** After a round of the heartbeat worker every service has a fresh salt of
    16 base-62 characters, no key counts as used, and a stored web play address
    is at most the 256 bytes of the answer buffer, however the transfers went. *)
Theorem heartbeat_round_spec m active r h m' r' h' :
  (forall k, 0 <= r_value r k) -> heartbeat_worker m active r h = (m', r', h') ->
  auth_tree m' = [] /\ hm_shutdown m' = hm_shutdown m /\
  Forall2 (fun s s' => salt_ok (current_salt s') /\ url_ok s' /\ hostname s' = hostname s /\
                       dummy_service s' = dummy_service s) (hm_services m) (hm_services m').
Proof.
  intros Hr. unfold heartbeat_worker. destruct (worker_services _ _ _ _ _) as [[ss r2] h2] eqn:E.
  intros [= <- <- <-]. split_and!; [done | done |]. by eapply worker_services_ok.
Qed.
End Round.

(** ** Examples *)

(** A stand-in digest. *)
Definition toy_md5 : Md5 := fun d => replicate 32 (97 + foldr Z.add 0 d mod 6).

#[export] Instance toy_md5_laws : @Md5Laws toy_md5.
Proof.
  split; intros d; unfold md5_hex, toy_md5.
  - apply length_replicate.
  - apply Forall_replicate. right. pose proof (Z.mod_pos_bound (foldr Z.add 0 d) 6). lia.
Defined.

Definition sample_info : tc_heartbeat_info :=
  HeartbeatInfo 25565 128 (cstr "TeleClassic") true 7 (Some (cstr "TC26")) true.

Definition sample_manager : tc_heartbeat_manager :=
  HeartbeatManager sample_info
    [HeartbeatService (replicate 16 65) None (cstr "a.example") 80 false false;
     HeartbeatService (replicate 16 66) None (cstr "b.example") 443 true false] [] false true.

Definition sample_key : list Z := @md5_hex toy_md5 (replicate 16 66 ++ cstr "ann").

Lemma validate_spec_witness :
  exists m' h', @tc_heartbeat_manager_validate toy_md5 sample_manager (cstr "ann") sample_key ample_heap = (Some 1%nat, m', h') /\
    key_used (auth_tree m') sample_key.
Proof.
  pose proof (@validate_spec toy_md5 toy_md5_laws sample_manager (cstr "ann") sample_key ample_heap
                ample_heap_plentiful) as H.
  destruct (@tc_heartbeat_manager_validate toy_md5 sample_manager (cstr "ann") sample_key ample_heap) as [[r m'] h'] eqn:E.
  exists m', h'. assert (r = Some 1%nat) as -> by (vm_compute in E; by injection E).
  split; [done|]. destruct H as (_ & _ & [(? & _) | (i & s & [= <-] & _ & (_ & Hl & _) & Hu)]); [discriminate|].
  apply Hu. right. cbn in Hl. injection Hl as <-. split; reflexivity.
Defined.

Lemma key_accepted_once_witness :
  key_text sample_key <> key_text (@md5_hex toy_md5 (replicate 16 65 ++ cstr "bob")).
Proof.
  apply (@key_accepted_once toy_md5 toy_md5_laws sample_manager ample_heap
    [(cstr "ann", sample_key); (cstr "bob", @md5_hex toy_md5 (replicate 16 65 ++ cstr "bob"))] 0 1
    (cstr "ann") sample_key (cstr "bob") (@md5_hex toy_md5 (replicate 16 65 ++ cstr "bob")) 1 0
    (HeartbeatService (replicate 16 66) None (cstr "b.example") 443 true false));
    [exact ample_heap_plentiful | reflexivity | reflexivity | reflexivity | reflexivity | lia | vm_compute; lia
    | vm_compute; reflexivity | vm_compute; reflexivity].
Defined.

Lemma replay_with_suffix_witness :
  let '(r1, m', h') := @tc_heartbeat_manager_validate toy_md5 sample_manager (cstr "ann") sample_key ample_heap in
  r1 = Some 1%nat /\ (@tc_heartbeat_manager_validate toy_md5 m' (cstr "ann") (sample_key ++ cstr "x") h').1.1 = Some 1%nat.
Proof.
  destruct (@tc_heartbeat_manager_validate toy_md5 sample_manager (cstr "ann") sample_key ample_heap) as [[r m'] h'] eqn:E.
  assert (r = Some 1%nat) as -> by (vm_compute in E; by injection E). split; [done|].
  apply (@replay_with_suffix toy_md5 toy_md5_laws sample_manager ample_heap (cstr "ann") sample_key 1 m' h' (cstr "x")
    (HeartbeatService (replicate 16 66) None (cstr "b.example") 443 true false));
    [exact ample_heap_plentiful | exact E | reflexivity | reflexivity | discriminate | repeat constructor; discriminate |].
  intros (k & v & Hin & _). by apply elem_of_nil in Hin.
Defined.

Lemma heartbeat_request_exact_witness :
  exists rest, rq_query (heartbeat_request (HeartbeatService (replicate 16 66) None (cstr "b.example") 443 true false)
                           3 sample_info (replicate 16 66)) =
    ([(cstr "port=25565", false); (cstr "max=128", false); (cstr "name=TeleClassic", true); (cstr "public=True", false);
      (cstr "version=7", false); (cstr "salt=BBBBBBBBBBBBBBBB", false); (cstr "users=3", false)] ++ rest).
Proof.
  destruct (heartbeat_request_exact (HeartbeatService (replicate 16 66) None (cstr "b.example") 443 true false)
    3 sample_info (replicate 16 66)) as (rest & E);
    [cbn; width_lia | cbn; width_lia | cbn; lia | cbn; lia | width_lia | reflexivity | repeat constructor; discriminate |].
  exists rest. rewrite E. reflexivity.
Defined.

Definition silent_curl : Curl := fun _ => Transfer [cstr "http://play"] true 200.

Lemma heartbeat_round_spec_witness :
  match @heartbeat_worker silent_curl sample_manager 3 (Rng Z.of_nat 0) ample_heap with
  | (m', _, _) => auth_tree m' = [] /\ map web_play_url (hm_services m') = [Some (cstr "http://play"); Some (cstr "http://play")]
  end.
Proof.
  destruct (@heartbeat_worker silent_curl sample_manager 3 (Rng Z.of_nat 0) ample_heap) as [[m' r'] h'] eqn:E.
  destruct (@heartbeat_round_spec silent_curl sample_manager 3 (Rng Z.of_nat 0) ample_heap m' r' h'
    ltac:(intros k; apply Nat2Z.is_nonneg) E) as (Ht & _ & _).
  split; [exact Ht|]. vm_compute in E. injection E as <- _ _. reflexivity.
Defined.
