(* ===== verification/Md5.v ===== *)
(** * MD5

    [src/plibsys-master/src/pcryptohash-md5.c] and the part of [pcryptohash.c]
    the heartbeat uses: the hash whose hexadecimal digits are the keys of
    players.

    A word is 32 bits.  The buffer is its 64 bytes; on a machine of either byte
    order [pp_crypto_hash_md5_swap_bytes] makes its words those the bytes are in
    little-endian order. *)

From S2P Require Import Prelude.

Local Open Scope Z_scope.

Record PHashMD5 := HashMD5 { buf : list Z; hash : Z * Z * Z * Z; len_high : Z; len_low : Z }.

Definition pp_crypto_hash_md5_pad : list Z := 0x80 :: replicate 63 0.

(** ** One block *)

Definition P_MD5_ROTL (val shift : Z) : Z := Z.lor (u32 (Z.shiftl val shift)) (Z.shiftr val (32 - shift)).

Definition P_MD5_F (x y z : Z) : Z := Z.lxor z (Z.land x (Z.lxor y z)).
Definition P_MD5_G (x y z : Z) : Z := P_MD5_F z x y.
Definition P_MD5_H (x y z : Z) : Z := Z.lxor (Z.lxor x y) z.
Definition P_MD5_I (x y z : Z) : Z := Z.lxor y (Z.lor x (u32 (Z.lnot z))).

(** The four macros, and a call of one: [Line ROUND_0 D 1 0xE8C7B756 12] is
    [P_MD5_ROUND_0 (D, A, B, C, 1, 0xE8C7B756, 12)].  The other registers follow
    the first in their cyclic order. *)
Inductive md5_round := ROUND_0 | ROUND_1 | ROUND_2 | ROUND_3.
Inductive md5_register := A | B | C | D.
Record md5_line := Line { l_round : md5_round; l_target : md5_register; l_k : nat; l_i : Z; l_s : Z }.

Definition round_function (r : md5_round) : Z -> Z -> Z -> Z :=
  match r with ROUND_0 => P_MD5_F | ROUND_1 => P_MD5_G | ROUND_2 => P_MD5_H | ROUND_3 => P_MD5_I end.

(** [a += F (b, c, d) + data[k] + i, a = P_MD5_ROTL (a, s) + b] *)
Definition P_MD5_ROUND (f : Z -> Z -> Z -> Z) (a b c d data_k i s : Z) : Z :=
  let a := u32 (a + (f b c d + data_k + i)) in u32 (P_MD5_ROTL a s + b).

Definition run_line (data : list Z) (regs : Z * Z * Z * Z) (l : md5_line) : Z * Z * Z * Z :=
  let '(a, b, c, d) := regs in
  let go x y z w := P_MD5_ROUND (round_function (l_round l)) x y z w (default 0 (data !! l_k l)) (l_i l) (l_s l) in
  match l_target l with
  | A => (go a b c d, b, c, d)
  | D => (a, b, c, go d a b c)
  | C => (a, b, go c d a b, d)
  | B => (a, go b c d a, c, d)
  end.

Definition md5_lines : list md5_line :=
  [ Line ROUND_0 A 0 0xD76AA478 7; Line ROUND_0 D 1 0xE8C7B756 12;
    Line ROUND_0 C 2 0x242070DB 17; Line ROUND_0 B 3 0xC1BDCEEE 22;
    Line ROUND_0 A 4 0xF57C0FAF 7; Line ROUND_0 D 5 0x4787C62A 12;
    Line ROUND_0 C 6 0xA8304613 17; Line ROUND_0 B 7 0xFD469501 22;
    Line ROUND_0 A 8 0x698098D8 7; Line ROUND_0 D 9 0x8B44F7AF 12;
    Line ROUND_0 C 10 0xFFFF5BB1 17; Line ROUND_0 B 11 0x895CD7BE 22;
    Line ROUND_0 A 12 0x6B901122 7; Line ROUND_0 D 13 0xFD987193 12;
    Line ROUND_0 C 14 0xA679438E 17; Line ROUND_0 B 15 0x49B40821 22;
    Line ROUND_1 A 1 0xF61E2562 5; Line ROUND_1 D 6 0xC040B340 9;
    Line ROUND_1 C 11 0x265E5A51 14; Line ROUND_1 B 0 0xE9B6C7AA 20;
    Line ROUND_1 A 5 0xD62F105D 5; Line ROUND_1 D 10 0x02441453 9;
    Line ROUND_1 C 15 0xD8A1E681 14; Line ROUND_1 B 4 0xE7D3FBC8 20;
    Line ROUND_1 A 9 0x21E1CDE6 5; Line ROUND_1 D 14 0xC33707D6 9;
    Line ROUND_1 C 3 0xF4D50D87 14; Line ROUND_1 B 8 0x455A14ED 20;
    Line ROUND_1 A 13 0xA9E3E905 5; Line ROUND_1 D 2 0xFCEFA3F8 9;
    Line ROUND_1 C 7 0x676F02D9 14; Line ROUND_1 B 12 0x8D2A4C8A 20;
    Line ROUND_2 A 5 0xFFFA3942 4; Line ROUND_2 D 8 0x8771F681 11;
    Line ROUND_2 C 11 0x6D9D6122 16; Line ROUND_2 B 14 0xFDE5380C 23;
    Line ROUND_2 A 1 0xA4BEEA44 4; Line ROUND_2 D 4 0x4BDECFA9 11;
    Line ROUND_2 C 7 0xF6BB4B60 16; Line ROUND_2 B 10 0xBEBFBC70 23;
    Line ROUND_2 A 13 0x289B7EC6 4; Line ROUND_2 D 0 0xEAA127FA 11;
    Line ROUND_2 C 3 0xD4EF3085 16; Line ROUND_2 B 6 0x04881D05 23;
    Line ROUND_2 A 9 0xD9D4D039 4; Line ROUND_2 D 12 0xE6DB99E5 11;
    Line ROUND_2 C 15 0x1FA27CF8 16; Line ROUND_2 B 2 0xC4AC5665 23;
    Line ROUND_3 A 0 0xF4292244 6; Line ROUND_3 D 7 0x432AFF97 10;
    Line ROUND_3 C 14 0xAB9423A7 15; Line ROUND_3 B 5 0xFC93A039 21;
    Line ROUND_3 A 12 0x655B59C3 6; Line ROUND_3 D 3 0x8F0CCC92 10;
    Line ROUND_3 C 10 0xFFEFF47D 15; Line ROUND_3 B 1 0x85845DD1 21;
    Line ROUND_3 A 8 0x6FA87E4F 6; Line ROUND_3 D 15 0xFE2CE6E0 10;
    Line ROUND_3 C 6 0xA3014314 15; Line ROUND_3 B 13 0x4E0811A1 21;
    Line ROUND_3 A 4 0xF7537E82 6; Line ROUND_3 D 11 0xBD3AF235 10;
    Line ROUND_3 C 2 0x2AD7D2BB 15; Line ROUND_3 B 9 0xEB86D391 21 ].

Definition pp_crypto_hash_md5_process (h : Z * Z * Z * Z) (data : list Z) : Z * Z * Z * Z :=
  let '(h0, h1, h2, h3) := h in
  let '(a, b, c, d) := foldl (run_line data) (h0, h1, h2, h3) md5_lines in
  (u32 (h0 + a), u32 (h1 + b), u32 (h2 + c), u32 (h3 + d)).

(** The words of the buffer. *)
Definition le_word (bs : list Z) : Z := foldr (fun b acc => b + 256 * acc) 0 bs.

Fixpoint buf_w (n : nat) (bs : list Z) : list Z :=
  match n with
  | O => []
  | S n' => le_word (take 4 bs) :: buf_w n' (drop 4 bs)
  end.

(** ** The stream *)

Definition p_crypto_hash_md5_reset : PHashMD5 :=
  HashMD5 (replicate 64 0) (0x67452301, 0xEFCDAB89, 0x98BADCFE, 0x10325476) 0 0.

(** [memcpy (ctx->buf.buf + at, data, ...)] *)
Definition fill (b : list Z) (off : nat) (data : list Z) : list Z := take off b ++ data ++ drop (off + length data) b.

(** [while (len >= 64)] *)
Fixpoint update_loop (fuel : nat) (b : list Z) (h : Z * Z * Z * Z) (data : list Z) : list Z * (Z * Z * Z * Z) * list Z :=
  match fuel with
  | O => (b, h, data)
  | S fuel' =>
      if (64 <=? length data)%nat then
        let b := fill b 0 (take 64 data) in
        update_loop fuel' b (pp_crypto_hash_md5_process h (buf_w 16 b)) (drop 64 data)
      else (b, h, data)
  end.

Definition p_crypto_hash_md5_update (ctx : PHashMD5) (data : list Z) : PHashMD5 :=
  let len := Z.of_nat (length data) in
  let left_ := Z.to_nat (Z.land (len_low ctx) 0x3F) in
  let to_fill := (64 - left_)%nat in
  let low := u32 (len_low ctx + u32 len) in
  let high := if low <? u32 len then u32 (len_high ctx + 1) else len_high ctx in
  let '(b, h, data, left_) :=
    if negb (left_ =? 0)%nat && (Z.of_nat to_fill <=? u32 len) then
      let b := fill (buf ctx) left_ (take to_fill data) in
      (b, pp_crypto_hash_md5_process (hash ctx) (buf_w 16 b), drop to_fill data, 0%nat)
    else (buf ctx, hash ctx, data, left_) in
  let '(b, h, data) := update_loop (length data) b h data in
  let b := if (0 <? length data)%nat then fill b left_ data else b in
  HashMD5 b h high low.

Definition p_crypto_hash_md5_finish (ctx : PHashMD5) : PHashMD5 :=
  let left_ := Z.land (len_low ctx) 0x3F in
  let last := if left_ <? 56 then 56 - left_ else 120 - left_ in
  let low := u32 (Z.shiftl (len_low ctx) 3) in
  let high := Z.lor (u32 (Z.shiftl (len_high ctx) 3)) (Z.shiftr (len_low ctx) 29) in
  let ctx := if 0 <? last then p_crypto_hash_md5_update ctx (take (Z.to_nat last) pp_crypto_hash_md5_pad) else ctx in
  let words := take 14 (buf_w 16 (buf ctx)) ++ [low; high] in
  HashMD5 (buf ctx) (pp_crypto_hash_md5_process (hash ctx) words) (len_high ctx) (len_low ctx).

(** The bytes of a word, lowest first. *)
Definition word_bytes (w : Z) : list Z := [w mod 256; w / 256 mod 256; w / 65536 mod 256; w / 16777216 mod 256].

Definition p_crypto_hash_md5_digest (ctx : PHashMD5) : list Z :=
  let '(h0, h1, h2, h3) := hash ctx in word_bytes h0 ++ word_bytes h1 ++ word_bytes h2 ++ word_bytes h3.

(** ** [PCryptoHash] *)

Record PCryptoHash := CryptoHash { context : PHashMD5; closed : bool }.

Definition p_crypto_hash_new : PCryptoHash := CryptoHash p_crypto_hash_md5_reset false.

Definition p_crypto_hash_update (hash : PCryptoHash) (data : list Z) : PCryptoHash :=
  if (length data =? 0)%nat then hash
  else if closed hash then hash
  else CryptoHash (p_crypto_hash_md5_update (context hash) data) (closed hash).

Definition pp_crypto_hash_hex_str : list Z := cstr "0123456789abcdef".

Fixpoint pp_crypto_hash_digest_to_hex (digest : list Z) : list Z :=
  match digest with
  | [] => []
  | b :: digest' =>
      default 0 (pp_crypto_hash_hex_str !! Z.to_nat (Z.land (Z.shiftr b 4) 0x0F)) ::
      default 0 (pp_crypto_hash_hex_str !! Z.to_nat (Z.land b 0x0F)) :: pp_crypto_hash_digest_to_hex digest'
  end.

(** The string, when there is memory for it. *)
Definition p_crypto_hash_get_string (hash : PCryptoHash) : list Z * PCryptoHash :=
  let hash := if closed hash then hash else CryptoHash (p_crypto_hash_md5_finish (context hash)) true in
  (pp_crypto_hash_digest_to_hex (p_crypto_hash_md5_digest (context hash)), hash).

(** The digest of the message "abc" is that of RFC 1321. *)
Example md5_abc :
  (p_crypto_hash_get_string (p_crypto_hash_update p_crypto_hash_new (cstr "abc"))).1 = cstr "900150983cd24fb0d6963f7d28e17f72".
Proof. vm_compute. reflexivity. Qed.

Example md5_empty : (p_crypto_hash_get_string p_crypto_hash_new).1 = cstr "d41d8cd98f00b204e9800998ecf8427e".
Proof. vm_compute. reflexivity. Qed.
