(* ===== verification/Md5Spec.v ===== *)
(** * MD5 is MD5

    The algorithm of RFC 1321 as a reference, the equality of the unrolled
    rounds with it, and the stream: whatever the pieces of a message are, the
    digest is that of the message. *)

From S2P Require Import Prelude Md5.

Local Open Scope Z_scope.

(** ** The algorithm *)

Definition rotate (x s : Z) : Z := (x * 2 ^ s) mod 2 ^ 32 + x / 2 ^ (32 - s).

Definition rfc_function (r : md5_round) (x y z : Z) : Z :=
  match r with
  | ROUND_0 => Z.lor (Z.land x y) (Z.land (Z.lnot x) z)
  | ROUND_1 => Z.lor (Z.land x z) (Z.land y (Z.lnot z))
  | ROUND_2 => Z.lxor (Z.lxor x y) z
  | ROUND_3 => Z.lxor y (Z.lor x (u32 (Z.lnot z)))
  end.

Definition T_table : list Z :=
  [ 0xD76AA478; 0xE8C7B756; 0x242070DB; 0xC1BDCEEE; 0xF57C0FAF; 0x4787C62A; 0xA8304613; 0xFD469501;
    0x698098D8; 0x8B44F7AF; 0xFFFF5BB1; 0x895CD7BE; 0x6B901122; 0xFD987193; 0xA679438E; 0x49B40821;
    0xF61E2562; 0xC040B340; 0x265E5A51; 0xE9B6C7AA; 0xD62F105D; 0x02441453; 0xD8A1E681; 0xE7D3FBC8;
    0x21E1CDE6; 0xC33707D6; 0xF4D50D87; 0x455A14ED; 0xA9E3E905; 0xFCEFA3F8; 0x676F02D9; 0x8D2A4C8A;
    0xFFFA3942; 0x8771F681; 0x6D9D6122; 0xFDE5380C; 0xA4BEEA44; 0x4BDECFA9; 0xF6BB4B60; 0xBEBFBC70;
    0x289B7EC6; 0xEAA127FA; 0xD4EF3085; 0x04881D05; 0xD9D4D039; 0xE6DB99E5; 0x1FA27CF8; 0xC4AC5665;
    0xF4292244; 0x432AFF97; 0xAB9423A7; 0xFC93A039; 0x655B59C3; 0x8F0CCC92; 0xFFEFF47D; 0x85845DD1;
    0x6FA87E4F; 0xFE2CE6E0; 0xA3014314; 0x4E0811A1; 0xF7537E82; 0xBD3AF235; 0x2AD7D2BB; 0xEB86D391 ].

Definition step_round (i : nat) : md5_round :=
  match (i / 16)%nat with 0%nat => ROUND_0 | 1%nat => ROUND_1 | 2%nat => ROUND_2 | _ => ROUND_3 end.

(** Which word of the block, and how far to rotate. *)
Definition step_word (i : nat) : nat :=
  match step_round i with
  | ROUND_0 => i mod 16
  | ROUND_1 => (5 * i + 1) mod 16
  | ROUND_2 => (3 * i + 5) mod 16
  | ROUND_3 => (7 * i) mod 16
  end%nat.

Definition step_shift (i : nat) : Z :=
  default 0 (match step_round i with
             | ROUND_0 => [7; 12; 17; 22] | ROUND_1 => [5; 9; 14; 20] | ROUND_2 => [4; 11; 16; 23] | ROUND_3 => [6; 10; 15; 21]
             end !! (i mod 4)%nat).

Definition step_T (i : nat) : Z := default 0 (T_table !! i).

Definition rfc_step (data : list Z) (regs : Z * Z * Z * Z) (i : nat) : Z * Z * Z * Z :=
  let '(a, b, c, d) := regs in
  (d, u32 (b + rotate (u32 (a + rfc_function (step_round i) b c d + default 0 (data !! step_word i) + step_T i)) (step_shift i)), b, c).

Definition rfc_block (h : Z * Z * Z * Z) (data : list Z) : Z * Z * Z * Z :=
  let '(h0, h1, h2, h3) := h in
  let '(a, b, c, d) := foldl (rfc_step data) h (seq 0 64) in
  (u32 (h0 + a), u32 (h1 + b), u32 (h2 + c), u32 (h3 + d)).

Definition rfc_initial : Z * Z * Z * Z := (0x67452301, 0xEFCDAB89, 0x98BADCFE, 0x10325476).

(** The first [n] blocks of a message. *)
Fixpoint absorb (n : nat) (h : Z * Z * Z * Z) (l : list Z) : Z * Z * Z * Z :=
  match n with
  | O => h
  | S n' => absorb n' (rfc_block h (buf_w 16 (take 64 l))) (drop 64 l)
  end.

(** A bit, zeros up to 56 bytes modulo 64, and the length in bits. *)
Definition padding (len : nat) : list Z := 0x80 :: replicate (Z.to_nat ((55 - Z.of_nat len) mod 64)) 0.
Definition bit_length (len : nat) : list Z :=
  word_bytes ((8 * Z.of_nat len) mod 2 ^ 32) ++ word_bytes ((8 * Z.of_nat len) / 2 ^ 32 mod 2 ^ 32).
Definition padded (msg : list Z) : list Z := msg ++ padding (length msg) ++ bit_length (length msg).

Definition rfc_md5 (msg : list Z) : list Z :=
  let '(a, b, c, d) := absorb (length (padded msg) / 64) rfc_initial (padded msg) in
  word_bytes a ++ word_bytes b ++ word_bytes c ++ word_bytes d.

(** ** One block *)

Lemma F_eq x y z : P_MD5_F x y z = Z.lor (Z.land x y) (Z.land (Z.lnot x) z).
Proof.
  unfold P_MD5_F. apply Z.bits_inj'. intros n Hn. rewrite !Z.lxor_spec, !Z.lor_spec, !Z.land_spec, Z.lxor_spec, Z.lnot_spec by done.
  by destruct (Z.testbit x n), (Z.testbit y n), (Z.testbit z n).
Qed.

Lemma round_function_eq r x y z : round_function r x y z = rfc_function r x y z.
Proof.
  destruct r; cbn [round_function rfc_function]; [apply F_eq | | done | done].
  unfold P_MD5_G. rewrite F_eq. by rewrite (Z.land_comm z x), (Z.land_comm (Z.lnot z) y).
Qed.

Lemma rotl_eq x s : in_u 32 x -> 0 < s < 32 -> P_MD5_ROTL x s = rotate x s.
Proof.
  intros Hx Hs. unfold P_MD5_ROTL, rotate, wrapu. rewrite shiftl_mul, shiftr_div by lia.
  assert (x * 2 ^ s mod 2 ^ 32 = x mod 2 ^ (32 - s) * 2 ^ s) as ->.
  { replace (2 ^ 32) with (2 ^ (32 - s) * 2 ^ s) by (rewrite <- Z.pow_add_r by lia; f_equal; lia). apply Z.mul_mod_distr_r; lia. }
  rewrite <- shiftl_mul by lia. rewrite lor_shiftl_low; [by rewrite shiftl_mul by lia | lia|].
  split; [apply Z.div_pos; [apply Hx | lia]|]. apply Z.div_lt_upper_bound; [lia|]. rewrite <- Z.pow_add_r by lia.
  replace (32 - s + s) with 32 by lia. apply Hx.
Qed.

Lemma step_shift_range i : (i < 64)%nat -> 0 < step_shift i < 32.
Proof. intros Hi. do 64 (destruct i as [|i]; [vm_compute; split; reflexivity|]). lia. Qed.

(** The line of the code for each step. *)
Definition step_line (i : nat) : md5_line :=
  Line (step_round i) (match (i mod 4)%nat with 0%nat => A | 1%nat => D | 2%nat => C | _ => B end) (step_word i) (step_T i) (step_shift i).

Lemma md5_lines_steps : md5_lines = step_line <$> seq 0 64.
Proof. vm_compute. reflexivity. Qed.

(** The registers in the order of the algorithm. *)
Definition view (i : nat) (regs : Z * Z * Z * Z) : Z * Z * Z * Z :=
  let '(a, b, c, d) := regs in
  match (i mod 4)%nat with 0%nat => (a, b, c, d) | 1%nat => (d, a, b, c) | 2%nat => (c, d, a, b) | _ => (b, c, d, a) end.

Lemma run_line_step data regs i : (i < 64)%nat -> view (S i) (run_line data regs (step_line i)) = rfc_step data (view i regs) i.
Proof.
  intros Hi. destruct regs as [[[a b] c] d].
  assert (forall x y z w, P_MD5_ROUND (round_function (step_round i)) x y z w (default 0 (data !! step_word i)) (step_T i) (step_shift i) =
    u32 (y + rotate (u32 (x + rfc_function (step_round i) y z w + default 0 (data !! step_word i) + step_T i)) (step_shift i))) as Hr.
  { intros x y z w. unfold P_MD5_ROUND. rewrite round_function_eq, rotl_eq by first [by apply wrapu_range | by apply step_shift_range].
    f_equal. rewrite Z.add_comm. do 3 f_equal. lia. }
  unfold run_line, rfc_step, view, step_line. cbn [l_target l_round l_k l_i l_s].
  assert (i mod 4 = 0 \/ i mod 4 = 1 \/ i mod 4 = 2 \/ i mod 4 = 3)%nat as Hm by (pose proof (Nat.mod_upper_bound i 4); lia).
  assert (S i mod 4 = S (i mod 4) mod 4)%nat as -> by (rewrite <- (Nat.add_1_l i), <- (Nat.add_1_l (i mod 4)), Nat.Div0.add_mod_idemp_r; reflexivity).
  destruct Hm as [E | [E | [E | E]]]; rewrite E; cbn; by rewrite Hr.
Qed.

Lemma lines_steps data regs n : (n <= 64)%nat ->
  view n (foldl (run_line data) regs (step_line <$> seq 0 n)) = foldl (rfc_step data) regs (seq 0 n).
Proof.
  induction n as [|n IH]; intros Hn; [by destruct regs as [[[a b] c] d]|].
  rewrite seq_S, fmap_app, !foldl_app. cbn [fmap list_fmap foldl]. rewrite Nat.add_0_l, run_line_step, IH by lia. done.
Qed.

Lemma process_block h data : pp_crypto_hash_md5_process h data = rfc_block h data.
Proof.
  unfold pp_crypto_hash_md5_process, rfc_block. destruct h as [[[h0 h1] h2] h3]. rewrite md5_lines_steps.
  pose proof (lines_steps data (h0, h1, h2, h3) 64 ltac:(lia)) as H.
  destruct (foldl (run_line data) (h0, h1, h2, h3) (step_line <$> seq 0 64)) as [[[a b] c] d].
  change (view 64 (a, b, c, d)) with (a, b, c, d) in H. by rewrite <- H.
Qed.

(** ** Blocks *)

Lemma absorb_app n k h l l' : length l = (64 * n)%nat -> absorb (n + k) h (l ++ l') = absorb k (absorb n h l) l'.
Proof.
  revert h l. induction n as [|n IH]; intros h l Hl; [by destruct l|]. cbn [absorb Nat.add].
  rewrite take_app_le, drop_app_le by lia. apply IH. rewrite length_drop. lia.
Qed.

(** Only whole blocks count. *)
Lemma absorb_take n h l : absorb n h (take (64 * n) l) = absorb n h l.
Proof.
  revert h l. induction n as [|n IH]; intros h l; [done|]. cbn [absorb].
  rewrite take_take, Nat.min_l by lia. rewrite <- (IH _ (drop 64 l)). f_equal.
  rewrite skipn_firstn_comm. f_equal. lia.
Qed.

Lemma absorb_more n k h l : (64 * n <= length l)%nat -> absorb (n + k) h l = absorb k (absorb n h l) (drop (64 * n) l).
Proof.
  intros Hl. rewrite <- (take_drop (64 * n) l) at 1. rewrite absorb_app by (rewrite length_take; lia). by rewrite absorb_take.
Qed.

Lemma length_fill b off data : (off + length data <= length b)%nat -> length (fill b off data) = length b.
Proof. intros H. unfold fill. rewrite !length_app, length_take, length_drop. lia. Qed.

Lemma take_fill b off data : (off + length data <= length b)%nat -> take (off + length data) (fill b off data) = take off b ++ data.
Proof.
  intros H. unfold fill. rewrite app_assoc, take_app_le by (rewrite length_app, length_take; lia).
  apply take_ge. rewrite length_app, length_take. lia.
Qed.

Lemma fill_whole b off data : length b = 64%nat -> (off + length data)%nat = 64%nat -> fill b off data = take off b ++ data.
Proof. intros Hb H. unfold fill. rewrite H, (drop_ge b 64), app_nil_r by lia. done. Qed.

Lemma update_loop_spec fuel b h data : (length data / 64 <= fuel)%nat -> length b = 64%nat ->
  exists b', update_loop fuel b h data = (b', absorb (length data / 64) h data, drop (64 * (length data / 64)) data) /\ length b' = 64%nat.
Proof.
  revert b h data. induction fuel as [|fuel IH]; intros b h data Hf Hb; cbn [update_loop].
  { replace (length data / 64)%nat with 0%nat by lia. exists b. by rewrite drop_0. }
  destruct (Nat.leb_spec 64 (length data)) as [Hl|Hl].
  - assert (length data / 64 = S (length (drop 64 data) / 64))%nat as E.
    { rewrite length_drop. replace (length data) with (length data - 64 + 1 * 64)%nat at 1 by lia. rewrite Nat.div_add by lia. lia. }
    rewrite fill_whole by (done || (rewrite length_take; lia)). rewrite take_0. cbn [app].
    destruct (IH (take 64 data) (pp_crypto_hash_md5_process h (buf_w 16 (take 64 data))) (drop 64 data)) as (b' & E' & Hb').
    + lia.
    + rewrite length_take. lia.
    + exists b'. rewrite E', E. cbn [absorb]. rewrite process_block, drop_drop. split; [|done]. do 2 f_equal. lia.
  - rewrite Nat.div_small by lia. exists b. by rewrite drop_0.
Qed.

Lemma update_loop_small fuel b h data : (length data < 64)%nat -> update_loop fuel b h data = (b, h, data).
Proof. intros H. destruct fuel; [done|]. cbn [update_loop]. by destruct (Nat.leb_spec 64 (length data)); [lia|]. Qed.

(** ** The stream *)

(** The context has taken in [msg]. *)
Record represents (ctx : PHashMD5) (msg : list Z) : Prop := {
  rp_hash : hash ctx = absorb (length msg / 64) rfc_initial msg;
  rp_size : length (buf ctx) = 64%nat;
  rp_tail : take (length msg mod 64) (buf ctx) = drop (64 * (length msg / 64)) msg;
  rp_low : len_low ctx = Z.of_nat (length msg) mod 2 ^ 32;
  rp_high : len_high ctx = Z.of_nat (length msg) / 2 ^ 32 mod 2 ^ 32 }.

Lemma reset_represents : represents p_crypto_hash_md5_reset [].
Proof. by constructor. Qed.

(** The bytes that wait for a block. *)
Lemma left_eq ctx msg : represents ctx msg -> Z.land (len_low ctx) 0x3F = Z.of_nat (length msg mod 64).
Proof.
  intros H. rewrite (rp_low _ _ H). change 0x3F with (Z.ones 6). rewrite Z.land_ones by lia. change (2 ^ 6) with 64. change (2 ^ 32) with (64 * 67108864).
  rewrite Nat2Z.inj_mod. Z.to_euclidean_division_equations. lia.
Qed.

(** What is left goes behind what waits. *)
Lemma keep_rest b pre rest : length b = 64%nat -> take (length pre) b = pre -> (length pre + length rest <= 64)%nat ->
  let b' := if (0 <? length rest)%nat then fill b (length pre) rest else b in
  length b' = 64%nat /\ take (length pre + length rest) b' = pre ++ rest.
Proof.
  intros Hb Hp Hl. cbn zeta. destruct (Nat.ltb_spec 0 (length rest)) as [H|H].
  - rewrite length_fill, take_fill, Hp by lia. done.
  - destruct rest; [|cbn in H; lia]. by rewrite Nat.add_0_r, app_nil_r.
Qed.

Lemma div_mod_64 k : (k = 64 * (k / 64) + k mod 64 /\ k mod 64 < 64)%nat.
Proof. split; [by apply Nat.div_mod_eq | by apply Nat.mod_upper_bound]. Qed.

(** The buffer and the hash: [t] waits, [data] comes. *)
Lemma update_blocks b h t data : length b = 64%nat -> take (length t) b = t -> (length t < 64)%nat ->
  let n := ((length t + length data) / 64)%nat in
  exists b', (let '(b, h, data, left_) :=
      if negb (length t =? 0)%nat && (Z.of_nat (64 - length t) <=? Z.of_nat (length data)) then
        let b := fill b (length t) (take (64 - length t) data) in
        (b, pp_crypto_hash_md5_process h (buf_w 16 b), drop (64 - length t) data, 0%nat)
      else (b, h, data, length t) in
    let '(b, h, data) := update_loop (length data) b h data in
    (if (0 <? length data)%nat then fill b left_ data else b, h)) = (b', absorb n h (t ++ data)) /\
  length b' = 64%nat /\ take ((length t + length data) mod 64) b' = drop (64 * n) (t ++ data).
Proof.
  intros Hb Ht Hlt n.
  destruct (negb (length t =? 0)%nat && (Z.of_nat (64 - length t) <=? Z.of_nat (length data))) eqn:Ec.
  - apply andb_true_iff in Ec as [_ Hfull%Z.leb_le]. set (d' := drop (64 - length t) data).
    assert (length d' = length t + length data - 64)%nat as Hd by (unfold d'; rewrite length_drop; lia).
    assert (t ++ data = (t ++ take (64 - length t) data) ++ d') as Esplit by (unfold d'; by rewrite <- app_assoc, take_drop).
    assert (length (t ++ take (64 - length t) data) = 64%nat) as Hblk by (rewrite length_app, length_take; lia).
    rewrite fill_whole, Ht by (done || (rewrite length_take; lia)).
    assert (n = S (length d' / 64))%nat as En.
    { unfold n. rewrite Hd. replace (length t + length data)%nat with (length t + length data - 64 + 1 * 64)%nat at 1 by lia. rewrite Nat.div_add by lia. lia. }
    assert ((length t + length data) mod 64 = length d' mod 64)%nat as Em.
    { rewrite Hd. replace (length t + length data)%nat with (length t + length data - 64 + 1 * 64)%nat at 1 by lia. apply Nat.Div0.mod_add. }
    destruct (update_loop_spec (length d') (t ++ take (64 - length t) data)
      (pp_crypto_hash_md5_process h (buf_w 16 (t ++ take (64 - length t) data))) d') as (b1 & E1 & Hb1); [pose proof (div_mod_64 (length d')); lia | done|].
    cbv beta iota zeta. fold d'. rewrite E1. pose proof (div_mod_64 (length d')) as [Hq Hr].
    assert (length (drop (64 * (length d' / 64)) d') = length d' mod 64)%nat as Hrest by (rewrite length_drop; lia).
    destruct (keep_rest b1 [] (drop (64 * (length d' / 64)) d') Hb1 (take_0 _)) as [Hl Htk]; [rewrite Hrest; cbn [length]; lia|].
    eexists. split; [f_equal|split; [exact Hl|]].
    + rewrite En, Esplit. cbn [absorb]. by rewrite take_app_length', drop_app_length', process_block by done.
    + cbn [length Nat.add app] in Htk. rewrite Em, <- Hrest, Htk, En, Esplit.
      rewrite drop_app_ge by lia. rewrite Hblk. f_equal. lia.
  - assert (length t = 0 \/ length t + length data < 64)%nat as [H0|Hsmall].
    { apply andb_false_iff in Ec as [H%negb_false_iff%Nat.eqb_eq | H%Z.leb_gt]; lia. }
    + destruct t; [|done]. clear Ec. cbn [length Nat.add app] in *. unfold n. clear n.
      destruct (update_loop_spec (length data) b h data) as (b1 & E1 & Hb1); [pose proof (div_mod_64 (length data)); lia | done|].
      cbv beta iota zeta. rewrite E1. pose proof (div_mod_64 (length data)) as [Hq Hr].
      assert (length (drop (64 * (length data / 64)) data) = length data mod 64)%nat as Hrest by (rewrite length_drop; lia).
      destruct (keep_rest b1 [] (drop (64 * (length data / 64)) data) Hb1 (take_0 _)) as [Hl Htk]; [rewrite Hrest; cbn [length]; lia|].
      eexists. split; [reflexivity|]. split; [exact Hl|]. cbn [length Nat.add app] in Htk. by rewrite <- Hrest, Htk.
    + cbv beta iota zeta. rewrite update_loop_small by lia.
      destruct (keep_rest b t data Hb Ht) as [Hl Htk]; [lia|]. unfold n. rewrite Nat.div_small, Nat.mod_small by lia.
      eexists. split; [reflexivity|]. by split.
Qed.

(** The counters: 64 bits of the length, in two words. *)
Lemma count_low L d : 0 <= L -> 0 <= d < 2 ^ 32 -> u32 (L mod 2 ^ 32 + u32 d) = (L + d) mod 2 ^ 32.
Proof. intros HL Hd. unfold wrapu. rewrite (Z.mod_small d) by done. apply Zplus_mod_idemp_l. Qed.

Lemma count_high L d : 0 <= L -> 0 <= d < 2 ^ 32 ->
  (if (L + d) mod 2 ^ 32 <? u32 d then u32 (L / 2 ^ 32 mod 2 ^ 32 + 1) else L / 2 ^ 32 mod 2 ^ 32) = (L + d) / 2 ^ 32 mod 2 ^ 32.
Proof.
  intros HL Hd. unfold wrapu. rewrite (Z.mod_small d) by done. change (2 ^ 32) with 4294967296 in *.
  rewrite Zplus_mod_idemp_l.
  assert (L + d = 4294967296 * (L / 4294967296) + (L mod 4294967296 + d)) as Es by (Z.div_mod_to_equations; lia).
  destruct (Z.ltb_spec ((L + d) mod 4294967296) d) as [H|H].
  - f_equal. Z.div_mod_to_equations. lia.
  - f_equal. Z.div_mod_to_equations. lia.
Qed.

Lemma update_represents ctx msg data :
  represents ctx msg -> Z.of_nat (length data) < 2 ^ 32 -> represents (p_crypto_hash_md5_update ctx data) (msg ++ data).
Proof.
  intros H Hd. pose proof (left_eq ctx msg H) as El. destruct H as [Hh Hs Ht Hlow Hhigh].
  set (t := drop (64 * (length msg / 64)) msg) in *. pose proof (div_mod_64 (length msg)) as [Hq Hr].
  assert (length t = length msg mod 64)%nat as Hlen by (unfold t; rewrite length_drop; lia). rewrite <- Hlen in *.
  assert (take (64 * (length msg / 64)) msg ++ t = msg) as Emsg by apply take_drop.
  set (m0 := take (64 * (length msg / 64)) msg) in *.
  assert (length m0 = 64 * (length msg / 64))%nat as Hm0 by (unfold m0; rewrite length_take; lia).
  destruct (update_blocks (buf ctx) (hash ctx) t data Hs Ht ltac:(lia)) as (b' & E & Hb' & Htk).
  unfold p_crypto_hash_md5_update. rewrite El, Nat2Z.id.
  assert (u32 (Z.of_nat (length data)) = Z.of_nat (length data)) as Eu by (apply wrapu_small; split; [lia | done]).
  rewrite Hlow, count_low, Hhigh, count_high by lia. rewrite Eu.
  destruct (if negb (length t =? 0)%nat && (Z.of_nat (64 - length t) <=? Z.of_nat (length data)) then _ else _) as [[[b1 h1] d1] l1].
  destruct (update_loop (length d1) b1 h1 d1) as [[b2 h2] d2]. injection E as -> ->.
  assert (length (msg ++ data) / 64 = length msg / 64 + (length t + length data) / 64)%nat as En.
  { rewrite length_app. replace (length msg + length data)%nat with (length msg / 64 * 64 + (length t + length data))%nat by lia.
    apply Nat.div_add_l. lia. }
  assert (length (msg ++ data) mod 64 = (length t + length data) mod 64)%nat as Em.
  { rewrite length_app. replace (length msg + length data)%nat with (length t + length data + length msg / 64 * 64)%nat by lia. apply Nat.Div0.mod_add. }
  assert (msg ++ data = m0 ++ (t ++ data)) as Eall by (by rewrite app_assoc, Emsg).
  constructor; cbn [hash buf len_low len_high].
  - rewrite En, Eall, absorb_app by done. f_equal. rewrite Hh. unfold m0. by rewrite absorb_take.
  - exact Hb'.
  - rewrite Em, En, Eall, Htk, (drop_app_ge m0) by lia. f_equal. lia.
  - by rewrite length_app, Nat2Z.inj_add.
  - by rewrite length_app, Nat2Z.inj_add.
Qed.

(** ** The end *)

Lemma buf_w_app n k x y : length x = (4 * n)%nat -> buf_w (n + k) (x ++ y) = buf_w n x ++ buf_w k y.
Proof.
  revert x. induction n as [|n IH]; intros x Hx; [by destruct x|]. cbn [buf_w Nat.add app].
  rewrite take_app_le, drop_app_le by lia. f_equal. apply IH. rewrite length_drop. lia.
Qed.

Lemma length_buf_w n x : length (buf_w n x) = n.
Proof. revert x. induction n as [|n IH]; intros x; [done|]. cbn. by rewrite IH. Qed.

Lemma le_word_bytes w : in_u 32 w -> le_word (word_bytes w) = w.
Proof. intros H. unfold le_word, word_bytes. cbn [foldr]. unfold_widths. Z.div_mod_to_equations. lia. Qed.

Lemma high_eq L : 0 <= L -> Z.lor (u32 (Z.shiftl (L / 2 ^ 32 mod 2 ^ 32) 3)) (Z.shiftr (L mod 2 ^ 32) 29) = (8 * L) / 2 ^ 32 mod 2 ^ 32.
Proof.
  intros HL. unfold wrapu. rewrite shiftl_mul, shiftr_div by lia. change (2 ^ 32) with 4294967296. change (2 ^ 29) with 536870912. change (2 ^ 3) with 8.
  set (x := L / 4294967296 mod 4294967296).
  assert (x * 8 mod 4294967296 = Z.shiftl (x mod 536870912) 3) as ->.
  { rewrite shiftl_mul by lia. change (2 ^ 3) with 8. change 4294967296 with (536870912 * 8). apply Z.mul_mod_distr_r; lia. }
  rewrite lor_shiftl_low; [|lia|change (2 ^ 3) with 8; Z.div_mod_to_equations; lia]. change (2 ^ 3) with 8.
  unfold x. Z.div_mod_to_equations. lia.
Qed.

Lemma low_eq L : 0 <= L -> u32 (Z.shiftl (L mod 2 ^ 32) 3) = (8 * L) mod 2 ^ 32.
Proof.
  intros HL. unfold wrapu. rewrite shiftl_mul by lia. change (2 ^ 3) with 8. rewrite Zmult_mod_idemp_l. f_equal. lia.
Qed.

Lemma padding_taken len : 0 <= len ->
  let last := if len mod 64 <? 56 then 56 - len mod 64 else 120 - len mod 64 in
  (0 <? last) = true /\ take (Z.to_nat last) pp_crypto_hash_md5_pad = 0x80 :: replicate (Z.to_nat ((55 - len) mod 64)) 0.
Proof.
  intros Hl. cbn zeta. set (r := len mod 64). assert (0 <= r < 64) as Hr by (apply Z.mod_pos_bound; lia).
  assert ((55 - len) mod 64 = if r <? 56 then 55 - r else 119 - r) as ->.
  { unfold r. destruct (Z.ltb_spec (len mod 64) 56); Z.div_mod_to_equations; lia. }
  unfold pp_crypto_hash_md5_pad. destruct (Z.ltb_spec r 56) as [H|H]; (split; [apply Z.ltb_lt; lia|]).
  - replace (Z.to_nat (56 - r)) with (S (Z.to_nat (55 - r))) by lia. cbn [take]. f_equal. rewrite take_replicate. f_equal. lia.
  - replace (Z.to_nat (120 - r)) with (S (Z.to_nat (119 - r))) by lia. cbn [take]. f_equal. rewrite take_replicate. f_equal. lia.
Qed.

Lemma length_padding len : (length (padding len) = S (Z.to_nat ((55 - Z.of_nat len) mod 64)))%nat.
Proof. unfold padding. cbn [length]. by rewrite length_replicate. Qed.

Lemma padding_ends len : ((len + length (padding len)) mod 64 = 56)%nat.
Proof.
  rewrite length_padding. apply Nat2Z.inj. rewrite Nat2Z.inj_mod, Nat2Z.inj_add, Nat2Z.inj_succ, Z2Nat.id by (apply Z.mod_pos_bound; lia).
  change (Z.of_nat 64) with 64. change (Z.of_nat 56) with 56. Z.div_mod_to_equations. lia.
Qed.

(** The last block: what waits, and the length. *)
Lemma last_words b tail low high : length b = 64%nat -> take 56 b = tail -> in_u 32 low -> in_u 32 high ->
  take 14 (buf_w 16 b) ++ [low; high] = buf_w 16 (tail ++ word_bytes low ++ word_bytes high).
Proof.
  intros Hb Ht Hl Hh. assert (length tail = 56%nat) as Hlen by (rewrite <- Ht, length_take; lia).
  rewrite <- (take_drop 56 b), Ht. change 16%nat with (14 + 2)%nat. rewrite !buf_w_app by done.
  rewrite take_app_length' by (by rewrite length_buf_w). f_equal. cbn [buf_w].
  rewrite (take_app_length' (word_bytes low)), (drop_app_length' (word_bytes low)) by done.
  change (take 4 (word_bytes high)) with (word_bytes high). by rewrite !le_word_bytes.
Qed.

Lemma finish_digest ctx msg : represents ctx msg -> p_crypto_hash_md5_digest (p_crypto_hash_md5_finish ctx) = rfc_md5 msg.
Proof.
  intros H. pose proof (left_eq ctx msg H) as El. rewrite Nat2Z.inj_mod in El. change (Z.of_nat 64) with 64 in El.
  destruct (padding_taken (Z.of_nat (length msg)) ltac:(lia)) as [Hlast Hpad]. cbn zeta in Hlast, Hpad.
  unfold p_crypto_hash_md5_finish. rewrite El, Hlast, Hpad, (rp_low _ _ H), (rp_high _ _ H), low_eq, high_eq by lia. fold (padding (length msg)).
  assert (represents (p_crypto_hash_md5_update ctx (padding (length msg))) (msg ++ padding (length msg))) as H1.
  { apply update_represents; [done|]. rewrite length_padding, Nat2Z.inj_succ, Z2Nat.id by (apply Z.mod_pos_bound; lia).
    pose proof (Z.mod_pos_bound (55 - Z.of_nat (length msg)) 64). lia. }
  set (ctx1 := p_crypto_hash_md5_update ctx (padding (length msg))) in *. destruct H1 as [Hh Hs Ht _ _].
  set (m1 := msg ++ padding (length msg)) in *.
  assert (length m1 mod 64 = 56)%nat as Hm by (unfold m1; rewrite length_app; apply padding_ends). rewrite Hm in Ht.
  pose proof (Nat.div_mod_eq (length m1) 64) as Hq. rewrite Hm in Hq.
  rewrite (last_words _ _ _ _ Hs Ht) by (apply Z.mod_pos_bound; lia). fold (bit_length (length msg)).
  assert (padded msg = m1 ++ bit_length (length msg)) as Ep by (unfold padded, m1; by rewrite app_assoc).
  assert (length (padded msg) / 64 = length m1 / 64 + 1)%nat as En.
  { rewrite Ep, length_app. change (length (bit_length (length msg))) with 8%nat.
    replace (length m1 + 8)%nat with ((length m1 / 64 + 1) * 64)%nat by lia. apply Nat.div_mul. lia. }
  unfold rfc_md5, p_crypto_hash_md5_digest. cbn [hash]. rewrite process_block, Hh, En, Ep.
  rewrite absorb_more by (rewrite length_app; lia). cbn [absorb].
  assert (absorb (length m1 / 64) rfc_initial (m1 ++ bit_length (length msg)) = absorb (length m1 / 64) rfc_initial m1) as ->.
  { rewrite <- absorb_take, take_app_le, absorb_take by lia. done. }
  rewrite drop_app_le by lia. rewrite (take_ge (_ ++ _)); [done|].
  rewrite length_app, length_drop. change (length (bit_length (length msg))) with 8%nat. lia.
Qed.

(** ** The hash of the program *)

Lemma hex_to_lower d : Forall is_byte d -> length (pp_crypto_hash_digest_to_hex d) = (2 * length d)%nat /\
  Forall (fun c => 48 <= c <= 57 \/ 97 <= c <= 102) (pp_crypto_hash_digest_to_hex d).
Proof.
  induction 1 as [|b d Hb _ [IH1 IH2]]; [done|]. cbn [pp_crypto_hash_digest_to_hex length]. split; [cbn in *; lia|].
  assert (forall k, 0 <= k < 16 -> 48 <= default 0 (pp_crypto_hash_hex_str !! Z.to_nat k) <= 57 \/ 97 <= default 0 (pp_crypto_hash_hex_str !! Z.to_nat k) <= 102) as Hd.
  { intros k Hk. assert (Z.to_nat k < 16)%nat as Hn by lia. revert Hn. generalize (Z.to_nat k). intros n Hn.
    do 16 (destruct n as [|n]; [vm_compute; intuition congruence|]). lia. }
  constructor; [|constructor; [|done]]; apply Hd; change 0x0F with (Z.ones 4); rewrite Z.land_ones by lia; apply Z.mod_pos_bound; lia.
Qed.

Lemma rfc_md5_bytes msg : length (rfc_md5 msg) = 16%nat /\ Forall is_byte (rfc_md5 msg).
Proof.
  unfold rfc_md5. destruct (absorb _ _ _) as [[[a b] c] d]. split; [done|].
  repeat (apply Forall_cons; split; [apply Z.mod_pos_bound; lia|]). apply Forall_nil_2.
Qed.

Lemma pieces_represent pieces : Forall (fun d => Z.of_nat (length d) < 2 ^ 32) pieces -> forall h msg,
  closed h = false -> represents (context h) msg ->
  let h' := foldl p_crypto_hash_update h pieces in closed h' = false /\ represents (context h') (msg ++ concat pieces).
Proof.
  induction 1 as [|d pieces Hd _ IH]; intros h msg Hc Hr; cbn [foldl concat]; [by rewrite app_nil_r|].
  rewrite app_assoc. apply IH; unfold p_crypto_hash_update; destruct (Nat.eqb_spec (length d) 0) as [E|E]; rewrite ?Hc; try done.
  - destruct d; [by rewrite app_nil_r | done].
  - by apply update_represents.
Qed.

Lemma md5_string_eq pieces : Forall (fun d => Z.of_nat (length d) < 2 ^ 32) pieces ->
  (p_crypto_hash_get_string (foldl p_crypto_hash_update p_crypto_hash_new pieces)).1 = pp_crypto_hash_digest_to_hex (rfc_md5 (concat pieces)).
Proof.
  intros H. destruct (pieces_represent pieces H p_crypto_hash_new [] eq_refl reset_represents) as [Hc Hr]. cbn zeta in Hc, Hr. cbn [app] in Hr.
  unfold p_crypto_hash_get_string. rewrite Hc. cbn [fst context]. by rewrite (finish_digest _ _ Hr).
Qed.

(** C31. The hash of plibsys computes MD5: whatever the pieces a message is given in
    (each below 4 GiB), the string is the hexadecimal digits of the digest RFC
    1321 defines for the whole message, and asking again gives it again. *)
Theorem md5_string_spec pieces :
  Forall (fun d => Z.of_nat (length d) < 2 ^ 32) pieces ->
  let '(s, h) := p_crypto_hash_get_string (foldl p_crypto_hash_update p_crypto_hash_new pieces) in
  s = pp_crypto_hash_digest_to_hex (rfc_md5 (concat pieces)) /\ (p_crypto_hash_get_string h).1 = s.
Proof.
  intros H. pose proof (md5_string_eq pieces H) as E. destruct (p_crypto_hash_get_string _) as [s h] eqn:Es. split; [exact E|].
  unfold p_crypto_hash_get_string in Es. injection Es as <- <-. unfold p_crypto_hash_get_string.
  by destruct (closed (foldl _ _ _)) eqn:Ec; cbn [closed context fst]; rewrite ?Ec.
Qed.

Lemma md5_string_spec_witness :
  Forall (fun d => Z.of_nat (length d) < 2 ^ 32) [cstr "ab"; []; cstr "c"] /\
  let '(s, h) := p_crypto_hash_get_string (foldl p_crypto_hash_update p_crypto_hash_new [cstr "ab"; []; cstr "c"]) in
  s = pp_crypto_hash_digest_to_hex (rfc_md5 (concat [cstr "ab"; []; cstr "c"])) /\ (p_crypto_hash_get_string h).1 = s.
Proof.
  assert (Forall (fun d => Z.of_nat (length d) < 2 ^ 32) [cstr "ab"; []; cstr "c"]) as H by (repeat constructor).
  split; [exact H | exact (md5_string_spec [cstr "ab"; []; cstr "c"] H)].
Defined.
