(* ===== verification/Md5Heartbeat.v ===== *)
(** * The keys of players are MD5

    The hash of plibsys is an instance of what authentication assumes of it, so
    that the theorems about keys hold for the hash the program uses. *)

From S2P Require Import Prelude Protocol Heartbeat HeartbeatProps Md5 Md5Spec.

Local Open Scope Z_scope.

(** The string for a message given at once. *)
#[export] Instance plibsys_md5 : Heartbeat.Md5 := fun d => (p_crypto_hash_get_string (p_crypto_hash_update p_crypto_hash_new d)).1.

Lemma digest_bytes ctx : length (p_crypto_hash_md5_digest ctx) = 16%nat /\ Forall is_byte (p_crypto_hash_md5_digest ctx).
Proof.
  unfold p_crypto_hash_md5_digest. destruct (hash ctx) as [[[a b] c] d]. split; [done|].
  repeat (apply Forall_cons; split; [apply Z.mod_pos_bound; lia|]). apply Forall_nil_2.
Qed.

#[export] Instance plibsys_md5_laws : Md5Laws.
Proof.
  constructor; intros d; unfold md5_hex, plibsys_md5, p_crypto_hash_get_string; cbn [fst].
  - destruct (digest_bytes (context (if closed (p_crypto_hash_update p_crypto_hash_new d) then p_crypto_hash_update p_crypto_hash_new d
      else CryptoHash (p_crypto_hash_md5_finish (context (p_crypto_hash_update p_crypto_hash_new d))) true))) as [Hl Hb].
    rewrite (proj1 (hex_to_lower _ Hb)), Hl. done.
  - apply hex_to_lower, digest_bytes.
Qed.

(** The salt and the name are hashed one after the other. *)
Definition login_digest (salt username : list Z) : list Z :=
  (p_crypto_hash_get_string (p_crypto_hash_update (p_crypto_hash_update p_crypto_hash_new salt) username)).1.

(** What [tc_heartbeat_manager_validate] computes in two steps is the hash of the
    salt followed by the name, the MD5 of both. *)
Theorem login_digest_spec salt username :
  Z.of_nat (length salt) < 2 ^ 32 -> Z.of_nat (length username) < 2 ^ 32 -> Z.of_nat (length (salt ++ username)) < 2 ^ 32 ->
  login_digest salt username = md5_hex (salt ++ username) /\
  login_digest salt username = pp_crypto_hash_digest_to_hex (rfc_md5 (salt ++ username)).
Proof.
  intros H1 H2 H3. unfold login_digest, md5_hex, plibsys_md5.
  pose proof (md5_string_eq [salt; username] ltac:(by repeat constructor)) as E1.
  pose proof (md5_string_eq [salt ++ username] ltac:(by repeat constructor)) as E2.
  cbn [concat foldl] in E1, E2. rewrite app_nil_r in E1, E2. rewrite E1, E2. done.
Qed.

(** A key as a service hands it out, and a message of several blocks. *)
Example login_digest_example : login_digest (cstr "0123456789ABCDEF") (cstr "Notch") = cstr "e7c4e4221f0e766436cc6ce162883dce".
Proof. vm_compute. reflexivity. Qed.

Example md5_blocks : md5_hex (replicate 200 97) = cstr "887f30b43b2867f4a9accceee7d16e6c".
Proof. vm_compute. reflexivity. Qed.
