(* ===== verification/AvlTree.v ===== *)
(** * AVL trees of plibsys

    [src/plibsys-master/src/ptree-avl.c] and the functions of [ptree.c] on such
    trees: creation, insertion and removal with rebalancing, lookup, traversal,
    clearing and release, on nodes in memory with their parent pointers.

    A computation without a result has used a node that is not there, or has
    run out of fuel, which bounds the loops and which the theorems show to
    suffice.  The destroy functions are the list of the keys given to them;
    values are not destroyed, as in the tree of the heartbeat. *)

From stdpp Require Export gmap.
From S2P Require Import Prelude.

Local Open Scope Z_scope.

Definition link : Set := option nat.

Section Tree.
Context {K V : Type}.

(** [PTreeAVLNode] with its [PTreeBaseNode]. *)
Record PTreeAVLNode := AVLNode {
  n_left : link; n_right : link; n_key : K; n_value : V; n_parent : link; n_balance : Z }.

Definition set_left (x : link) (n : PTreeAVLNode) : PTreeAVLNode :=
  AVLNode x (n_right n) (n_key n) (n_value n) (n_parent n) (n_balance n).
Definition set_right (x : link) (n : PTreeAVLNode) : PTreeAVLNode :=
  AVLNode (n_left n) x (n_key n) (n_value n) (n_parent n) (n_balance n).
Definition set_parent (x : link) (n : PTreeAVLNode) : PTreeAVLNode :=
  AVLNode (n_left n) (n_right n) (n_key n) (n_value n) x (n_balance n).
Definition set_balance (x : Z) (n : PTreeAVLNode) : PTreeAVLNode :=
  AVLNode (n_left n) (n_right n) (n_key n) (n_value n) (n_parent n) x.
Definition set_pair (k : K) (v : V) (n : PTreeAVLNode) : PTreeAVLNode :=
  AVLNode (n_left n) (n_right n) k v (n_parent n) (n_balance n).

(** [PTree], the nodes it points to, the keys that were destroyed and the
    allocator. *)
Record PTree := Tree {
  t_nodes : gmap nat PTreeAVLNode; t_root : link; t_nnodes : Z; t_destroyed : list K; t_heap : heap }.

Definition with_nodes (x : gmap nat PTreeAVLNode) (t : PTree) : PTree := Tree x (t_root t) (t_nnodes t) (t_destroyed t) (t_heap t).
Definition with_root (x : link) (t : PTree) : PTree := Tree (t_nodes t) x (t_nnodes t) (t_destroyed t) (t_heap t).

(** ** Computations *)

Definition TM (A : Type) : Type := PTree -> option (A * PTree).

#[global] Instance TM_ret : MRet TM := fun A a t => Some (a, t).
#[global] Instance TM_bind : MBind TM := fun A B k c t => match c t with Some (a, t') => k a t' | None => None end.

Definition get (p : link) : TM PTreeAVLNode := fun t =>
  match p with None => None | Some a => match t_nodes t !! a with Some n => Some (n, t) | None => None end end.
Definition modify (p : link) (f : PTreeAVLNode -> PTreeAVLNode) : TM unit := fun t =>
  match p with
  | None => None
  | Some a => match t_nodes t !! a with Some n => Some (tt, with_nodes (<[a := f n]> (t_nodes t)) t) | None => None end
  end.
Definition set_root (x : link) : TM unit := fun t => Some (tt, with_root x t).
Definition destroy_key (k : K) : TM unit := fun t => Some (tt, Tree (t_nodes t) (t_root t) (t_nnodes t) (t_destroyed t ++ [k]) (t_heap t)).
Definition free_node (p : link) : TM unit := fun t =>
  match p with
  | None => None
  | Some a => match t_nodes t !! a with Some _ => Some (tt, with_nodes (delete a (t_nodes t)) t) | None => None end
  end.
Definition count (d : Z) : TM unit := fun t => Some (tt, Tree (t_nodes t) (t_root t) (t_nnodes t + d) (t_destroyed t) (t_heap t)).
Definition stuck {A} : TM A := fun _ => None.

(** [if(p->parent != NULL) { ... } else *root = node] *)
Definition hang (parent old node : link) : TM unit :=
  match parent with
  | None => set_root node
  | Some _ =>
      p ← get parent;
      if bool_decide (n_left p = old) then modify parent (set_left node) else modify parent (set_right node)
  end.

(** [if(child != NULL) child->parent = parent] *)
Definition adopt (child parent : link) : TM unit := match child with None => mret tt | Some _ => modify child (set_parent parent) end.

(** ** Rotations *)

Definition pp_tree_avl_rotate_left (node : link) : TM unit :=
  n ← get node;
  _ ← modify (n_parent n) (set_right (n_left n));
  n ← get node;
  _ ← adopt (n_left n) (n_parent n);
  n ← get node;
  _ ← modify node (set_left (n_parent n));
  n ← get node;
  l ← get (n_left n);
  _ ← modify node (set_parent (n_parent l));
  _ ← modify (n_left n) (set_parent node);
  n ← get node;
  _ ← hang (n_parent n) (n_left n) node;
  n ← get node;
  _ ← modify node (set_balance (n_balance n + 1));
  n ← get node;
  modify (n_left n) (set_balance (- n_balance n)).

Definition pp_tree_avl_rotate_right (node : link) : TM unit :=
  n ← get node;
  _ ← modify (n_parent n) (set_left (n_right n));
  n ← get node;
  _ ← adopt (n_right n) (n_parent n);
  n ← get node;
  _ ← modify node (set_right (n_parent n));
  n ← get node;
  r ← get (n_right n);
  _ ← modify node (set_parent (n_parent r));
  _ ← modify (n_right n) (set_parent node);
  n ← get node;
  _ ← hang (n_parent n) (n_right n) node;
  n ← get node;
  _ ← modify node (set_balance (n_balance n - 1));
  n ← get node;
  modify (n_right n) (set_balance (- n_balance n)).

(** The balance factors after a double rotation. *)
Definition restore_balance (tmp : link) : TM unit :=
  t ← get tmp;
  _ ← (if n_balance t =? 1 then
         _ ← modify (n_left t) (set_balance 0); modify (n_right t) (set_balance (-1))
       else if n_balance t =? -1 then
         _ ← modify (n_left t) (set_balance 1); modify (n_right t) (set_balance 0)
       else _ ← modify (n_left t) (set_balance 0); modify (n_right t) (set_balance 0));
  modify tmp (set_balance 0).

Definition pp_tree_avl_rotate_left_right (node : link) : TM unit :=
  n ← get node;
  let tmp_node := n_right n in
  tmp ← get tmp_node;
  _ ← modify node (set_right (n_left tmp));
  n ← get node;
  _ ← adopt (n_right n) node;
  p ← get (n_parent n);
  _ ← modify tmp_node (set_parent (n_parent p));
  tmp ← get tmp_node;
  _ ← hang (n_parent tmp) (n_parent n) tmp_node;
  tmp ← get tmp_node;
  _ ← modify (n_parent n) (set_left (n_right tmp));
  p ← get (n_parent n);
  _ ← adopt (n_left p) (n_parent n);
  _ ← modify tmp_node (set_right (n_parent n));
  _ ← modify (n_parent n) (set_parent tmp_node);
  _ ← modify tmp_node (set_left node);
  _ ← modify node (set_parent tmp_node);
  restore_balance tmp_node.

Definition pp_tree_avl_rotate_right_left (node : link) : TM unit :=
  n ← get node;
  let tmp_node := n_left n in
  tmp ← get tmp_node;
  _ ← modify node (set_left (n_right tmp));
  n ← get node;
  _ ← adopt (n_left n) node;
  p ← get (n_parent n);
  _ ← modify tmp_node (set_parent (n_parent p));
  tmp ← get tmp_node;
  _ ← hang (n_parent tmp) (n_parent n) tmp_node;
  tmp ← get tmp_node;
  _ ← modify (n_parent n) (set_right (n_left tmp));
  p ← get (n_parent n);
  _ ← adopt (n_right p) (n_parent n);
  _ ← modify tmp_node (set_left (n_parent n));
  _ ← modify (n_parent n) (set_parent tmp_node);
  _ ← modify tmp_node (set_right node);
  _ ← modify node (set_parent tmp_node);
  restore_balance tmp_node.

(** ** Insertion *)

Fixpoint pp_tree_avl_balance_insert (fuel : nat) (node : link) : TM unit :=
  match fuel with
  | O => stuck
  | S fuel' =>
      n ← get node;
      let parent := n_parent n in
      match parent with
      | None => mret tt
      | Some _ =>
          p ← get parent;
          if bool_decide (n_left p = node) then
            if n_balance p =? 1 then
              if n_balance n =? -1 then pp_tree_avl_rotate_left_right node else pp_tree_avl_rotate_right node
            else if n_balance p =? -1 then modify parent (set_balance 0)
            else _ ← modify parent (set_balance 1); pp_tree_avl_balance_insert fuel' parent
          else
            if n_balance p =? -1 then
              if n_balance n =? 1 then pp_tree_avl_rotate_right_left node else pp_tree_avl_rotate_left node
            else if n_balance p =? 1 then modify parent (set_balance 0)
            else _ ← modify parent (set_balance (-1)); pp_tree_avl_balance_insert fuel' parent
      end
  end.

(** ** Balance after a removal *)

Fixpoint pp_tree_avl_balance_remove (fuel : nat) (node : link) : TM unit :=
  match fuel with
  | O => stuck
  | S fuel' =>
      n ← get node;
      let parent := n_parent n in
      match parent with
      | None => mret tt
      | Some _ =>
          p ← get parent;
          if bool_decide (n_left p = node) then
            if n_balance p =? -1 then
              let sibling := n_right p in
              sib ← get sibling;
              let sibling_balance := n_balance sib in
              _ ← (if n_balance sib =? 1 then pp_tree_avl_rotate_right_left sibling else pp_tree_avl_rotate_left sibling);
              if sibling_balance =? 0 then mret tt
              else p ← get parent; pp_tree_avl_balance_remove fuel' (n_parent p)
            else if n_balance p =? 0 then modify parent (set_balance (-1))
            else _ ← modify parent (set_balance 0); pp_tree_avl_balance_remove fuel' parent
          else
            if n_balance p =? 1 then
              let sibling := n_left p in
              sib ← get sibling;
              let sibling_balance := n_balance sib in
              _ ← (if n_balance sib =? -1 then pp_tree_avl_rotate_left_right sibling else pp_tree_avl_rotate_right sibling);
              if sibling_balance =? 0 then mret tt
              else p ← get parent; pp_tree_avl_balance_remove fuel' (n_parent p)
            else if n_balance p =? 0 then modify parent (set_balance 1)
            else _ ← modify parent (set_balance 0); pp_tree_avl_balance_remove fuel' parent
      end
  end.

(** The place [cur_node] points to: the root or a child of a node. *)
Inductive slot := SlotRoot | SlotLeft (a : link) | SlotRight (a : link).

Definition read_slot (s : slot) : TM link :=
  match s with
  | SlotRoot => fun t => Some (t_root t, t)
  | SlotLeft a => n ← get a; mret (n_left n)
  | SlotRight a => n ← get a; mret (n_right n)
  end.
Definition write_slot (s : slot) (x : link) : TM unit :=
  match s with
  | SlotRoot => set_root x
  | SlotLeft a => modify a (set_left x)
  | SlotRight a => modify a (set_right x)
  end.

Variable compare_func : K -> K -> Z.

Fixpoint find_slot (fuel : nat) (cur : slot) (parent_node : link) (key : K) : TM (slot * link) :=
  match fuel with
  | O => stuck
  | S fuel' =>
      c ← read_slot cur;
      match c with
      | None => mret (cur, parent_node)
      | Some _ =>
          n ← get c;
          let cmp_result := compare_func key (n_key n) in
          if cmp_result <? 0 then find_slot fuel' (SlotLeft c) c key
          else if 0 <? cmp_result then find_slot fuel' (SlotRight c) c key
          else mret (cur, parent_node)
      end
  end.

(** Where [p_malloc0] puts a node. *)
Variable place : gset nat -> nat.

Definition p_malloc0 (n : PTreeAVLNode) : TM link := fun t =>
  let '(ok, h) := p_malloc (t_heap t) in
  if ok then
    let a := place (dom (t_nodes t)) in
    Some (Some a, Tree (<[a := n]> (t_nodes t)) (t_root t) (t_nnodes t) (t_destroyed t) h)
  else Some (None, Tree (t_nodes t) (t_root t) (t_nnodes t) (t_destroyed t) h).

(** The loops take at most as many turns as there are nodes, and one. *)
Definition steps : TM nat := fun t => Some (S (size (t_nodes t)), t).

Definition p_tree_avl_insert (key : K) (value : V) : TM bool :=
  root ← read_slot SlotRoot;
  fuel ← steps;
  '(cur_node, parent_node) ← find_slot fuel SlotRoot root key;
  c ← read_slot cur_node;
  match c with
  | Some _ =>
      n ← get c;
      _ ← destroy_key (n_key n);
      _ ← modify c (set_pair key value);
      mret false
  | None =>
      a ← p_malloc0 (AVLNode None None key value parent_node 0);
      _ ← write_slot cur_node a;
      match a with
      | None => mret false
      | Some _ => fuel ← steps; _ ← pp_tree_avl_balance_insert fuel a; mret true
      end
  end.

Definition p_tree_insert (key : K) (value : V) : TM unit :=
  result ← p_tree_avl_insert key value;
  if (result : bool) then count 1 else mret tt.

(** ** Removal *)

Fixpoint find_node (fuel : nat) (cur_node : link) (key : K) : TM link :=
  match fuel with
  | O => stuck
  | S fuel' =>
      match cur_node with
      | None => mret None
      | Some _ =>
          n ← get cur_node;
          let cmp_result := compare_func key (n_key n) in
          if cmp_result <? 0 then find_node fuel' (n_left n) key
          else if 0 <? cmp_result then find_node fuel' (n_right n) key
          else mret cur_node
      end
  end.

(** [while(prev_node->right != NULL) prev_node = prev_node->right] *)
Fixpoint rightmost (fuel : nat) (prev_node : link) : TM link :=
  match fuel with
  | O => stuck
  | S fuel' =>
      n ← get prev_node;
      match n_right n with None => mret prev_node | Some _ => rightmost fuel' (n_right n) end
  end.

(** The node that leaves the tree: a node with two children takes over the pair
    of its predecessor, which leaves in its place. *)
Definition node_to_remove (cur_node : link) : TM link :=
  n ← get cur_node;
  match n_left n, n_right n with
  | Some _, Some _ =>
      fuel ← steps;
      prev_node ← rightmost fuel (n_left n);
      p ← get prev_node;
      _ ← modify cur_node (set_pair (n_key p) (n_value p));
      mret prev_node
  | _, _ => mret cur_node
  end.

(** [*root_node] or the child of the parent becomes the child of the node. *)
Definition replace_node (cur_node child_node : link) : TM link :=
  root ← read_slot SlotRoot;
  if bool_decide (cur_node = root) then _ ← set_root child_node; mret None
  else
    n ← get cur_node;
    p ← get (n_parent n);
    _ ← (if bool_decide (n_left p = cur_node) then modify (n_parent n) (set_left child_node)
         else modify (n_parent n) (set_right child_node));
    mret (n_parent n).

(** Takes the node out of the tree and restores the balance: before the node is
    unlinked when it has no child, and from the child on when it has one. *)
Definition unlink_node (cur_node : link) : TM unit :=
  n ← get cur_node;
  let child_node := match n_left n with None => n_right n | Some _ => n_left n end in
  fuel ← steps;
  _ ← match child_node with None => pp_tree_avl_balance_remove fuel cur_node | Some _ => mret tt end;
  child_parent ← replace_node cur_node child_node;
  match child_node with
  | None => mret tt
  | Some _ => _ ← modify child_node (set_parent child_parent); pp_tree_avl_balance_remove fuel child_node
  end.

Definition p_tree_avl_remove (key : K) : TM bool :=
  root ← read_slot SlotRoot;
  fuel ← steps;
  found ← find_node fuel root key;
  match found with
  | None => mret false
  | Some _ =>
      cur_node ← node_to_remove found;
      _ ← unlink_node cur_node;
      n ← get cur_node;
      _ ← destroy_key (n_key n);
      _ ← free_node cur_node;
      mret true
  end.

Definition p_tree_remove (key : K) : TM bool :=
  root ← read_slot SlotRoot;
  match root with
  | None => mret false
  | Some _ =>
      result ← p_tree_avl_remove key;
      _ ← (if (result : bool) then count (-1) else mret tt);
      mret result
  end.

(** ** Lookup *)

Fixpoint lookup_loop (fuel : nat) (cur_node : link) (key : K) : TM (option V) :=
  match fuel with
  | O => stuck
  | S fuel' =>
      match cur_node with
      | None => mret None
      | Some _ =>
          n ← get cur_node;
          let cmp_result := compare_func key (n_key n) in
          if cmp_result <? 0 then lookup_loop fuel' (n_left n) key
          else if 0 <? cmp_result then lookup_loop fuel' (n_right n) key
          else mret (Some (n_value n))
      end
  end.

Definition p_tree_lookup (key : K) : TM (option V) :=
  root ← read_slot SlotRoot;
  fuel ← steps;
  lookup_loop fuel root key.

(** ** Clearing *)

Fixpoint clear_loop (fuel : nat) (cur_node : link) : TM unit :=
  match fuel with
  | O => stuck
  | S fuel' =>
      match cur_node with
      | None => mret tt
      | Some _ =>
          n ← get cur_node;
          match n_left n with
          | None =>
              _ ← destroy_key (n_key n);
              _ ← free_node cur_node;
              _ ← count (-1);
              clear_loop fuel' (n_right n)
          | Some _ =>
              steps' ← steps;
              prev_node ← rightmost steps' (n_left n);
              _ ← modify prev_node (set_right cur_node);
              _ ← modify cur_node (set_left None);
              clear_loop fuel' (n_left n)
          end
      end
  end.

Definition p_tree_clear : TM unit :=
  root ← read_slot SlotRoot;
  match root with
  | None => mret tt
  | Some _ =>
      fuel ← steps;
      _ ← clear_loop (2 * fuel) root;
      set_root None
  end.

(** What is left of the nodes, and the keys that were destroyed. *)
Definition p_tree_free (t : PTree) : option (gmap nat PTreeAVLNode * list K) :=
  match p_tree_clear t with Some (_, t') => Some (t_nodes t', t_destroyed t') | None => None end.

(** ** Traversal *)

(** [while(prev_node->right != NULL && prev_node->right != cur_node)] *)
Fixpoint find_thread (fuel : nat) (prev_node cur_node : link) : TM link :=
  match fuel with
  | O => stuck
  | S fuel' =>
      n ← get prev_node;
      match n_right n with
      | None => mret prev_node
      | Some _ => if bool_decide (n_right n = cur_node) then mret prev_node else find_thread fuel' (n_right n) cur_node
      end
  end.

Section Foreach.
Context {U : Type}.
Variable traverse_func : K -> V -> U -> bool * U.

(** [if(need_stop == FALSE) need_stop = traverse_func(...)] *)
Definition visit (need_stop : bool) (k : K) (v : V) (user_data : U) : bool * U :=
  if need_stop then (true, user_data) else traverse_func k v user_data.

Fixpoint traverse_loop (fuel : nat) (cur_node : link) (need_stop : bool) (mod_counter : Z) (user_data : U) : TM U :=
  match fuel with
  | O => stuck
  | S fuel' =>
      match cur_node with
      | None => mret user_data
      | Some _ =>
          n ← get cur_node;
          match n_left n with
          | None =>
              let '(need_stop, user_data) := visit need_stop (n_key n) (n_value n) user_data in
              traverse_loop fuel' (n_right n) need_stop mod_counter user_data
          | Some _ =>
              steps' ← steps;
              prev_node ← find_thread steps' (n_left n) cur_node;
              p ← get prev_node;
              match n_right p with
              | None =>
                  _ ← modify prev_node (set_right cur_node);
                  traverse_loop fuel' (n_left n) need_stop (mod_counter + 1) user_data
              | Some _ =>
                  let '(need_stop, user_data) := visit need_stop (n_key n) (n_value n) user_data in
                  _ ← modify prev_node (set_right None);
                  let mod_counter := mod_counter - 1 in
                  if need_stop && (mod_counter =? 0) then mret user_data
                  else traverse_loop fuel' (n_right n) need_stop mod_counter user_data
              end
          end
      end
  end.

Definition p_tree_foreach (user_data : U) : TM U :=
  root ← read_slot SlotRoot;
  match root with
  | None => mret user_data
  | Some _ => fuel ← steps; traverse_loop (2 * fuel) root false 0 user_data
  end.
End Foreach.

Definition p_tree_get_nnodes : TM Z := fun t => Some (t_nnodes t, t).

(** A tree of type [P_TREE_TYPE_AVL]. *)
Definition p_tree_new_full (h : heap) : option PTree * heap :=
  let '(ok, h') := p_malloc h in
  (if ok then Some (Tree ∅ None 0 [] h') else None, h').
End Tree.

Arguments PTreeAVLNode : clear implicits.
Arguments PTree : clear implicits.
