(* ===== verification/AvlTreeSpec.v ===== *)
(** * AVL trees in memory

    Where a tree lies among the nodes, with every parent pointer, and what the
    rotations of [ptree-avl.c] do to it: the four of them are run on the nodes
    next to the rotated edge, the rest of the tree being a context around
    them. *)

From S2P Require Import Prelude AvlTree.

Local Open Scope Z_scope.

Section Layout.
Context {K V : Type}.
Notation node := (PTreeAVLNode K V).
Notation ptree := (PTree K V).

(** ** Trees and contexts *)

Inductive tree := E | T (a : nat) (b : Z) (l : tree) (k : K) (v : V) (r : tree).

Definition root_of (t : tree) : link := match t with E => None | T a _ _ _ _ _ => Some a end.

(** The hole of a context is the left or the right child of its first frame. *)
Inductive frame := FL (a : nat) (b : Z) (k : K) (v : V) (r : tree) | FR (a : nat) (b : Z) (l : tree) (k : K) (v : V).

Definition fill_frame (f : frame) (t : tree) : tree :=
  match f with FL a b k v r => T a b t k v r | FR a b l k v => T a b l k v t end.

Fixpoint plug (c : list frame) (t : tree) : tree := match c with [] => t | f :: c' => plug c' (fill_frame f t) end.

Definition frame_addr (f : frame) : nat := match f with FL a _ _ _ _ => a | FR a _ _ _ _ => a end.
Definition above (c : list frame) : link := match c with [] => None | f :: _ => Some (frame_addr f) end.

(** The cells of a tree: the one of its root, and those below it. *)
Fixpoint cells (p : link) (t : tree) : list (nat * node) :=
  match t with
  | E => []
  | T a b l k v r => (a, AVLNode (root_of l) (root_of r) k v p b) :: cells (Some a) l ++ cells (Some a) r
  end.

Definition top_cell (p : link) (t : tree) : list (nat * node) :=
  match t with E => [] | T a b l k v r => [(a, AVLNode (root_of l) (root_of r) k v p b)] end.
Definition below (t : tree) : list (nat * node) :=
  match t with E => [] | T a _ l _ _ r => cells (Some a) l ++ cells (Some a) r end.

(** The cells of a context with [x] in the hole: the one next to the hole, and
    the others. *)
Definition edge_cell (c : list frame) (x : link) : list (nat * node) :=
  match c with
  | [] => []
  | FL a b k v r :: c' => [(a, AVLNode x (root_of r) k v (above c') b)]
  | FR a b l k v :: c' => [(a, AVLNode (root_of l) x k v (above c') b)]
  end.
Fixpoint around (c : list frame) : list (nat * node) :=
  match c with
  | [] => []
  | FL a b k v r :: c' => cells (Some a) r ++ edge_cell c' (Some a) ++ around c'
  | FR a b l k v :: c' => cells (Some a) l ++ edge_cell c' (Some a) ++ around c'
  end.

Lemma cells_split p t : cells p t = top_cell p t ++ below t.
Proof. by destruct t. Qed.

Lemma cells_plug c t : cells None (plug c t) ≡ₚ cells (above c) t ++ edge_cell c (root_of t) ++ around c.
Proof.
  revert t. induction c as [|f c IH]; intros t; cbn [plug above edge_cell around]; [by rewrite app_nil_r|].
  rewrite IH. destruct f; cbn [fill_frame cells root_of frame_addr edge_cell around app]; solve_Permutation.
Qed.

(** The tree lies at its root: the nodes are its cells and no others. *)
Record lies (t : ptree) (w : tree) : Prop := Lies {
  lies_nodes : t_nodes t = list_to_map (cells None w);
  lies_nodup : NoDup (cells None w).*1;
  lies_root : t_root t = root_of w }.

Definition addrs (w : tree) : list nat := (cells None w).*1.

Lemma lies_cells t w l :
  lies t w -> cells None w ≡ₚ l -> t_nodes t = list_to_map l /\ NoDup l.*1.
Proof.
  intros [Hn Hd _] Hp. split; [|by rewrite <- Hp]. rewrite Hn. by apply list_to_map_proper.
Qed.

Lemma cells_lies t l w' :
  NoDup l.*1 -> t_nodes t = list_to_map l -> t_root t = root_of w' ->
  cells None w' ≡ₚ l -> lies t w'.
Proof.
  intros Hd Hn Hr Hp. split; [|by rewrite Hp|done]. rewrite Hn. symmetry. apply list_to_map_proper; [by rewrite Hp|done].
Qed.

(** ** Running *)

Lemma bind_get {B} a n (k : node -> TM B) (t : ptree) :
  t_nodes t !! a = Some n -> (get (Some a) ≫= k) t = k n t.
Proof. intros H. unfold mbind, TM_bind, get. by rewrite H. Qed.

Lemma run_modify a n f (t : ptree) :
  t_nodes t !! a = Some n -> modify (Some a) f t = Some (tt, with_nodes (<[a := f n]> (t_nodes t)) t).
Proof. intros H. unfold modify. by rewrite H. Qed.

Lemma bind_modify {B} a n f (k : unit -> TM B) (t : ptree) :
  t_nodes t !! a = Some n -> (modify (Some a) f ≫= k) t = k tt (with_nodes (<[a := f n]> (t_nodes t)) t).
Proof. intros H. unfold mbind, TM_bind. by rewrite (run_modify _ _ _ _ H). Qed.

Lemma bind_ret {A B} (x : A) (k : A -> TM B) (t : ptree) : (mret x ≫= k) t = k x t.
Proof. done. Qed.

Lemma bind_root {B} x (k : unit -> TM B) (t : ptree) : (set_root x ≫= k) t = k tt (with_root x t).
Proof. done. Qed.

Lemma bind_bind {A B C} (m : TM A) (f : A -> TM B) (g : B -> TM C) (t : ptree) :
  ((m ≫= f) ≫= g) t = (m ≫= (fun x => f x ≫= g)) t.
Proof. unfold mbind, TM_bind. by destruct (m t) as [[]|]. Qed.
End Layout.

Ltac differ := first [assumption | apply not_eq_sym; assumption].

(** Looks a cell up among inserted ones. *)
Ltac find_cell :=
  cbn [t_nodes with_nodes with_root t_root];
  repeat first [rewrite lookup_insert_eq; reflexivity | rewrite lookup_insert_ne by differ].

(** Two maps with the same cells inserted in different orders. *)
Ltac same_cells :=
  let i := fresh "i" in
  apply map_eq; intros i;
  repeat match goal with
  | |- context [insert ?a _ _] =>
      lazymatch goal with
      | _ : i <> a |- _ => fail
      | _ => destruct (decide (i = a)) as [->|?]
      end
  end;
  repeat first [rewrite lookup_insert_eq | rewrite lookup_insert_ne by differ];
  reflexivity.

(** From cells in front of others, all distinct: inequalities of addresses. *)
Ltac distinct H :=
  cbn [fmap list_fmap fst app] in H;
  repeat rewrite ?NoDup_cons, ?not_elem_of_cons in H;
  destruct_and! H.

Section Rotations.
Context {K V : Type}.
Notation ptree := (PTree K V).
Notation tree := (@tree K V).
Notation frame := (@frame K V).

Lemma root_plug (c : list frame) (s s' : tree) : root_of s = root_of s' -> root_of (plug c s) = root_of (plug c s').
Proof. revert s s'. induction c as [|f c IH]; intros s s' H; cbn [plug]; [done|]. apply IH. by destruct f. Qed.

Lemma root_plug_frame (f : frame) c (s s' : tree) : root_of (plug (f :: c) s) = root_of (plug (f :: c) s').
Proof. apply (root_plug c). by destruct f. Qed.

(** No sibling of the hole lies at [p]. *)
Definition aside (c : list frame) (p : nat) : Prop :=
  match c with FR _ _ l _ _ :: _ => root_of l <> Some p | _ => True end.

Lemma around_aside (c : list frame) p : p ∉ (around c).*1 -> aside c p.
Proof.
  destruct c as [|[] c]; cbn [aside around]; [done..|]. rewrite fmap_app. intros H El. apply H, elem_of_app. left.
  destruct l; [done|]. injection El as ->. by left.
Qed.

Lemma plug_aside (t : ptree) c p b l k v r : lies t (plug c (T p b l k v r)) -> aside c p.
Proof.
  intros [_ Hd _]. apply around_aside. intros Hin. rewrite cells_plug in Hd. cbn [cells app fmap list_fmap fst] in Hd.
  apply NoDup_cons in Hd as [Hd _]. apply Hd. rewrite !fmap_app, !elem_of_app. auto.
Qed.

(** A computation that ends with the tree [w] and changes nothing else. *)
Definition ends (o : option (unit * ptree)) (t : ptree) (w : tree) : Prop :=
  exists t', o = Some (tt, t') /\ lies t' w /\
    t_nnodes t' = t_nnodes t /\ t_destroyed t' = t_destroyed t /\ t_heap t' = t_heap t.

Lemma ends_intro (t t' : ptree) l w :
  cells None w ≡ₚ l -> NoDup l.*1 -> t_nodes t' = list_to_map l -> t_root t' = root_of w ->
  t_nnodes t' = t_nnodes t -> t_destroyed t' = t_destroyed t -> t_heap t' = t_heap t ->
  ends (Some (tt, t')) t w.
Proof. intros. exists t'. split; [done|]. split; [by eapply cells_lies|done]. Qed.

(** A computation that goes on from the tree [w']. *)
Lemma ends_after (m : TM unit) (t t' : ptree) l w' w :
  cells None w' ≡ₚ l -> NoDup l.*1 -> t_nodes t' = list_to_map l -> t_root t' = root_of w' ->
  t_nnodes t' = t_nnodes t -> t_destroyed t' = t_destroyed t -> t_heap t' = t_heap t ->
  (lies t' w' -> ends (m t') t' w) -> ends (m t') t w.
Proof.
  intros ? ? ? ? ? ? ? H. destruct H as (t2 & E2 & Hl & ? & ? & ?); [by eapply cells_lies|].
  exists t2. split; [done|]. split; [done|]. split_and!; congruence.
Qed.
End Rotations.

(** Runs a computation on nodes that are known, one step after the other. *)
Ltac run_step :=
  lazymatch goal with
  | |- ends (mbind _ (mbind _ _) _) _ _ => rewrite bind_bind
  | |- ends (mbind _ (mret _) _) _ _ => rewrite bind_ret
  | |- ends (mbind _ (set_root _) _) _ _ => rewrite bind_root
  | |- ends (mbind _ (get _) _) _ _ => erewrite bind_get by find_cell
  | |- ends (mbind _ (modify _ _) _) _ _ => erewrite bind_modify by find_cell
  | |- ends (modify _ _ _) _ _ => erewrite run_modify by find_cell
  | |- ends (mbind _ (if bool_decide _ then _ else _) _) _ _ =>
      first [rewrite bool_decide_eq_true_2 by reflexivity | rewrite bool_decide_eq_false_2 by congruence]
  | H : ?b = _ |- ends (mbind _ (if ?b then _ else _) _) _ _ => rewrite H
  end;
  cbn [n_left n_right n_key n_value n_parent n_balance set_left set_right set_parent set_balance set_pair
       t_nodes t_root t_nnodes t_destroyed t_heap with_nodes with_root].
Ltac run_nodes := repeat run_step.

(** A rotation of nodes of which [Hd] says that they are distinct, to a tree of
    which [Hl'] lists the cells. *)
Ltac run_rotation Hd Hl' :=
  let Hd0 := fresh "Hd0" in
  cbn [top_cell edge_cell app root_of above frame_addr aside fill_frame] in *; pose proof Hd as Hd0; distinct Hd;
  cbn [list_to_map foldr fst snd];
  run_nodes; first [eapply ends_intro | eapply ends_after];
  cbn [t_nodes t_root t_nnodes t_destroyed t_heap with_nodes with_root];
  [exact Hl'|exact Hd0| | |reflexivity|reflexivity|reflexivity|..];
  cbn [list_to_map foldr fst snd set_left set_right set_parent set_balance];
  try first [reflexivity | apply root_plug; reflexivity | apply root_plug_frame | same_cells].

(** The cells of a tree in a context in another order; [perm_split] splits off
    the roots of the subtrees [x] and [y]. *)
Ltac perm_cells := rewrite cells_plug; cbn [cells root_of app]; solve_Permutation.
Ltac perm_split x y :=
  rewrite cells_plug; cbn [cells root_of]; rewrite ?(cells_split _ x), ?(cells_split _ y);
  cbn [app]; solve_Permutation.

Section Rotate.
Context {K V : Type}.
Notation ptree := (PTree K V).

Lemma rotate_right_spec (t : ptree) c p b k v r n nb l nk nv m :
  lies t (plug c (T p b (T n nb l nk nv m) k v r)) ->
  ends (pp_tree_avl_rotate_right (Some n) t) t
    (plug c (T n (nb - 1) l nk nv (T p (- (nb - 1)) m k v r))).
Proof.
  intros Hl. destruct t as [nodes root nn ds h]. pose proof (plug_aside _ _ _ _ _ _ _ _ Hl) as Ha.
  set (rest := cells (Some n) l ++ below m ++ cells (Some p) r ++ around c).
  destruct (lies_cells _ _ ((n, AVLNode (root_of l) (root_of m) nk nv (Some p) nb) ::
     (p, AVLNode (Some n) (root_of r) k v (above c) b) :: (top_cell (Some n) m ++ edge_cell c (Some p)) ++ rest) Hl)
    as [Hn Hd]; [perm_split m m|].
  assert (cells None (plug c (T n (nb - 1) l nk nv (T p (- (nb - 1)) m k v r))) ≡ₚ
     (n, AVLNode (root_of l) (Some p) nk nv (above c) (nb - 1)) ::
     (p, AVLNode (root_of m) (root_of r) k v (Some n) (- (nb - 1))) :: (top_cell (Some p) m ++ edge_cell c (Some n)) ++ rest)
    as Hl' by perm_split m m.
  pose proof (lies_root _ _ Hl) as Hr. cbn [t_nodes t_root] in *. clear Hl. clearbody rest. subst nodes root.
  unfold pp_tree_avl_rotate_right, adopt, hang.
  destruct m as [|ma mb ml mk mv mr], c as [|[g gb gk gv gr|g gb gl gk gv] c]; run_rotation Hd Hl'.
Qed.

Lemma rotate_left_spec (t : ptree) c p b l k v n nb m nk nv r :
  lies t (plug c (T p b l k v (T n nb m nk nv r))) ->
  ends (pp_tree_avl_rotate_left (Some n) t) t
    (plug c (T n (nb + 1) (T p (- (nb + 1)) l k v m) nk nv r)).
Proof.
  intros Hl. destruct t as [nodes root nn ds h]. pose proof (plug_aside _ _ _ _ _ _ _ _ Hl) as Ha.
  set (rest := cells (Some n) r ++ below m ++ cells (Some p) l ++ around c).
  destruct (lies_cells _ _ ((n, AVLNode (root_of m) (root_of r) nk nv (Some p) nb) ::
     (p, AVLNode (root_of l) (Some n) k v (above c) b) :: (top_cell (Some n) m ++ edge_cell c (Some p)) ++ rest) Hl)
    as [Hn Hd]; [perm_split m m|].
  assert (cells None (plug c (T n (nb + 1) (T p (- (nb + 1)) l k v m) nk nv r)) ≡ₚ
     (n, AVLNode (Some p) (root_of r) nk nv (above c) (nb + 1)) ::
     (p, AVLNode (root_of l) (root_of m) k v (Some n) (- (nb + 1))) :: (top_cell (Some p) m ++ edge_cell c (Some n)) ++ rest)
    as Hl' by perm_split m m.
  pose proof (lies_root _ _ Hl) as Hr. cbn [t_nodes t_root] in *. clear Hl. clearbody rest. subst nodes root.
  unfold pp_tree_avl_rotate_left, adopt, hang.
  destruct m as [|ma mb ml mk mv mr], c as [|[g gb gk gv gr|g gb gl gk gv] c]; run_rotation Hd Hl'.
Qed.

(** The balance factors of the children after a double rotation. *)
Definition left_bal (b : Z) : Z := if b =? 1 then 0 else if b =? -1 then 1 else 0.
Definition right_bal (b : Z) : Z := if b =? 1 then -1 else if b =? -1 then 0 else 0.

Lemma restore_balance_spec (t : ptree) c q qb n nb a nk nv x qk qv p pb y k v z :
  lies t (plug c (T q qb (T n nb a nk nv x) qk qv (T p pb y k v z))) ->
  ends (restore_balance (Some q) t) t
    (plug c (T q 0 (T n (left_bal qb) a nk nv x) qk qv (T p (right_bal qb) y k v z))).
Proof.
  intros Hl. destruct t as [nodes root nn ds h].
  set (rest := cells (Some n) a ++ cells (Some n) x ++ cells (Some p) y ++ cells (Some p) z ++ edge_cell c (Some q) ++ around c).
  destruct (lies_cells _ _ ((q, AVLNode (Some n) (Some p) qk qv (above c) qb) ::
     (n, AVLNode (root_of a) (root_of x) nk nv (Some q) nb) :: (p, AVLNode (root_of y) (root_of z) k v (Some q) pb) :: rest) Hl)
    as [Hn Hd]; [perm_cells|].
  assert (cells None (plug c (T q 0 (T n (left_bal qb) a nk nv x) qk qv (T p (right_bal qb) y k v z))) ≡ₚ
     (q, AVLNode (Some n) (Some p) qk qv (above c) 0) ::
     (n, AVLNode (root_of a) (root_of x) nk nv (Some q) (left_bal qb)) ::
     (p, AVLNode (root_of y) (root_of z) k v (Some q) (right_bal qb)) :: rest)
    as Hl' by perm_cells.
  pose proof (lies_root _ _ Hl) as Hr. cbn [t_nodes t_root] in *. clear Hl. clearbody rest. subst nodes root.
  unfold restore_balance, left_bal, right_bal in *.
  destruct (qb =? 1) eqn:E1; [|destruct (qb =? -1) eqn:E2]; run_rotation Hd Hl'.
Qed.

Lemma rotate_left_right_spec (t : ptree) c p b k v r n nb a nk nv q qb x qk qv y :
  lies t (plug c (T p b (T n nb a nk nv (T q qb x qk qv y)) k v r)) ->
  ends (pp_tree_avl_rotate_left_right (Some n) t) t
    (plug c (T q 0 (T n (left_bal qb) a nk nv x) qk qv (T p (right_bal qb) y k v r))).
Proof.
  intros Hl. destruct t as [nodes root nn ds h]. pose proof (plug_aside _ _ _ _ _ _ _ _ Hl) as Ha.
  set (rest := cells (Some n) a ++ below x ++ below y ++ cells (Some p) r ++ around c).
  destruct (lies_cells _ _ ((n, AVLNode (root_of a) (Some q) nk nv (Some p) nb) ::
     (p, AVLNode (Some n) (root_of r) k v (above c) b) :: (q, AVLNode (root_of x) (root_of y) qk qv (Some n) qb) ::
     (top_cell (Some q) x ++ top_cell (Some q) y ++ edge_cell c (Some p)) ++ rest) Hl)
    as [Hn Hd]; [perm_split x y|].
  assert (cells None (plug c (T q qb (T n nb a nk nv x) qk qv (T p b y k v r))) ≡ₚ
     (n, AVLNode (root_of a) (root_of x) nk nv (Some q) nb) ::
     (p, AVLNode (root_of y) (root_of r) k v (Some q) b) :: (q, AVLNode (Some n) (Some p) qk qv (above c) qb) ::
     (top_cell (Some n) x ++ top_cell (Some p) y ++ edge_cell c (Some q)) ++ rest)
    as Hl' by perm_split x y.
  pose proof (lies_root _ _ Hl) as Hr. cbn [t_nodes t_root] in *. clear Hl. clearbody rest. subst nodes root.
  unfold pp_tree_avl_rotate_left_right, adopt, hang.
  destruct x as [|xa xb xl xk xv xr], y as [|ya yb yl yk yv yr], c as [|[g gb gk gv gr|g gb gl gk gv] c];
    run_rotation Hd Hl'; apply restore_balance_spec.
Qed.

Lemma rotate_right_left_spec (t : ptree) c p b l k v n nb q qb x qk qv y nk nv z :
  lies t (plug c (T p b l k v (T n nb (T q qb x qk qv y) nk nv z))) ->
  ends (pp_tree_avl_rotate_right_left (Some n) t) t
    (plug c (T q 0 (T p (left_bal qb) l k v x) qk qv (T n (right_bal qb) y nk nv z))).
Proof.
  intros Hl. destruct t as [nodes root nn ds h]. pose proof (plug_aside _ _ _ _ _ _ _ _ Hl) as Ha.
  set (rest := cells (Some n) z ++ below x ++ below y ++ cells (Some p) l ++ around c).
  destruct (lies_cells _ _ ((n, AVLNode (Some q) (root_of z) nk nv (Some p) nb) ::
     (p, AVLNode (root_of l) (Some n) k v (above c) b) :: (q, AVLNode (root_of x) (root_of y) qk qv (Some n) qb) ::
     (top_cell (Some q) x ++ top_cell (Some q) y ++ edge_cell c (Some p)) ++ rest) Hl)
    as [Hn Hd]; [perm_split x y|].
  assert (cells None (plug c (T q qb (T p b l k v x) qk qv (T n nb y nk nv z))) ≡ₚ
     (n, AVLNode (root_of y) (root_of z) nk nv (Some q) nb) ::
     (p, AVLNode (root_of l) (root_of x) k v (Some q) b) :: (q, AVLNode (Some p) (Some n) qk qv (above c) qb) ::
     (top_cell (Some p) x ++ top_cell (Some n) y ++ edge_cell c (Some q)) ++ rest)
    as Hl' by perm_split x y.
  pose proof (lies_root _ _ Hl) as Hr. cbn [t_nodes t_root] in *. clear Hl. clearbody rest. subst nodes root.
  unfold pp_tree_avl_rotate_right_left, adopt, hang.
  destruct x as [|xa xb xl xk xv xr], y as [|ya yb yl yk yv yr], c as [|[g gb gk gv gr|g gb gl gk gv] c];
    run_rotation Hd Hl'; apply restore_balance_spec.
Qed.
End Rotate.
