(* ===== verification/AvlTreeInsert.v ===== *)
(** * Insertion into AVL trees

    The loop that restores the balance after an insertion, for every context it
    can climb, and the whole insertion: it keeps the tree balanced and sorted,
    and its list of pairs is the old one with the pair put in its place. *)

From S2P Require Import Prelude AvlTree AvlTreeSpec.

Local Open Scope Z_scope.

(** ** Balance *)

Section Balance.
Context {K V : Type}.
Notation ptree := (PTree K V).
Notation tree := (@tree K V).
Notation frame := (@frame K V).

Fixpoint height (t : tree) : Z := match t with E => 0 | T _ _ l _ _ r => 1 + Z.max (height l) (height r) end.

(** Every balance factor is the difference of heights, and a small one. *)
Fixpoint avl (t : tree) : Prop :=
  match t with
  | E => True
  | T _ b l _ _ r => b = height l - height r /\ -1 <= b <= 1 /\ avl l /\ avl r
  end.

(** A context is balanced around a hole of height [h]. *)
Fixpoint avl_around (c : list frame) (h : Z) : Prop :=
  match c with
  | [] => True
  | FL _ b _ _ r :: c' => b = h - height r /\ -1 <= b <= 1 /\ avl r /\ avl_around c' (1 + Z.max h (height r))
  | FR _ b l _ _ :: c' => b = height l - h /\ -1 <= b <= 1 /\ avl l /\ avl_around c' (1 + Z.max (height l) h)
  end.

Lemma height_nonneg t : 0 <= height t.
Proof. induction t; cbn [height]; lia. Qed.

Lemma avl_plug c s : avl (plug c s) <-> avl s /\ avl_around c (height s).
Proof.
  revert s. induction c as [|[] c IH]; intros s; cbn [plug avl_around fill_frame]; [tauto|..];
    rewrite IH; cbn [avl height]; tauto.
Qed.

(** ** The pairs in order *)

Fixpoint inorder (t : tree) : list (K * V) := match t with E => [] | T _ _ l k v r => inorder l ++ (k, v) :: inorder r end.

Fixpoint before (c : list frame) : list (K * V) :=
  match c with [] => [] | FL _ _ _ _ _ :: c' => before c' | FR _ _ l k v :: c' => before c' ++ inorder l ++ [(k, v)] end.
Fixpoint after (c : list frame) : list (K * V) :=
  match c with [] => [] | FL _ _ k v r :: c' => (k, v) :: inorder r ++ after c' | FR _ _ _ _ _ :: c' => after c' end.

Lemma inorder_plug c s : inorder (plug c s) = before c ++ inorder s ++ after c.
Proof.
  revert s. induction c as [|[] c IH]; intros s; cbn [plug before after fill_frame]; [by rewrite app_nil_r|..];
    rewrite IH; cbn [inorder]; by rewrite <- !app_assoc.
Qed.

Lemma cells_inorder_length p t : length (cells p t) = length (inorder t).
Proof. revert p. induction t as [|a b l IHl k v r IHr]; intros p; cbn; [done|]. rewrite !length_app, IHl, IHr. cbn. lia. Qed.

Lemma lies_size (t : ptree) w : lies t w -> size (t_nodes t) = length (inorder w).
Proof.
  intros [-> Hd _]. rewrite <- (cells_inorder_length None w). generalize dependent (cells None w). clear. intros l.
  induction l as [|[a x] l IH]; intros Hd; [done|]. cbn in Hd. apply NoDup_cons in Hd as [Ha Hd]. cbn [list_to_map foldr fst snd length].
  rewrite map_size_insert_None by (by apply not_elem_of_list_to_map_1). f_equal. by apply IH.
Qed.

Lemma length_context (c : list frame) s : (length c + length (inorder s) <= length (inorder (plug c s)))%nat.
Proof.
  rewrite inorder_plug, !length_app. enough (length c <= length (before c) + length (after c))%nat by lia.
  induction c as [|[] c IH]; cbn [before after length]; rewrite ?length_app; cbn [length]; rewrite ?length_app; lia.
Qed.

(** ** Nodes next to the hole *)

Lemma lies_node (t : ptree) c a b l k v r :
  lies t (plug c (T a b l k v r)) -> t_nodes t !! a = Some (AVLNode (root_of l) (root_of r) k v (above c) b).
Proof.
  intros Hl. destruct (lies_cells _ _ _ Hl (cells_plug _ _)) as [-> Hd].
  apply elem_of_list_to_map_1; [done|]. cbn [cells app]. by left.
Qed.

Lemma modify_spec (t : ptree) c a b l k v r f b' k' v' :
  lies t (plug c (T a b l k v r)) ->
  f (AVLNode (root_of l) (root_of r) k v (above c) b) = AVLNode (root_of l) (root_of r) k' v' (above c) b' ->
  ends (modify (Some a) f t) t (plug c (T a b' l k' v' r)).
Proof.
  intros Hl Hf. rewrite (run_modify _ _ _ _ (lies_node _ _ _ _ _ _ _ _ Hl)), Hf.
  destruct (lies_cells _ _ _ Hl (cells_plug _ _)) as [Hn Hd]. cbn [cells app root_of] in Hn, Hd.
  eapply ends_intro; [apply cells_plug|exact Hd| | |reflexivity..].
  - cbn [with_nodes t_nodes]. rewrite Hn. cbn [cells app list_to_map foldr fst snd root_of]. by rewrite insert_insert_eq.
  - cbn [with_nodes t_root]. rewrite (lies_root _ _ Hl). by apply root_plug.
Qed.

Lemma set_balance_spec (t : ptree) c a b b' l k v r :
  lies t (plug c (T a b l k v r)) -> ends (modify (Some a) (set_balance b') t) t (plug c (T a b' l k v r)).
Proof. intros Hl. by eapply modify_spec. Qed.

(** ** Restoring the balance *)

Definition balanced (o : option (unit * ptree)) (t : ptree) (w : tree) : Prop :=
  exists w', ends o t w' /\ avl w' /\ inorder w' = inorder w.

Lemma balanced_in c s s' o t h :
  ends o t (plug c s') -> avl_around c h -> avl s' -> height s' = h -> inorder s' = inorder s -> balanced o t (plug c s).
Proof.
  intros He Hc Ha <- Hi. exists (plug c s'). split; [done|]. split; [by apply avl_plug|]. by rewrite !inorder_plug, Hi.
Qed.

Lemma ends_bind (m : TM unit) (k : unit -> TM unit) (t : ptree) w w2 :
  ends (m t) t w -> (forall t', lies t' w -> balanced (k tt t') t' w2) -> balanced ((m ≫= k) t) t w2.
Proof.
  intros (t1 & E1 & Hl & E2 & E3 & E4) H. destruct (H t1 Hl) as (w' & (t2 & F1 & F2 & F3 & F4 & F5) & Ha & Hi).
  exists w'. split; [|done]. exists t2. unfold mbind, TM_bind. rewrite E1. split; [done|]. split; [done|]. split_and!; congruence.
Qed.

Lemma balanced_same (o : option (unit * ptree)) t c s s' :
  inorder s' = inorder s -> balanced o t (plug c s') -> balanced o t (plug c s).
Proof. intros Hi (w & He & Ha & Hw). exists w. split; [done|]. split; [done|]. by rewrite Hw, !inorder_plug, Hi. Qed.

End Balance.

Ltac heights :=
  repeat match goal with
  | |- context [height ?x] => is_var x; lazymatch goal with _ : 0 <= height x |- _ => fail | _ => pose proof (height_nonneg x) end
  | _ : context [height ?x] |- _ => is_var x; lazymatch goal with _ : 0 <= height x |- _ => fail | _ => pose proof (height_nonneg x) end
  end.

(** The facts about balance that the cases of the loop end with. *)
Ltac balance :=
  unfold left_bal, right_bal; cbn [avl height avl_around inorder] in *; heights;
  repeat match goal with |- context [if ?a =? ?b then _ else _] => destruct (Z.eqb_spec a b) end;
  split_and?; try tauto; try lia; try (by rewrite <- ?app_assoc, ?app_comm_cons, <- ?app_assoc).

Section Restore.
Context {K V : Type}.
Notation ptree := (PTree K V).
Notation tree := (@tree K V).
Notation frame := (@frame K V).

(** The loop restores the balance of a subtree that became higher. *)
Definition climbs (c : list frame) (fuel : nat) : Prop :=
  forall (t : ptree) a b l k v r h,
    lies t (plug c (T a b l k v r)) -> avl (T a b l k v r) -> height (T a b l k v r) = h + 1 -> b <> 0 \/ h = 0 ->
    avl_around c h -> balanced (pp_tree_avl_balance_insert fuel (Some a) t) t (plug c (T a b l k v r)).

Lemma climbs_left c p pb pk pv pr fuel : climbs c fuel -> climbs (FL p pb pk pv pr :: c) (S fuel).
Proof.
  intros IH t a b l k v r h Hl Hb Hh Hb0 (Epb & Hpb & Hpr & Hc). cbn [pp_tree_avl_balance_insert].
  rewrite (bind_get _ _ _ _ (lies_node _ _ _ _ _ _ _ _ Hl)); cbn [n_parent above frame_addr].
  cbn [plug fill_frame] in Hl |- *. rewrite (bind_get _ _ _ _ (lies_node _ c _ _ _ _ _ _ Hl)); cbn [n_left n_balance root_of].
  rewrite bool_decide_eq_true_2 by done.
  destruct (Z.eqb_spec pb 1) as [->|N1]; [destruct (Z.eqb_spec b (-1)) as [->|N2]|destruct (Z.eqb_spec pb (-1)) as [->|N2]].
  - destruct r as [|q qb x qk qv y]; [balance|]. eapply balanced_in; [eapply rotate_left_right_spec; exact Hl|exact Hc|..]; by balance.
  - eapply balanced_in; [eapply rotate_right_spec; exact Hl|exact Hc|..]; by balance.
  - eapply balanced_in; [eapply set_balance_spec; exact Hl|exact Hc|..]; by balance.
  - eapply ends_bind; [eapply (set_balance_spec _ _ _ _ 1); exact Hl|]. intros t' Hl'.
    eapply balanced_same; [|eapply (IH t' p 1 _ pk pv pr _ Hl'); [| | |exact Hc]]; by balance.
Qed.

Lemma climbs_right c p pb pl pk pv fuel : climbs c fuel -> climbs (FR p pb pl pk pv :: c) (S fuel).
Proof.
  intros IH t a b l k v r h Hl Hb Hh Hb0 (Epb & Hpb & Hpl & Hc). cbn [pp_tree_avl_balance_insert].
  rewrite (bind_get _ _ _ _ (lies_node _ _ _ _ _ _ _ _ Hl)); cbn [n_parent above frame_addr].
  pose proof (plug_aside _ _ _ _ _ _ _ _ Hl) as Ha. cbn [aside] in Ha.
  cbn [plug fill_frame] in Hl |- *. rewrite (bind_get _ _ _ _ (lies_node _ c _ _ _ _ _ _ Hl)); cbn [n_left n_balance root_of].
  rewrite bool_decide_eq_false_2 by done.
  destruct (Z.eqb_spec pb (-1)) as [->|N1]; [destruct (Z.eqb_spec b 1) as [->|N2]|destruct (Z.eqb_spec pb 1) as [->|N2]].
  - destruct l as [|q qb x qk qv y]; [balance|]. eapply balanced_in; [eapply rotate_right_left_spec; exact Hl|exact Hc|..]; by balance.
  - eapply balanced_in; [eapply rotate_left_spec; exact Hl|exact Hc|..]; by balance.
  - eapply balanced_in; [eapply set_balance_spec; exact Hl|exact Hc|..]; by balance.
  - eapply ends_bind; [eapply (set_balance_spec _ _ _ _ (-1)); exact Hl|]. intros t' Hl'.
    eapply balanced_same; [|eapply (IH t' p (-1) pl pk pv _ _ Hl'); [| | |exact Hc]]; by balance.
Qed.

Lemma balance_insert_spec c fuel : (length c < fuel)%nat -> climbs c fuel.
Proof.
  revert fuel. induction c as [|f c IH]; intros [|fuel] Hf; try (cbn in Hf; lia).
  - intros t a b l k v r h Hl Hb _ _ _. cbn [pp_tree_avl_balance_insert].
    rewrite (bind_get _ _ _ _ (lies_node _ _ _ _ _ _ _ _ Hl)); cbn [n_parent above].
    exists (plug [] (T a b l k v r)). split; [by exists t|]. done.
  - cbn in Hf. destruct f; [apply climbs_left|apply climbs_right]; apply IH; lia.
Qed.

(** ** Finding the place *)

Definition slot_of (c : list frame) : slot :=
  match c with [] => SlotRoot | FL a _ _ _ _ :: _ => SlotLeft (Some a) | FR a _ _ _ _ :: _ => SlotRight (Some a) end.

Lemma read_slot_of (t : ptree) c s : lies t (plug c s) -> read_slot (slot_of c) t = Some (root_of s, t).
Proof.
  intros Hl. destruct c as [|[] c]; cbn [slot_of read_slot].
  - by rewrite (lies_root _ _ Hl).
  - by rewrite (bind_get _ _ _ _ (lies_node _ c _ _ _ _ _ _ Hl)).
  - by rewrite (bind_get _ _ _ _ (lies_node _ c _ _ _ _ _ _ Hl)).
Qed.

(** Writing what is there. *)
Lemma rewrite_slot (t : ptree) c s : lies t (plug c s) -> write_slot (slot_of c) (root_of s) t = Some (tt, t).
Proof.
  intros Hl. destruct c as [|[a b k v r|a b l k v] c]; cbn [slot_of write_slot].
  - unfold set_root. pose proof (lies_root _ _ Hl) as Hr. cbn [plug] in Hr. rewrite <- Hr. by destruct t.
  - pose proof (lies_node _ c _ _ _ _ _ _ Hl) as Ha. rewrite (run_modify _ _ _ _ Ha). unfold with_nodes.
    cbn [set_left n_right n_key n_value n_parent n_balance]. rewrite insert_id by done. by destruct t.
  - pose proof (lies_node _ c _ _ _ _ _ _ Hl) as Ha. rewrite (run_modify _ _ _ _ Ha). unfold with_nodes.
    cbn [set_right n_left n_key n_value n_parent n_balance]. rewrite insert_id by done. by destruct t.
Qed.

(** Hanging a new node into the hole. *)
Lemma new_node_spec (t : ptree) c a k v h :
  lies t (plug c E) -> t_nodes t !! a = None ->
  ends (write_slot (slot_of c) (Some a)
          (Tree (<[a := AVLNode None None k v (above c) 0]> (t_nodes t)) (t_root t) (t_nnodes t) (t_destroyed t) h))
    (Tree (t_nodes t) (t_root t) (t_nnodes t) (t_destroyed t) h) (plug c (T a 0 E k v E)).
Proof.
  intros Hl Ha. destruct (lies_cells _ _ _ Hl (cells_plug _ _)) as [Hn Hd]. rewrite Hn in Ha.
  apply not_elem_of_list_to_map_2 in Ha.
  assert (NoDup (((a, AVLNode None None k v (above c) 0) :: edge_cell c (Some a) ++ around c).*1)) as Hd'.
  { cbn [cells root_of app fmap list_fmap fst] in *. apply NoDup_cons. destruct c as [|[] c]; done. }
  assert (cells None (plug c (T a 0 E k v E)) ≡ₚ (a, AVLNode None None k v (above c) 0) :: edge_cell c (Some a) ++ around c) as Hp
    by (rewrite cells_plug; done).
  pose proof (lies_root _ _ Hl) as Hr. destruct t as [nodes root nn ds h0]. cbn [t_nodes t_root t_nnodes t_destroyed] in *. subst nodes root.
  destruct c as [|[g gb gk gv gr|g gb gl gk gv] c]; cbn [slot_of write_slot cells root_of app edge_cell above frame_addr] in *.
  - eapply ends_intro; [exact Hp|exact Hd'|done..].
  - pose proof Hd' as Hd0. distinct Hd0. cbn [list_to_map foldr fst snd] in *.
    run_nodes. eapply ends_intro; [exact Hp|exact Hd'| |apply root_plug_frame|reflexivity..]. cbn [list_to_map foldr fst snd t_nodes with_nodes set_left set_right]. same_cells.
  - pose proof Hd' as Hd0. distinct Hd0. cbn [list_to_map foldr fst snd] in *.
    run_nodes. eapply ends_intro; [exact Hp|exact Hd'| |apply root_plug_frame|reflexivity..]. cbn [list_to_map foldr fst snd t_nodes with_nodes set_left set_right]. same_cells.
Qed.
End Restore.
