(* ===== verification/AvlTreeOps.v ===== *)
(** * Searching AVL trees

    The laws of a comparison, the search for a place among sorted pairs, and
    what insertion and lookup do to and find in the list of pairs. *)

From S2P Require Import Prelude AvlTree AvlTreeSpec AvlTreeInsert.
From stdpp Require Import sorting.

Local Open Scope Z_scope.

(** A comparison function, by the sign of its result. *)
Class Ordering {K : Type} (cmp : K -> K -> Z) : Prop := {
  cmp_refl x : cmp x x = 0;
  cmp_flip x y : Z.sgn (cmp y x) = - Z.sgn (cmp x y);
  cmp_trans x y z : cmp x y <= 0 -> cmp y z <= 0 -> cmp x z <= 0 }.

Section Order.
Context {K : Type} (cmp : K -> K -> Z) {ord : Ordering cmp}.

Lemma cmp_neg x y : cmp x y < 0 <-> 0 < cmp y x.
Proof using ord. pose proof (cmp_flip x y). lia. Qed.

Lemma cmp_zero x y : cmp x y = 0 <-> cmp y x = 0.
Proof using ord. pose proof (cmp_flip x y). lia. Qed.

Lemma cmp_lt_le x y z : cmp x y < 0 -> cmp y z <= 0 -> cmp x z < 0.
Proof using ord.
  intros H1 H2. destruct (Z.lt_ge_cases (cmp x z) 0) as [|H]; [done|].
  pose proof (cmp_trans y z x H2). pose proof (cmp_flip x y). pose proof (cmp_flip x z). lia.
Qed.

Lemma cmp_le_lt x y z : cmp x y <= 0 -> cmp y z < 0 -> cmp x z < 0.
Proof using ord.
  intros H1 H2. destruct (Z.lt_ge_cases (cmp x z) 0) as [|H]; [done|].
  pose proof (cmp_trans z x y). pose proof (cmp_flip y z). pose proof (cmp_flip x z). lia.
Qed.

Context {V : Type}.
Implicit Types l pre post : list (K * V).

Definition sorted l : Prop := StronglySorted (fun x y => cmp x.1 y.1 < 0) l.

(** The place of a key between two lists of pairs. *)
Definition fits pre (key : K) post : Prop :=
  Forall (fun x => cmp x.1 key < 0) pre /\ Forall (fun x => cmp key x.1 < 0) post.

Lemma sorted_around pre k v post : sorted (pre ++ (k, v) :: post) -> fits pre k post.
Proof.
  unfold sorted. rewrite StronglySorted_app, StronglySorted_cons. intros (H1 & _ & [H2 _]). split; [|done].
  apply Forall_forall. intros x Hx. apply (H1 x (k, v)); [done|by left].
Qed.

Lemma fits_same pre k key post : cmp key k = 0 -> fits pre k post -> fits pre key post.
Proof using ord.
  intros E [H1 H2]. split; eapply Forall_impl; [exact H1|..|exact H2|]; cbn; intros x Hx.
  - eapply cmp_lt_le; [exact Hx|]. apply cmp_zero in E. lia.
  - eapply cmp_le_lt; [|exact Hx]. lia.
Qed.

Lemma sorted_put pre key value post : sorted (pre ++ post) -> fits pre key post -> sorted (pre ++ (key, value) :: post).
Proof.
  unfold sorted. rewrite !StronglySorted_app, StronglySorted_cons. intros (H1 & H2 & H3) [H4 H5]. rewrite Forall_forall in H4.
  split; [|split; [done|split; [|done]]]; [|done].
  intros x y Hx [->|Hy]%elem_of_cons; [by apply H4|by apply H1].
Qed.

Lemma sorted_drop pre x post : sorted (pre ++ x :: post) -> sorted (pre ++ post).
Proof.
  unfold sorted. rewrite !StronglySorted_app, StronglySorted_cons. intros (H1 & H2 & [_ H3]). split; [|done].
  intros y z Hy Hz. apply H1; [done|by right].
Qed.

(** ** Lookup in a list of pairs *)

Fixpoint pair_lookup l (key : K) : option V :=
  match l with [] => None | (k, v) :: l' => if cmp key k =? 0 then Some v else pair_lookup l' key end.

Lemma pair_lookup_none l key : pair_lookup l key = None <-> Forall (fun x => cmp key x.1 <> 0) l.
Proof.
  induction l as [|[k v] l IH]; cbn [pair_lookup]; [done|]. rewrite Forall_cons. cbn [fst].
  destruct (Z.eqb_spec (cmp key k) 0); [|tauto]. split; [done|tauto].
Qed.

Lemma fits_no_key pre key post : fits pre key post -> Forall (fun x => cmp key x.1 <> 0) (pre ++ post).
Proof using ord.
  intros [H1 H2]. apply Forall_app. split; eapply Forall_impl; [exact H1|..|exact H2|]; cbn; intros x Hx; [|lia].
  rewrite cmp_zero. lia.
Qed.

Lemma pair_lookup_app l l' key : pair_lookup l key = None -> pair_lookup (l ++ l') key = pair_lookup l' key.
Proof. induction l as [|[k v] l IH]; cbn [pair_lookup app]; [done|]. by destruct (cmp key k =? 0). Qed.
End Order.

(** ** The operations *)

Section Ops.
Context {K V : Type} (cmp : K -> K -> Z) {ord : Ordering cmp}.
Notation ptree := (PTree K V).
Notation tree := (@tree K V).
Notation frame := (@frame K V).

(** A search tree: balanced, and with its keys in order. *)
Record search_tree (t : ptree) (w : tree) : Prop := SearchTree {
  st_lies : lies t w;
  st_avl : avl w;
  st_sorted : sorted cmp (inorder w) }.

Lemma fits_plug (c : list frame) key a b l k v r :
  sorted cmp (inorder (plug c (T a b l k v r))) -> fits cmp (before c) key (after c) ->
  (cmp key k < 0 -> fits cmp (before (FL a b k v r :: c)) key (after (FL a b k v r :: c))) /\
  (0 < cmp key k -> fits cmp (before (FR a b l k v :: c)) key (after (FR a b l k v :: c))) /\
  (cmp key k = 0 -> fits cmp (before c ++ inorder l) key (inorder r ++ after c)).
Proof using ord.
  rewrite inorder_plug. cbn [inorder before after]. rewrite <- app_assoc, app_assoc. intros Hs [H1 H2].
  apply sorted_around in Hs as Hf. pose proof Hf as [H3 H4]. cbn in H3, H4.
  apply Forall_app in H3 as [_ H3]. apply Forall_app in H4 as [H4 _].
  split_and!; intros Hk; [split..|by eapply fits_same]; rewrite ?Forall_cons, ?Forall_app, ?Forall_cons; cbn [fst]; split_and?; try done.
  - eapply Forall_impl; [exact H4|]. cbn. intros x Hx. eapply cmp_lt_le; [done|exact Hk|lia].
  - eapply Forall_impl; [exact H3|]. cbn. intros x Hx. eapply cmp_lt_le; [done|exact Hx|].
    pose proof (cmp_neg cmp k key). lia.
  - by apply cmp_neg.
Qed.

Lemma find_slot_spec key s : forall (t : ptree) c fuel par,
  lies t (plug c s) -> sorted cmp (inorder (plug c s)) -> fits cmp (before c) key (after c) ->
  (s = E -> par = above c) -> (length (inorder s) < fuel)%nat ->
  exists c' s' par', find_slot cmp fuel (slot_of c) par key t = Some ((slot_of c', par'), t) /\
    plug c' s' = plug c s /\ fits cmp (before c') key (after c') /\
    match s' with E => par' = above c' | T _ _ _ k _ _ => cmp key k = 0 end.
Proof using ord.
  induction s as [|a b l IHl k v r IHr]; intros t c fuel par Hl Hs Hf Hp Hn; (destruct fuel as [|fuel]; [lia|]); cbn [find_slot];
    unfold mbind at 1, TM_bind at 1; rewrite (read_slot_of _ _ _ Hl); cbn [root_of].
  { exists c, E, par. split_and!; auto. }
  rewrite (bind_get _ _ _ _ (lies_node _ _ _ _ _ _ _ _ Hl)). cbn [n_key].
  destruct (fits_plug c key a b l k v r Hs Hf) as (Fl & Fr & _). cbn [inorder] in Hn. rewrite length_app in Hn. cbn [length] in Hn.
  destruct (Z.ltb_spec (cmp key k) 0) as [H1|H1]; [|destruct (Z.ltb_spec 0 (cmp key k)) as [H2|H2]].
  - apply (IHl t (FL a b k v r :: c)); try done; [by apply Fl|lia].
  - apply (IHr t (FR a b l k v :: c)); try done; [by apply Fr|lia].
  - exists c, (T a b l k v r), par. split_and!; try done. lia.
Qed.

(** ** Insertion *)

Variable place : gset nat -> nat.

(** A new key, an allocation that failed, or a key that is there. *)
Inductive inserted (key : K) (value : V) (t : ptree) (w : tree) : bool -> ptree -> tree -> Prop :=
  | InsertedNew pre post t' w' :
      inorder w = pre ++ post -> fits cmp pre key post ->
      (p_malloc (t_heap t)).1 = true -> t_heap t' = (p_malloc (t_heap t)).2 ->
      t_destroyed t' = t_destroyed t -> inorder w' = pre ++ (key, value) :: post ->
      inserted key value t w true t' w'
  | InsertedNot pre post t' :
      inorder w = pre ++ post -> fits cmp pre key post ->
      (p_malloc (t_heap t)).1 = false -> t_heap t' = (p_malloc (t_heap t)).2 ->
      t_destroyed t' = t_destroyed t ->
      inserted key value t w false t' w
  | InsertedOver pre k v post t' w' :
      inorder w = pre ++ (k, v) :: post -> fits cmp pre key post -> cmp key k = 0 -> t_heap t' = t_heap t ->
      t_destroyed t' = t_destroyed t ++ [k] -> inorder w' = pre ++ (key, value) :: post ->
      inserted key value t w false t' w'.

Hypothesis place_fresh : forall X, place X ∉ X.

Lemma replace_pair (t : ptree) c a b l k v r key value :
  lies t (plug c (T a b l k v r)) ->
  exists t', (destroy_key (n_key (AVLNode (root_of l) (root_of r) k v (above c) b)) ≫= fun _ => modify (Some a) (set_pair key value) ≫= fun _ => mret false) t = Some (false, t') /\
    lies t' (plug c (T a b l key value r)) /\ t_nnodes t' = t_nnodes t /\ t_destroyed t' = t_destroyed t ++ [k] /\ t_heap t' = t_heap t.
Proof.
  intros Hl.
  destruct (modify_spec (Tree (t_nodes t) (t_root t) (t_nnodes t) (t_destroyed t ++ [k]) (t_heap t)) c a b l k v r
     (set_pair key value) b key value) as (t' & Et & Hl' & E1 & E2 & E3); [by destruct Hl|done|].
  exists t'. split; [|done]. unfold mbind, TM_bind at 1, destroy_key. cbn [n_key]. unfold TM_bind. by rewrite Et.
Qed.

(** A new node at the end of the search. *)
Lemma insert_new (t : ptree) c key value :
  lies t (plug c E) -> avl (plug c E) -> (p_malloc (t_heap t)).1 = true ->
  exists t' w',
    (p_malloc0 place (AVLNode None None key value (above c) 0) ≫= fun a => write_slot (slot_of c) a ≫= fun _ =>
       match a with
       | None => mret false
       | Some _ => steps ≫= fun fuel => pp_tree_avl_balance_insert fuel a ≫= fun _ => mret true
       end) t = Some (true, t') /\
    lies t' w' /\ avl w' /\ inorder w' = before c ++ (key, value) :: after c /\
    t_nnodes t' = t_nnodes t /\ t_destroyed t' = t_destroyed t /\ t_heap t' = (p_malloc (t_heap t)).2.
Proof using place_fresh.
  intros Hl Ha. unfold p_malloc0, mbind at 1, TM_bind at 1. destruct (p_malloc (t_heap t)) as [ok h] eqn:Em. intros [= ->]. cbn [snd].
  destruct (new_node_spec t c (place (dom (t_nodes t))) key value h Hl) as (t1 & E1 & Hl1 & N1 & D1 & H1);
    [apply not_elem_of_dom, place_fresh|].
  cbn [t_nnodes t_destroyed t_heap] in N1, D1, H1.
  unfold mbind at 1, TM_bind at 1. rewrite E1. unfold steps. unfold mbind at 1, TM_bind at 1.
  pose proof (length_context c (T (place (dom (t_nodes t))) 0 E key value E)) as Hc.
  apply avl_plug in Ha as [_ Ha].
  destruct (balance_insert_spec c (S (size (t_nodes t1))) ltac:(rewrite (lies_size _ _ Hl1); lia) t1 _ _ _ _ _ _ 0 Hl1)
    as (w' & (t2 & E2 & Hl2 & N2 & D2 & H2) & Ha' & Hi); [by balance..|].
  exists t2, w'. unfold mbind, TM_bind. rewrite E2. split_and!; try done; try congruence.
  by rewrite Hi, inorder_plug.
Qed.

Theorem avl_insert_inserted (t : ptree) w key value :
  search_tree t w ->
  exists b t' w', p_tree_avl_insert cmp place key value t = Some (b, t') /\ search_tree t' w' /\
    inserted key value t w b t' w' /\ t_nnodes t' = t_nnodes t.
Proof using ord place_fresh.
  intros [Hl Ha Hs]. unfold p_tree_avl_insert, steps. cbn [read_slot].
  unfold mbind at 1, TM_bind at 1. unfold mbind at 1, TM_bind at 1.
  destruct (find_slot_spec key w t [] (S (size (t_nodes t))) (t_root t)) as (c & s & par & Ef & Ep & Hf & Hc);
    [done|done|split; constructor|intros ->; by rewrite (lies_root _ _ Hl)|rewrite (lies_size _ _ Hl); lia|].
  cbn [plug] in Ep. subst w. unfold mbind at 1, TM_bind at 1. cbn [slot_of] in Ef. rewrite Ef.
  unfold mbind at 1, TM_bind at 1. rewrite (read_slot_of _ _ _ Hl).
  destruct s as [|a b l k v r]; cbn [root_of].
  - assert (inorder (plug c E) = before c ++ after c) as Ei by by rewrite inorder_plug.
    rewrite Hc. destruct (p_malloc (t_heap t)).1 eqn:Em.
    + destruct (insert_new t c key value Hl Ha Em) as (t' & w' & Et & Hl' & Ha' & Hi & E1 & E2 & E3).
      exists true, t', w'. split_and!; [exact Et| |by eapply InsertedNew|done].
      split; [done|done|rewrite Hi; apply sorted_put; [by rewrite <- Ei|done]].
    + unfold p_malloc0, mbind at 1, TM_bind at 1. destruct (p_malloc (t_heap t)) as [ok h] eqn:Em'. cbn in Em. subst ok.
      set (t1 := Tree _ _ _ _ h). assert (lies t1 (plug c E)) as Hl1 by by destruct Hl.
      pose proof (rewrite_slot t1 c E Hl1) as Ew. cbn [root_of] in Ew.
      unfold mbind, TM_bind. rewrite Ew. exists false, t1, (plug c E).
      split_and!; [done|done| |done]. eapply InsertedNot; try done; by rewrite Em'.
  - rewrite (bind_get _ _ _ _ (lies_node _ _ _ _ _ _ _ _ Hl)).
    destruct (replace_pair t c a b l k v r key value Hl) as (t' & -> & Hl' & E1 & E2 & E3).
    destruct (fits_plug c key a b l k v r Hs Hf) as (_ & _ & Fk). specialize (Fk Hc).
    exists false, t', (plug c (T a b l key value r)).
    assert (inorder (plug c (T a b l k v r)) = (before c ++ inorder l) ++ (k, v) :: inorder r ++ after c) as Ei
      by (rewrite inorder_plug; cbn [inorder]; by rewrite <- !app_assoc).
    assert (inorder (plug c (T a b l key value r)) = (before c ++ inorder l) ++ (key, value) :: inorder r ++ after c) as Ei'
      by (rewrite inorder_plug; cbn [inorder]; by rewrite <- !app_assoc).
    split_and!; [done| |by eapply InsertedOver|done].
    split; [done| |rewrite Ei'; apply sorted_put; [|done]; eapply sorted_drop; by rewrite <- Ei].
    apply avl_plug in Ha as [Ha1 Ha2]. by apply avl_plug.
Qed.

(** [p_tree_insert] counts the nodes. *)
Lemma p_tree_insert_inserted (t : ptree) w key value :
  search_tree t w ->
  exists b t' w', p_tree_insert cmp place key value t = Some (tt, t') /\ search_tree t' w' /\
    inserted key value t w b t' w' /\ t_nnodes t' = t_nnodes t + Z.b2z b.
Proof using ord place_fresh.
  intros Hw. destruct (avl_insert_inserted t w key value Hw) as (b & t1 & w' & E1 & H1 & Hi & Hn).
  unfold p_tree_insert, mbind, TM_bind. rewrite E1. exists b. destruct b.
  - exists (Tree (t_nodes t1) (t_root t1) (t_nnodes t1 + 1) (t_destroyed t1) (t_heap t1)), w'. split_and!; [done| | |cbn; lia].
    + destruct H1 as [[] ? ?]. by split.
    + inversion Hi; subst. by econstructor.
  - exists t1, w'. split_and!; [done..|]. cbn. lia.
Qed.

(** ** Lookup *)

Lemma pair_lookup_node key (l : tree) k v r :
  sorted cmp (inorder l ++ (k, v) :: inorder r) ->
  pair_lookup cmp (inorder l ++ (k, v) :: inorder r) key =
    if cmp key k <? 0 then pair_lookup cmp (inorder l) key
    else if 0 <? cmp key k then pair_lookup cmp (inorder r) key else Some v.
Proof using ord.
  intros Hs. apply sorted_around in Hs as [H1 H2]. cbn in H1, H2.
  destruct (Z.ltb_spec (cmp key k) 0) as [Hk|Hk].
  - destruct (pair_lookup cmp (inorder l) key) as [x|] eqn:El.
    + clear H1. induction (inorder l) as [|[k' v'] l' IH]; cbn [app pair_lookup] in *; [done|]. destruct (cmp key k' =? 0); [done|by apply IH].
    + rewrite pair_lookup_app by done. apply pair_lookup_none. constructor; [cbn; lia|].
      eapply Forall_impl; [exact H2|]. cbn. intros x Hx. pose proof (cmp_lt_le cmp key k x.1 Hk). lia.
  - rewrite pair_lookup_app; [cbn [pair_lookup]|].
    + by destruct (Z.ltb_spec 0 (cmp key k)), (Z.eqb_spec (cmp key k) 0); try lia.
    + apply pair_lookup_none. eapply Forall_impl; [exact H1|]. cbn. intros x Hx.
      pose proof (cmp_neg cmp key x.1). pose proof (cmp_neg cmp x.1 key).
      pose proof (cmp_lt_le cmp x.1 k key Hx). pose proof (cmp_flip key k). lia.
Qed.

Lemma lookup_loop_spec key s : forall (t : ptree) c fuel,
  lies t (plug c s) -> sorted cmp (inorder s) -> height s < Z.of_nat fuel ->
  lookup_loop cmp fuel (root_of s) key t = Some (pair_lookup cmp (inorder s) key, t).
Proof using ord.
  induction s as [|a b l IHl k v r IHr]; intros t c fuel Hl Hs Hf; cbn [height root_of] in *; heights;
    (destruct fuel as [|fuel]; [lia|]); cbn [lookup_loop]; [done|].
  rewrite (bind_get _ _ _ _ (lies_node _ _ _ _ _ _ _ _ Hl)). cbn [n_key n_left n_right n_value inorder] in *.
  rewrite pair_lookup_node by done. apply StronglySorted_app in Hs as (_ & Hsl & [_ Hsr]%StronglySorted_cons).
  destruct (cmp key k <? 0); [|destruct (0 <? cmp key k); [|done]].
  - apply (IHl t (FL a b k v r :: c)); [done..|lia].
  - apply (IHr t (FR a b l k v :: c)); [done..|lia].
Qed.

Lemma square_sum a b p : 0 < a -> 0 < b -> 0 <= p -> p <= a ^ 2 -> p <= 2 * b ^ 2 -> 2 * p <= (a + b) ^ 2.
Proof.
  intros Ha Hb Hp H1 H2. assert (p <= 2 * (a * b)); [|nia].
  apply Z.square_le_simpl_nonneg; [nia|]. assert (p * p <= a ^ 2 * (2 * b ^ 2)) by (apply Z.mul_le_mono_nonneg; lia). nia.
Qed.

(** A balanced tree of [n] nodes has less than [2 * log2 (n + 1) + 2] levels. *)
Lemma avl_nodes (w : tree) : avl w -> 2 ^ height w <= (Z.of_nat (length (inorder w)) + 1) ^ 2.
Proof.
  induction w as [|a b l IHl k v r IHr]; cbn [avl height inorder]; [done|].
  intros (Hb & Hbb & Hl & Hr). specialize (IHl Hl). specialize (IHr Hr). heights. rewrite length_app. cbn [length].
  set (A := Z.of_nat (length (inorder l)) + 1) in *. set (B := Z.of_nat (length (inorder r)) + 1) in *.
  replace (_ + 1) with (A + B) by lia.
  assert (0 < A /\ 0 < B) as [HA HB] by lia. clearbody A B.
  rewrite Z.pow_add_r by lia. change (2 ^ 1) with 2.
  assert (forall x y, 0 <= x -> 0 <= y -> x - y <= 1 -> 2 ^ x <= 2 * 2 ^ y) as Hpow.
  { intros x y Hx Hy Hxy. rewrite <- Z.pow_succ_r by done. apply Z.pow_le_mono_r; lia. }
  pose proof (Z.pow_nonneg 2 (height l)). pose proof (Z.pow_nonneg 2 (height r)).
  destruct (Z.max_spec (height l) (height r)) as [[_ ->]|[_ ->]].
  - rewrite (Z.add_comm A B). apply square_sum; try lia. pose proof (Hpow (height r) (height l)). lia.
  - apply square_sum; try lia. pose proof (Hpow (height l) (height r)). lia.
Qed.

Lemma avl_height (w : tree) : avl w -> height w <= 2 * Z.log2 (Z.of_nat (length (inorder w)) + 1) + 1.
Proof.
  intros Ha. apply avl_nodes in Ha. set (n := Z.of_nat _ + 1) in *. assert (0 < n) as Hn by lia. clearbody n.
  pose proof (Z.log2_spec n Hn) as [_ Hlog]. heights. pose proof (Z.log2_nonneg n).
  assert (n ^ 2 < 2 ^ (2 * Z.succ (Z.log2 n))) as H1.
  { rewrite Z.mul_comm, Z.pow_mul_r by lia. apply Z.pow_lt_mono_l; lia. }
  apply Z.lt_succ_r. apply (Z.pow_lt_mono_r_iff 2); [lia..|]. eapply Z.le_lt_trans; [exact Ha|].
  replace (Z.succ _) with (2 * Z.succ (Z.log2 n)) by lia. done.
Qed.

Theorem lookup_loop_bound (t : ptree) w fuel key :
  search_tree t w -> t_nnodes t = Z.of_nat (length (inorder w)) ->
  2 * Z.log2 (t_nnodes t + 1) + 1 < Z.of_nat fuel ->
  lookup_loop cmp fuel (t_root t) key t = Some (pair_lookup cmp (inorder w) key, t).
Proof using ord.
  intros [Hl Ha Hs] Hn Hf. rewrite (lies_root _ _ Hl). apply (lookup_loop_spec key w t []); [done..|].
  rewrite Hn in Hf. pose proof (avl_height w Ha). lia.
Qed.

Lemma p_tree_lookup_pair (t : ptree) w key :
  search_tree t w -> p_tree_lookup cmp key t = Some (pair_lookup cmp (inorder w) key, t).
Proof using ord.
  intros [Hl Ha Hs]. unfold p_tree_lookup, steps. cbn [read_slot]. unfold mbind at 1, TM_bind at 1. unfold mbind, TM_bind.
  rewrite (lies_size _ _ Hl), (lies_root _ _ Hl). apply (lookup_loop_spec key w t []); [done..|].
  enough (height w <= Z.of_nat (length (inorder w))) by lia. clear.
  induction w; cbn [height inorder]; rewrite ?length_app; cbn [length]; lia.
Qed.

(** ** Insertion seen by lookup *)

Lemma pair_lookup_put pre key value post key' :
  fits cmp pre key post ->
  pair_lookup cmp (pre ++ (key, value) :: post) key' =
    if cmp key' key =? 0 then Some value else pair_lookup (V := V) cmp (pre ++ post) key'.
Proof using ord.
  intros Hf. destruct (Z.eqb_spec (cmp key' key) 0) as [E|E].
  - apply (fits_same cmp _ _ key' _ E), fits_no_key, Forall_app in Hf as [H _]; [|done].
    apply pair_lookup_none in H. rewrite pair_lookup_app by done. cbn [pair_lookup]. by rewrite E.
  - clear Hf. induction pre as [|[k v] pre IH]; cbn [app pair_lookup]; [by destruct (Z.eqb_spec (cmp key' key) 0)|].
    by destruct (cmp key' k =? 0).
Qed.

Lemma cmp_same key k key' : cmp key k = 0 -> (cmp key' k =? 0) = (cmp key' key =? 0).
Proof using ord.
  intros E. pose proof (cmp_flip key k). pose proof (cmp_flip key' key). pose proof (cmp_flip key' k).
  pose proof (cmp_trans key' key k). pose proof (cmp_trans k key key'). pose proof (cmp_trans key' k key). pose proof (cmp_trans key k key').
  destruct (Z.eqb_spec (cmp key' k) 0), (Z.eqb_spec (cmp key' key) 0); lia.
Qed.

(** C33. An insertion that has memory keeps the tree a balanced search tree, and
    afterwards a lookup finds the new value under every key that compares equal
    and under the other keys what it found before. *)
Theorem p_tree_insert_lookup (t : ptree) w key value :
  search_tree t w -> (p_malloc (t_heap t)).1 = true ->
  exists t' w', p_tree_insert cmp place key value t = Some (tt, t') /\ search_tree t' w' /\
    forall key', exists r, p_tree_lookup cmp key' t = Some (r, t) /\
      p_tree_lookup cmp key' t' = Some (if cmp key' key =? 0 then Some value else r, t').
Proof using ord place_fresh.
  intros Hw Hm. destruct (p_tree_insert_inserted t w key value Hw) as (b & t' & w' & Et & Hw' & Hi & _).
  exists t', w'. split; [done|]. split; [done|]. intros key'. exists (pair_lookup cmp (inorder w) key').
  split; [by apply p_tree_lookup_pair|]. rewrite (p_tree_lookup_pair t' w' key' Hw'). do 2 f_equal.
  destruct Hi as [pre post t' w' E1 Hf _ _ _ E2|pre post t' _ _ Em|pre k v post t' w' E1 Hf Hk _ _ E2].
  - by rewrite E2, E1, pair_lookup_put.
  - congruence.
  - assert (fits cmp pre k post) as Hf' by (eapply fits_same; [apply ord|by apply cmp_zero|done]).
    rewrite E2, E1, (pair_lookup_put pre key value post key' Hf), (pair_lookup_put pre k v post key' Hf'), (cmp_same key k key' Hk).
    by destruct (cmp key' key =? 0).
Qed.
End Ops.
