(* ===== verification/AvlTreeClear.v ===== *)
(** * Clearing trees

    [p_tree_clear] takes a tree apart without a stack: it hangs a node below
    the rightmost node of its left subtree until there is no left subtree, and
    then frees the node.  While it does so the nodes keep parent pointers and
    balance factors that say nothing, so the trees here carry both. *)

From S2P Require Import Prelude AvlTree AvlTreeSpec AvlTreeInsert.

Local Open Scope Z_scope.

Section Clear.
Context {K V : Type}.
Notation node := (PTreeAVLNode K V).
Notation ptree := (PTree K V).
Notation tree := (@tree K V).

Inductive loose := LE | L (a : nat) (p : link) (b : Z) (l : loose) (k : K) (v : V) (r : loose).

Definition loose_root (x : loose) : link := match x with LE => None | L a _ _ _ _ _ _ => Some a end.

Fixpoint loose_cells (x : loose) : list (nat * node) :=
  match x with
  | LE => []
  | L a p b l k v r => (a, AVLNode (loose_root l) (loose_root r) k v p b) :: loose_cells l ++ loose_cells r
  end.

Fixpoint loose_keys (x : loose) : list K := match x with LE => [] | L _ _ _ l k _ r => loose_keys l ++ k :: loose_keys r end.

Fixpoint loosen (p : link) (t : tree) : loose :=
  match t with E => LE | T a b l k v r => L a p b (loosen (Some a) l) k v (loosen (Some a) r) end.

Lemma loosen_root p t : loose_root (loosen p t) = root_of t.
Proof. by destruct t. Qed.

Lemma loosen_cells p t : loose_cells (loosen p t) = cells p t.
Proof.
  revert p. induction t as [|a b l IHl k v r IHr]; intros p; cbn [loosen loose_cells cells]; [done|].
  by rewrite !loosen_root, IHl, IHr.
Qed.

Lemma loosen_keys p t : loose_keys (loosen p t) = (inorder t).*1.
Proof.
  revert p. induction t as [|a b l IHl k v r IHr]; intros p; cbn [loosen loose_keys inorder]; [done|].
  by rewrite IHl, IHr, fmap_app.
Qed.

(** [x] below the rightmost node of [l]. *)
Fixpoint graft (l x : loose) : loose :=
  match l with LE => x | L a p b l' k v r => L a p b l' k v (graft r x) end.

Lemma graft_keys l x : loose_keys (graft l x) = loose_keys l ++ loose_keys x.
Proof. induction l as [|a p b l _ k v r IH]; cbn [graft loose_keys]; [done|]. by rewrite IH, <- app_assoc. Qed.

(** The turns of the loop: one to free a node, one to hang it elsewhere. *)
Fixpoint turns (x : loose) : nat :=
  match x with
  | LE => 0
  | L _ _ _ l _ _ r => (match l with LE => 1 | L _ _ _ _ _ _ _ => 2 end) + turns l + turns r
  end.

Lemma turns_graft l x : turns (graft l x) = (turns l + turns x)%nat.
Proof. induction l as [|a p b l _ k v r IH]; cbn [graft turns]; [done|]. rewrite IH. lia. Qed.

Lemma turns_cells x : (turns x <= 2 * length (loose_cells x))%nat.
Proof.
  induction x as [|a p b l IHl k v r IHr]; cbn [turns loose_cells length]; [done|]. rewrite length_app.
  destruct l; cbn [turns] in *; lia.
Qed.

(** The rightmost node, the cells of the tree around it, and the search for it. *)
Lemma rightmost_spec l (t : ptree) : forall fuel,
  l <> LE -> (forall c, c ∈ loose_cells l -> t_nodes t !! c.1 = Some c.2) -> (length (loose_cells l) <= fuel)%nat ->
  exists a n rest, rightmost fuel (loose_root l) t = Some (Some a, t) /\
    loose_cells l ≡ₚ (a, n) :: rest /\
    forall x, loose_root (graft l x) = loose_root l /\ loose_cells (graft l x) ≡ₚ (a, set_right (loose_root x) n) :: rest ++ loose_cells x.
Proof.
  induction l as [|a p b l _ k v r IH]; intros fuel Hne Hin Hf; [done|]. cbn [loose_cells length] in Hf. rewrite length_app in Hf.
  destruct fuel as [|fuel]; [lia|]. cbn [rightmost loose_root].
  rewrite (bind_get _ _ _ _ (Hin (a, _) (list_elem_of_here _ _))). cbn [n_right snd].
  destruct r as [|ra rp rb rl rk rv rr] eqn:Er; cbn [loose_root].
  - exists a, (AVLNode (loose_root l) None k v p b), (loose_cells l). split; [done|].
    cbn [loose_cells graft loose_root]. rewrite app_nil_r. done.
  - rewrite <- Er in *. destruct (IH fuel) as (a' & n & rest & E1 & E2 & E3); [by rewrite Er| |lia|].
    { intros c Hc. apply Hin. cbn [loose_cells]. right. apply elem_of_app. by right. }
    exists a', n, ((a, AVLNode (loose_root l) (loose_root r) k v p b) :: loose_cells l ++ rest).
    replace (Some ra) with (loose_root r) by by rewrite Er. split; [done|]. split.
    + cbn [loose_cells]. rewrite E2. solve_Permutation.
    + intros x. destruct (E3 x) as [E4 E5]. cbn [graft loose_root loose_cells]. rewrite E4, E5. split; [done|]. solve_Permutation.
Qed.

(** The nodes are the cells of a loose tree. *)
Definition lies_loose (m : gmap nat node) (x : loose) : Prop :=
  m = list_to_map (loose_cells x) /\ NoDup (loose_cells x).*1.

(** One turn of each kind. *)
Lemma clear_node (t : ptree) a p b k v r (rec : link -> TM unit) :
  lies_loose (t_nodes t) (L a p b LE k v r) ->
  exists m, (destroy_key k ≫= fun _ => free_node (Some a) ≫= fun _ => count (-1) ≫= fun _ => rec (loose_root r)) t =
    rec (loose_root r) (Tree m (t_root t) (t_nnodes t + -1) (t_destroyed t ++ [k]) (t_heap t)) /\ lies_loose m r.
Proof.
  intros [Hm Hd]. cbn [loose_cells app list_to_map foldr fst snd fmap list_fmap] in Hm, Hd. apply NoDup_cons in Hd as [Ha Hd].
  exists (delete a (t_nodes t)). split.
  - unfold mbind, TM_bind, destroy_key, free_node, count, with_nodes. cbn [t_nodes]. by rewrite Hm, lookup_insert_eq.
  - split; [|done]. rewrite Hm, delete_insert_eq. by apply delete_id, not_elem_of_list_to_map_1.
Qed.

Lemma graft_node (t : ptree) a p b l k v r (rec : link -> TM unit) :
  lies_loose (t_nodes t) (L a p b l k v r) -> l <> LE ->
  exists m, (steps ≫= fun fuel => rightmost fuel (loose_root l) ≫= fun prev => modify prev (set_right (Some a)) ≫= fun _ =>
      modify (Some a) (set_left None) ≫= fun _ => rec (loose_root l)) t =
    rec (loose_root (graft l (L a p b LE k v r))) (with_nodes m t) /\ lies_loose m (graft l (L a p b LE k v r)).
Proof.
  intros [Hm Hd] Hne. set (A := AVLNode (loose_root l) (loose_root r) k v p b).
  assert (forall c, c ∈ loose_cells l -> t_nodes t !! c.1 = Some c.2) as Hin.
  { intros [c n] Hc. rewrite Hm. apply elem_of_list_to_map_1; [done|]. cbn [loose_cells]. right. apply elem_of_app. by left. }
  assert (length (loose_cells l) <= S (size (t_nodes t)))%nat as Hf.
  { rewrite Hm, map_size_list_to_map by done. cbn [loose_cells length]. rewrite length_app. lia. }
  destruct (rightmost_spec l t _ Hne Hin Hf) as (a' & n & rest & E1 & E2 & E3).
  destruct (E3 (L a p b LE k v r)) as [E4 E5]. cbn [loose_root loose_cells app] in E5.
  assert (loose_cells (L a p b l k v r) ≡ₚ (a, A) :: (a', n) :: rest ++ loose_cells r) as Hp by (cbn [loose_cells]; rewrite E2; solve_Permutation).
  rewrite (list_to_map_proper _ _ Hd Hp) in Hm. rewrite Hp in Hd. pose proof Hd as Hd0. distinct Hd.
  cbn [list_to_map foldr fst snd] in Hm.
  exists (<[a := set_left None A]> (<[a' := set_right (Some a) n]> (t_nodes t))). split.
  - unfold steps at 1, mbind at 1, TM_bind at 1. unfold mbind at 1, TM_bind at 1. rewrite E1.
    erewrite bind_modify by (rewrite Hm; find_cell). erewrite bind_modify by (cbn [t_nodes with_nodes]; rewrite Hm; find_cell).
    by rewrite E4.
  - assert (NoDup (loose_cells (graft l (L a p b LE k v r))).*1) as Hd'.
    { rewrite E5. eapply (NoDup_Permutation_proper _ ((a, A) :: (a', n) :: rest ++ loose_cells r).*1); [|exact Hd0].
      cbn [fmap list_fmap fst]. rewrite !fmap_app. cbn [fmap list_fmap fst]. solve_Permutation. }
    split; [|done]. symmetry. etransitivity; [apply (list_to_map_proper _ ((a, set_left None A) :: (a', set_right (Some a) n) :: rest ++ loose_cells r) Hd')|].
    + rewrite E5. solve_Permutation.
    + rewrite Hm. cbn [list_to_map foldr fst snd]. same_cells.
Qed.


Lemma clear_loop_spec fuel : forall (t : ptree) x,
  lies_loose (t_nodes t) x -> (turns x < fuel)%nat ->
  clear_loop fuel (loose_root x) t =
    Some (tt, Tree ∅ (t_root t) (t_nnodes t - Z.of_nat (length (loose_keys x))) (t_destroyed t ++ loose_keys x) (t_heap t)).
Proof.
  induction fuel as [|fuel IH]; intros t x [Hm Hd] Hf; [lia|]. cbn [clear_loop].
  destruct x as [|a p b l k v r]; cbn [loose_root].
  { cbn [loose_cells list_to_map foldr] in Hm. destruct t; cbn in *. subst. by rewrite Z.sub_0_r, app_nil_r. }
  assert (t_nodes t !! a = Some (AVLNode (loose_root l) (loose_root r) k v p b)) as Ha.
  { rewrite Hm. cbn [loose_cells list_to_map foldr fst snd]. by rewrite lookup_insert_eq. }
  rewrite (bind_get _ _ _ _ Ha). cbn [n_left n_right n_key].
  destruct l as [|la lp lb ll lk lv lr] eqn:El; cbn [loose_root];
    [|change (Some la) with (loose_root (L la lp lb ll lk lv lr)); rewrite <- El in *].
  - edestruct (clear_node t) as (m & -> & Hl'); [by split|]. cbn [turns] in Hf. rewrite IH by (done || lia).
    cbn [t_root t_nnodes t_destroyed t_heap loose_keys app length]. rewrite <- app_assoc. do 3 f_equal. lia.
  - edestruct (graft_node t) as (m & -> & Hl'); [by split|by rewrite El|].
    assert (turns (graft l (L a p b LE k v r)) < fuel)%nat as Hf'.
    { rewrite turns_graft. cbn [turns] in Hf |- *. rewrite El in Hf at 1. lia. }
    rewrite IH by done. rewrite graft_keys. by destruct t.
Qed.

(** Whatever the balance factors and the order of the keys, [p_tree_clear]
    frees every node and destroys every key once, from the smallest on. *)
Theorem p_tree_clear_spec (t : ptree) w :
  lies t w ->
  p_tree_clear t =
    Some (tt, Tree ∅ None (t_nnodes t - Z.of_nat (length (inorder w))) (t_destroyed t ++ (inorder w).*1) (t_heap t)).
Proof.
  intros [Hn Hd Hr]. unfold p_tree_clear. cbn [read_slot]. unfold mbind at 1, TM_bind at 1. rewrite Hr.
  destruct w as [|a b l k v r] eqn:Ew; cbn [root_of].
  - cbn [cells list_to_map foldr] in Hn. destruct t; cbn in *. subst. by rewrite Z.sub_0_r, app_nil_r.
  - rewrite <- Ew in *. unfold steps. unfold mbind at 1, TM_bind at 1. unfold mbind, TM_bind.
    replace (Some a) with (loose_root (loosen None w)) by by rewrite Ew.
    rewrite (clear_loop_spec _ _ (loosen None w)).
    + rewrite loosen_keys, length_fmap. done.
    + split; by rewrite loosen_cells.
    + pose proof (turns_cells (loosen None w)) as H. rewrite loosen_cells in H. rewrite Hn, map_size_list_to_map by done. lia.
Qed.
End Clear.
