(* ===== verification/AvlTreeRemove.v ===== *)
(** * Removal from AVL trees

    The loop that restores the balance after a removal, around the node that
    leaves or the child that takes its place, and the whole removal. *)

From S2P Require Import Prelude AvlTree AvlTreeSpec AvlTreeInsert AvlTreeOps AvlTreeClear.
From stdpp Require Import sorting.

Local Open Scope Z_scope.

Section Lower.
Context {K V : Type}.
Notation ptree := (PTree K V).
Notation tree := (@tree K V).
Notation frame := (@frame K V).

(** ** Contexts in contexts *)

Fixpoint height_around (c : list frame) (h : Z) : Z :=
  match c with
  | [] => h
  | FL _ _ _ _ r :: c' => height_around c' (1 + Z.max h (height r))
  | FR _ _ l _ _ :: c' => height_around c' (1 + Z.max (height l) h)
  end.

Lemma plug_app (c1 c : list frame) s : plug (c1 ++ c) s = plug c (plug c1 s).
Proof. revert s. induction c1; intros s; cbn [app plug]; auto. Qed.

Lemma avl_around_app (c1 c : list frame) h : avl_around (c1 ++ c) h <-> avl_around c1 h /\ avl_around c (height_around c1 h).
Proof. revert h. induction c1 as [|[] c1 IH]; intros h; cbn [app avl_around height_around]; rewrite ?IH; tauto. Qed.

Lemma height_around_app (c1 c : list frame) h : height_around (c1 ++ c) h = height_around c (height_around c1 h).
Proof. revert h. induction c1 as [|[] c1 IH]; intros h; cbn [app height_around]; auto. Qed.

Lemma before_app (c1 c : list frame) : before (c1 ++ c) = before c ++ before c1.
Proof. induction c1 as [|[] c1 IH]; cbn [app before]; rewrite ?app_nil_r, ?IH; [done..|by rewrite <- app_assoc]. Qed.

Lemma after_app (c1 c : list frame) : after (c1 ++ c) = after c1 ++ after c.
Proof. induction c1 as [|[] c1 IH]; cbn [app after]; rewrite ?IH; [done| |done]. by rewrite <- app_assoc. Qed.

Lemma height_around_nonneg (c : list frame) h : 0 <= h -> 0 <= height_around c h.
Proof. revert h. induction c as [|[] c IH]; intros h Hh; cbn [height_around]; [done|..]; apply IH; lia. Qed.

Lemma avl_around_eq (c : list frame) h h' : avl_around c h -> h = h' -> avl_around c h'.
Proof. by intros ? <-. Qed.

(** ** A hole that became lower *)

(** The balance is restored around a hole that counts as one of height [h],
    whatever the height of the tree in it. *)
Definition rebalanced (o : option (unit * ptree)) (t : ptree) (c : list frame) (s : tree) (h : Z) : Prop :=
  exists c', ends o t (plug c' s) /\ avl_around c' h /\ before c' = before c /\ after c' = after c.

Lemma rebalanced_in c' c (s : tree) h o t :
  ends o t (plug c' s) -> avl_around c' h -> before c' = before c -> after c' = after c -> rebalanced o t c s h.
Proof. intros. by exists c'. Qed.

Lemma rebalanced_same c' c (s : tree) h o t :
  rebalanced o t c' s h -> before c' = before c -> after c' = after c -> rebalanced o t c s h.
Proof. intros (c2 & ? & ? & E1 & E2) E3 E4. exists c2. split_and!; congruence. Qed.

Lemma rebalanced_bind (m : TM unit) (k : unit -> TM unit) (t : ptree) w c s h :
  ends (m t) t w -> (forall t', lies t' w -> rebalanced (k tt t') t' c s h) -> rebalanced ((m ≫= k) t) t c s h.
Proof.
  intros (t1 & E1 & Hl & E2 & E3 & E4) H. destruct (H t1 Hl) as (c' & (t2 & F1 & F2 & F3 & F4 & F5) & Ha & Hi).
  exists c'. split; [|done]. exists t2. unfold mbind, TM_bind. rewrite E1. split; [done|]. split; [done|]. split_and!; congruence.
Qed.

(** The loop restores the balance of a context [c] around a smaller one. *)
Definition lowers (c : list frame) (fuel : nat) : Prop :=
  forall (t : ptree) c1 s a h,
    lies t (plug c (plug c1 s)) -> root_of (plug c1 s) = Some a -> 0 <= h ->
    avl_around c1 h -> avl_around c (height_around c1 h + 1) ->
    rebalanced (pp_tree_avl_balance_remove fuel (Some a) t) t (c1 ++ c) s h.
End Lower.

Ltac lower :=
  rewrite ?avl_around_app, ?height_around_app, ?before_app, ?after_app;
  unfold left_bal, right_bal; cbn [avl height avl_around height_around inorder before after app] in *; heights;
  repeat match goal with |- context [if ?a =? ?b then _ else _] => destruct (Z.eqb_spec a b) end;
  split_and?; try tauto; try lia; try (by rewrite <- ?app_assoc, ?app_comm_cons, <- ?app_assoc);
  try (eapply avl_around_eq; [eassumption|lia]).

Section LowerLoop.
Context {K V : Type}.
Notation ptree := (PTree K V).
Notation tree := (@tree K V).
Notation frame := (@frame K V).

Lemma rooted (x : tree) a : root_of x = Some a -> exists b l k v r, x = T a b l k v r.
Proof. destruct x; [done|]. intros [= ->]. by eauto 6. Qed.

Lemma lowers_left (c : list frame) p pb pk pv pr fuel : lowers c fuel -> lowers (FL p pb pk pv pr :: c) (S fuel).
Proof.
  intros IH t c1 s a h Hl Hr Hh Hc1 (Epb & Hpb & Hpr & Hc). pose proof (height_around_nonneg c1 h Hh) as HH.
  cbn [pp_tree_avl_balance_remove].
  destruct (rooted _ _ Hr) as (b & l & k & v & r & Ex).
  rewrite Ex in Hl. rewrite (bind_get _ _ _ _ (lies_node _ _ _ _ _ _ _ _ Hl)); cbn [n_parent above frame_addr].
  cbn [plug fill_frame] in Hl |- *. rewrite (bind_get _ _ _ _ (lies_node _ c _ _ _ _ _ _ Hl)); cbn [n_left n_right n_balance root_of].
  rewrite bool_decide_eq_true_2 by done.
  destruct (Z.eqb_spec pb (-1)) as [->|N1]; [|destruct (Z.eqb_spec pb 0) as [->|N2]].
  - destruct pr as [|sb sbb m sk sv sr]; [lower|]. cbn [root_of].
    rewrite (bind_get _ _ _ _ (lies_node _ (FR p (-1) (T a b l k v r) pk pv :: c) _ _ _ _ _ _ Hl)); cbn [n_balance].
    destruct (Z.eqb_spec sbb 1) as [->|N1].
    + destruct m as [|q qb x qk qv y]; [lower|].
      eapply rebalanced_bind; [eapply rotate_right_left_spec; exact Hl|]. intros t1 Hl1. cbn [Z.eqb].
      rewrite (bind_get _ _ _ _ (lies_node _ (FL q 0 qk qv _ :: c) _ _ _ _ _ _ Hl1)); cbn [n_parent above frame_addr].
      eapply rebalanced_same; [eapply (IH t1 (c1 ++ [FL p (left_bal qb) pk pv x; FL q 0 qk qv (T sb (right_bal qb) y sk sv sr)]) s q h)|..].
      all: rewrite ?plug_app; rewrite ?Ex; cbn [plug fill_frame root_of]; try done.
      all: lower.
    + eapply rebalanced_bind; [eapply rotate_left_spec; exact Hl|]. intros t1 Hl1.
      destruct (Z.eqb_spec sbb 0) as [->|N2].
      * eapply (rebalanced_in (c1 ++ [FL p (- (0 + 1)) pk pv m; FL sb (0 + 1) sk sv sr] ++ c)); [exists t1; by rewrite !plug_app, Ex|..]; lower.
      * rewrite (bind_get _ _ _ _ (lies_node _ (FL sb _ sk sv sr :: c) _ _ _ _ _ _ Hl1)); cbn [n_parent above frame_addr].
        eapply rebalanced_same; [eapply (IH t1 (c1 ++ [FL p (- (sbb + 1)) pk pv m; FL sb (sbb + 1) sk sv sr]) s sb h)|..].
        all: rewrite ?plug_app, ?Ex; cbn [plug fill_frame root_of]; try done; lower.
  - eapply (rebalanced_in (c1 ++ FL p (-1) pk pv pr :: c)); [rewrite plug_app, Ex; cbn [plug fill_frame]; eapply set_balance_spec; exact Hl|..]; lower.
  - eapply rebalanced_bind; [eapply (set_balance_spec _ _ _ _ 0); exact Hl|]. intros t1 Hl1.
    eapply rebalanced_same; [eapply (IH t1 (c1 ++ [FL p 0 pk pv pr]) s p h)|..].
    all: rewrite ?plug_app, ?Ex; cbn [plug fill_frame root_of]; try done; lower.
Qed.

Lemma lowers_right (c : list frame) p pb pl pk pv fuel : lowers c fuel -> lowers (FR p pb pl pk pv :: c) (S fuel).
Proof.
  intros IH t c1 s a h Hl Hr Hh Hc1 (Epb & Hpb & Hpl & Hc). pose proof (height_around_nonneg c1 h Hh) as HH.
  cbn [pp_tree_avl_balance_remove].
  destruct (rooted _ _ Hr) as (b & l & k & v & r & Ex).
  rewrite Ex in Hl. rewrite (bind_get _ _ _ _ (lies_node _ _ _ _ _ _ _ _ Hl)); cbn [n_parent above frame_addr].
  pose proof (plug_aside _ _ _ _ _ _ _ _ Hl) as Ha. cbn [aside] in Ha.
  cbn [plug fill_frame] in Hl |- *. rewrite (bind_get _ _ _ _ (lies_node _ c _ _ _ _ _ _ Hl)); cbn [n_left n_right n_balance root_of].
  rewrite bool_decide_eq_false_2 by done.
  destruct (Z.eqb_spec pb 1) as [->|N1]; [|destruct (Z.eqb_spec pb 0) as [->|N2]].
  - destruct pl as [|sb sbb sl sk sv m]; [lower|]. cbn [root_of].
    rewrite (bind_get _ _ _ _ (lies_node _ (FL p 1 pk pv (T a b l k v r) :: c) _ _ _ _ _ _ Hl)); cbn [n_balance].
    destruct (Z.eqb_spec sbb (-1)) as [->|N1].
    + destruct m as [|q qb x qk qv y]; [lower|].
      eapply rebalanced_bind; [eapply rotate_left_right_spec; exact Hl|]. intros t1 Hl1. cbn [Z.eqb].
      rewrite (bind_get _ _ _ _ (lies_node _ (FR q 0 _ qk qv :: c) _ _ _ _ _ _ Hl1)); cbn [n_parent above frame_addr].
      eapply rebalanced_same; [eapply (IH t1 (c1 ++ [FR p (right_bal qb) y pk pv; FR q 0 (T sb (left_bal qb) sl sk sv x) qk qv]) s q h)|..].
      all: rewrite ?plug_app, ?Ex; cbn [plug fill_frame root_of]; try done; lower.
    + eapply rebalanced_bind; [eapply rotate_right_spec; exact Hl|]. intros t1 Hl1.
      destruct (Z.eqb_spec sbb 0) as [->|N2].
      * eapply (rebalanced_in (c1 ++ [FR p (- (0 - 1)) m pk pv; FR sb (0 - 1) sl sk sv] ++ c)); [exists t1; by rewrite !plug_app, Ex|..]; lower.
      * rewrite (bind_get _ _ _ _ (lies_node _ (FR sb _ sl sk sv :: c) _ _ _ _ _ _ Hl1)); cbn [n_parent above frame_addr].
        eapply rebalanced_same; [eapply (IH t1 (c1 ++ [FR p (- (sbb - 1)) m pk pv; FR sb (sbb - 1) sl sk sv]) s sb h)|..].
        all: rewrite ?plug_app, ?Ex; cbn [plug fill_frame root_of]; try done; lower.
  - eapply (rebalanced_in (c1 ++ FR p 1 pl pk pv :: c)); [rewrite plug_app, Ex; cbn [plug fill_frame]; eapply set_balance_spec; exact Hl|..]; lower.
  - eapply rebalanced_bind; [eapply (set_balance_spec _ _ _ _ 0); exact Hl|]. intros t1 Hl1.
    eapply rebalanced_same; [eapply (IH t1 (c1 ++ [FR p 0 pl pk pv]) s p h)|..].
    all: rewrite ?plug_app, ?Ex; cbn [plug fill_frame root_of]; try done; lower.
Qed.

Lemma balance_remove_spec (c : list frame) fuel : (length c < fuel)%nat -> lowers c fuel.
Proof.
  revert fuel. induction c as [|f c IH]; intros [|fuel] Hf; try (cbn in Hf; lia).
  - intros t c1 s a h Hl Hr Hh Hc1 _. cbn [plug] in Hl.
    destruct (rooted _ _ Hr) as (b & l & k & v & r & Ex).
    cbn [pp_tree_avl_balance_remove]. rewrite Ex in Hl. rewrite (bind_get _ _ _ _ (lies_node _ [] _ _ _ _ _ _ Hl)); cbn [n_parent above].
    rewrite app_nil_r. exists c1. split; [exists t; by rewrite Ex|done].
  - cbn in Hf. destruct f; [apply lowers_left|apply lowers_right]; apply IH; lia.
Qed.
End LowerLoop.

(** ** Nodes a computation does not touch *)

Section Framed.
Context {K V : Type}.
Notation node := (PTreeAVLNode K V).
Notation ptree := (PTree K V).

Definition beside (a : nat) (n : node) (t : ptree) : ptree := with_nodes (<[a := n]> (t_nodes t)) t.

(** A computation does the same beside a node that is not in the tree. *)
Definition framed {A} (m : TM A) : Prop :=
  forall (t : ptree) x t' a n, t_nodes t !! a = None -> m t = Some (x, t') ->
    m (beside a n t) = Some (x, beside a n t') /\ t_nodes t' !! a = None.

Lemma framed_ret {A} (x : A) : framed (mret x).
Proof. intros t y t' a n Ha [= <- <-]. done. Qed.

Lemma framed_bind {A B} (m : TM A) (k : A -> TM B) : framed m -> (forall x, framed (k x)) -> framed (m ≫= k).
Proof.
  intros Hm Hk t x t' a n Ha E. unfold mbind, TM_bind in *. destruct (m t) as [[y t1]|] eqn:E1; [|done].
  destruct (Hm _ _ _ a n Ha E1) as [-> Ha1]. by apply Hk.
Qed.

Lemma framed_get p : framed (get p).
Proof.
  intros t x t' a n Ha E. unfold get in *. destruct p as [p|]; [|done]. destruct (t_nodes t !! p) as [np|] eqn:Ep; [|done].
  injection E as <- <-. cbn [beside with_nodes t_nodes]. rewrite lookup_insert_ne by congruence. by rewrite Ep.
Qed.

Lemma framed_modify p f : framed (modify p f).
Proof.
  intros t x t' a n Ha E. unfold modify in *. destruct p as [p|]; [|done]. destruct (t_nodes t !! p) as [np|] eqn:Ep; [|done].
  assert (a <> p) as Hne by congruence. injection E as <- <-. cbn [beside with_nodes t_nodes t_root t_nnodes t_destroyed t_heap].
  rewrite !lookup_insert_ne by congruence. rewrite Ep. by rewrite insert_insert_ne by congruence.
Qed.

Lemma framed_set_root x : framed (set_root x).
Proof. intros t y t' a n Ha [= <- <-]. done. Qed.

Lemma framed_stuck {A} : framed (stuck (A := A)).
Proof. done. Qed.
End Framed.

Create HintDb framed discriminated.
#[export] Hint Resolve framed_ret framed_get framed_modify framed_set_root framed_stuck : framed.

(** Takes a computation apart. *)
Ltac frames :=
  repeat first
    [ solve [auto with framed]
    | apply framed_bind; [|intros ?]
    | match goal with
      | |- framed (match ?x with _ => _ end) => destruct x
      | |- framed (let _ := _ in _) => cbv zeta
      end ].

Section FramedTree.
Context {K V : Type}.

Lemma framed_hang p o n : framed (K := K) (V := V) (hang p o n).
Proof. unfold hang. frames. Qed.
Lemma framed_adopt c p : framed (K := K) (V := V) (adopt c p).
Proof. unfold adopt. frames. Qed.
#[local] Hint Resolve framed_hang framed_adopt : framed.

Lemma framed_rotate_left n : framed (K := K) (V := V) (pp_tree_avl_rotate_left n).
Proof. unfold pp_tree_avl_rotate_left. frames. Qed.
Lemma framed_rotate_right n : framed (K := K) (V := V) (pp_tree_avl_rotate_right n).
Proof. unfold pp_tree_avl_rotate_right. frames. Qed.
Lemma framed_restore n : framed (K := K) (V := V) (restore_balance n).
Proof. unfold restore_balance. frames. Qed.
#[local] Hint Resolve framed_restore : framed.
Lemma framed_rotate_left_right n : framed (K := K) (V := V) (pp_tree_avl_rotate_left_right n).
Proof. unfold pp_tree_avl_rotate_left_right. frames. Qed.
Lemma framed_rotate_right_left n : framed (K := K) (V := V) (pp_tree_avl_rotate_right_left n).
Proof. unfold pp_tree_avl_rotate_right_left. frames. Qed.
#[local] Hint Resolve framed_rotate_left framed_rotate_right framed_rotate_left_right framed_rotate_right_left : framed.

Lemma framed_balance_remove fuel n : framed (K := K) (V := V) (pp_tree_avl_balance_remove fuel n).
Proof. revert n. induction fuel as [|fuel IH]; intros n; cbn [pp_tree_avl_balance_remove]; frames. Qed.
End FramedTree.

(** ** Taking a node out *)

Section Unlink.
Context {K V : Type}.
Notation ptree := (PTree K V).
Notation tree := (@tree K V).
Notation frame := (@frame K V).

(** The root of a tree around a hole is the address of a frame. *)
Lemma root_around (c : list frame) f s : exists x, root_of (plug (f :: c) s) = Some x /\ x ∈ (edge_cell (f :: c) (root_of s) ++ around (f :: c)).*1.
Proof.
  revert f s. induction c as [|f' c IH]; intros f s.
  - exists (frame_addr f). destruct f; cbn; (split; [done|left]).
  - destruct (IH f' (fill_frame f s)) as (x & Ex & Hx). exists x. split; [exact Ex|].
    rewrite fmap_app, elem_of_app. right. destruct f as [a b k v r|a b l k v]; cbn [fill_frame root_of] in Hx.
    + change (around _) with (cells (Some a) r ++ edge_cell (f' :: c) (Some a) ++ around (f' :: c)).
      rewrite fmap_app, elem_of_app. by right.
    + change (around _) with (cells (Some a) l ++ edge_cell (f' :: c) (Some a) ++ around (f' :: c)).
      rewrite fmap_app, elem_of_app. by right.
Qed.

Lemma plug_root (t : ptree) f c a b l k v r : lies t (plug (f :: c) (T a b l k v r)) -> root_of (plug (f :: c) (T a b l k v r)) <> Some a.
Proof.
  intros Hl E. destruct (root_around c f (T a b l k v r)) as (x & Ex & Hx). rewrite E in Ex. injection Ex as <-.
  destruct (lies_cells _ _ _ Hl (cells_plug _ _)) as [_ Hd]. cbn [cells app fmap list_fmap fst] in Hd.
  apply NoDup_cons in Hd as [Hd _]. apply Hd. rewrite fmap_app, elem_of_app. by right.
Qed.

Lemma tree_eq {A} (x : A) m m' (r r' : link) nn ds h :
  m = m' -> r = r' -> (mret x : TM A) (Tree m r nn ds h) = Some (x, Tree m' r' nn ds h : ptree).
Proof. by intros -> ->. Qed.

Lemma bind_read_root {B} (k : link -> TM B) (t : ptree) : (read_slot SlotRoot ≫= k) t = k (t_root t) t.
Proof. done. Qed.

(** The child takes the place of the node, which stays in memory. *)
Lemma replace_spec (t : ptree) c a b l k v r child :
  lies t (plug c (T a b l k v r)) -> (l = E /\ child = r) \/ (r = E /\ child = l) ->
  exists t', (replace_node (Some a) (root_of child) ≫= fun p => adopt (root_of child) p ≫= fun _ => mret p) t =
      Some (above c, beside a (AVLNode (root_of l) (root_of r) k v (above c) b) t') /\
    lies t' (plug c child) /\ t_nodes t' !! a = None /\
    t_nnodes t' = t_nnodes t /\ t_destroyed t' = t_destroyed t /\ t_heap t' = t_heap t.
Proof.
  intros Hl Hc. destruct t as [nodes root nn ds h]. pose proof (plug_aside _ _ _ _ _ _ _ _ Hl) as Ha.
  pose proof (lies_root _ _ Hl) as Hr. cbn [t_root] in Hr.
  assert (match c with [] => root = Some a | _ => root <> Some a end) as Hroot.
  { rewrite Hr. destruct c as [|f c]; [done|by eapply plug_root]. }
  set (N := AVLNode (root_of l) (root_of r) k v (above c) b). set (rest := below child ++ around c).
  destruct (lies_cells _ _ ((a, N) :: (top_cell (Some a) child ++ edge_cell c (Some a)) ++ rest) Hl) as [Hn Hd].
  { rewrite cells_plug. unfold N, rest. destruct Hc as [[El Ec]|[El Ec]]; rewrite El, <- Ec; cbn [cells root_of app];
      rewrite ?app_nil_r, (cells_split _ child); solve_Permutation. }
  assert (cells None (plug c child) ≡ₚ (top_cell (above c) child ++ edge_cell c (root_of child)) ++ rest) as Hl'.
  { rewrite cells_plug, (cells_split _ child). unfold rest. solve_Permutation. }
  cbn [t_nodes] in Hn. subst nodes. unfold replace_node. clear Hl. clearbody rest. subst N.
  exists (Tree (list_to_map ((top_cell (above c) child ++ edge_cell c (root_of child)) ++ rest)) (root_of (plug c child)) nn ds h).
  destruct child as [|ca cb cl ck cv cr], c as [|[g gb gk gv gr|g gb gl gk gv] c];
    cbn [top_cell edge_cell app root_of above frame_addr aside] in *; pose proof Hd as Hd0; distinct Hd;
    cbn [list_to_map foldr fst snd t_nodes t_nnodes t_destroyed t_heap].
  all: split; [|split; [eapply cells_lies; [..|exact Hl']; [by apply NoDup_cons in Hd0 as [_ Hd0]|reflexivity..]|split; [|done]]].
  all: try (repeat rewrite lookup_insert_ne by differ; by apply not_elem_of_list_to_map_1).
  all: unfold adopt; rewrite ?bind_bind, bind_read_root; cbn [t_root]; try (rewrite bool_decide_eq_true_2 by (by rewrite Hroot)).
  all: repeat (first [rewrite bind_bind | rewrite bind_ret | rewrite bind_root | erewrite bind_get by find_cell
       | erewrite bind_modify by find_cell | rewrite bool_decide_eq_true_2 by reflexivity | rewrite bool_decide_eq_false_2 by congruence ];
     cbn [n_left n_right n_key n_value n_parent n_balance set_left set_right set_parent t_nodes t_root t_nnodes t_destroyed t_heap with_nodes with_root]).
  all: apply tree_eq; cbn [t_nodes t_root]; [same_cells|first [reflexivity | rewrite Hr; apply root_plug_frame]].
Qed.

(** Unlinking a node of at most one child leaves a balanced tree beside it. *)
Lemma unlink_node_spec (t : ptree) c a b l k v r :
  lies t (plug c (T a b l k v r)) -> avl (plug c (T a b l k v r)) -> l = E \/ r = E ->
  exists t' n w', unlink_node (Some a) t = Some (tt, beside a n t') /\ n_key n = k /\ t_nodes t' !! a = None /\
    lies t' w' /\ avl w' /\ inorder w' = before c ++ inorder l ++ inorder r ++ after c /\
    t_nnodes t' = t_nnodes t /\ t_destroyed t' = t_destroyed t /\ t_heap t' = t_heap t.
Proof.
  intros Hl Ha Hlr. apply avl_plug in Ha as [Ha Hc]. unfold unlink_node.
  rewrite (bind_get _ _ _ _ (lies_node _ _ _ _ _ _ _ _ Hl)). cbn [n_left n_right].
  set (child := match l with E => r | T _ _ _ _ _ _ => l end).
  replace (match root_of l with Some _ => root_of l | None => root_of r end) with (root_of child) by (subst child; by destruct l).
  assert ((l = E /\ child = r) \/ (r = E /\ child = l)) as Hchild by (subst child; destruct l; [by left|right; by destruct Hlr]).
  pose proof (length_context c (T a b l k v r)) as Hlen. rewrite <- (lies_size _ _ Hl) in Hlen.
  unfold steps at 1. unfold mbind at 1, TM_bind at 1.
  destruct child as [|ca cb cl ck cv cr] eqn:Ec; cbn [root_of].
  - assert (l = E /\ r = E) as [-> ->] by (destruct Hchild as [[-> <-]|[-> <-]]; done).
    destruct (balance_remove_spec c (S (size (t_nodes t))) ltac:(lia) t [] (T a b E k v E) a 0 Hl eq_refl)
      as (c' & (t1 & E1 & Hl1 & N1 & D1 & H1) & Ha1 & B1 & A1); [done|done|exact Hc|].
    cbn [app] in B1, A1. unfold mbind at 1, TM_bind at 1. rewrite E1.
    destruct (replace_spec t1 c' a b E k v E E Hl1 ltac:(by left)) as (t2 & E2 & Hl2 & F2 & N2 & D2 & H2).
    cbn [root_of adopt] in E2. exists t2, (AVLNode None None k v (above c') b), (plug c' E). cbn [n_key].
    split; [|split_and!; try done; try congruence].
    + unfold mbind, TM_bind, mret, TM_ret in E2 |- *. destruct (replace_node (Some a) None t1) as [[? ?]|]; [|done]. by injection E2 as -> ->.
    + by apply avl_plug.
    + by rewrite inorder_plug, B1, A1.
  - unfold mbind at 1, TM_bind at 1. unfold mret at 1, TM_ret at 1.
    destruct (replace_spec t c a b l k v r (T ca cb cl ck cv cr) Hl Hchild) as (t1 & E1 & Hl1 & F1 & N1 & D1 & H1).
    set (n := AVLNode (root_of l) (root_of r) k v (above c) b) in *. cbn [root_of adopt] in E1.
    assert (avl (T ca cb cl ck cv cr) /\ avl_around c (height (T ca cb cl ck cv cr) + 1) /\
      inorder l ++ inorder r = inorder (T ca cb cl ck cv cr)) as (Hac & Hcc & Hi).
    { destruct Ha as (_ & _ & Hal & Har). destruct Hchild as [[-> <-]|[-> <-]]; rewrite ?app_nil_r; (split; [done|split; [|done]]);
        (eapply avl_around_eq; [exact Hc|]); balance. }
    assert (length c < S (size (t_nodes t)))%nat as Hlen' by lia.
    destruct (balance_remove_spec c _ Hlen' t1 [] (T ca cb cl ck cv cr) ca (height (T ca cb cl ck cv cr)) Hl1 eq_refl)
      as (c' & (t2 & E2 & Hl2 & N2 & D2 & H2) & Ha2 & B2 & A2); [apply height_nonneg|done|exact Hcc|].
    cbn [app] in B2, A2. destruct (framed_balance_remove _ _ _ _ _ a n F1 E2) as [E3 F3].
    exists t2, n, (plug c' (T ca cb cl ck cv cr)).
    split; [|split_and!; try done; try congruence].
    + unfold mbind, TM_bind, mret, TM_ret in E1 |- *. destruct (replace_node (Some a) (Some ca) t) as [[p t0]|]; [|done].
      destruct (modify (Some ca) (set_parent p) t0) as [[? ?]|]; [|done]. injection E1 as -> ->. exact E3.
    + by apply avl_plug.
    + by rewrite inorder_plug, B2, A2, <- Hi, <- !app_assoc.
Qed.

(** ** The node that leaves *)

Lemma rightmost_place s : forall (t : ptree) c fuel,
  lies t (plug c s) -> s <> E -> (length (inorder s) <= fuel)%nat ->
  exists c2 a b l k v, s = plug c2 (T a b l k v E) /\ rightmost fuel (root_of s) t = Some (Some a, t) /\ after c2 = [].
Proof.
  induction s as [|a b l _ k v r IH]; intros t c fuel Hl Hne Hf; [done|]. cbn [inorder] in Hf. rewrite length_app in Hf. cbn [length] in Hf.
  destruct fuel as [|fuel]; [lia|]. cbn [rightmost root_of]. rewrite (bind_get _ _ _ _ (lies_node _ _ _ _ _ _ _ _ Hl)). cbn [n_right].
  destruct r as [|ra rb rl rk rv rr] eqn:Er; cbn [root_of]; [by exists [], a, b, l, k, v|]. rewrite <- Er in *.
  destruct (IH t (FR a b l k v :: c) fuel Hl ltac:(by rewrite Er) ltac:(lia)) as (c2 & a' & b' & l' & k' & v' & E1 & E2 & E3).
  exists (c2 ++ [FR a b l k v]), a', b', l', k', v'. rewrite plug_app, <- E1, after_app, E3. split; [done|]. split; [|done].
  by rewrite Er in E2.
Qed.

(** The key that leaves with the node: the one to be removed, or that of its
    predecessor when the node had two children. *)
Definition leaving (l : tree) (k : K) (r : tree) (k' : K) : Prop :=
  ((l = E \/ r = E) /\ k' = k) \/ (l <> E /\ r <> E /\ exists pre v', inorder l = pre ++ [(k', v')]).

Lemma node_to_remove_spec (t : ptree) c a b l k v r :
  lies t (plug c (T a b l k v r)) -> avl (plug c (T a b l k v r)) ->
  exists t' c' a' b' l' k' v' r', node_to_remove (Some a) t = Some (Some a', t') /\
    lies t' (plug c' (T a' b' l' k' v' r')) /\ avl (plug c' (T a' b' l' k' v' r')) /\ (l' = E \/ r' = E) /\
    before c' ++ inorder l' ++ inorder r' ++ after c' = before c ++ inorder l ++ inorder r ++ after c /\ leaving l k r k' /\
    t_nnodes t' = t_nnodes t /\ t_destroyed t' = t_destroyed t /\ t_heap t' = t_heap t.
Proof.
  intros Hl Ha. unfold node_to_remove. rewrite (bind_get _ _ _ _ (lies_node _ _ _ _ _ _ _ _ Hl)). cbn [n_left n_right].
  destruct l as [|la lb ll lk lv lr] eqn:El; [|destruct r as [|ra rb rl rk rv rr] eqn:Er]; cbn [root_of].
  - exists t, c, a, b, E, k, v, r. split_and!; try done; [by left|left; by auto].
  - exists t, c, a, b, (T la lb ll lk lv lr), k, v, E. split_and!; try done; [by right|left; by auto].
  - rewrite <- El, <- Er in *. unfold steps at 1. unfold mbind at 1, TM_bind at 1.
    assert (length (inorder l) <= S (size (t_nodes t)))%nat as Hlen.
    { rewrite (lies_size _ _ Hl), inorder_plug, !length_app. cbn [inorder]. rewrite length_app. lia. }
    destruct (rightmost_place l t (FL a b k v r :: c) _ Hl ltac:(by rewrite El) Hlen) as (c2 & a' & b' & l' & k' & v' & E1 & E2 & E3).
    replace (Some la) with (root_of l) by by rewrite El. unfold mbind at 1, TM_bind at 1. rewrite E2.
    assert (lies t (plug (c2 ++ FL a b k v r :: c) (T a' b' l' k' v' E))) as Hl'.
    { rewrite plug_app, <- E1. exact Hl. }
    rewrite (bind_get _ _ _ _ (lies_node _ _ _ _ _ _ _ _ Hl')). cbn [n_key n_value].
    destruct (modify_spec t c a b l k v r (set_pair k' v') b k' v' Hl eq_refl) as (t' & Em & Hl2 & E4 & E5 & E6).
    unfold mbind at 1, TM_bind at 1. rewrite Em.
    assert (plug c (T a b l k' v' r) = plug (c2 ++ FL a b k' v' r :: c) (T a' b' l' k' v' E)) as Ew.
    { rewrite plug_app, <- E1. done. }
    exists t', (c2 ++ FL a b k' v' r :: c), a', b', l', k', v', E. split_and!; try done.
    + by rewrite <- Ew.
    + rewrite <- Ew. apply avl_plug in Ha. apply avl_plug. exact Ha.
    + by right.
    + rewrite before_app, after_app, E3, E1, inorder_plug, E3. cbn [before after inorder app]. by rewrite !app_nil_r, <- !app_assoc.
    + right. rewrite El, Er. split; [done|]. split; [done|]. exists (before c2 ++ inorder l'), v'.
      rewrite <- El, E1, inorder_plug, E3. cbn [inorder]. by rewrite app_nil_r, <- app_assoc.
Qed.
End Unlink.

(** ** Removal *)

Section Remove.
Context {K V : Type} (cmp : K -> K -> Z) {ord : Ordering cmp}.
Notation ptree := (PTree K V).
Notation tree := (@tree K V).
Notation frame := (@frame K V).

Lemma find_node_spec key s : forall (t : ptree) c fuel,
  lies t (plug c s) -> sorted cmp (inorder (plug c s)) -> fits cmp (before c) key (after c) -> (length (inorder s) < fuel)%nat ->
  exists c' s', find_node cmp fuel (root_of s) key t = Some (root_of s', t) /\ plug c' s' = plug c s /\
    fits cmp (before c') key (after c') /\ match s' with E => True | T _ _ _ k _ _ => cmp key k = 0 end.
Proof using ord.
  induction s as [|a b l IHl k v r IHr]; intros t c fuel Hl Hs Hf Hn; (destruct fuel as [|fuel]; [lia|]); cbn [find_node root_of].
  { by exists c, E. }
  rewrite (bind_get _ _ _ _ (lies_node _ _ _ _ _ _ _ _ Hl)). cbn [n_key n_left n_right].
  destruct (fits_plug cmp c key a b l k v r Hs Hf) as (Fl & Fr & _). cbn [inorder] in Hn. rewrite length_app in Hn. cbn [length] in Hn.
  destruct (Z.ltb_spec (cmp key k) 0) as [H1|H1]; [|destruct (Z.ltb_spec 0 (cmp key k)) as [H2|H2]].
  - apply (IHl t (FL a b k v r :: c)); try done; [by apply Fl|lia].
  - apply (IHr t (FR a b l k v :: c)); try done; [by apply Fr|lia].
  - exists c, (T a b l k v r). split_and!; try done. lia.
Qed.

(** Nothing to remove, or the pair of the key is taken out of the list; the
    destroyed key is the one of the pair or the one before it. *)
Inductive removed (key : K) (t : ptree) (w : tree) : bool -> ptree -> tree -> Prop :=
  | RemovedNot : Forall (fun x => cmp key x.1 <> 0) (inorder w) -> removed key t w false t w
  | Removed pre k v post k' t' w' :
      inorder w = pre ++ (k, v) :: post -> cmp key k = 0 -> inorder w' = pre ++ post ->
      t_destroyed t' = t_destroyed t ++ [k'] -> t_heap t' = t_heap t ->
      (k' = k \/ exists pre' v', pre = pre' ++ [(k', v')]) ->
      removed key t w true t' w'.

Lemma avl_remove_removed (t : ptree) w key :
  search_tree cmp t w ->
  exists b t' w', p_tree_avl_remove cmp key t = Some (b, t') /\ search_tree cmp t' w' /\ removed key t w b t' w' /\ t_nnodes t' = t_nnodes t.
Proof using ord.
  intros [Hl Ha Hs]. unfold p_tree_avl_remove. rewrite bind_read_root. unfold steps. unfold mbind at 1, TM_bind at 1.
  destruct (find_node_spec key w t [] (S (size (t_nodes t)))) as (c & s & Ef & Ep & Hf & Hk);
    [done|done|split; constructor|rewrite (lies_size _ _ Hl); lia|].
  cbn [plug] in Ep. subst w. rewrite (lies_root _ _ Hl). unfold mbind at 1, TM_bind at 1. rewrite Ef.
  destruct s as [|a b l k v r]; cbn [root_of].
  { exists false, t, (plug c E). split; [done|]. split; [done|]. split; [|done]. constructor.
    rewrite inorder_plug. by apply fits_no_key. }
  destruct (node_to_remove_spec t c a b l k v r Hl Ha) as (t1 & c' & a' & b' & l' & k' & v' & r' & E1 & Hl1 & Ha1 & Hlr & Hi & Hk' & N1 & D1 & H1).
  unfold mbind at 1, TM_bind at 1. rewrite E1.
  destruct (unlink_node_spec t1 c' a' b' l' k' v' r' Hl1 Ha1 Hlr) as (t2 & n & w' & E2 & En & F2 & Hl2 & Ha2 & Hi2 & N2 & D2 & H2).
  unfold mbind at 1, TM_bind at 1. rewrite E2.
  rewrite (bind_get a' n) by (cbn [beside with_nodes t_nodes]; apply lookup_insert_eq).
  set (t3 := Tree (t_nodes t2) (t_root t2) (t_nnodes t2) (t_destroyed t2 ++ [k']) (t_heap t2)).
  assert (inorder (plug c (T a b l k v r)) = (before c ++ inorder l) ++ (k, v) :: inorder r ++ after c) as Ei
    by (rewrite inorder_plug; cbn [inorder]; by rewrite <- !app_assoc).
  assert (inorder w' = (before c ++ inorder l) ++ inorder r ++ after c) as Ei' by (rewrite Hi2, Hi; by rewrite <- !app_assoc).
  exists true, t3, w'. split_and!.
  - unfold mbind, TM_bind, destroy_key, free_node, beside, with_nodes. cbn [t_nodes t_root t_nnodes t_destroyed t_heap].
    rewrite lookup_insert_eq, delete_insert_eq, delete_id by done. by rewrite En.
  - split; [by destruct Hl2|done|]. rewrite Ei'. rewrite Ei in Hs. by eapply sorted_drop.
  - eapply Removed; [exact Ei|exact Hk|exact Ei'|unfold t3; cbn [t_destroyed]; by rewrite D2, D1|unfold t3; cbn [t_heap]; by rewrite H2, H1|].
    destruct Hk' as [[_ ->]|(_ & _ & pre & v2 & ->)]; [by left|right]. exists (before c ++ pre), v2. by rewrite app_assoc.
  - unfold t3. cbn [t_nnodes]. by rewrite N2, N1.
Qed.

(** [p_tree_remove] answers whether the key was there, takes its pair out of
    the list, and keeps the tree a balanced search tree. *)
Theorem p_tree_remove_removed (t : ptree) w key :
  search_tree cmp t w ->
  exists b t' w', p_tree_remove cmp key t = Some (b, t') /\ search_tree cmp t' w' /\ removed key t w b t' w' /\
    t_nnodes t' = t_nnodes t - Z.b2z b.
Proof using ord.
  intros Hw. unfold p_tree_remove. rewrite bind_read_root. rewrite (lies_root _ _ (st_lies _ _ _ Hw)).
  destruct w as [|a b l k v r] eqn:Ew; cbn [root_of].
  { exists false, t, E. split_and!; [done|done|constructor; constructor|cbn; lia]. }
  rewrite <- Ew in *. destruct (avl_remove_removed t w key Hw) as (x & t1 & w' & E1 & Hw' & Hr & Hn).
  unfold mbind at 1, TM_bind at 1. rewrite E1. exists x. destruct x.
  - exists (Tree (t_nodes t1) (t_root t1) (t_nnodes t1 + -1) (t_destroyed t1) (t_heap t1)), w'. split_and!; [done| | |cbn; lia].
    + destruct Hw' as [[] ? ?]. by split.
    + inversion Hr; subst. by econstructor.
  - exists t1, w'. split_and!; [done..|]. cbn. lia.
Qed.
End Remove.
