(* ===== verification/AvlTreeForeach.v ===== *)
(** * Traversing trees

    [p_tree_foreach] visits the pairs in order without a stack: the rightmost
    node below the left child of a node gets a thread back to the node, which is
    taken away when it has been followed. *)

From S2P Require Import Prelude AvlTree AvlTreeSpec AvlTreeInsert AvlTreeClear AvlTreeRemove.

Local Open Scope Z_scope.

Section Foreach.
Context {K V U : Type}.
Variable traverse_func : K -> V -> U -> bool * U.
Notation node := (PTreeAVLNode K V).
Notation ptree := (PTree K V).
Notation tree := (@tree K V).
Notation loose := (@loose K V).
Implicit Types (s l r : loose) (t : ptree).

(** The pairs of a list given to the function until it says stop. *)
Fixpoint visit_all (ps : list (K * V)) (stop : bool) (u : U) : bool * U :=
  match ps with
  | [] => (stop, u)
  | (k, v) :: ps' => let '(stop', u') := visit traverse_func stop k v u in visit_all ps' stop' u'
  end.

Lemma visit_all_app ps ps' stop u :
  visit_all (ps ++ ps') stop u = visit_all ps' (visit_all ps stop u).1 (visit_all ps stop u).2.
Proof. revert stop u. induction ps as [|[k v] ps IH]; intros stop u; cbn [app visit_all]; [done|]. destruct (visit _ _ _ _ _). apply IH. Qed.

Lemma visit_all_stop ps u : visit_all ps true u = (true, u).
Proof. induction ps as [|[k v] ps IH]; [done|]. exact IH. Qed.

Fixpoint loose_pairs s : list (K * V) := match s with LE => [] | L _ _ _ l k v r => loose_pairs l ++ (k, v) :: loose_pairs r end.

Lemma loosen_pairs p (w : tree) : loose_pairs (loosen p w) = inorder w.
Proof. revert p. induction w as [|a b l IHl k v r IHr]; intros p; cbn [loosen loose_pairs inorder]; [done|]. by rewrite IHl, IHr. Qed.

(** The cells of a tree with a thread from its rightmost node. *)
Definition next (r : loose) (x : link) : link := match r with LE => x | L a _ _ _ _ _ _ => Some a end.

Fixpoint threaded s (x : link) : list (nat * node) :=
  match s with
  | LE => []
  | L a p b l k v r => (a, AVLNode (loose_root l) (next r x) k v p b) :: loose_cells l ++ threaded r x
  end.

Lemma threaded_none s : threaded s None = loose_cells s.
Proof. induction s as [|a p b l _ k v r IH]; cbn [threaded loose_cells]; [done|]. rewrite IH. by destruct r. Qed.

Lemma threaded_addrs s x : (threaded s x).*1 = (loose_cells s).*1.
Proof. induction s as [|a p b l _ k v r IH]; cbn [threaded loose_cells fmap list_fmap fst]; [done|]. by rewrite !fmap_app, IH. Qed.

(** The node the thread starts from, and the search for it. *)
Lemma thread_start l :
  l <> LE ->
  exists a n rest, (forall x, threaded l x ≡ₚ (a, set_right x n) :: rest) /\
    forall c x t fuel, x = None \/ x = Some c -> c ∉ (loose_cells l).*1 ->
      (forall y, y ∈ threaded l x -> t_nodes t !! y.1 = Some y.2) -> (length (loose_cells l) <= fuel)%nat ->
      find_thread fuel (loose_root l) (Some c) t = Some (Some a, t).
Proof.
  induction l as [|a p b l _ k v r IH]; intros Hne; [done|]. destruct r as [|ra rp rb rl rk rv rr] eqn:Er.
  - exists a, (AVLNode (loose_root l) None k v p b), (loose_cells l). split.
    + intros x. cbn [threaded next]. by rewrite app_nil_r.
    + intros c x t fuel Hx Hc Hin Hf. destruct fuel as [|fuel]; [cbn in Hf; lia|]. cbn [find_thread loose_root].
      rewrite (bind_get _ _ _ _ (Hin (a, _) (list_elem_of_here _ _))). cbn [snd n_right next].
      destruct Hx as [-> | ->]; [done|]. by rewrite bool_decide_eq_true_2 by done.
  - rewrite <- Er in *. destruct IH as (a' & n & rest & Hp & Hs); [by rewrite Er|].
    exists a', n, ((a, AVLNode (loose_root l) (loose_root r) k v p b) :: loose_cells l ++ rest). split.
    + intros x. cbn [threaded]. rewrite Hp, Er. cbn [next loose_root]. solve_Permutation.
    + intros c x t fuel Hx Hc Hin Hf. cbn [loose_cells length fmap list_fmap fst] in Hc, Hf. rewrite length_app in Hf.
      rewrite not_elem_of_cons, fmap_app, not_elem_of_app in Hc. destruct Hc as (Hca & Hcl & Hcr).
      destruct fuel as [|fuel]; [lia|]. cbn [find_thread loose_root].
      rewrite (bind_get _ _ _ _ (Hin (a, _) (list_elem_of_here _ _))). cbn [snd n_right].
      replace (next r x) with (loose_root r) by by rewrite Er.
      assert (find_thread fuel (loose_root r) (Some c) t = Some (Some a', t)) as Hrec.
      { apply (Hs c x t fuel Hx Hcr); [|lia]. intros y Hy. apply Hin. cbn [threaded]. right. apply elem_of_app. by right. }
      assert (loose_root r = Some ra) as Hra by by rewrite Er. rewrite Hra in *.
      rewrite bool_decide_eq_false_2; [exact Hrec|]. intros [= ->]. apply Hcr. rewrite Er. by left.
Qed.

(** The nodes are the cells of a threaded tree and the cells [rest]. *)
Definition lies_threaded t s x (rest : list (nat * node)) : Prop :=
  t_nodes t = list_to_map (threaded s x ++ rest) /\ NoDup (threaded s x ++ rest).*1.

Lemma lies_threaded_cells t s x rest y : lies_threaded t s x rest -> y ∈ threaded s x ++ rest -> t_nodes t !! y.1 = Some y.2.
Proof. intros [-> Hd] Hy. destruct y. by apply elem_of_list_to_map_1. Qed.

Lemma lies_threaded_perm t s x rest s' x' rest' :
  lies_threaded t s x rest -> threaded s x ++ rest ≡ₚ threaded s' x' ++ rest' -> lies_threaded t s' x' rest'.
Proof. intros [Hm Hd] Hp. split; [|by rewrite <- Hp]. rewrite Hm. by apply list_to_map_proper. Qed.

Notation loop := (traverse_loop traverse_func).

(** A node without a left child is visited. *)
Lemma visit_step t a p b k v r x rest f stop d u :
  lies_threaded t (L a p b LE k v r) x rest ->
  loop (S f) (Some a) stop d u t =
    loop f (next r x) (visit traverse_func stop k v u).1 d (visit traverse_func stop k v u).2 t.
Proof.
  intros Hl. cbn [traverse_loop]. rewrite (bind_get _ _ _ _ (lies_threaded_cells _ _ _ _ (a, _) Hl (list_elem_of_here _ _))).
  cbn [snd n_left n_right n_key n_value loose_root]. by destruct (visit traverse_func stop k v u).
Qed.

(** With a left child the thread is set before the child, and taken away, with
    the visit, when the loop comes back. *)
Lemma thread_step t a p b l k v r x rest :
  lies_threaded t (L a p b l k v r) x rest -> l <> LE ->
  exists t1 n, lies_threaded t1 l (Some a) ((a, n) :: threaded r x ++ rest) /\
    (forall f stop d u, loop (S f) (Some a) stop d u t = loop f (loose_root l) stop (d + 1) u t1) /\
    (forall f stop d u, loop (S f) (Some a) stop (d + 1) u t1 =
       if (visit traverse_func stop k v u).1 && (d =? 0) then Some ((visit traverse_func stop k v u).2, t)
       else loop f (next r x) (visit traverse_func stop k v u).1 d (visit traverse_func stop k v u).2 t).
Proof.
  intros Hl Hne. set (A := AVLNode (loose_root l) (next r x) k v p b).
  destruct (thread_start l Hne) as (a' & n & rest' & Hp & Hs).
  assert (lies_threaded t l None ((a, A) :: threaded r x ++ rest)) as H0.
  { eapply lies_threaded_perm; [exact Hl|]. rewrite threaded_none. cbn [threaded]. fold A. solve_Permutation. }
  assert (a ∉ (loose_cells l).*1) as Ha.
  { destruct Hl as [_ Hd]. cbn [threaded app fmap list_fmap fst] in Hd. apply NoDup_cons in Hd as [Hd _].
    rewrite !fmap_app, !not_elem_of_app in Hd. tauto. }
  assert (exists la, loose_root l = Some la) as [la El] by (destruct l; [done|by eexists]).
  assert (a <> a') as Haa.
  { intros ->. apply Ha. rewrite <- (threaded_addrs l None), (Hp None). by left. }
  assert (t_nodes t !! a' = Some (set_right None n)) as Ha'.
  { apply (lies_threaded_cells _ _ _ _ (a', set_right None n) H0). rewrite (Hp None). by left. }
  assert (t_nodes t !! a = Some A) as HA.
  { apply (lies_threaded_cells _ _ _ _ (a, A) Hl). cbn [threaded app]. by left. }
  set (t1 := with_nodes (<[a' := set_right (Some a) n]> (t_nodes t)) t).
  assert (length (loose_cells l) <= size (t_nodes t))%nat as Hlen.
  { destruct H0 as [-> Hd]. rewrite map_size_list_to_map by done. rewrite length_app, threaded_none. lia. }
  assert (lies_threaded t1 l (Some a) ((a, A) :: threaded r x ++ rest)) as H1.
  { destruct H0 as [Hm Hd]. assert (NoDup (threaded l (Some a) ++ (a, A) :: threaded r x ++ rest).*1) as Hd1.
    { rewrite fmap_app, threaded_addrs in Hd |- *. done. }
    split; [|exact Hd1]. unfold t1. cbn [with_nodes t_nodes]. rewrite Hm.
    rewrite (list_to_map_proper _ ((a', set_right None n) :: rest' ++ (a, A) :: threaded r x ++ rest) Hd) by (rewrite (Hp None); done).
    rewrite (list_to_map_proper _ ((a', set_right (Some a) n) :: rest' ++ (a, A) :: threaded r x ++ rest) Hd1) by (rewrite (Hp (Some a)); done).
    cbn [list_to_map foldr fst snd]. by rewrite insert_insert_eq. }
  exists t1, A. split; [exact H1|]. split; intros f stop d u; cbn [traverse_loop].
  - rewrite (bind_get _ _ _ _ HA). cbn [n_left n_right n_key n_value A]. rewrite El. unfold steps. unfold mbind at 1, TM_bind at 1.
    unfold mbind at 1, TM_bind at 1. rewrite <- El.
    rewrite (Hs a None t (S (size (t_nodes t))) (or_introl eq_refl) Ha); [|intros y Hy; apply (lies_threaded_cells _ _ _ _ y H0), elem_of_app; by left|lia].
    rewrite (bind_get _ _ _ _ Ha'). cbn [n_right set_right]. by rewrite (bind_modify _ _ _ _ _ Ha').
  - assert (t_nodes t1 !! a = Some A) as HA1 by (unfold t1; cbn [with_nodes t_nodes]; by rewrite lookup_insert_ne by done).
    assert (t_nodes t1 !! a' = Some (set_right (Some a) n)) as Ha1 by (unfold t1; cbn [with_nodes t_nodes]; by rewrite lookup_insert_eq).
    rewrite (bind_get _ _ _ _ HA1). cbn [n_left n_right n_key n_value A]. rewrite El. unfold steps. unfold mbind at 1, TM_bind at 1.
    unfold mbind at 1, TM_bind at 1. rewrite <- El.
    rewrite (Hs a (Some a) t1 (S (size (t_nodes t1))) (or_intror eq_refl) Ha);
      [|intros y Hy; apply (lies_threaded_cells _ _ _ _ y H1), elem_of_app; by left|].
    2: { unfold t1. cbn [with_nodes t_nodes]. rewrite map_size_insert_Some by (by eexists). lia. }
    rewrite (bind_get _ _ _ _ Ha1). cbn [n_right set_right].
    destruct (visit traverse_func stop k v u) as [stop' u']. rewrite (bind_modify _ _ _ _ _ Ha1). cbn [fst snd].
    replace (d + 1 - 1) with d by lia.
    replace (with_nodes _ t1) with t; [by destruct (stop' && (d =? 0))|].
    unfold t1, with_nodes. cbn [t_nodes t_root t_nnodes t_destroyed t_heap set_right n_left n_key n_value n_parent n_balance].
    rewrite insert_insert_eq. destruct t as [nodes root nn ds h]. cbn [t_nodes t_root t_nnodes t_destroyed t_heap] in *. f_equal.
    symmetry. apply insert_id. exact Ha'.
Qed.

(** The loop runs through a subtree and goes on behind it. *)
Lemma loop_inside s : forall t x rest f stop d u,
  lies_threaded t s x rest -> 0 < d ->
  loop (turns s + f) (next s x) stop d u t =
    loop f x (visit_all (loose_pairs s) stop u).1 d (visit_all (loose_pairs s) stop u).2 t.
Proof.
  induction s as [|a p b l IHl k v r IHr]; intros t x rest f stop d u Hl Hd; [done|]. cbn [next loose_pairs].
  rewrite visit_all_app. cbn [visit_all turns].
  assert (lies_threaded t r x ((a, AVLNode (loose_root l) (next r x) k v p b) :: loose_cells l ++ rest)) as Hr.
  { eapply lies_threaded_perm; [exact Hl|]. cbn [threaded]. solve_Permutation. }
  destruct l as [|la lp lb ll lk lv lr] eqn:El.
  - replace (1 + turns LE + turns r + f)%nat with (S (turns r + f)) by (cbn [turns]; lia).
    rewrite (visit_step _ _ _ _ _ _ _ _ _ _ _ _ _ Hl). cbn [loose_pairs visit_all fst snd].
    destruct (visit traverse_func stop k v u) as [stop' u']. cbn [fst snd]. by rewrite (IHr t x _ f stop' d u' Hr Hd).
  - rewrite <- El in *. destruct (thread_step _ _ _ _ _ _ _ _ _ _ Hl ltac:(by rewrite El)) as (t1 & n & H1 & Hdown & Hup).
    replace (2 + turns l + turns r + f)%nat with (S (turns l + S (turns r + f))) by lia. rewrite Hdown.
    replace (loose_root l) with (next l (Some a)) by by rewrite El.
    rewrite (IHl t1 (Some a) _ _ stop (d + 1) u H1) by lia. rewrite Hup.
    replace (d =? 0) with false by (symmetry; apply Z.eqb_neq; lia). rewrite andb_false_r.
    destruct (visit traverse_func (visit_all (loose_pairs l) stop u).1 k v (visit_all (loose_pairs l) stop u).2) as [stop' u'].
    cbn [fst snd]. by rewrite (IHr t x _ f stop' d u' Hr Hd).
Qed.

Lemma loop_outside s : forall t rest f stop u,
  lies_threaded t s None rest ->
  loop (turns s + S f) (next s None) stop 0 u t = Some ((visit_all (loose_pairs s) stop u).2, t).
Proof.
  induction s as [|a p b l _ k v r IHr]; intros t rest f stop u Hl; [done|]. cbn [next loose_pairs].
  rewrite visit_all_app. cbn [visit_all turns].
  assert (lies_threaded t r None ((a, AVLNode (loose_root l) (next r None) k v p b) :: loose_cells l ++ rest)) as Hr.
  { eapply lies_threaded_perm; [exact Hl|]. cbn [threaded]. solve_Permutation. }
  destruct l as [|la lp lb ll lk lv lr] eqn:El.
  - replace (1 + turns LE + turns r + S f)%nat with (S (turns r + S f)) by (cbn [turns]; lia).
    rewrite (visit_step _ _ _ _ _ _ _ _ _ _ _ _ _ Hl). cbn [loose_pairs visit_all fst snd].
    destruct (visit traverse_func stop k v u) as [stop' u']. cbn [fst snd]. by rewrite (IHr t _ f stop' u' Hr).
  - rewrite <- El in *. destruct (thread_step _ _ _ _ _ _ _ _ _ _ Hl ltac:(by rewrite El)) as (t1 & n & H1 & Hdown & Hup).
    replace (2 + turns l + turns r + S f)%nat with (S (turns l + S (turns r + S f))) by lia. rewrite Hdown.
    replace (loose_root l) with (next l (Some a)) by by rewrite El.
    rewrite (loop_inside l t1 (Some a) _ _ stop (0 + 1) u H1) by lia. rewrite Hup.
    destruct (visit traverse_func (visit_all (loose_pairs l) stop u).1 k v (visit_all (loose_pairs l) stop u).2) as [stop' u'].
    cbn [fst snd]. destruct stop'; cbn [andb Z.eqb]; [by rewrite visit_all_stop|]. by rewrite (IHr t _ f false u' Hr).
Qed.

(** [p_tree_foreach] gives the pairs in order to the function until it says
    stop, and leaves the tree as it was. *)
Theorem p_tree_foreach_spec (t : ptree) (w : tree) u :
  lies t w -> p_tree_foreach traverse_func u t = Some ((visit_all (inorder w) false u).2, t).
Proof.
  intros [Hn Hd Hr]. unfold p_tree_foreach. rewrite bind_read_root, Hr.
  destruct w as [|a b l k v r] eqn:Ew; cbn [root_of]; [done|]. rewrite <- Ew in *.
  unfold steps. unfold mbind, TM_bind.
  replace (Some a) with (next (loosen None w) None) by by rewrite Ew.
  pose proof (turns_cells (loosen None w)) as H. rewrite loosen_cells in H.
  assert (size (t_nodes t) = length (cells None w)) as Hsz by (rewrite Hn; by apply map_size_list_to_map).
  replace (2 * S (size (t_nodes t)))%nat with (turns (loosen None w) + S (2 * S (size (t_nodes t)) - turns (loosen None w) - 1))%nat by lia.
  rewrite (loop_outside (loosen None w) t []), loosen_pairs; [done|].
  split; rewrite threaded_none, app_nil_r, loosen_cells; done.
Qed.
End Foreach.
