(* ===== verification/AvlTreeHeartbeat.v ===== *)
(** * The used keys of the heartbeat in an AVL tree

    [heartbeat.c] keeps the keys of a cycle in a tree of plibsys compared with
    [tc_string_compare], and looks up, inserts and clears.  [Heartbeat] has an
    association list in its place; here every sequence of these operations is
    shown to have the same answers on both. *)

From S2P Require Import Prelude Protocol Heartbeat AvlTree AvlTreeSpec AvlTreeInsert AvlTreeOps AvlTreeClear.
From stdpp Require Import sorting.

Local Open Scope Z_scope.

(** ** The order of [strncmp] *)

Lemma strncmp_opp n a b : strncmp n b a = - strncmp n a b.
Proof.
  revert a b. induction n as [|n IH]; intros a b; cbn [strncmp]; [done|].
  rewrite (Z.eqb_sym (hd0 b)). destruct (Z.eqb_spec (hd0 a) (hd0 b)) as [->|]; [|lia].
  destruct (hd0 b =? 0); [done|apply IH].
Qed.

Lemma strncmp_trans n a b c : strncmp n a b <= 0 -> strncmp n b c <= 0 -> strncmp n a c <= 0.
Proof.
  revert a b c. induction n as [|n IH]; intros a b c; cbn [strncmp]; [done|].
  destruct (Z.eqb_spec (hd0 a) (hd0 b)) as [->|]; [destruct (Z.eqb_spec (hd0 b) (hd0 c)) as [->|]|].
  - destruct (hd0 c =? 0); [done|apply IH].
  - by destruct (hd0 b =? 0).
  - intros H1. destruct (Z.eqb_spec (hd0 b) (hd0 c)) as [E|]; [rewrite E in *|]; intros H2;
      destruct (Z.eqb_spec (hd0 a) (hd0 c)); lia.
Qed.

#[export] Instance compare_ordering : Ordering tc_string_compare.
Proof.
  split; unfold tc_string_compare.
  - intros x. pose proof (strncmp_opp TC_PROTOCOL_MAX_STR_LEN x x). lia.
  - intros x y. rewrite (strncmp_opp _ x y). lia.
  - intros x y z. apply strncmp_trans.
Qed.

(** ** Lists of pairs in any order *)

Notation keys := (Heartbeat.tree).
Notation absent key := (Forall (fun x => tc_string_compare key x.1 <> 0)).

Lemma list_lookup_pair (l : keys) key : Heartbeat.p_tree_lookup l key = pair_lookup tc_string_compare l key.
Proof. induction l as [|[k v] l IH]; [done|]. cbn [Heartbeat.p_tree_lookup pair_lookup]. by rewrite IH. Qed.

Lemma list_lookup_none (l l' : keys) key : l ≡ₚ l' -> absent key l' -> Heartbeat.p_tree_lookup l key = None.
Proof. intros Hp Hl. rewrite list_lookup_pair. apply pair_lookup_none. by rewrite Hp. Qed.

(** The pair of a key is found and replaced wherever it is. *)
Lemma list_pair (l : keys) k v rest key value :
  l ≡ₚ (k, v) :: rest -> tc_string_compare key k = 0 -> absent key rest ->
  Heartbeat.p_tree_lookup l key = Some v /\ tree_replace l key value ≡ₚ (key, value) :: rest.
Proof.
  revert rest. induction l as [|[k' v'] l IH]; intros rest Hp Hk Hr; [by apply Permutation_nil_cons in Hp|].
  cbn [Heartbeat.p_tree_lookup tree_replace]. destruct (Z.eqb_spec (tc_string_compare key k') 0) as [E|E].
  - assert ((k', v') = (k, v)) as [= -> ->].
    { assert ((k', v') ∈ (k, v) :: rest) as [|Hin]%elem_of_cons by (rewrite <- Hp; by left); [done|].
      rewrite Forall_forall in Hr. by destruct (Hr _ Hin). }
    apply (inj _) in Hp. split; [done|]. by rewrite Hp.
  - assert ((k', v') ∈ rest) as Hin.
    { assert ((k', v') ∈ (k, v) :: rest) as [[= -> ->]|]%elem_of_cons by (rewrite <- Hp; by left); done. }
    apply elem_of_Permutation in Hin as [rest' Hrest]. rewrite Hrest in Hp, Hr |- *. rewrite Permutation_swap in Hp. apply (inj _) in Hp.
    apply Forall_cons in Hr as [_ Hr]. destruct (IH rest' Hp Hk Hr) as [-> ->]. split; [done|]. apply Permutation_swap.
Qed.

(** A key among sorted pairs is absent or has one pair. *)
Lemma sorted_find (l : keys) key :
  sorted tc_string_compare l ->
  absent key l \/ exists pre k v post, l = pre ++ (k, v) :: post /\ tc_string_compare key k = 0 /\ absent key (pre ++ post).
Proof.
  intros Hs. destruct (decide (absent key l)) as [|Hn]; [by left|right].
  apply not_Forall_Exists in Hn; [|intros ?; apply _]. apply Exists_exists in Hn as ([k v] & Hin & Hk). apply dec_stable in Hk. cbn in Hk.
  apply list_elem_of_split in Hin as (pre & post & ->). exists pre, k, v, post. split_and!; [done..|].
  apply fits_no_key; [apply _|]. eapply fits_same; [apply _|exact Hk|]. by eapply sorted_around.
Qed.

(** ** The operations in sequence *)

Inductive tree_op := OpLookup (key : list Z) | OpInsert (key : list Z) (value : nat) | OpClear.

Definition list_op (o : tree_op) (l : keys) (h : heap) : option nat * keys * heap :=
  match o with
  | OpLookup key => (Heartbeat.p_tree_lookup l key, l, h)
  | OpInsert key value => let '(l', h') := Heartbeat.p_tree_insert l key value h in (None, l', h')
  | OpClear => (None, [], h)
  end.

Fixpoint list_ops (os : list tree_op) (l : keys) (h : heap) : list (option nat) * keys * heap :=
  match os with
  | [] => ([], l, h)
  | o :: os' =>
      let '(x, l1, h1) := list_op o l h in
      let '(xs, l2, h2) := list_ops os' l1 h1 in (x :: xs, l2, h2)
  end.

Section Avl.
Variable place : gset nat -> nat.
Notation ptree := (PTree (list Z) nat).

Definition avl_op (o : tree_op) : TM (K := list Z) (V := nat) (option nat) :=
  match o with
  | OpLookup key => p_tree_lookup tc_string_compare key
  | OpInsert key value => _ ← p_tree_insert tc_string_compare place key value; mret None
  | OpClear => _ ← p_tree_clear; mret None
  end.

Fixpoint avl_ops (os : list tree_op) : TM (K := list Z) (V := nat) (list (option nat)) :=
  match os with
  | [] => mret []
  | o :: os' => x ← avl_op o; xs ← avl_ops os'; mret (x :: xs)
  end.

(** The tree holds the pairs of the list, and has the list's allocator. *)
Definition holds (t : ptree) (l : keys) (h : heap) : Prop :=
  exists w, search_tree tc_string_compare t w /\ inorder w ≡ₚ l /\ t_nnodes t = Z.of_nat (length l) /\ t_heap t = h.

Hypothesis place_fresh : forall X, place X ∉ X.

(** The keys an operation takes over: a key whose node cannot be allocated is
    neither in the tree nor destroyed. *)
Definition takes (o : tree_op) (l : keys) (h : heap) : list (list Z) :=
  match o with
  | OpInsert key _ =>
      match Heartbeat.p_tree_lookup l key with Some _ => [key] | None => if (p_malloc h).1 then [key] else [] end
  | _ => []
  end.

Lemma insert_step t l h key value :
  holds t l h ->
  exists t', p_tree_insert tc_string_compare place key value t = Some (tt, t') /\
    holds t' (Heartbeat.p_tree_insert l key value h).1 (Heartbeat.p_tree_insert l key value h).2 /\
    t_destroyed t' ++ (Heartbeat.p_tree_insert l key value h).1.*1 ≡ₚ t_destroyed t ++ l.*1 ++ takes (OpInsert key value) l h.
Proof using place_fresh.
  intros (w & Hw & Hp & Hn & <-).
  destruct (p_tree_insert_inserted tc_string_compare place place_fresh t w key value Hw) as (b & t' & w' & Et & Hw' & Hi & Hn').
  exists t'. split; [done|]. unfold takes, Heartbeat.p_tree_insert.
  destruct Hi as [pre post t' w' E1 Hf Em Eh Ed E2|pre post t' E1 Hf Em Eh Ed|pre k v post t' w' E1 Hf Hk Eh Ed E2]; cbn [Z.b2z] in Hn'.
  - pose proof (fits_no_key tc_string_compare _ _ _ Hf) as Ha. rewrite <- E1 in Ha. rewrite (list_lookup_none l (inorder w) key) by done.
    destruct (p_malloc (t_heap t)) as [ok h]. cbn in Em, Eh |- *. subst ok. cbn [fst snd fmap list_fmap].
    assert (inorder w' ≡ₚ (key, value) :: l) as Hp' by (rewrite E2, <- Hp, E1; solve_Permutation).
    split; [exists w'; split_and!; [done..|cbn [length]; lia|done]|]. rewrite Ed. solve_Permutation.
  - pose proof (fits_no_key tc_string_compare _ _ _ Hf) as Ha. rewrite <- E1 in Ha. rewrite (list_lookup_none l (inorder w) key) by done.
    destruct (p_malloc (t_heap t)) as [ok h]. cbn in Em, Eh |- *. subst ok. cbn [fst snd].
    split; [exists w; split_and!; [done..|lia|done]|]. by rewrite Ed, app_nil_r.
  - pose proof (fits_no_key tc_string_compare _ _ _ Hf) as Ha.
    assert (l ≡ₚ (k, v) :: (pre ++ post)) as Hl by (rewrite <- Hp, E1; solve_Permutation).
    destruct (list_pair l k v (pre ++ post) key value Hl Hk Ha) as [-> Hr]. cbn [fst snd].
    split; [exists w'; split_and!; [done|rewrite E2, Hr; solve_Permutation| |done]|].
    + rewrite Hr, Hn', Hn, Hl. cbn [length]. lia.
    + rewrite Ed, Hr, Hl. cbn [fmap list_fmap fst]. solve_Permutation.
Qed.

Lemma op_step o t l h :
  holds t l h ->
  exists t', avl_op o t = Some ((list_op o l h).1.1, t') /\ holds t' (list_op o l h).1.2 (list_op o l h).2 /\
    t_destroyed t' ++ (list_op o l h).1.2.*1 ≡ₚ t_destroyed t ++ l.*1 ++ takes o l h.
Proof using place_fresh.
  intros Hh. destruct o as [key|key value|]; cbn [avl_op list_op].
  - destruct Hh as (w & Hw & Hp & Hn & <-). exists t. cbn [fst snd takes]. rewrite app_nil_r.
    split; [|split; [by exists w|done]]. etransitivity; [exact (p_tree_lookup_pair tc_string_compare t w key Hw)|].
    do 2 f_equal. symmetry. destruct (sorted_find (inorder w) key (st_sorted _ _ _ Hw)) as [Ha|(pre & k & v & post & E & Hk & Ha)].
    + rewrite (list_lookup_none l (inorder w)) by done. symmetry. by apply pair_lookup_none.
    + assert (forall l', l' ≡ₚ inorder w -> Heartbeat.p_tree_lookup l' key = Some v) as H.
      { intros l' Hl'. apply (list_pair l' k v (pre ++ post) key v); [|done..]. rewrite Hl', E. solve_Permutation. }
      rewrite (H l) by done. rewrite <- list_lookup_pair. symmetry. by apply H.
  - destruct (insert_step t l h key value Hh) as (t' & Et & Ht & Hd). exists t'.
    destruct (Heartbeat.p_tree_insert l key value h) as [l' h']. unfold mbind, TM_bind. by rewrite Et.
  - destruct Hh as (w & Hw & Hp & Hn & <-). unfold mbind, TM_bind. rewrite (p_tree_clear_spec t w (st_lies _ _ _ Hw)).
    eexists. split; [done|]. cbn [fst snd takes t_destroyed fmap list_fmap]. split; [|by rewrite !app_nil_r, Hp].
    exists E. cbn [inorder length t_nnodes t_heap]. split_and!; [|done| |done].
    + split; [split; [done|constructor|done]|done|constructor].
    + rewrite Hn. apply Permutation_length in Hp. lia.
Qed.

Fixpoint taken (os : list tree_op) (l : keys) (h : heap) : list (list Z) :=
  match os with
  | [] => []
  | o :: os' => takes o l h ++ taken os' (list_op o l h).1.2 (list_op o l h).2
  end.

Lemma ops_step os : forall t l h,
  holds t l h ->
  exists t', avl_ops os t = Some ((list_ops os l h).1.1, t') /\ holds t' (list_ops os l h).1.2 (list_ops os l h).2 /\
    t_destroyed t' ++ (list_ops os l h).1.2.*1 ≡ₚ t_destroyed t ++ l.*1 ++ taken os l h.
Proof using place_fresh.
  induction os as [|o os IH]; intros t l h Hh; cbn [avl_ops list_ops taken].
  - exists t. cbn [fst snd]. by rewrite app_nil_r.
  - destruct (op_step o t l h Hh) as (t1 & E1 & H1 & D1). destruct (list_op o l h) as [[x l1] h1]. cbn [fst snd] in *.
    destruct (IH t1 l1 h1 H1) as (t2 & E2 & H2 & D2). destruct (list_ops os l1 h1) as [[xs l2] h2]. cbn [fst snd] in *.
    exists t2. split; [|split; [done|]].
    + unfold mbind, TM_bind. by rewrite E1, E2.
    + rewrite D2, app_assoc, D1. by rewrite <- !app_assoc.
Qed.

Lemma new_holds t h h' : p_tree_new_full h = (Some t, h') -> holds t [] h' /\ t_destroyed t = [].
Proof.
  unfold p_tree_new_full. destruct (p_malloc h) as [[] h1]; [|done]. intros [= <- <-]. split; [|done].
  exists E. split_and!; [|done..]. split; [split; [done|constructor|done]|done|constructor].
Qed.

(** Every sequence of lookups, insertions and clearings of a new tree runs and
    has the answers it has on the association list of [Heartbeat], with the same
    requests to the allocator. *)
Theorem avl_tree_refines os h t h' :
  p_tree_new_full h = (Some t, h') ->
  exists t', avl_ops os t = Some ((list_ops os [] h').1.1, t') /\
    holds t' (list_ops os [] h').1.2 (list_ops os [] h').2.
Proof using place_fresh.
  intros [Hh _]%new_holds. destruct (ops_step os t [] h' Hh) as (t' & E1 & H1 & _). by exists t'.
Qed.

(** C34. Releasing the tree after any sequence of lookups, insertions and
    clearings leaves no node, and has destroyed every key the tree took over
    exactly once. *)
Theorem avl_keys_destroyed os h t h' :
  p_tree_new_full h = (Some t, h') ->
  exists t' ds xs, avl_ops os t = Some (xs, t') /\ p_tree_free t' = Some (∅, ds) /\ ds ≡ₚ taken os [] h'.
Proof using place_fresh.
  intros [Hh Hd]%new_holds. destruct (ops_step os t [] h' Hh) as (t' & E1 & (w & Hw & Hp & _) & D).
  exists t', (t_destroyed t' ++ (inorder w).*1), (list_ops os [] h').1.1. split; [done|]. split.
  - unfold p_tree_free. by rewrite (p_tree_clear_spec t' w (st_lies _ _ _ Hw)).
  - rewrite Hp, D, Hd. done.
Qed.

(** ** The check of a key on the tree itself *)

Definition with_heap (h : heap) (t : ptree) : ptree := Tree (t_nodes t) (t_root t) (t_nnodes t) (t_destroyed t) h.

Lemma holds_with_heap t l h h' : holds t l h -> holds (with_heap h' t) l h'.
Proof. intros (w & [[] ? ?] & Hp & Hn & _). exists w. by split_and!. Qed.

Context {md5 : Md5}.

Fixpoint avl_validate_loop (services : list tc_heartbeat_service) (i : nat) (username key : list Z) (t : ptree) (h : heap) :
    option (option nat * ptree * heap) :=
  match services with
  | [] => Some (None, t, h)
  | service :: services' =>
      if dummy_service service then Some (Some i, t, h)
      else
        let '(ok, h1) := p_malloc h in                       (* p_crypto_hash_new *)
        if negb ok then avl_validate_loop services' (S i) username key t h1
        else
          let '(ok, h2) := p_malloc h1 in                    (* p_crypto_hash_get_string *)
          if negb ok then avl_validate_loop services' (S i) username key t h2
          else
            let username_len := strnlen username TC_PROTOCOL_MAX_STR_LEN in
            let hex := md5_hex (take TC_HEARTBEAT_SALT_LENGTH (current_salt service) ++ take username_len username) in
            let hex_len := strlen hex in
            if strncmp hex_len key hex =? 0 then
              match p_tree_insert tc_string_compare place hex i (with_heap h2 t) with
              | Some (_, t') => Some (Some i, t', t_heap t')
              | None => None
              end
            else avl_validate_loop services' (S i) username key t h2
  end.

Definition avl_validate (services : list tc_heartbeat_service) (t : ptree) (username key : list Z) (h : heap) :
    option (option nat * ptree * heap) :=
  match p_tree_lookup tc_string_compare key t with
  | None => None
  | Some (Some _, t') => Some (None, t', h)
  | Some (None, t') => avl_validate_loop services 0 username key t' h
  end.

Lemma avl_validate_loop_refines services : forall i u k t l h h0,
  holds t l h0 ->
  exists t', avl_validate_loop services i u k t h = Some ((validate_loop services i u k l h).1.1, t', (validate_loop services i u k l h).2) /\
    exists h1, holds t' (validate_loop services i u k l h).1.2 h1.
Proof using place_fresh.
  induction services as [|s services IH]; intros i u k t l h h0 Ht; cbn [avl_validate_loop validate_loop]; [by eauto|].
  destruct (dummy_service s); [by eauto|].
  destruct (p_malloc h) as [[] h1]; [|by eapply IH]. cbn [negb]. destruct (p_malloc h1) as [[] h2]; [|by eapply IH]. cbn [negb].
  set (hex := md5_hex _). destruct (strncmp (strlen hex) k hex =? 0); [|by eapply IH].
  destruct (insert_step _ l h2 hex i (holds_with_heap _ _ _ h2 Ht)) as (t' & -> & Ht' & _).
  destruct (Heartbeat.p_tree_insert l hex i h2) as [l' h3]. cbn [fst snd] in *. exists t'. split; [|by eauto].
  destruct Ht' as (w & _ & _ & _ & ->). done.
Qed.

(** On the tree of plibsys [tc_heartbeat_manager_validate] accepts and refuses
    what it does on the association list, asks the allocator for the same, and
    leaves the same keys. *)
Theorem avl_validate_refines (m : tc_heartbeat_manager) t u k h h0 :
  holds t (auth_tree m) h0 ->
  let '(r, m', h') := tc_heartbeat_manager_validate m u k h in
  exists t' h1, avl_validate (hm_services m) t u k h = Some (r, t', h') /\ holds t' (auth_tree m') h1.
Proof using place_fresh.
  intros Ht. unfold tc_heartbeat_manager_validate, avl_validate.
  destruct (op_step (OpLookup k) t (auth_tree m) h0 Ht) as (t' & E1 & H1 & _). cbn [avl_op list_op fst snd] in E1, H1. rewrite E1.
  destruct (Heartbeat.p_tree_lookup (auth_tree m) k); [by eauto|].
  destruct (avl_validate_loop_refines (hm_services m) 0 u k t' (auth_tree m) h h0 H1) as (t2 & E2 & h1 & H2).
  destruct (validate_loop (hm_services m) 0 u k (auth_tree m) h) as [[r l] h']. by eauto.
Qed.

(** ** Runs of the manager *)

(** Logins, and rounds of the worker, each with the number of players. *)
Inductive event := Login (username key : list Z) | Round (active_players : Z).

Context {curl : Curl}.

Fixpoint list_events (es : list event) (m : tc_heartbeat_manager) (r : rng) (h : heap) : list (option nat) :=
  match es with
  | [] => []
  | Login u k :: es' => let '(x, m', h') := tc_heartbeat_manager_validate m u k h in x :: list_events es' m' r h'
  | Round n :: es' => let '(m', r', h') := heartbeat_worker m n r h in None :: list_events es' m' r' h'
  end.

Fixpoint avl_events (es : list event) (info : tc_heartbeat_info) (services : list tc_heartbeat_service) (t : ptree) (r : rng) (h : heap) :
    option (list (option nat) * ptree) :=
  match es with
  | [] => Some ([], t)
  | Login u k :: es' =>
      match avl_validate services t u k h with
      | Some (x, t', h') => match avl_events es' info services t' r h' with Some (xs, t2) => Some (x :: xs, t2) | None => None end
      | None => None
      end
  | Round n :: es' =>
      let '(services', r', h') := worker_services services n info r h in
      match p_tree_clear t with
      | Some (_, t') => match avl_events es' info services' t' r' h' with Some (xs, t2) => Some (None :: xs, t2) | None => None end
      | None => None
      end
  end.

Lemma validate_services (m m' : tc_heartbeat_manager) u k h x h' :
  tc_heartbeat_manager_validate m u k h = (x, m', h') -> hm_services m' = hm_services m /\ hm_info m' = hm_info m.
Proof.
  unfold tc_heartbeat_manager_validate. destruct (Heartbeat.p_tree_lookup _ _); [by intros [= _ <- _]|].
  destruct (validate_loop _ _ _ _ _ _) as [[? ?] ?]. by intros [= _ <- _].
Qed.

(** C32. A run of the manager, of logins and rounds of the worker, with its keys in
    the AVL tree of plibsys gives the answers it gives with the association list,
    never uses a node that is not there, and leaves a tree that is released
    completely. *)
Theorem avl_events_refine es : forall (m : tc_heartbeat_manager) t r h h0,
  holds t (auth_tree m) h0 ->
  exists t' ds, avl_events es (hm_info m) (hm_services m) t r h = Some (list_events es m r h, t') /\ p_tree_free t' = Some (∅, ds).
Proof using place_fresh.
  induction es as [|[u k|n] es IH]; intros m t r h h0 Ht; cbn [avl_events list_events].
  - destruct Ht as (w & Hw & _). exists t, (t_destroyed t ++ (inorder w).*1). split; [done|].
    unfold p_tree_free. by rewrite (p_tree_clear_spec t w (st_lies _ _ _ Hw)).
  - pose proof (avl_validate_refines m t u k h h0 Ht) as H. destruct (tc_heartbeat_manager_validate m u k h) as [[x m'] h'] eqn:E.
    destruct H as (t1 & h1 & -> & H1). apply validate_services in E as [<- <-].
    destruct (IH m' t1 r h' h1 H1) as (t' & ds & -> & Hf). by exists t', ds.
  - destruct (op_step OpClear t (auth_tree m) h0 Ht) as (t1 & E1 & H1 & _). cbn [avl_op list_op fst snd] in E1, H1.
    unfold heartbeat_worker. destruct (worker_services (hm_services m) n (hm_info m) r h) as [[services r'] h'].
    unfold mbind, TM_bind in E1. destruct (p_tree_clear t) as [[[] t2]|]; [|done]. injection E1 as <-.
    destruct (IH (HeartbeatManager (hm_info m) services [] (hm_shutdown m) (hm_started m)) t2 r' h' h0 H1) as (t' & ds & E2 & Hf).
    cbn [hm_info hm_services] in E2. rewrite E2. by exists t', ds.
Qed.
End Avl.
