(* ===== verification/AvlTreeExample.v ===== *)
(** * Search trees the theorems apply to

    Small trees on which the theorems on insertion, lookup and release are
    applied, and runs of the functions that rotate. *)

From S2P Require Import Prelude Heartbeat HeartbeatProps AvlTree AvlTreeSpec AvlTreeInsert AvlTreeOps AvlTreeClear AvlTreeRemove AvlTreeForeach AvlTreeHeartbeat.
From stdpp Require Import sorting.

Local Open Scope Z_scope.

(** Nodes are placed at the least free number. *)
Definition next_place (X : gset nat) : nat := fresh X.

Lemma next_place_fresh X : next_place X ∉ X.
Proof. apply is_fresh. Qed.

(** ** Numbers as keys *)

#[export] Instance sub_ordering : Ordering Z.sub.
Proof. split; lia. Qed.

Definition new_tree {K V} : PTree K V := Tree ∅ None 0 [] ample_heap.

Definition insert_all (ks : list Z) : TM (K := Z) (V := Z) unit :=
  foldr (fun k rest => _ ← p_tree_insert Z.sub next_place k (10 * k); rest) (mret tt) ks.

(** The keys of the root and its children, with their balance factors. *)
Definition shape (t : PTree Z Z) : option (list (Z * Z)) :=
  match get (t_root t) t with
  | Some (n, _) =>
      match get (n_left n) t, get (n_right n) t with
      | Some (l, _), Some (r, _) => Some [(n_key l, n_balance l); (n_key n, n_balance n); (n_key r, n_balance r)]
      | _, _ => None
      end
  | None => None
  end.

(** Each of the four rotations, and all of them in a longer run. *)
Example rotations :
  map (fun ks => match insert_all ks new_tree with Some (_, t) => shape t | None => None end)
    [[1; 2; 3]; [3; 2; 1]; [3; 1; 2]; [1; 3; 2]; [5; 2; 7; 1; 4; 3; 6; 8; 9; 0]] =
  [Some [(1, 0); (2, 0); (3, 0)]; Some [(1, 0); (2, 0); (3, 0)]; Some [(1, 0); (2, 0); (3, 0)]; Some [(1, 0); (2, 0); (3, 0)];
   Some [(2, 1); (4, 0); (6, -1)]].
Proof. vm_compute. reflexivity. Qed.

Lemma new_search_tree {K V} (cmp : K -> K -> Z) : search_tree cmp (new_tree (V := V)) E.
Proof. split; [split; [done|constructor|done]|done|constructor]. Qed.

(** Two pairs, the second below the first. *)
Definition two : tree (K := Z) (V := Z) := T 0 (-1) E 1 10 (T 1 0 E 3 30 E).
Definition two_tree : PTree Z Z := Tree (list_to_map (cells None two)) (Some 0%nat) 2 [] ample_heap.

Lemma two_search_tree : search_tree Z.sub two_tree two.
Proof.
  split; [split; [done|by apply (bool_decide_unpack _)|done]|cbn; lia|].
  repeat constructor; cbn; lia.
Qed.

(** Inserting between them takes a double rotation. *)
Lemma p_tree_insert_lookup_witness :
  exists t', p_tree_insert Z.sub next_place 2 20 two_tree = Some (tt, t') /\
    p_tree_lookup Z.sub 2 t' = Some (Some 20, t') /\ p_tree_lookup Z.sub 3 t' = Some (Some 30, t').
Proof.
  destruct (p_tree_insert_lookup Z.sub next_place next_place_fresh two_tree two 2 20 two_search_tree eq_refl)
    as (t' & w' & Et & _ & H).
  exists t'. split; [exact Et|]. split.
  - destruct (H 2) as (r & _ & E2). exact E2.
  - destruct (H 3) as (r & E1 & E2). assert (r = Some 30) as -> by (vm_compute in E1; congruence). exact E2.
Defined.

(** Removing the key above takes up the node below. *)
Lemma p_tree_remove_removed_witness :
  exists t' w', p_tree_remove Z.sub 1 two_tree = Some (true, t') /\ search_tree Z.sub t' w' /\ inorder w' = [(3, 30)].
Proof.
  destruct (p_tree_remove_removed Z.sub two_tree two 1 two_search_tree) as (b & t' & w' & Et & Hw & Hr & _).
  exists t', w'. assert (b = true) as -> by (vm_compute in Et; congruence). split; [exact Et|]. split; [exact Hw|].
  inversion Hr as [|pre k v post k' t2 w2 E1 Hk E2]; subst. rewrite E2. cbn in E1.
  destruct pre as [|x [|y pre]]; [by injection E1 as <- <- <-|injection E1 as <- <- <- <-; lia|].
  injection E1 as <- <- E1. by apply app_cons_not_nil in E1.
Defined.

(** Removing a node with two children destroys the key of its predecessor,
    which stays in the tree, and loses its own. *)
Example predecessor_destroyed :
  match insert_all [2; 1; 3] new_tree with
  | Some (_, t) =>
      match p_tree_remove Z.sub 2 t with
      | Some (b, t') => Some (b, t_destroyed t', map (fun p => n_key p.2) (map_to_list (t_nodes t')))
      | None => None
      end
  | None => None
  end = Some (true, [1], [3; 1]).
Proof. vm_compute. reflexivity. Qed.

Definition links (t : PTree Z Z) : list (nat * option nat * option nat) :=
  map (fun p => (p.1, n_left p.2, n_right p.2)) (map_to_list (t_nodes t)).

(** A traversal that collects the keys and stops at 4, in the tree it leaves. *)
Example keys_up_to_four :
  match insert_all [5; 2; 7; 1; 4; 3; 6] new_tree with
  | Some (_, t) =>
      match p_tree_foreach (fun k (_ : Z) seen => (k =? 4, seen ++ [k])) [] t with
      | Some (seen, t') => Some (seen, bool_decide (links t' = links t))
      | None => None
      end
  | None => None
  end = Some ([1; 2; 3; 4], true).
Proof. vm_compute. reflexivity. Qed.

(** ** The heartbeat's keys *)

Lemma avl_keys_destroyed_witness :
  exists t' ds xs,
    avl_ops next_place [OpInsert (cstr "b") 0; OpInsert (cstr "a") 1; OpInsert (cstr "b") 2; OpClear; OpInsert (cstr "b") 3]
      (Tree ∅ None 0 [] (p_malloc ample_heap).2) = Some (xs, t') /\
    p_tree_free t' = Some (∅, ds) /\ ds ≡ₚ [cstr "b"; cstr "a"; cstr "b"; cstr "b"].
Proof.
  exact (avl_keys_destroyed next_place next_place_fresh
    [OpInsert (cstr "b") 0; OpInsert (cstr "a") 1; OpInsert (cstr "b") 2; OpClear; OpInsert (cstr "b") 3]
    ample_heap _ _ eq_refl).
Defined.

(** The second login with a key is refused, and after a round the key is one of
    an old salt. *)
Lemma avl_events_refine_witness :
  exists t' ds,
    @avl_events next_place toy_md5 silent_curl
      [Login (cstr "ann") sample_key; Login (cstr "ann") sample_key; Round 3; Login (cstr "ann") (cstr "0")]
      sample_info (hm_services sample_manager) new_tree (Rng Z.of_nat 0) ample_heap =
      Some ([Some 1%nat; None; None; None], t') /\
    p_tree_free t' = Some (∅, ds).
Proof.
  destruct (@avl_events_refine next_place next_place_fresh toy_md5 silent_curl
    [Login (cstr "ann") sample_key; Login (cstr "ann") sample_key; Round 3; Login (cstr "ann") (cstr "0")]
    sample_manager new_tree (Rng Z.of_nat 0) ample_heap ample_heap) as (t' & ds & E1 & E2).
  { exists E. split; [apply new_search_tree|]. done. }
  exists t', ds. split; [|exact E2]. etransitivity; [exact E1|]. by do 2 f_equal.
Defined.
