(* ===== verification/Log.v ===== *)
(** * Logging

    [src/src/log.c]: the table of callbacks and the lines [log_log] writes.

    A log function is [file_callback], or one of the user's by number; streams
    are numbers.  What [log_log] does to the world is the list of its effects,
    in order: calls of the lock function, writes and calls of the user's
    functions.  The message is its text, as [vfprintf] prints it. *)

From S2P Require Import Prelude Socket Protocol Heartbeat.

Local Open Scope Z_scope.

Definition MAX_CALLBACKS : nat := 32.

(** The levels, in their order. *)
Definition LOG_TRACE : Z := 0.
Definition LOG_INFO : Z := 2.
Definition LOG_FATAL : Z := 5.

Definition level_strings : list string := ["TRACE"; "DEBUG"; "INFO"; "WARN"; "ERROR"; "FATAL"]%string.

Inductive log_LogFn := file_callback_fn | user_fn (n : nat).

(** [tm] is the time as [strftime] prints it, without and with the date. *)
Record tm := Tm { tm_clock : list Z; tm_date : list Z }.

Record log_Event := Event {
  ev_text : list Z;
  ev_file : list Z;
  ev_time : option tm;
  ev_udata : nat;
  ev_line : Z;
  ev_level : Z }.

(** [cb_fn] is [None] for [NULL]. *)
Record Callback := MkCallback { cb_fn : option log_LogFn; cb_udata : nat; cb_level : Z }.

(** The static struct [L]; static storage starts as zeros. *)
Record logger := Logger {
  l_lock : option nat;
  l_udata : nat;
  l_level : Z;
  l_quiet : bool;
  l_callbacks : list Callback }.

Definition no_callback : Callback := MkCallback None 0 0.
Definition initial_logger : logger := Logger None 0 0 false (replicate MAX_CALLBACKS no_callback).

Definition log_set_lock (fn : option nat) (udata : nat) (l : logger) : logger :=
  Logger fn udata (l_level l) (l_quiet l) (l_callbacks l).
Definition log_set_level (level : Z) (l : logger) : logger :=
  Logger (l_lock l) (l_udata l) level (l_quiet l) (l_callbacks l).
Definition log_set_quiet (enable : bool) (l : logger) : logger :=
  Logger (l_lock l) (l_udata l) (l_level l) enable (l_callbacks l).

(** The loop of [log_add_callback] over the table: -1 when every slot is taken. *)
Fixpoint add_callback_loop (cb : Callback) (table : list Callback) : Z * list Callback :=
  match table with
  | [] => (-1, [])
  | slot :: table' =>
      match cb_fn slot with
      | None => (0, cb :: table')
      | Some _ => let '(r, table'') := add_callback_loop cb table' in (r, slot :: table'')
      end
  end.

Definition log_add_callback (fn : option log_LogFn) (udata : nat) (level : Z) (l : logger) : Z * logger :=
  let '(r, table) := add_callback_loop (MkCallback fn udata level) (l_callbacks l) in
  (r, Logger (l_lock l) (l_udata l) (l_level l) (l_quiet l) table).

Definition log_add_fp (fp : nat) (level : Z) (l : logger) : Z * logger := log_add_callback (Some file_callback_fn) fp level l.

(** ** Writing *)

Inductive log_effect :=
| LockCall (fn : nat) (acquire : bool) (udata : nat)
| Write (stream : nat) (text : list Z)
| UserCall (n : nat) (ev : log_Event).

(** Indexing [level_strings] outside the array is [None]. *)
Definition log_level_string (level : Z) : option (list Z) :=
  if level <? 0 then None else cstr <$> level_strings !! Z.to_nat level.

(** [%-5s] *)
Definition pad5 (s : list Z) : list Z := s ++ replicate (5 - length s) 32.

(** ["%s %-5s %s:%d: "], the message and the end of the line. *)
Definition line_text (stamp level : list Z) (ev : log_Event) : list Z :=
  stamp ++ [32] ++ pad5 level ++ [32] ++ ev_file ev ++ [58] ++ dec (ev_line ev) ++ [58; 32] ++ ev_text ev ++ [10].

(** The variant without colours. *)
Definition stdout_callback (ev : log_Event) : option (list log_effect) :=
  t ← ev_time ev; s ← log_level_string (ev_level ev); Some [Write (ev_udata ev) (line_text (tm_clock t) s ev)].

Definition file_callback (ev : log_Event) : option (list log_effect) :=
  t ← ev_time ev; s ← log_level_string (ev_level ev); Some [Write (ev_udata ev) (line_text (tm_date t) s ev)].

Definition call_fn (fn : log_LogFn) (ev : log_Event) : option (list log_effect) :=
  match fn with file_callback_fn => file_callback ev | user_fn n => Some [UserCall n ev] end.

Definition lock (l : logger) : list log_effect :=
  match l_lock l with Some fn => [LockCall fn true (l_udata l)] | None => [] end.
Definition unlock (l : logger) : list log_effect :=
  match l_lock l with Some fn => [LockCall fn false (l_udata l)] | None => [] end.

(** The time is taken once, by the first function that needs it. *)
Definition init_event (now : option tm) (udata : nat) (ev : log_Event) : log_Event :=
  Event (ev_text ev) (ev_file ev) (match ev_time ev with Some t => Some t | None => now end) udata (ev_line ev) (ev_level ev).

(** The loop over the callbacks, up to the first free slot. *)
Fixpoint callbacks_loop (now : option tm) (table : list Callback) (ev : log_Event) : option (list log_effect) :=
  match table with
  | [] => Some []
  | cb :: table' =>
      match cb_fn cb with
      | None => Some []
      | Some fn =>
          if cb_level cb <=? ev_level ev then
            let ev := init_event now (cb_udata cb) ev in
            es ← call_fn fn ev; rest ← callbacks_loop now table' ev; Some (es ++ rest)
          else callbacks_loop now table' ev
      end
  end.

Definition stderr : nat := 2.

(** [None] is an access outside [level_strings], or through the [NULL] of a
    [localtime] that failed. *)
Definition log_log (now : option tm) (level : Z) (file : list Z) (line : Z) (text : list Z) (l : logger) :
    option (list log_effect) :=
  let ev := Event text file None 0 line level in
  let loud := negb (l_quiet l) && (l_level l <=? level) in
  let ev1 := if loud then init_event now stderr ev else ev in
  first ← (if loud then stdout_callback ev1 else Some []);
  rest ← callbacks_loop now (l_callbacks l) ev1;
  Some (lock l ++ first ++ rest ++ unlock l).

(** ** What a message does *)

(** A table filled from the front. *)
Definition registered (cbs : list Callback) (l : logger) : Prop :=
  Forall (fun cb => is_Some (cb_fn cb)) cbs /\ (length cbs <= MAX_CALLBACKS)%nat /\
  l_callbacks l = cbs ++ replicate (MAX_CALLBACKS - length cbs) no_callback.

Lemma add_callback_loop_app cb cbs free :
  Forall (fun cb => is_Some (cb_fn cb)) cbs ->
  add_callback_loop cb (cbs ++ free) = let '(r, table) := add_callback_loop cb free in (r, cbs ++ table).
Proof.
  intros H. induction H as [|x cbs [fn Hx] _ IH]; cbn; [by destruct (add_callback_loop cb free)|].
  rewrite Hx, IH. by destruct (add_callback_loop cb free).
Qed.

(** Registering appends, until the table is full. *)
Lemma add_callback_spec fn udata level cbs l :
  registered cbs l ->
  exists l', log_add_callback (Some fn) udata level l = (if (length cbs <? MAX_CALLBACKS)%nat then 0 else -1, l') /\
    registered (if (length cbs <? MAX_CALLBACKS)%nat then cbs ++ [MkCallback (Some fn) udata level] else cbs) l'.
Proof.
  intros (Hs & Hl & Ht). unfold log_add_callback. rewrite Ht, add_callback_loop_app by done.
  destruct (Nat.ltb_spec (length cbs) MAX_CALLBACKS) as [Hlt|Hge].
  - destruct (MAX_CALLBACKS - length cbs)%nat as [|k] eqn:Hk; [lia|]. cbn. eexists. split; [done|]. split_and!.
    + apply Forall_app; split; [done|]. apply Forall_singleton. by eexists.
    + rewrite length_app. cbn. lia.
    + cbn [l_callbacks]. rewrite length_app. cbn [length].
      replace (MAX_CALLBACKS - (length cbs + 1))%nat with k by lia. by rewrite <- app_assoc.
  - replace (MAX_CALLBACKS - length cbs)%nat with 0%nat by lia. cbn. eexists. split; [done|]. split_and!; [done..|].
    cbn [l_callbacks]. by replace (MAX_CALLBACKS - length cbs)%nat with 0%nat by lia.
Qed.

(** What one callback gets of a message. *)
Definition delivery (t : tm) (s : list Z) (ev : log_Event) (cb : Callback) : list log_effect :=
  if cb_level cb <=? ev_level ev then
    match cb_fn cb with
    | Some file_callback_fn => [Write (cb_udata cb) (line_text (tm_date t) s ev)]
    | Some (user_fn n) => [UserCall n (init_event (Some t) (cb_udata cb) ev)]
    | None => []
    end
  else [].

Lemma callbacks_loop_spec t s cbs k ev :
  Forall (fun cb => is_Some (cb_fn cb)) cbs -> log_level_string (ev_level ev) = Some s -> (ev_time ev = None \/ ev_time ev = Some t) ->
  callbacks_loop (Some t) (cbs ++ replicate k no_callback) ev = Some (concat (map (delivery t s ev) cbs)).
Proof.
  intros H Hs Ht. revert ev Hs Ht. induction H as [|cb cbs [fn Hfn] _ IH]; intros ev Hs Ht; cbn; [by destruct k|].
  unfold delivery at 1. rewrite Hfn. destruct (cb_level cb <=? ev_level ev); [|by apply IH].
  rewrite (IH (init_event (Some t) (cb_udata cb) ev)); [|done | right; cbn; by destruct Ht as [-> | ->]].
  assert (concat (map (delivery t s (init_event (Some t) (cb_udata cb) ev)) cbs) = concat (map (delivery t s ev) cbs)) as ->.
  { f_equal. apply map_ext. intros x. unfold delivery. cbn. destruct (_ <=? _); [|done]. destruct (cb_fn x) as [[]|]; [done| |done].
    unfold init_event. cbn. do 3 f_equal. by destruct Ht as [-> | ->]. }
  destruct fn; cbn; [|done]. unfold file_callback. cbn. rewrite Hs. by destruct Ht as [-> | ->].
Qed.

(** A message of a valid level is written to [stderr] exactly when the log is
    not quiet and the level is at least the one that is set, and goes to
    exactly the registered callbacks with a level not above it, in the order
    of their registration, each a whole line; the lock is taken before and
    released after. *)
Theorem log_delivery now level file line text cbs l s (ev := Event text file None 0 line level) :
  registered cbs l -> log_level_string level = Some s ->
  log_log (Some now) level file line text l
  = Some (lock l
          ++ (if negb (l_quiet l) && (l_level l <=? level) then [Write stderr (line_text (tm_clock now) s ev)] else [])
          ++ concat (map (delivery now s ev) cbs) ++ unlock l).
Proof.
  intros (Hr & _ & Ht) Hs. unfold log_log. rewrite Ht. fold ev. destruct (negb (l_quiet l) && (l_level l <=? level)).
  - rewrite (callbacks_loop_spec now s) by (done || by right). unfold stdout_callback. cbn. rewrite Hs. cbn.
    reflexivity.
  - rewrite (callbacks_loop_spec now s) by (done || by left). done.
Qed.

(** The log file of the program, at level INFO. *)
Lemma log_delivery_witness :
  log_log (Some (Tm (cstr "12:00:00") (cstr "2026-01-01 12:00:00"))) LOG_INFO (cstr "main.c") 210 (cstr "Initializing...")
    (log_add_fp 7 LOG_INFO initial_logger).2
  = Some [Write 2 (cstr "12:00:00 INFO  main.c:210: Initializing..." ++ [10]);
          Write 7 (cstr "2026-01-01 12:00:00 INFO  main.c:210: Initializing..." ++ [10])].
Proof.
  etrans; [apply (log_delivery (Tm (cstr "12:00:00") (cstr "2026-01-01 12:00:00")) LOG_INFO (cstr "main.c") 210 (cstr "Initializing...")
             [MkCallback (Some file_callback_fn) 7 LOG_INFO] (log_add_fp 7 LOG_INFO initial_logger).2 (cstr "INFO")) | reflexivity].
  - split; [apply Forall_singleton; eexists; reflexivity|]. split; [apply Nat.leb_le; reflexivity | reflexivity].
  - reflexivity.
Defined.
