(* ===== verification/Blocks.v ===== *)
(** * Block ids

    [src/include/TeleClassic26/gameplay/blocks.h]: the numbers of the blocks of
    Minecraft Classic and of the first level of custom blocks.  No function of
    the program uses them. *)

From S2P Require Import Prelude.

Local Open Scope Z_scope.

(** [TELECLASSIC26_BLOCK_...] *)
Inductive classic_block : Set :=
  | AIR | STONE | GRASS | DIRT | COBBLESTONE | WOOD | SHRUB | BEDROCK | WATER | WATER_STILL | LAVA
  | LAVA_STILL | SAND | GRAVEL | GOLD_ORE | IRON_ORE | COAL | TRUNK | LEAF | SPONGE | GLASS | RED | ORANGE
  | YELLOW | LIGHT_GREEN | GREEN | AQUA_GREEN | CYAN | LIGHT_BLUE | BLUE | PURPLE | LIGHT_PURPLE | PINK
  | DARK_PINK | DARK_GREY | LIGHT_GREY | WHITE | YELLOW_FLOWER | RED_FLOWER | MUSHROOM | RED_MUSHROOM
  | GOLD_SOLID | IRON_SOLID | STAIRS_FULL | STAIRS_STEP | BRICK | TNT | BOOK_CASE | MOSSY_COBBLE | OBSIDIAN.

(** [TELECLASSIC26_CPE_BLOCK_...] *)
Inductive custom_block : Set :=
  | COBBLESTONE_SLAB | ROPE | SANDSTONE | SNOW | FIRE | LIGHT_PINK | FOREST_GREEN | BROWN_WOOL | DEEP_BLUE
  | TURQUOISE | ICE | CERAMIC_TILE | MAGMA | PILLAR | CRATE | STONE_BRICK.

#[export] Instance classic_block_dec : EqDecision classic_block.
Proof. solve_decision. Defined.
#[export] Instance custom_block_dec : EqDecision custom_block.
Proof. solve_decision. Defined.

Definition classic_id (b : classic_block) : Z :=
  match b with
  | AIR => 0 | STONE => 1 | GRASS => 2 | DIRT => 3 | COBBLESTONE => 4 | WOOD => 5 | SHRUB => 6 | BEDROCK => 7
  | WATER => 8 | WATER_STILL => 9 | LAVA => 10 | LAVA_STILL => 11 | SAND => 12 | GRAVEL => 13
  | GOLD_ORE => 14 | IRON_ORE => 15 | COAL => 16 | TRUNK => 17 | LEAF => 18 | SPONGE => 19 | GLASS => 20
  | RED => 21 | ORANGE => 22 | YELLOW => 23 | LIGHT_GREEN => 24 | GREEN => 25 | AQUA_GREEN => 26 | CYAN => 27
  | LIGHT_BLUE => 28 | BLUE => 29 | PURPLE => 30 | LIGHT_PURPLE => 31 | PINK => 32 | DARK_PINK => 33
  | DARK_GREY => 34 | LIGHT_GREY => 35 | WHITE => 36 | YELLOW_FLOWER => 37 | RED_FLOWER => 38
  | MUSHROOM => 39 | RED_MUSHROOM => 40 | GOLD_SOLID => 41 | IRON_SOLID => 42 | STAIRS_FULL => 43
  | STAIRS_STEP => 44 | BRICK => 45 | TNT => 46 | BOOK_CASE => 47 | MOSSY_COBBLE => 48 | OBSIDIAN => 49
  end.

Definition custom_id (b : custom_block) : Z :=
  match b with
  | COBBLESTONE_SLAB => 50 | ROPE => 51 | SANDSTONE => 52 | SNOW => 53 | FIRE => 54 | LIGHT_PINK => 55
  | FOREST_GREEN => 56 | BROWN_WOOL => 58 | DEEP_BLUE => 58 | TURQUOISE => 59 | ICE => 60
  | CERAMIC_TILE => 61 | MAGMA => 62 | PILLAR => 63 | CRATE => 64 | STONE_BRICK => 65
  end.

(** The blocks in the order of the header. *)
Definition classic_blocks : list classic_block :=
  [AIR; STONE; GRASS; DIRT; COBBLESTONE; WOOD; SHRUB; BEDROCK; WATER; WATER_STILL; LAVA; LAVA_STILL; SAND;
  GRAVEL; GOLD_ORE; IRON_ORE; COAL; TRUNK; LEAF; SPONGE; GLASS; RED; ORANGE; YELLOW; LIGHT_GREEN; GREEN;
  AQUA_GREEN; CYAN; LIGHT_BLUE; BLUE; PURPLE; LIGHT_PURPLE; PINK; DARK_PINK; DARK_GREY; LIGHT_GREY; WHITE;
  YELLOW_FLOWER; RED_FLOWER; MUSHROOM; RED_MUSHROOM; GOLD_SOLID; IRON_SOLID; STAIRS_FULL; STAIRS_STEP; BRICK;
  TNT; BOOK_CASE; MOSSY_COBBLE; OBSIDIAN].
Definition custom_blocks : list custom_block :=
  [COBBLESTONE_SLAB; ROPE; SANDSTONE; SNOW; FIRE; LIGHT_PINK; FOREST_GREEN; BROWN_WOOL; DEEP_BLUE; TURQUOISE;
  ICE; CERAMIC_TILE; MAGMA; PILLAR; CRATE; STONE_BRICK].

(** The classic blocks are numbered in order from 0 on. *)
Theorem classic_ids : map classic_id classic_blocks = map Z.of_nat (seq 0 50) /\ forall b, b ∈ classic_blocks.
Proof.
  split; [reflexivity|]. intros b. apply (bool_decide_unpack _). by destruct b.
Qed.

(** The custom blocks follow them, but for brown wool, which has the number of
    the deep blue one: 57 is nobody's. *)
Theorem custom_ids :
  (forall b, b ∈ custom_blocks) /\
  (forall b, 50 <= custom_id b <= 65 /\ custom_id b <> 57) /\
  (forall b b', custom_id b = custom_id b' -> b = b' \/ (custom_id b = 58 /\ custom_id b' = 58)) /\
  custom_id BROWN_WOOL = custom_id DEEP_BLUE.
Proof.
  split_and!; [|intros b; destruct b; cbn; lia| |reflexivity].
  - intros b. apply (bool_decide_unpack _). by destruct b.
  - intros b b'. destruct b, b'; cbn; intros H; try discriminate H; auto.
Qed.
