(* ===== verification/Objects.v ===== *)
(** * Tasks and the objects they hand around

    The functions the server gives to the thread pool, what their arguments
    point to, and the objects that live on the heap between tasks: the entries
    of the map cache ([map_cache.h]) and the state of a map on its way to a
    client ([api.c]).

    Objects are kept in stores, finite maps from locations; a freed object is
    no longer in its store, so that an access through a dangling pointer finds
    nothing. *)

From stdpp Require Export gmap.
From S2P Require Import Prelude ThreadPool Map TaskBacklog.

Local Open Scope Z_scope.

Definition loc : Type := nat.

(** ** Tasks *)

(** The functions that are handed to the thread pool.  A [client_task] is a
    success handler of a user of the map interface, as [main.c] is one. *)
Inductive task :=
| tc_server_client_listen_task | tc_server_shutdown_client_task | listener_worker_task
| handle_begin_cpe_negotiation | handle_cpe_extinfo | handle_cpe_extentry
| handle_cpe_custom_block_support_level | handle_player_identification
| handle_player_set_block | handle_player_position_and_orientation_update
| tc_map_cache_load_task | on_map_load_success | tc_send_map_task2 | tc_send_buffer_task
| tc_send_buffer_handle_failure
| client_task (n : nat).

(** Failure handlers: the one of [api.c], and those of its users. *)
Inductive failure_callback := handle_map_load_failure | client_failure_handler (n : nat).

(** What the [context] of a backlog entry points to. *)
Inductive context := ContextSession (sid : nat) | ContextSendMap (d : loc).

(** A waiting task: its [result] will be a map, that is, the cache entry the
    map is the first member of. *)
Abbreviation map_waiter := (tc_task_backlog_entry task failure_callback context).
Abbreviation map_backlog := (tc_task_backlog task failure_callback context).
Abbreviation map_args := (tc_task_backlog_args context loc).

(** The users of [tc_api_schedule_send_map] name their own handlers. *)
Abbreviation client_waiter := (tc_task_backlog_entry task nat context).

Inductive task_arg :=
| ArgSession (sid : nat)
| ArgServer
| ArgLoad (a : loc)             (* [tc_map_cache_load_task_args_t] *)
| ArgMap (args : map_args)      (* [tc_task_backlog_args_t] *)
| ArgSendMap (d : loc)          (* [tc_send_map_data_t] *)
| ArgSendBuffer (b : loc).      (* [tc_send_buffer_task_data_t] *)

(** ** The map cache *)

(** The [map] member of an entry: not yet written, loaded, or left behind by a
    failed load, when its pointers are dangling or were never set. *)
Inductive cached_map := MapUnset | MapLoaded (m : tc_map) | MapGarbage.

(** [ce_lock] and [ce_key] are [None] when there is no mutex or string (any
    more); [ce_lock] is whether the mutex is held.  [ce_map_readers] counts the
    readers that hold the map's own lock, which is never held for writing
    between two tasks. *)
Record tc_map_cache_entry := CacheEntry {
  ce_map : cached_map;
  ce_map_readers : nat;
  ce_backlog : map_backlog;
  ce_memory_usage : Z;
  ce_open_count : Z;
  ce_is_referenced : bool;
  ce_is_loaded : bool;
  ce_lock : option bool;
  ce_key : option (list Z);
  ce_next : option loc;
  ce_prev : option loc }.

(** [id_to_index] is ordered by [strcmp]: keys are the bytes before the
    terminator. *)
Record tc_map_cache := MapCache {
  id_to_index : gmap (list Z) loc;
  mc_head : option loc;
  mc_tail : option loc;
  mc_clock_hand : option loc;
  mc_num_entries : Z;
  mc_readers : nat;
  mc_writer : bool;
  mc_memory_usage : Z;
  mc_memory_usage_threshold : Z }.

(** The arguments of a load.  [la_name] is the text the caller's string has: the
    code keeps that pointer and not the copy in the entry, so that the model
    is right for callers whose string outlives the load, as the literal of
    [main.c] does. *)
Record tc_map_cache_load_task_args := LoadArgs { la_name : list Z; la_entry : loc }.

(** ** Maps on their way to a client *)

(** [sb_data] is [None] for [NULL]; its length is [size]. *)
Record send_buffer := SendBuffer { sb_data : option (list Z); sb_size : Z }.

Record tc_send_map_data := SendMapData {
  sm_session : nat;
  sm_file_name : list Z;
  sm_map : option loc;
  sm_schedule_info : client_waiter;
  sm_block_array_buffer : send_buffer;
  sm_block_array2_buffer : send_buffer }.

Record tc_send_buffer_task_data := SendBufferTaskData {
  st_send_map_data : loc;
  st_sent_count : Z;
  st_send_main_buffer : bool }.

(** ** The stores

    [ms_live] counts the smaller blocks that hang on these objects: mutexes,
    keys, blocks of backlogs, argument records, compressed buffers.
    [ms_loads] counts the loads of maps so far. *)
Record map_state := MapState {
  ms_cache : tc_map_cache;
  ms_entries : gmap loc tc_map_cache_entry;
  ms_load_args : gmap loc tc_map_cache_load_task_args;
  ms_sends : gmap loc tc_send_map_data;
  ms_buffers : gmap loc tc_send_buffer_task_data;
  ms_next : loc;
  ms_live : Z;
  ms_loads : nat }.

Definition empty_cache (threshold : Z) : tc_map_cache := MapCache ∅ None None None 0 0 false 0 threshold.
Definition no_maps (threshold : Z) : map_state := MapState (empty_cache threshold) ∅ ∅ ∅ ∅ 0%nat 0 0%nat.

(** *** Updates *)

Definition with_cache (x : tc_map_cache) (s : map_state) : map_state :=
  MapState x (ms_entries s) (ms_load_args s) (ms_sends s) (ms_buffers s) (ms_next s) (ms_live s) (ms_loads s).
Definition with_entries (x : gmap loc tc_map_cache_entry) (s : map_state) : map_state :=
  MapState (ms_cache s) x (ms_load_args s) (ms_sends s) (ms_buffers s) (ms_next s) (ms_live s) (ms_loads s).
Definition with_load_args (x : gmap loc tc_map_cache_load_task_args) (s : map_state) : map_state :=
  MapState (ms_cache s) (ms_entries s) x (ms_sends s) (ms_buffers s) (ms_next s) (ms_live s) (ms_loads s).
Definition with_sends (x : gmap loc tc_send_map_data) (s : map_state) : map_state :=
  MapState (ms_cache s) (ms_entries s) (ms_load_args s) x (ms_buffers s) (ms_next s) (ms_live s) (ms_loads s).
Definition with_buffers (x : gmap loc tc_send_buffer_task_data) (s : map_state) : map_state :=
  MapState (ms_cache s) (ms_entries s) (ms_load_args s) (ms_sends s) x (ms_next s) (ms_live s) (ms_loads s).
Definition with_next (x : loc) (s : map_state) : map_state :=
  MapState (ms_cache s) (ms_entries s) (ms_load_args s) (ms_sends s) (ms_buffers s) x (ms_live s) (ms_loads s).
Definition with_live (x : Z) (s : map_state) : map_state :=
  MapState (ms_cache s) (ms_entries s) (ms_load_args s) (ms_sends s) (ms_buffers s) (ms_next s) x (ms_loads s).
Definition with_loads (x : nat) (s : map_state) : map_state :=
  MapState (ms_cache s) (ms_entries s) (ms_load_args s) (ms_sends s) (ms_buffers s) (ms_next s) (ms_live s) x.

Definition with_index (x : gmap (list Z) loc) (c : tc_map_cache) : tc_map_cache :=
  MapCache x (mc_head c) (mc_tail c) (mc_clock_hand c) (mc_num_entries c) (mc_readers c) (mc_writer c)
    (mc_memory_usage c) (mc_memory_usage_threshold c).
Definition with_head (x : option loc) (c : tc_map_cache) : tc_map_cache :=
  MapCache (id_to_index c) x (mc_tail c) (mc_clock_hand c) (mc_num_entries c) (mc_readers c) (mc_writer c)
    (mc_memory_usage c) (mc_memory_usage_threshold c).
Definition with_tail (x : option loc) (c : tc_map_cache) : tc_map_cache :=
  MapCache (id_to_index c) (mc_head c) x (mc_clock_hand c) (mc_num_entries c) (mc_readers c) (mc_writer c)
    (mc_memory_usage c) (mc_memory_usage_threshold c).
Definition with_hand (x : option loc) (c : tc_map_cache) : tc_map_cache :=
  MapCache (id_to_index c) (mc_head c) (mc_tail c) x (mc_num_entries c) (mc_readers c) (mc_writer c)
    (mc_memory_usage c) (mc_memory_usage_threshold c).
Definition with_usage (n x : Z) (c : tc_map_cache) : tc_map_cache :=
  MapCache (id_to_index c) (mc_head c) (mc_tail c) (mc_clock_hand c) n (mc_readers c) (mc_writer c)
    x (mc_memory_usage_threshold c).
Definition with_cache_lock (r : nat) (x : bool) (c : tc_map_cache) : tc_map_cache :=
  MapCache (id_to_index c) (mc_head c) (mc_tail c) (mc_clock_hand c) (mc_num_entries c) r x
    (mc_memory_usage c) (mc_memory_usage_threshold c).

Definition entry_map (x : cached_map) (e : tc_map_cache_entry) : tc_map_cache_entry :=
  CacheEntry x (ce_map_readers e) (ce_backlog e) (ce_memory_usage e) (ce_open_count e) (ce_is_referenced e)
    (ce_is_loaded e) (ce_lock e) (ce_key e) (ce_next e) (ce_prev e).
Definition entry_readers (x : nat) (e : tc_map_cache_entry) : tc_map_cache_entry :=
  CacheEntry (ce_map e) x (ce_backlog e) (ce_memory_usage e) (ce_open_count e) (ce_is_referenced e)
    (ce_is_loaded e) (ce_lock e) (ce_key e) (ce_next e) (ce_prev e).
Definition entry_backlog (x : map_backlog) (e : tc_map_cache_entry) : tc_map_cache_entry :=
  CacheEntry (ce_map e) (ce_map_readers e) x (ce_memory_usage e) (ce_open_count e) (ce_is_referenced e)
    (ce_is_loaded e) (ce_lock e) (ce_key e) (ce_next e) (ce_prev e).
Definition entry_usage (x : Z) (e : tc_map_cache_entry) : tc_map_cache_entry :=
  CacheEntry (ce_map e) (ce_map_readers e) (ce_backlog e) x (ce_open_count e) (ce_is_referenced e)
    (ce_is_loaded e) (ce_lock e) (ce_key e) (ce_next e) (ce_prev e).
Definition entry_count (x : Z) (e : tc_map_cache_entry) : tc_map_cache_entry :=
  CacheEntry (ce_map e) (ce_map_readers e) (ce_backlog e) (ce_memory_usage e) x (ce_is_referenced e)
    (ce_is_loaded e) (ce_lock e) (ce_key e) (ce_next e) (ce_prev e).
Definition entry_referenced (x : bool) (e : tc_map_cache_entry) : tc_map_cache_entry :=
  CacheEntry (ce_map e) (ce_map_readers e) (ce_backlog e) (ce_memory_usage e) (ce_open_count e) x
    (ce_is_loaded e) (ce_lock e) (ce_key e) (ce_next e) (ce_prev e).
Definition entry_loaded (x : bool) (e : tc_map_cache_entry) : tc_map_cache_entry :=
  CacheEntry (ce_map e) (ce_map_readers e) (ce_backlog e) (ce_memory_usage e) (ce_open_count e) (ce_is_referenced e)
    x (ce_lock e) (ce_key e) (ce_next e) (ce_prev e).
Definition entry_lock (x : option bool) (e : tc_map_cache_entry) : tc_map_cache_entry :=
  CacheEntry (ce_map e) (ce_map_readers e) (ce_backlog e) (ce_memory_usage e) (ce_open_count e) (ce_is_referenced e)
    (ce_is_loaded e) x (ce_key e) (ce_next e) (ce_prev e).
Definition entry_key (x : option (list Z)) (e : tc_map_cache_entry) : tc_map_cache_entry :=
  CacheEntry (ce_map e) (ce_map_readers e) (ce_backlog e) (ce_memory_usage e) (ce_open_count e) (ce_is_referenced e)
    (ce_is_loaded e) (ce_lock e) x (ce_next e) (ce_prev e).
Definition entry_next (x : option loc) (e : tc_map_cache_entry) : tc_map_cache_entry :=
  CacheEntry (ce_map e) (ce_map_readers e) (ce_backlog e) (ce_memory_usage e) (ce_open_count e) (ce_is_referenced e)
    (ce_is_loaded e) (ce_lock e) (ce_key e) x (ce_prev e).
Definition entry_prev (x : option loc) (e : tc_map_cache_entry) : tc_map_cache_entry :=
  CacheEntry (ce_map e) (ce_map_readers e) (ce_backlog e) (ce_memory_usage e) (ce_open_count e) (ce_is_referenced e)
    (ce_is_loaded e) (ce_lock e) (ce_key e) (ce_next e) x.

(** The result of [p_malloc] for an entry. *)
Definition raw_entry : tc_map_cache_entry := CacheEntry MapUnset 0 [] 0 0 false false None None None None.
