(* ===== verification/Session.v ===== *)
(** * Sessions

    The state of the server ([server.h]) and what its tasks share: locks,
    generations, extension versions, kicking and disconnecting.

    A task runs as one computation on the server.  Mutexes are flags: locking
    a mutex the task already holds deadlocks, unlocking one that is not held,
    a failed assertion and an access through a dangling or [NULL] pointer are
    errors of their own.  Joinables are callbacks of other modules and a
    parameter. *)

From S2P Require Import Prelude Socket Protocol ThreadPool Heartbeat Objects.

Local Open Scope Z_scope.

Definition TC_SERVER_MAX_SESSIONS : Z := 128.
Definition TC_SERVER_PING_INTERVAL : Z := 15000000.

(** ** Connections *)

(** What the next receive calls on a client socket meet. *)
Inductive recv_answer :=
| Arrived (b : Z) (bs : list Z)      (* bytes to take, at least one *)
| NoData                             (* would block *)
| PeerClosed
| RecvFailed.

Record connection := Connection { cn_out : psocket; cn_in : list recv_answer }.

(** [p_socket_receive] of at most [n] bytes: the size, the error, the bytes. *)
Definition p_socket_receive (c : connection) (n : nat) : Z * option io_error * list Z * connection :=
  match cn_in c with
  | [] => (-1, Some P_ERROR_IO_WOULD_BLOCK, [], c)
  | Arrived b bs :: rest =>
      let got := take n (b :: bs) in
      let answers := match drop n (b :: bs) with [] => rest | b' :: bs' => Arrived b' bs' :: rest end in
      (Z.of_nat (length got), None, got, Connection (cn_out c) answers)
  | NoData :: rest => (-1, Some P_ERROR_IO_WOULD_BLOCK, [], Connection (cn_out c) rest)
  | PeerClosed :: _ => (0, None, [], c)
  | RecvFailed :: rest => (-1, Some P_ERROR_IO_FAILED, [], Connection (cn_out c) rest)
  end.

(** ** Data *)

(** [pending_packet_buffer] holds the bytes received so far, whose number is
    [pending_packet_buffer_size]; [None] is [NULL].  A freed socket is
    [None].  Joinables and services are their indices. *)
Record tc_session := Session {
  username : list Z;
  ext_cpe_versions : list Z;
  client_socket : option connection;
  ping_profiler : bool;
  action_lock : bool;
  authenticated_service : option nat;
  current_joinable : option nat;
  pending_packet_buffer : option (list Z);
  pending_packet_opcode : Z;
  supports_cpe : bool;
  current_generation : Z;
  session_id : Z;
  remaining_cpe_ext_packets : Z;
  custom_block_support_level : Z }.

Record tc_join_router := JoinRouter {
  joinables : list (list Z);           (* their names *)
  default_joinable : option nat;
  router_readers : nat;
  router_writer : bool;
  router_stopped : bool }.

Record tc_server := Server {
  session_buffer : list tc_session;
  id_buffer : list Z;
  id_buffer_head : Z;
  thread_pool : tc_thread_pool task task_arg;
  heartbeat_manager : tc_heartbeat_manager;
  join_router : tc_join_router;
  motd : list Z;
  active_players : Z;
  started : bool }.

(** The server with the answers of its environment, the allocator and the
    successive values of [p_time_profiler_elapsed_usecs], the client sockets
    that were shut down, oldest first, with what was sent on them, and the
    maps: the cache [server->map_cache] and the objects on the heap. *)
Record world := World {
  w_server : tc_server;
  w_heap : heap;
  w_elapsed : nat -> Z;
  w_reads : nat;
  w_closed : list psocket;
  w_maps : map_state }.

(** *** Updates *)

Definition with_username (x : list Z) (s : tc_session) : tc_session :=
  Session x (ext_cpe_versions s) (client_socket s) (ping_profiler s) (action_lock s) (authenticated_service s)
    (current_joinable s) (pending_packet_buffer s) (pending_packet_opcode s) (supports_cpe s)
    (current_generation s) (session_id s) (remaining_cpe_ext_packets s) (custom_block_support_level s).
Definition with_versions (x : list Z) (s : tc_session) : tc_session :=
  Session (username s) x (client_socket s) (ping_profiler s) (action_lock s) (authenticated_service s)
    (current_joinable s) (pending_packet_buffer s) (pending_packet_opcode s) (supports_cpe s)
    (current_generation s) (session_id s) (remaining_cpe_ext_packets s) (custom_block_support_level s).
Definition with_socket (x : option connection) (s : tc_session) : tc_session :=
  Session (username s) (ext_cpe_versions s) x (ping_profiler s) (action_lock s) (authenticated_service s)
    (current_joinable s) (pending_packet_buffer s) (pending_packet_opcode s) (supports_cpe s)
    (current_generation s) (session_id s) (remaining_cpe_ext_packets s) (custom_block_support_level s).
Definition with_profiler (x : bool) (s : tc_session) : tc_session :=
  Session (username s) (ext_cpe_versions s) (client_socket s) x (action_lock s) (authenticated_service s)
    (current_joinable s) (pending_packet_buffer s) (pending_packet_opcode s) (supports_cpe s)
    (current_generation s) (session_id s) (remaining_cpe_ext_packets s) (custom_block_support_level s).
Definition with_lock (x : bool) (s : tc_session) : tc_session :=
  Session (username s) (ext_cpe_versions s) (client_socket s) (ping_profiler s) x (authenticated_service s)
    (current_joinable s) (pending_packet_buffer s) (pending_packet_opcode s) (supports_cpe s)
    (current_generation s) (session_id s) (remaining_cpe_ext_packets s) (custom_block_support_level s).
Definition with_service (x : option nat) (s : tc_session) : tc_session :=
  Session (username s) (ext_cpe_versions s) (client_socket s) (ping_profiler s) (action_lock s) x
    (current_joinable s) (pending_packet_buffer s) (pending_packet_opcode s) (supports_cpe s)
    (current_generation s) (session_id s) (remaining_cpe_ext_packets s) (custom_block_support_level s).
Definition with_joinable (x : option nat) (s : tc_session) : tc_session :=
  Session (username s) (ext_cpe_versions s) (client_socket s) (ping_profiler s) (action_lock s)
    (authenticated_service s) x (pending_packet_buffer s) (pending_packet_opcode s) (supports_cpe s)
    (current_generation s) (session_id s) (remaining_cpe_ext_packets s) (custom_block_support_level s).
Definition with_pending (op : Z) (x : option (list Z)) (s : tc_session) : tc_session :=
  Session (username s) (ext_cpe_versions s) (client_socket s) (ping_profiler s) (action_lock s)
    (authenticated_service s) (current_joinable s) x op (supports_cpe s)
    (current_generation s) (session_id s) (remaining_cpe_ext_packets s) (custom_block_support_level s).
Definition with_cpe (x : bool) (s : tc_session) : tc_session :=
  Session (username s) (ext_cpe_versions s) (client_socket s) (ping_profiler s) (action_lock s)
    (authenticated_service s) (current_joinable s) (pending_packet_buffer s) (pending_packet_opcode s) x
    (current_generation s) (session_id s) (remaining_cpe_ext_packets s) (custom_block_support_level s).
Definition with_generation (x : Z) (s : tc_session) : tc_session :=
  Session (username s) (ext_cpe_versions s) (client_socket s) (ping_profiler s) (action_lock s)
    (authenticated_service s) (current_joinable s) (pending_packet_buffer s) (pending_packet_opcode s)
    (supports_cpe s) x (session_id s) (remaining_cpe_ext_packets s) (custom_block_support_level s).
Definition with_remaining (x : Z) (s : tc_session) : tc_session :=
  Session (username s) (ext_cpe_versions s) (client_socket s) (ping_profiler s) (action_lock s)
    (authenticated_service s) (current_joinable s) (pending_packet_buffer s) (pending_packet_opcode s)
    (supports_cpe s) (current_generation s) (session_id s) x (custom_block_support_level s).
Definition with_level (x : Z) (s : tc_session) : tc_session :=
  Session (username s) (ext_cpe_versions s) (client_socket s) (ping_profiler s) (action_lock s)
    (authenticated_service s) (current_joinable s) (pending_packet_buffer s) (pending_packet_opcode s)
    (supports_cpe s) (current_generation s) (session_id s) (remaining_cpe_ext_packets s) x.

Definition with_sessions (x : list tc_session) (v : tc_server) : tc_server :=
  Server x (id_buffer v) (id_buffer_head v) (thread_pool v) (heartbeat_manager v) (join_router v) (motd v)
    (active_players v) (started v).
Definition with_ids (x : list Z) (head : Z) (v : tc_server) : tc_server :=
  Server (session_buffer v) x head (thread_pool v) (heartbeat_manager v) (join_router v) (motd v)
    (active_players v) (started v).
Definition with_pool (x : tc_thread_pool task task_arg) (v : tc_server) : tc_server :=
  Server (session_buffer v) (id_buffer v) (id_buffer_head v) x (heartbeat_manager v) (join_router v) (motd v)
    (active_players v) (started v).
Definition with_heartbeat (x : tc_heartbeat_manager) (v : tc_server) : tc_server :=
  Server (session_buffer v) (id_buffer v) (id_buffer_head v) (thread_pool v) x (join_router v) (motd v)
    (active_players v) (started v).
Definition with_router (x : tc_join_router) (v : tc_server) : tc_server :=
  Server (session_buffer v) (id_buffer v) (id_buffer_head v) (thread_pool v) (heartbeat_manager v) x (motd v)
    (active_players v) (started v).
Definition with_players (x : Z) (v : tc_server) : tc_server :=
  Server (session_buffer v) (id_buffer v) (id_buffer_head v) (thread_pool v) (heartbeat_manager v)
    (join_router v) (motd v) x (started v).
Definition with_started (x : bool) (v : tc_server) : tc_server :=
  Server (session_buffer v) (id_buffer v) (id_buffer_head v) (thread_pool v) (heartbeat_manager v)
    (join_router v) (motd v) (active_players v) x.

(** ** Computations *)

Inductive cause := Deadlock | BadUnlock | AssertionFailed | BadAccess.

Inductive result (A : Type) := Ok (a : A) | Stuck (c : cause).
Arguments Ok {A}.
Arguments Stuck {A}.

Definition M (A : Type) : Type := world -> result A * world.

#[export] Instance M_ret : MRet M := fun A a w => (Ok a, w).
#[export] Instance M_bind : MBind M := fun A B k m w =>
  match m w with (Ok a, w') => k a w' | (Stuck c, w') => (Stuck c, w') end.

Definition stuck {A} (c : cause) : M A := fun w => (Stuck c, w).
Definition gets {A} (f : tc_server -> A) : M A := fun w => (Ok (f (w_server w)), w).
Definition modify (f : tc_server -> tc_server) : M unit := fun w =>
  (Ok tt, World (f (w_server w)) (w_heap w) (w_elapsed w) (w_reads w) (w_closed w) (w_maps w)).

Definition allocate : M bool := fun w =>
  let '(ok, h) := p_malloc (w_heap w) in (Ok ok, World (w_server w) h (w_elapsed w) (w_reads w) (w_closed w) (w_maps w)).

Definition p_time_profiler_elapsed_usecs : M Z := fun w =>
  (Ok (w_elapsed w (w_reads w)), World (w_server w) (w_heap w) (w_elapsed w) (S (w_reads w)) (w_closed w) (w_maps w)).

(** [p_socket_shutdown] and [p_socket_free] *)
Definition close_socket (out : psocket) : M unit := fun w =>
  (Ok tt, World (w_server w) (w_heap w) (w_elapsed w) (w_reads w) (w_closed w ++ [out]) (w_maps w)).

Definition get_session (sid : nat) : M tc_session := fun w =>
  match session_buffer (w_server w) !! sid with Some s => (Ok s, w) | None => (Stuck BadAccess, w) end.

Definition update_session (sid : nat) (f : tc_session -> tc_session) : M unit :=
  s ← get_session sid;
  modify (fun v => with_sessions (<[sid := f s]> (session_buffer v)) v).

(** [if (b) ...] *)
Definition when (b : bool) (m : M unit) : M unit := if b then m else mret tt.

(** A defined result, or an access outside its object. *)
Definition checked {A} (o : option A) : M A := match o with Some a => mret a | None => stuck BadAccess end.

(** A packet function on the socket of a session. *)
Definition sending (sid : nat) (c : sender) : M bool :=
  s ← get_session sid;
  match client_socket s with
  | None => stuck BadAccess
  | Some cn =>
      let '(ok, out) := c (cn_out cn) in
      _ ← update_session sid (with_socket (Some (Connection out (cn_in cn))));
      mret ok
  end.

(** ** The thread pool *)

Definition schedule_next (next shutdown_task : option task) (arg : task_arg)
    (priority : tc_thread_pool_task_priority) (generation : Z) : M unit :=
  p ← gets thread_pool;
  match tc_thread_schedule_next p next shutdown_task (Some arg) priority generation with
  | Some (p', _) => modify (with_pool p')
  | None => stuck AssertionFailed
  end.

Definition schedule_new (t : task) (arg : task_arg) (priority : tc_thread_pool_task_priority) (generation : Z) :
    M bool :=
  p ← gets thread_pool;
  match tc_thread_schedule_new p (Some t) (Some arg) priority generation with
  | Some (ok, p', _) => _ ← modify (with_pool p'); mret ok
  | None => stuck BadAccess
  end.

(** ** Locks and generations *)

Definition tc_session_release_action_lock (sid : nat) : M unit :=
  s ← get_session sid;
  if action_lock s then update_session sid (with_lock false) else stuck BadUnlock.

Definition tc_session_aquire_action_lock (sid : nat) (expected_generation : Z) : M bool :=
  s ← get_session sid;
  if action_lock s then stuck Deadlock
  else
    _ ← update_session sid (with_lock true);
    if negb (current_generation s =? expected_generation) then
      _ ← tc_session_release_action_lock sid; mret false
    else mret true.

(** ** Extension versions *)

Section Versions.
Context {abi : CharABI}.

Definition tc_session_get_extension_version (s : tc_session) (extension_index : Z) : Z :=
  if (extension_index <? 0) || (TC_CPE_EXTENSION_MAX_SUPPORTED <=? extension_index) then -1
  else
    let c := to_char (default 0 (ext_cpe_versions s !! Z.to_nat (extension_index / 4))) in
    Z.land (Z.shiftr c (extension_index mod 4 * 2)) 0x3.
End Versions.

(** ** Joinables: callbacks on a session *)

Class Joinables := {
  attempt_join : nat -> nat -> option (list Z) -> tc_thread_pool_task_priority -> Z -> M bool;
  leave : nat -> nat -> tc_thread_pool_task_priority -> Z -> M unit;
  joinable_set_block : nat -> nat -> Z -> Z -> Z -> Z -> Z -> tc_thread_pool_task_priority -> Z -> M bool;
  joinable_position_update : nat -> nat -> Z -> Z -> Z -> Z -> Z -> tc_thread_pool_task_priority -> Z -> M bool;
  joinable_server_stop : nat -> M unit }.

(** ** Disconnecting *)

Section Disconnecting.
Context {jn : Joinables}.

Definition free_client_socket (sid : nat) : M unit :=
  s ← get_session sid;
  match client_socket s with
  | None => stuck BadAccess
  | Some cn => _ ← close_socket (cn_out cn); update_session sid (with_socket None)
  end.

(** The part under [server->lock]. *)
Definition return_id (s : tc_session) : M unit :=
  _ ← when (bool_decide (is_Some (authenticated_service s)))
        (modify (fun v => with_players (s32 (active_players v - 1)) v));
  v ← gets id;
  let head := s32 (id_buffer_head v - 1) in
  if (0 <=? head) && (head <? TC_SERVER_MAX_SESSIONS)
  then modify (with_ids (<[Z.to_nat head := session_id s]> (id_buffer v)) head)
  else stuck BadAccess.

Definition disconnect_session (sid : nat) (session_generation : Z) : M unit :=
  s ← get_session sid;
  _ ← match current_joinable s with
      | Some j =>
          _ ← leave j sid PRIORITY_INVALID session_generation;
          update_session sid (with_joinable None)
      | None => mret tt
      end;
  _ ← update_session sid (fun s => with_pending (pending_packet_opcode s) None s);
  _ ← free_client_socket sid;
  _ ← update_session sid (with_profiler false);
  _ ← update_session sid (fun s => with_generation (s32 (current_generation s + 1)) s);
  s ← get_session sid;
  return_id s.

(** [expected_generation] matters only with [aquire_lock]. *)
Definition tc_server_kick_session (sid : nat) (msg : option (list Z)) (expected_generation : Z) (aquire_lock : bool) :
    M unit :=
  proceed ← (if aquire_lock then tc_session_aquire_action_lock sid expected_generation else mret true);
  if negb proceed then mret tt
  else
    _ ← match msg with
        | Some text => _ ← sending sid (tc_protocol_kick text); mret tt
        | None => mret tt
        end;
    _ ← disconnect_session sid expected_generation;
    when aquire_lock (tc_session_release_action_lock sid).

(** [tc_server_kick_session(session, msg, -1, FALSE)], releasing the lock after. *)
Definition kick_and_release (sid : nat) (msg : string) : M unit :=
  _ ← tc_server_kick_session sid (Some (cstr msg)) (-1) false;
  tc_session_release_action_lock sid.

Definition tc_server_protocol_handler_cleanup (sid : nat) (next_task : option task)
    (priority : tc_thread_pool_task_priority) (session_generation : Z) : M unit :=
  _ ← update_session sid (with_pending (-1) None);
  match next_task with
  | Some t => schedule_next (Some t) (Some tc_server_shutdown_client_task) (ArgSession sid) priority session_generation
  | None => mret tt
  end.

Definition run_shutdown_client_task (sid : nat) (priority : tc_thread_pool_task_priority) (session_generation : Z) :
    M unit :=
  tc_server_kick_session sid (Some (cstr "Server is Shutting Down: Please come back later!")) session_generation true.
End Disconnecting.
