(* ===== verification/SessionSpec.v ===== *)
(** * Running tasks on a server

    Rules to execute the computations of [Session] step by step. *)

From S2P Require Import Prelude Socket Protocol ThreadPool Heartbeat Objects Session.

Local Open Scope Z_scope.

(** Session [sid] of the server is [s]. *)
Definition at_session (sid : nat) (w : world) (s : tc_session) : Prop := session_buffer (w_server w) !! sid = Some s.

(** The server changed by [f], and with session [sid] replaced. *)
Definition on_server (f : tc_server -> tc_server) (w : world) : world :=
  World (f (w_server w)) (w_heap w) (w_elapsed w) (w_reads w) (w_closed w) (w_maps w).

Definition put (sid : nat) (s : tc_session) (w : world) : world :=
  on_server (fun v => with_sessions (<[sid := s]> (session_buffer v)) v) w.

Lemma at_put sid w s s' : at_session sid w s -> at_session sid (put sid s' w) s'.
Proof. intros H. unfold at_session in *. cbn. apply list_lookup_insert_eq. by apply lookup_lt_Some in H. Qed.

Lemma put_put sid s s' w : put sid s' (put sid s w) = put sid s' w.
Proof. unfold put, on_server. cbn. by rewrite list_insert_insert_eq. Qed.

Lemma put_same sid w s : at_session sid w s -> put sid s w = w.
Proof.
  intros H. destruct w as [[sb ib hd p m r mo a st] h e n c mp]. unfold put, on_server, with_sessions, at_session in *. cbn in *.
  by rewrite list_insert_id.
Qed.

(** A change of the server that keeps the sessions. *)
Lemma at_on_server sid w s f :
  (forall v, session_buffer (f v) = session_buffer v) -> at_session sid w s -> at_session sid (on_server f w) s.
Proof. intros Hf H. unfold at_session in *. cbn. by rewrite Hf. Qed.

(** ** Rules *)

Section Rules.
Context {A : Type}.
Implicit Type k : tc_session -> M A.

Lemma bind_ok {B} (m : M B) (k : B -> M A) b w w' : m w = (Ok b, w') -> (m ≫= k) w = k b w'.
Proof. intros E. unfold mbind, M_bind. by rewrite E. Qed.

Lemma bind_stuck {B} (m : M B) (k : B -> M A) c w w' : m w = (Stuck c, w') -> (m ≫= k) w = (Stuck c, w').
Proof. intros E. unfold mbind, M_bind. by rewrite E. Qed.

Lemma run_get sid k w s : at_session sid w s -> (get_session sid ≫= k) w = k s w.
Proof. intros H. apply bind_ok. unfold get_session. by rewrite H. Qed.
End Rules.

Lemma run_update sid f w s : at_session sid w s -> update_session sid f w = (Ok tt, put sid (f s) w).
Proof. intros H. unfold update_session. by rewrite (run_get _ _ _ _ H). Qed.

Lemma run_release sid w s :
  at_session sid w s -> action_lock s = true ->
  tc_session_release_action_lock sid w = (Ok tt, put sid (with_lock false s) w).
Proof. intros H Hl. unfold tc_session_release_action_lock. rewrite (run_get _ _ _ _ H), Hl. by apply run_update. Qed.

Lemma run_bad_release sid w s :
  at_session sid w s -> action_lock s = false -> tc_session_release_action_lock sid w = (Stuck BadUnlock, w).
Proof. intros H Hl. unfold tc_session_release_action_lock. by rewrite (run_get _ _ _ _ H), Hl. Qed.

Lemma with_lock_same s b : action_lock s = b -> with_lock b s = s.
Proof. intros <-. by destruct s. Qed.

(** The current generation gets the lock, *)
Lemma run_aquire sid w s g :
  at_session sid w s -> action_lock s = false -> current_generation s = g ->
  tc_session_aquire_action_lock sid g w = (Ok true, put sid (with_lock true s) w).
Proof.
  intros H Hl Hg. unfold tc_session_aquire_action_lock. rewrite (run_get _ _ _ _ H), Hl.
  rewrite (bind_ok _ _ _ _ _ (run_update _ _ _ _ H)), Hg, Z.eqb_refl. done.
Qed.

(** any other is turned away, and nothing has changed. *)
Lemma run_aquire_stale sid w s g :
  at_session sid w s -> action_lock s = false -> current_generation s <> g ->
  tc_session_aquire_action_lock sid g w = (Ok false, w).
Proof.
  intros H Hl Hg. unfold tc_session_aquire_action_lock. rewrite (run_get _ _ _ _ H), Hl.
  rewrite (bind_ok _ _ _ _ _ (run_update _ _ _ _ H)). destruct (Z.eqb_spec (current_generation s) g); [done|]. cbn [negb].
  rewrite (bind_ok _ _ _ _ _ (run_release sid _ (with_lock true s) (at_put _ _ _ _ H) eq_refl)), put_put.
  change (with_lock false (with_lock true s)) with (with_lock false s). by rewrite with_lock_same, put_same.
Qed.

(** A packet that is sent. *)
Lemma run_sending sid w s cn c out :
  at_session sid w s -> client_socket s = Some cn -> c (cn_out cn) = (true, out) ->
  sending sid c w = (Ok true, put sid (with_socket (Some (Connection out (cn_in cn))) s) w).
Proof.
  intros H Hcn Hc. unfold sending. rewrite (run_get _ _ _ _ H), Hcn, Hc.
  by rewrite (bind_ok _ _ _ _ _ (run_update _ _ _ _ H)).
Qed.

(** A packet, whether it is sent or not. *)
Lemma run_send sid w s cn c ok out :
  at_session sid w s -> client_socket s = Some cn -> c (cn_out cn) = (ok, out) ->
  sending sid c w = (Ok ok, put sid (with_socket (Some (Connection out (cn_in cn))) s) w).
Proof.
  intros H Hcn Hc. unfold sending. rewrite (run_get _ _ _ _ H), Hcn, Hc.
  by rewrite (bind_ok _ _ _ _ _ (run_update _ _ _ _ H)).
Qed.

Lemma run_schedule_next next sd arg q g w p ws :
  tc_thread_schedule_next (thread_pool (w_server w)) next sd (Some arg) q g = Some (p, ws) ->
  schedule_next next sd arg q g w = (Ok tt, on_server (with_pool p) w).
Proof. intros E. unfold schedule_next, gets, mbind, M_bind. by rewrite E. Qed.

Lemma run_schedule_new t arg q g w ok p ws :
  tc_thread_schedule_new (thread_pool (w_server w)) (Some t) (Some arg) q g = Some (ok, p, ws) ->
  schedule_new t arg q g w = (Ok ok, on_server (with_pool p) w).
Proof. intros E. unfold schedule_new, gets, mbind, M_bind. by rewrite E. Qed.

Lemma run_checked {A} (o : option A) a w : o = Some a -> checked o w = (Ok a, w).
Proof. by intros ->. Qed.

(** Execute the next command with a rule for it. *)
Ltac step_with lem := erewrite bind_ok by (eapply lem; eauto using at_put).
