(* ===== verification/Server.v ===== *)
(** * The server

    [src/src/server.c]: reading packets from clients, accepting new clients,
    starting and stopping; with the packet tables of [src/src/handler.c], which
    the reading depends on. *)

From S2P Require Import Prelude Socket Protocol ThreadPool Heartbeat Objects Session.

Local Open Scope Z_scope.

(** ** Packets *)

Definition TC_PACKET_HANDLERS_MAX_PACKETS : Z := 32.
Definition TC_INBOUND_PACKET_PLAYER_IDENTIFICATION : Z := 0x00.
Definition TC_INBOUND_PACKET_PLAYER_SET_BLOCK : Z := 0x05.
Definition TC_INBOUND_PACKET_POSITION_AND_ORIENTATION_UPDATE : Z := 0x08.

(** The cells of the table without initialiser are [NULL]. *)
Definition tc_packet_handlers (opcode : Z) : option task :=
  if opcode =? TC_PACKET_CPE_EXTINFO then Some handle_cpe_extinfo
  else if opcode =? TC_PACKET_CPE_EXTENTRY then Some handle_cpe_extentry
  else if opcode =? TC_PACKET_CPE_CUSTOM_BLOCK_SUPPORT_LEVEL then Some handle_cpe_custom_block_support_level
  else if opcode =? TC_INBOUND_PACKET_PLAYER_IDENTIFICATION then Some handle_player_identification
  else if opcode =? TC_INBOUND_PACKET_PLAYER_SET_BLOCK then Some handle_player_set_block
  else if opcode =? TC_INBOUND_PACKET_POSITION_AND_ORIENTATION_UPDATE
       then Some handle_player_position_and_orientation_update
  else None.

Definition tc_packet_data_sizes (opcode : Z) : nat :=
  if opcode =? TC_PACKET_CPE_EXTINFO then 66
  else if opcode =? TC_PACKET_CPE_EXTENTRY then 68
  else if opcode =? TC_PACKET_CPE_CUSTOM_BLOCK_SUPPORT_LEVEL then 1
  else if opcode =? TC_INBOUND_PACKET_PLAYER_IDENTIFICATION then 130
  else if opcode =? TC_INBOUND_PACKET_PLAYER_SET_BLOCK then 8
  else if opcode =? TC_INBOUND_PACKET_POSITION_AND_ORIENTATION_UPDATE then 9
  else 0.

Section Server.
Context {abi : CharABI} {jn : Joinables}.

Definition tc_packet_data_size (opcode : Z) (s : tc_session) : nat :=
  if 0 <? tc_session_get_extension_version s TC_CPE_CUSTOM_BLOCKS_EXTENSION_INDEX then
    if opcode =? TC_INBOUND_PACKET_PLAYER_SET_BLOCK then 9
    else if opcode =? TC_INBOUND_PACKET_POSITION_AND_ORIENTATION_UPDATE then 10
    else tc_packet_data_sizes opcode
  else tc_packet_data_sizes opcode.

(** ** Reading *)

(** How the reading part of the listen task ends.  [ReadOn] carries the error
    the rest of the task looks at. *)
Inductive verdict :=
| Kick (msg : string)
| Handle (t : option task)
| ReadOn (error : option io_error).

Definition next_opcode (s : tc_session) (cn : connection) (h : heap) : verdict * tc_session * heap :=
  let '(read_size, error, bytes, cn') := p_socket_receive cn 1 in
  let s1 := with_socket (Some cn') s in
  if 0 <? read_size then
    let opcode := to_char (hd0 bytes) in
    let s2 := with_pending opcode (pending_packet_buffer s1) s1 in
    if (opcode <? 0) || (TC_PACKET_HANDLERS_MAX_PACKETS <=? opcode)
    then (Kick "Packet Opcode Out of Range: Please reconnect.", s2, h)
    else match tc_packet_handlers opcode with
         | None => (Kick "Invalid Packet Opcode: Please reconnect.", s2, h)
         | Some _ =>
             let '(ok, h') := p_malloc h in
             if negb ok then (Kick "Out of Memory: Sorry", with_pending opcode None s2, h')
             else (ReadOn error, with_pending opcode (Some []) s2, h')
         end
  else if read_size =? 0 then (Kick "Client Disconnected: Please reconnect.", s1, h)
  else (ReadOn error, s1, h).

(** The error of this branch is a variable of its own; the one the rest of the
    task looks at stays [NULL]. *)
Definition next_payload (s : tc_session) (cn : connection) (buffer : list Z) : verdict * tc_session :=
  let packet_buffer_size := tc_packet_data_size (pending_packet_opcode s) s in
  let '(read_size, _, bytes, cn') := p_socket_receive cn (packet_buffer_size - length buffer) in
  let s1 := with_socket (Some cn') s in
  if 0 <? read_size then
    let s2 := with_pending (pending_packet_opcode s) (Some (buffer ++ bytes)) s1 in
    if (length (buffer ++ bytes) =? packet_buffer_size)%nat
    then (Handle (tc_packet_handlers (pending_packet_opcode s)), s2)
    else (ReadOn None, s2)
  else if read_size =? 0 then (Kick "Client Disconnected: Please reconnect.", s1)
  else (ReadOn None, s1).

(** The reading part; [None] is an access through a dangling pointer. *)
Definition read_packet (s : tc_session) (h : heap) : option (verdict * tc_session * heap) :=
  cn ← client_socket s;
  if pending_packet_opcode s =? -1 then Some (next_opcode s cn h)
  else
    buffer ← pending_packet_buffer s;
    let '(v, s') := next_payload s cn buffer in Some (v, s', h).

Definition read_from (sid : nat) (s : tc_session) : M verdict := fun w =>
  match read_packet s (w_heap w) with
  | None => (Stuck BadAccess, w)
  | Some (v, s', h') =>
      (Ok v, World (with_sessions (<[sid := s']> (session_buffer (w_server w))) (w_server w))
               h' (w_elapsed w) (w_reads w) (w_closed w) (w_maps w))
  end.

(** The ping; the answer is whether the task goes on. *)
Definition ping_client (sid : nat) : M bool :=
  elapsed ← p_time_profiler_elapsed_usecs;
  if TC_SERVER_PING_INTERVAL <? elapsed then sending sid tc_protocol_ping else mret true.

Definition run_client_listen_task (sid : nat) (priority : tc_thread_pool_task_priority) (session_generation : Z) :
    M unit :=
  locked ← tc_session_aquire_action_lock sid session_generation;
  if negb locked then mret tt
  else
    alive ← ping_client sid;
    if negb alive then
      _ ← disconnect_session sid session_generation;
      tc_session_release_action_lock sid
    else
      s ← get_session sid;
      v ← read_from sid s;
      match v with
      | Kick msg => kick_and_release sid msg
      | Handle handler =>
          _ ← schedule_next handler (Some tc_server_shutdown_client_task) (ArgSession sid) priority session_generation;
          tc_session_release_action_lock sid
      | ReadOn error =>
          match error with
          | Some P_ERROR_IO_FAILED => kick_and_release sid "Error: Please reconnect."
          | _ =>
              _ ← schedule_next (Some tc_server_client_listen_task) (Some tc_server_shutdown_client_task)
                    (ArgSession sid) priority session_generation;
              tc_session_release_action_lock sid
          end
      end.

(** ** New clients *)

(** What a new connection gets of the session it is given: the fields the code
    sets, the rest is left from its predecessor. *)
Definition fresh_session (session_id : Z) (cn : connection) (s : tc_session) : tc_session :=
  Session (username s) (replicate 3 0) (Some cn) (ping_profiler s) (action_lock s) None None None (-1) false
    (current_generation s) session_id (-1) 0.

(** The free list under [server->lock]; [None] when every session is taken. *)
Definition take_id : M (option Z) :=
  v ← gets id;
  if id_buffer_head v =? TC_SERVER_MAX_SESSIONS then mret None
  else
    session_id ← checked (id_buffer v !! Z.to_nat (id_buffer_head v));
    _ ← modify (with_ids (id_buffer v) (s32 (id_buffer_head v + 1)));
    mret (Some session_id).

Definition handle_new_session (cn : connection) : M unit :=
  taken ← take_id;
  match taken with
  | None => close_socket (tc_protocol_kick (cstr "Server is Busy: Please try again or come back soon.") (cn_out cn)).2
  | Some session_id =>
      let sid := Z.to_nat session_id in
      s ← get_session sid;
      let session_generation := current_generation s in
      locked ← tc_session_aquire_action_lock sid session_generation;
      if negb locked then mret tt
      else
        _ ← update_session sid (fresh_session session_id cn);
        profiler ← allocate;
        _ ← update_session sid (with_profiler profiler);
        if negb profiler then kick_and_release sid "Out of Memory: Sorry"
        else
          schedule_success ← schedule_new tc_server_client_listen_task (ArgSession sid) PRIORITY_LOW session_generation;
          _ ← (if negb schedule_success
               then tc_server_kick_session sid (Some (cstr "Server is Busy: Please try again or come back soon."))
                      session_generation true
               else mret tt);
          tc_session_release_action_lock sid
  end.

(** [accepted] is the result of [p_socket_accept]. *)
Definition run_listener_worker_task (accepted : option connection) (priority : tc_thread_pool_task_priority) : M unit :=
  _ ← match accepted with Some cn => handle_new_session cn | None => mret tt end;
  schedule_next (Some listener_worker_task) None ArgServer priority (-1).

(** ** Starting and stopping *)

(** The listening socket is not part of the state. *)
Definition tc_server_start (listen_success : bool) : M bool :=
  v ← gets id;
  if started v then mret false
  else if negb listen_success then mret false
  else
    schedule_success ← schedule_new listener_worker_task ArgServer PRIORITY_HIGH (-1);
    if negb schedule_success then mret false
    else
      _ ← modify (fun v => with_heartbeat (tc_heartbeat_manager_start (heartbeat_manager v)) v);
      _ ← modify (with_started true);
      mret true.

Definition tc_server_stop : M unit :=
  v ← gets id;
  if negb (started v) then mret tt
  else
    _ ← modify (fun v => with_heartbeat (tc_heartbeat_manager_stop (heartbeat_manager v)) v);
    modify (fun v => with_pool (tc_thread_pool_stop (thread_pool v)).1 v).
End Server.
