(* ===== verification/ServerProps.v ===== *)
(** * What the server promises its clients

    Packets are put together from the stream whatever the pieces it arrives
    in; sessions are handed out and returned without mixing them up; a task
    that outlives its session does nothing. *)

From S2P Require Import Prelude Socket Protocol ThreadPool Heartbeat Objects Session SessionSpec Server.

Local Open Scope Z_scope.

(** ** Streams *)

Definition answer_bytes (a : recv_answer) : list Z := match a with Arrived b bs => b :: bs | _ => [] end.

(** The bytes a list of answers holds, and that nothing else than bytes and
    delays is among them. *)
Definition stream (l : list recv_answer) : list Z := concat (map answer_bytes l).

Definition calm (l : list recv_answer) : Prop :=
  Forall (fun a => match a with Arrived _ _ | NoData => True | _ => False end) l.

(** Answers and bytes still to come. *)
Definition weight (l : list recv_answer) : nat := (length l + length (stream l))%nat.

(** A receive on a calm stream that is not empty delays or delivers. *)
Lemma receive_calm cn n :
  calm (cn_in cn) -> stream (cn_in cn) <> [] -> (0 < n)%nat ->
  exists l, calm l /\ (weight l < weight (cn_in cn))%nat /\
    ((p_socket_receive cn n = (-1, Some P_ERROR_IO_WOULD_BLOCK, [], Connection (cn_out cn) l) /\ stream l = stream (cn_in cn)) \/
     (exists b got, (length (b :: got) <= n)%nat /\
        p_socket_receive cn n = (Z.of_nat (length (b :: got)), None, b :: got, Connection (cn_out cn) l) /\
        stream (cn_in cn) = b :: got ++ stream l)).
Proof.
  intros Hc Hs Hn. unfold p_socket_receive. destruct (cn_in cn) as [|[b bs| | |] rest] eqn:E.
  - done.
  - apply Forall_cons in Hc as [_ Hc]. destruct n as [|n]; [lia|].
    change (take (S n) (b :: bs)) with (b :: take n bs). change (drop (S n) (b :: bs)) with (drop n bs).
    exists (match drop n bs with [] => rest | b' :: bs' => Arrived b' bs' :: rest end).
    assert (stream (Arrived b bs :: rest)
            = b :: take n bs ++ stream (match drop n bs with [] => rest | b' :: bs' => Arrived b' bs' :: rest end)) as Hst.
    { unfold stream. cbn [map concat answer_bytes]. rewrite <- (take_drop n bs) at 1.
      destruct (drop n bs) as [|b' bs']; cbn; by rewrite <- ?app_assoc, ?app_nil_r. }
    split_and!.
    + destruct (drop n bs); [done | by constructor].
    + unfold weight at 2. rewrite Hst. cbn [length]. rewrite length_app. unfold weight. destruct (drop n bs); cbn [length]; lia.
    + right. exists b, (take n bs). split_and!; [cbn; rewrite length_take; lia | done | done].
  - apply Forall_cons in Hc as [_ Hc]. exists rest. split_and!; [done | unfold weight, stream; cbn; lia | by left].
  - by apply Forall_cons in Hc as [[] _].
  - by apply Forall_cons in Hc as [[] _].
Qed.

(** ** Framing *)

Section Framing.
Context {abi : CharABI}.

(** Whether the task is scheduled again after a read. *)
Definition goes_on (v : verdict) : bool :=
  match v with ReadOn (Some P_ERROR_IO_FAILED) => false | ReadOn _ => true | _ => false end.

(** The reads of successive listen tasks, up to [n] of them. *)
Fixpoint poll (n : nat) (s : tc_session) (h : heap) : option (verdict * tc_session * heap) :=
  match n with
  | O => None
  | S n' =>
      match read_packet s h with
      | Some (v, s', h') => if goes_on v then poll n' s' h' else Some (v, s', h')
      | None => None
      end
  end.

(** The packet is complete, and the stream stands at what follows it. *)
Definition complete (t : task) (op : Z) (payload rest : list Z) (s : tc_session) (h : heap) : Prop :=
  exists n s' h' cn',
    poll n s h = Some (Handle (Some t), s', h') /\ pending_packet_opcode s' = op /\
    pending_packet_buffer s' = Some payload /\ client_socket s' = Some cn' /\
    stream (cn_in cn') = rest /\ calm (cn_in cn').

(** One more read before. *)
Lemma complete_step t op payload rest s h v s1 h1 :
  read_packet s h = Some (v, s1, h1) -> goes_on v = true ->
  complete t op payload rest s1 h1 -> complete t op payload rest s h.
Proof.
  intros E Hv (n & s' & h' & cn' & Ep & H). exists (S n), s', h', cn'. split; [|done]. cbn [poll]. by rewrite E, Hv.
Qed.

Lemma payload_completes k : forall s h cn op t buffer payload rest,
  (weight (cn_in cn) <= k)%nat -> client_socket s = Some cn -> pending_packet_opcode s = op ->
  pending_packet_buffer s = Some buffer -> calm (cn_in cn) -> payload <> [] -> op <> -1 ->
  stream (cn_in cn) = payload ++ rest -> tc_packet_handlers op = Some t ->
  (length buffer + length payload)%nat = tc_packet_data_size op s ->
  complete t op (buffer ++ payload) rest s h.
Proof.
  induction k as [|k IH]; intros s h cn op t buffer payload rest Hk Hcn Hop Hbuf Hcalm Hne Hm1 Hst Ht Hlen.
  { unfold weight in Hk. rewrite Hst, length_app in Hk. destruct payload; [done | cbn [length] in Hk; lia]. }
  destruct (receive_calm cn (tc_packet_data_size op s - length buffer) Hcalm) as (l & Hl & Hw & Hcases).
  { rewrite Hst. by destruct payload. }
  { destruct payload; [done | cbn [length] in Hlen; lia]. }
  assert (forall v s1, next_payload s cn buffer = (v, s1) -> read_packet s h = Some (v, s1, h)) as Hread.
  { intros v s1 E. unfold read_packet. rewrite Hcn. cbn [mbind option_bind]. rewrite Hop.
    destruct (Z.eqb_spec op (-1)); [done|]. rewrite Hbuf. cbn [mbind option_bind]. by rewrite E. }
  unfold next_payload in Hread. rewrite Hop in Hread.
  destruct Hcases as [[Er Hs'] | (b & got & Hgl & Er & Hs')]; rewrite Er in Hread.
  - eapply complete_step; [by apply Hread | done |].
    eapply (IH _ _ (Connection (cn_out cn) l)); try done; [cbn [cn_in]; lia | cbn [cn_in]; congruence].
  - destruct (Z.ltb_spec 0 (Z.of_nat (length (b :: got)))) as [_|]; [|cbn in *; lia].
    rewrite Hst in Hs'.
    assert (payload = (b :: got) ++ drop (length (b :: got)) payload /\
            stream l = drop (length (b :: got)) payload ++ rest) as [Hpay Hrest].
    { change (b :: got ++ stream l) with ((b :: got) ++ stream l) in Hs'.
      pose proof (f_equal (take (length (b :: got))) Hs') as H1. pose proof (f_equal (drop (length (b :: got))) Hs') as H2.
      rewrite take_app_length, take_app_le in H1 by lia. rewrite drop_app_length, drop_app_le in H2 by lia.
      split; [|by rewrite H2]. rewrite <- H1 at 1. symmetry. apply take_drop. }
    destruct (Nat.eqb_spec (length (buffer ++ b :: got)) (tc_packet_data_size op s)) as [Efull|Epart];
      rewrite length_app in *.
    + assert (drop (length (b :: got)) payload = []) as Hd
        by (apply drop_ge; lia).
      rewrite Hd, app_nil_r in Hpay. rewrite Hd in Hrest. subst payload.
      exists 1%nat. do 3 eexists. cbn [poll]. rewrite (Hread _ _ eq_refl). cbn [goes_on]. rewrite Ht.
      split_and!; [reflexivity | done | done | reflexivity | done | done].
    + eapply complete_step; [by apply Hread | done |].
      replace (buffer ++ payload) with ((buffer ++ b :: got) ++ drop (length (b :: got)) payload)
        by (by rewrite <- app_assoc, <- Hpay).
      assert (length payload = length (b :: got) + length (drop (length (b :: got)) payload))%nat as Hlp
        by (rewrite Hpay at 1; by rewrite length_app).
      eapply (IH _ _ (Connection (cn_out cn) l)); try done.
      * cbn [cn_in]. lia.
      * intros Hd. rewrite Hd in Hlp. change (length (@nil Z)) with 0%nat in Hlp. lia.
      * rewrite length_app. change (tc_packet_data_size op _) with (tc_packet_data_size op s). lia.
Qed.

Lemma data_size_positive op t s : tc_packet_handlers op = Some t -> (0 < tc_packet_data_size op s)%nat.
Proof.
  unfold tc_packet_handlers, tc_packet_data_size, tc_packet_data_sizes.
  repeat match goal with |- context [if ?b then _ else _] => destruct b end; try done; intros; lia.
Qed.

(** C7. Framing: whatever the pieces and delays in which a packet with a known
    opcode arrives, the reads of the listen task end with its handler, its
    opcode and exactly its payload in the session, and not a byte of what
    follows is taken. *)
Theorem packet_framing s h cn op payload rest t :
  plentiful h -> client_socket s = Some cn -> pending_packet_opcode s = -1 -> calm (cn_in cn) ->
  stream (cn_in cn) = op :: payload ++ rest -> 0 <= op < 32 -> tc_packet_handlers op = Some t ->
  length payload = tc_packet_data_size op s ->
  complete t op payload rest s h.
Proof.
  remember (weight (cn_in cn)) as k eqn:Hk. assert (weight (cn_in cn) <= k)%nat as Hle by lia. clear Hk.
  revert s h cn Hle. induction k as [|k IH]; intros s h cn Hle Hh Hcn Hop Hcalm Hst Hrange Ht Hlen.
  { unfold weight in Hle. rewrite Hst in Hle. cbn in Hle. lia. }
  destruct (receive_calm cn 1 Hcalm) as (l & Hl & Hw & Hcases); [by rewrite Hst | lia |].
  assert (forall r, next_opcode s cn h = r -> read_packet s h = Some r) as Hread.
  { intros r <-. unfold read_packet. rewrite Hcn. cbn [mbind option_bind]. by rewrite Hop. }
  unfold next_opcode in Hread. destruct Hcases as [[Er Hs'] | (b & got & Hgl & Er & Hs')]; rewrite Er in Hread.
  - eapply complete_step; [by apply Hread | done |].
    eapply (IH _ _ (Connection (cn_out cn) l)); try done; [cbn [cn_in]; lia | cbn [cn_in]; congruence].
  - destruct got; [|cbn in Hgl; lia]. rewrite Hst in Hs'. injection Hs' as <- Hs'. cbn in Hs'.
    cbn -[to_char tc_packet_handlers p_malloc] in Hread. rewrite to_char_small in Hread by lia.
    destruct (Z.ltb_spec op 0); [lia|]. destruct (Z.leb_spec TC_PACKET_HANDLERS_MAX_PACKETS op) as [Hx|Hx];
      [unfold TC_PACKET_HANDLERS_MAX_PACKETS in Hx; lia|].
    cbn [orb] in Hread. rewrite Ht in Hread.
    destruct (p_malloc h) as [ok h1] eqn:Em. destruct (p_malloc_plentiful _ _ _ Hh Em) as [-> _]. cbn [negb] in Hread.
    eapply complete_step; [by apply Hread | done |].
    change payload with ([] ++ payload). pose proof (data_size_positive op t s Ht).
    eapply (payload_completes (weight l) _ _ (Connection (cn_out cn) l)); try done; try lia.
    intros ->. change (length (@nil Z)) with 0%nat in Hlen. lia.
Qed.

(** A failed read of a payload goes unnoticed: the error is stored in an
    inner variable, so the session is read on instead of being kicked, as it
    would be for the same failure before an opcode. *)
Theorem payload_error_ignored s h cn buffer rest :
  client_socket s = Some cn -> pending_packet_opcode s <> -1 -> pending_packet_buffer s = Some buffer ->
  cn_in cn = RecvFailed :: rest ->
  (exists s', read_packet s h = Some (ReadOn None, s', h) /\ goes_on (ReadOn None) = true) /\
  (exists s', read_packet (with_pending (-1) None s) h = Some (ReadOn (Some P_ERROR_IO_FAILED), s', h) /\
              goes_on (ReadOn (Some P_ERROR_IO_FAILED)) = false).
Proof.
  intros Hcn Hop Hbuf Hin. unfold read_packet. cbn [client_socket with_pending pending_packet_opcode pending_packet_buffer].
  rewrite Hcn. cbn [mbind option_bind]. destruct (Z.eqb_spec (pending_packet_opcode s) (-1)); [done|].
  rewrite Hbuf. cbn [mbind option_bind]. unfold next_payload, next_opcode, p_socket_receive. rewrite Hin.
  split; eexists; (split; [reflexivity | done]).
Qed.
End Framing.

(** ** Session ids *)

(** The ids that are not in use: the part of the buffer from its head on. *)
Definition free_ids (v : tc_server) : list Z := drop (Z.to_nat (id_buffer_head v)) (id_buffer v).

Definition session_range (i : Z) : Prop := 0 <= i < TC_SERVER_MAX_SESSIONS.

Record ids_ok (v : tc_server) : Prop := {
  ids_length : length (id_buffer v) = 128%nat;
  ids_head : 0 <= id_buffer_head v <= TC_SERVER_MAX_SESSIONS;
  ids_distinct : NoDup (free_ids v);
  ids_range : Forall session_range (free_ids v) }.

Lemma length_free_ids v : ids_ok v -> Z.of_nat (length (free_ids v)) = TC_SERVER_MAX_SESSIONS - id_buffer_head v.
Proof.
  intros [Hl Hh _ _]. unfold free_ids. rewrite length_drop, Hl. unfold TC_SERVER_MAX_SESSIONS in *. lia.
Qed.

(** An id in use leaves the head room to come down. *)
Lemma head_positive v i : ids_ok v -> session_range i -> i ∉ free_ids v -> 1 <= id_buffer_head v.
Proof.
  intros Hok Hi Hni. pose proof (length_free_ids v Hok) as Hlen.
  assert (length (i :: free_ids v) <= length (map Z.of_nat (seq 0 128)))%nat as H.
  { apply NoDup_incl_length; [apply NoDup_ListNoDup, NoDup_cons; split; [done | apply (ids_distinct v Hok)]|].
    intros x Hx. apply in_map_iff. exists (Z.to_nat x).
    assert (session_range x) as Hr.
    { destruct Hx as [<-|Hx]; [done|]. pose proof (ids_range v Hok) as Hf. rewrite List.Forall_forall in Hf. by apply Hf. }
    unfold session_range, TC_SERVER_MAX_SESSIONS in Hr. split; [lia|]. apply in_seq. lia. }
  rewrite length_map, length_seq in H. cbn [length] in H. unfold TC_SERVER_MAX_SESSIONS in *. lia.
Qed.

Lemma drop_insert_here {A} (l : list A) i x : (i < length l)%nat -> drop i (<[i := x]> l) = x :: drop (S i) l.
Proof.
  intros Hi. rewrite insert_take_drop by done. rewrite drop_app_length' by (rewrite length_take; lia). done.
Qed.

(** Giving an id back. *)
Lemma ids_ok_push v i :
  ids_ok v -> session_range i -> i ∉ free_ids v ->
  let v' := with_ids (<[Z.to_nat (id_buffer_head v - 1) := i]> (id_buffer v)) (id_buffer_head v - 1) v in
  ids_ok v' /\ free_ids v' = i :: free_ids v.
Proof.
  intros Hok Hi Hni v'. pose proof (head_positive v i Hok Hi Hni) as Hpos. destruct Hok as [Hl Hh Hd Hr].
  assert (free_ids v' = i :: free_ids v) as Hf.
  { unfold v', free_ids, with_ids. cbn [id_buffer id_buffer_head].
    rewrite drop_insert_here by (rewrite Hl; unfold TC_SERVER_MAX_SESSIONS in *; lia).
    do 2 f_equal. unfold TC_SERVER_MAX_SESSIONS in *. lia. }
  split; [|done]. split.
  - unfold v'. cbn [with_ids id_buffer]. by rewrite length_insert.
  - unfold v'. cbn [with_ids id_buffer_head]. lia.
  - rewrite Hf. by constructor.
  - rewrite Hf. by constructor.
Qed.

(** Taking one. *)
Lemma ids_ok_pop v i rest :
  ids_ok v -> free_ids v = i :: rest ->
  id_buffer_head v < TC_SERVER_MAX_SESSIONS /\ id_buffer v !! Z.to_nat (id_buffer_head v) = Some i /\
  let v' := with_ids (id_buffer v) (id_buffer_head v + 1) v in ids_ok v' /\ free_ids v' = rest.
Proof.
  intros Hok Hf. pose proof (length_free_ids v Hok) as Hlen. rewrite Hf in Hlen. cbn [length] in Hlen.
  destruct Hok as [Hl Hh Hd Hr]. rewrite Hf in Hd, Hr. apply NoDup_cons in Hd as [_ Hd]. apply Forall_cons in Hr as [_ Hr].
  assert (drop (S (Z.to_nat (id_buffer_head v))) (id_buffer v) = rest) as Hrest.
  { replace (S (Z.to_nat (id_buffer_head v))) with (Z.to_nat (id_buffer_head v) + 1)%nat by lia.
    rewrite <- drop_drop. fold (free_ids v). by rewrite Hf. }
  split_and!; [lia | |].
  - rewrite <- (Nat.add_0_r (Z.to_nat (id_buffer_head v))), <- lookup_drop. fold (free_ids v). by rewrite Hf.
  - intros v'. assert (free_ids v' = rest) as Hf'.
    { rewrite <- Hrest. unfold v', free_ids. cbn [with_ids id_buffer id_buffer_head]. f_equal. lia. }
    split; [|done]. split; unfold v'; cbn [with_ids id_buffer id_buffer_head]; [done | lia | |]; fold v'; by rewrite Hf'.
Qed.

Section Sessions.
Context {abi : CharABI} {jn : Joinables}.

(** A joinable that lets go of a session without touching the session or the
    ids. *)
Definition leaves_quietly (sid : nat) : Prop :=
  forall j g w s, at_session sid w s ->
    exists w', leave j sid PRIORITY_INVALID g w = (Ok tt, w') /\ at_session sid w' s /\
      id_buffer (w_server w') = id_buffer (w_server w) /\ id_buffer_head (w_server w') = id_buffer_head (w_server w) /\
      active_players (w_server w') = active_players (w_server w).

(** A session that was disconnected. *)
Record gone (s s' : tc_session) : Prop := {
  gone_generation : current_generation s' = s32 (current_generation s + 1);
  gone_socket : client_socket s' = None;
  gone_joinable : current_joinable s' = None;
  gone_buffer : pending_packet_buffer s' = None;
  gone_lock : action_lock s' = action_lock s }.

(** The first half of a disconnect. *)
Lemma leave_joinable sid w s g :
  leaves_quietly sid -> at_session sid w s ->
  exists w', (match current_joinable s with
              | Some j => _ ← leave j sid PRIORITY_INVALID g; update_session sid (with_joinable None)
              | None => mret tt
              end) w = (Ok tt, w') /\ at_session sid w' (with_joinable None s) /\
    id_buffer (w_server w') = id_buffer (w_server w) /\ id_buffer_head (w_server w') = id_buffer_head (w_server w) /\
    active_players (w_server w') = active_players (w_server w).
Proof.
  intros Hq Hs. destruct (current_joinable s) as [j|] eqn:Ej.
  - destruct (Hq j g w s Hs) as (w1 & E1 & Hs1 & H1 & H2 & H3). exists (put sid (with_joinable None s) w1).
    rewrite (bind_ok _ _ _ _ _ E1). split_and!; [by apply run_update | by eapply at_put | done..].
  - exists w. replace (with_joinable None s) with s by (destruct s; cbn in *; by subst). done.
Qed.

Lemma run_return_id s w :
  ids_ok (w_server w) -> session_range (session_id s) -> session_id s ∉ free_ids (w_server w) ->
  exists w', return_id s w = (Ok tt, w') /\ ids_ok (w_server w') /\
    free_ids (w_server w') = session_id s :: free_ids (w_server w) /\
    session_buffer (w_server w') = session_buffer (w_server w) /\
    active_players (w_server w') =
      match authenticated_service s with Some _ => s32 (active_players (w_server w) - 1) | None => active_players (w_server w) end.
Proof.
  intros Hok Hr Hni. pose proof (head_positive _ _ Hok Hr Hni) as Hpos. pose proof (ids_head _ Hok) as Hh.
  unfold TC_SERVER_MAX_SESSIONS in Hh. unfold return_id.
  set (w1 := match authenticated_service s with
             | Some _ => on_server (fun v => with_players (s32 (active_players v - 1)) v) w | None => w end).
  assert (when (bool_decide (is_Some (authenticated_service s)))
            (modify (fun v => with_players (s32 (active_players v - 1)) v)) w = (Ok tt, w1)) as E1.
  { unfold w1. destruct (authenticated_service s); [rewrite bool_decide_eq_true_2 by eauto; done|].
    by rewrite bool_decide_eq_false_2 by (intros [? ?]; done). }
  rewrite (bind_ok _ _ _ _ _ E1). rewrite (bind_ok (gets id) _ (w_server w1) w1 w1) by done.
  assert (id_buffer (w_server w1) = id_buffer (w_server w) /\ id_buffer_head (w_server w1) = id_buffer_head (w_server w) /\
          session_buffer (w_server w1) = session_buffer (w_server w)) as (Hb & Hd & Hsb)
    by (unfold w1; by destruct (authenticated_service s)).
  assert (ids_ok (w_server w1) /\ free_ids (w_server w1) = free_ids (w_server w)) as [Hok1 Hf1].
  { unfold free_ids. rewrite Hb, Hd. split; [|done]. destruct Hok as [? ? Hdis Hran].
    split; unfold free_ids in *; rewrite ?Hb, ?Hd; done. }
  cbn zeta. rewrite wraps_small by (lia || (rewrite Hd; unfold_widths; lia)).
  destruct (Z.leb_spec 0 (id_buffer_head (w_server w1) - 1)); [|lia].
  destruct (Z.ltb_spec (id_buffer_head (w_server w1) - 1) TC_SERVER_MAX_SESSIONS); [|unfold TC_SERVER_MAX_SESSIONS in *; lia].
  cbn [andb]. eexists. split; [reflexivity|]. cbn [w_server].
  destruct (ids_ok_push (w_server w1) (session_id s) Hok1 Hr) as [Hok2 Hf2]; [by rewrite Hf1|].
  split_and!; [done | by rewrite Hf2, Hf1 | done |]. cbn. unfold w1. by destruct (authenticated_service s).
Qed.

(** C21. Disconnecting: a session in use returns its id to the free ones, ends
    its generation, and gives up its socket, its buffer and its joinable.  The
    count of players goes down whenever a service vouched for the client. *)
Theorem session_returned sid w s g :
  leaves_quietly sid -> ids_ok (w_server w) -> at_session sid w s -> client_socket s <> None ->
  session_id s = Z.of_nat sid -> session_range (session_id s) -> session_id s ∉ free_ids (w_server w) ->
  exists w' s', disconnect_session sid g w = (Ok tt, w') /\ ids_ok (w_server w') /\
    free_ids (w_server w') = session_id s :: free_ids (w_server w) /\ at_session sid w' s' /\ gone s s' /\
    active_players (w_server w') =
      match authenticated_service s with Some _ => s32 (active_players (w_server w) - 1) | None => active_players (w_server w) end.
Proof.
  intros Hq Hok Hs Hcn Hid Hr Hni. unfold disconnect_session. rewrite (run_get _ _ _ _ Hs).
  destruct (leave_joinable sid w s g Hq Hs) as (w1 & E1 & Hs1 & Hb & Hd & Ha).
  rewrite (bind_ok _ _ _ _ _ E1). rewrite (bind_ok _ _ _ _ _ (run_update _ _ _ _ Hs1)).
  pose proof (at_put sid w1 _ (with_pending (pending_packet_opcode (with_joinable None s)) None (with_joinable None s)) Hs1) as Hs2.
  set (w2 := put sid _ w1) in *.
  destruct (client_socket s) as [cn|] eqn:Ecn; [|done].
  set (w3 := World (w_server w2) (w_heap w2) (w_elapsed w2) (w_reads w2) (w_closed w2 ++ [cn_out cn]) (w_maps w2)).
  set (s3 := with_socket None (with_pending (pending_packet_opcode s) None (with_joinable None s))).
  assert (at_session sid w3 (with_pending (pending_packet_opcode s) None (with_joinable None s))) as Hs2' by exact Hs2.
  assert (free_client_socket sid w2 = (Ok tt, put sid s3 w3)) as E3.
  { unfold free_client_socket. rewrite (run_get _ _ _ _ Hs2). cbn [with_pending with_joinable client_socket]. rewrite Ecn.
    rewrite (bind_ok _ _ tt w2 w3) by done. by apply run_update. }
  rewrite (bind_ok _ _ _ _ _ E3). pose proof (at_put sid w3 _ s3 Hs2') as Hs3.
  rewrite (bind_ok _ _ _ _ _ (run_update _ _ _ _ Hs3)). pose proof (at_put sid _ _ (with_profiler false s3) Hs3) as Hs4.
  rewrite (bind_ok _ _ _ _ _ (run_update _ _ _ _ Hs4)).
  set (s' := with_generation _ _). pose proof (at_put sid _ _ s' Hs4) as Hs5. set (w5 := put sid s' _) in *.
  rewrite (run_get _ _ _ _ Hs5).
  assert (free_ids (w_server w5) = free_ids (w_server w)) as Hf by (unfold free_ids; cbn; by rewrite Hb, Hd).
  assert (ids_ok (w_server w5)) as Hok5.
  { destruct Hok as [? ? ? ?]. split; rewrite ?Hf; [cbn; by rewrite Hb | cbn; by rewrite Hd | done | done]. }
  destruct (run_return_id s' w5 Hok5) as (w6 & E6 & Hok6 & Hf6 & Hsb & Hp); [done | by rewrite Hf|].
  exists w6, s'. split_and!; [done | done | by rewrite Hf6, Hf | unfold at_session in *; by rewrite Hsb | by split |].
  rewrite Hp. cbn. by rewrite Ha.
Qed.

(** The part of [handle_new_session] before the pool is asked. *)
Lemma new_session_prepared cn w s i rest :
  ids_ok (w_server w) -> free_ids (w_server w) = i :: rest -> session_range i ->
  at_session (Z.to_nat i) w s -> action_lock s = false -> plentiful (w_heap w) ->
  let s1 := with_profiler true (with_lock true (fresh_session i cn s)) in
  exists w1, at_session (Z.to_nat i) w1 s1 /\ ids_ok (w_server w1) /\ free_ids (w_server w1) = rest /\
    thread_pool (w_server w1) = thread_pool (w_server w) /\
    handle_new_session cn w =
    (schedule_success ← schedule_new tc_server_client_listen_task (ArgSession (Z.to_nat i)) PRIORITY_LOW (current_generation s);
     _ ← (if negb schedule_success
          then tc_server_kick_session (Z.to_nat i) (Some (cstr "Server is Busy: Please try again or come back soon."))
                 (current_generation s) true
          else mret tt);
     tc_session_release_action_lock (Z.to_nat i)) w1.
Proof.
  intros Hok Hf Hi Hs Hl Hh s1. destruct (ids_ok_pop _ _ _ Hok Hf) as (Hlt & Hlook & Hok' & Hf').
  pose proof (ids_head _ Hok) as Hhd. unfold TC_SERVER_MAX_SESSIONS in Hhd, Hlt.
  set (w0 := on_server (with_ids (id_buffer (w_server w)) (id_buffer_head (w_server w) + 1)) w).
  assert (take_id w = (Ok (Some i), w0)) as E0.
  { unfold take_id. rewrite (bind_ok (gets id) _ (w_server w) w w) by done.
    destruct (Z.eqb_spec (id_buffer_head (w_server w)) TC_SERVER_MAX_SESSIONS) as [E|_]; [unfold TC_SERVER_MAX_SESSIONS in E; lia|].
    rewrite (bind_ok _ _ _ _ _ (run_checked _ _ w Hlook)). rewrite wraps_small by (lia || (unfold_widths; lia)). done. }
  assert (at_session (Z.to_nat i) w0 s) as Hs0 by done.
  pose proof (at_put _ _ _ (with_lock true s) Hs0) as Hs1.
  pose proof (at_put _ _ _ (fresh_session i cn (with_lock true s)) Hs1) as Hs2.
  set (w2 := put _ (fresh_session i cn (with_lock true s)) _) in Hs2.
  set (w3 := World (w_server w2) (p_malloc (w_heap w2)).2 (w_elapsed w2) (w_reads w2) (w_closed w2) (w_maps w2)).
  assert (at_session (Z.to_nat i) w3 (fresh_session i cn (with_lock true s))) as Hs3 by exact Hs2.
  exists (put (Z.to_nat i) s1 w3). split_and!; [by eapply at_put | | done | done |].
  { destruct Hok' as [? ? ? ?]. by split. }
  unfold handle_new_session. rewrite (bind_ok _ _ _ _ _ E0). rewrite (run_get _ _ _ _ Hs0).
  rewrite (bind_ok _ _ _ _ _ (run_aquire _ _ _ _ Hs0 Hl eq_refl)). cbn [negb].
  rewrite (bind_ok _ _ _ _ _ (run_update _ _ _ _ Hs1)). fold w2.
  assert (allocate w2 = (Ok true, w3)) as Ea.
  { unfold allocate, w3. unfold p_malloc. cbn. by rewrite Hh. }
  rewrite (bind_ok _ _ _ _ _ Ea). rewrite (bind_ok _ _ _ _ _ (run_update _ _ _ _ Hs3)). done.
Qed.

(** The session of a client that has just connected: nothing of its
    predecessor is left but the generation, which is the one its tasks get. *)
Record clean_session (i : Z) (cn : connection) (generation : Z) (s : tc_session) : Prop := {
  cs_socket : client_socket s = Some cn;
  cs_id : session_id s = i;
  cs_generation : current_generation s = generation;
  cs_lock : action_lock s = false;
  cs_profiler : ping_profiler s = true;
  cs_opcode : pending_packet_opcode s = -1;
  cs_buffer : pending_packet_buffer s = None;
  cs_cpe : supports_cpe s = false;
  cs_versions : ext_cpe_versions s = [0; 0; 0];
  cs_ext_packets : remaining_cpe_ext_packets s = -1;
  cs_support_level : custom_block_support_level s = 0;
  cs_service : authenticated_service s = None;
  cs_joinable : current_joinable s = None }.

(** C22. A new client, with memory for its profiler: it is given the next free id,
    its session starts out with every field but the user name, which the
    handshake writes, as [clean_session] lists them, and its listen task is
    scheduled under the session's generation.  When the pool
    refuses the task, the thread locks the session's mutex a second time and is
    stuck. *)
Theorem session_allocated cn w s i rest ok p ws :
  ids_ok (w_server w) -> free_ids (w_server w) = i :: rest ->
  at_session (Z.to_nat i) w s -> action_lock s = false -> plentiful (w_heap w) ->
  tc_thread_schedule_new (thread_pool (w_server w)) (Some tc_server_client_listen_task) (Some (ArgSession (Z.to_nat i)))
    PRIORITY_LOW (current_generation s) = Some (ok, p, ws) ->
  if ok then
    exists w', handle_new_session cn w = (Ok tt, w') /\ ids_ok (w_server w') /\ free_ids (w_server w') = rest /\
      thread_pool (w_server w') = p /\
      exists s', at_session (Z.to_nat i) w' s' /\ clean_session i cn (current_generation s) s'
  else (handle_new_session cn w).1 = Stuck Deadlock.
Proof.
  intros Hok Hf Hs Hl Hh Hp.
  assert (session_range i) as Hi.
  { pose proof (ids_range _ Hok) as Hr. rewrite Hf in Hr. by apply Forall_cons in Hr as [? _]. }
  destruct (new_session_prepared cn w s i rest Hok Hf Hi Hs Hl Hh) as (w1 & Hs1 & Hok1 & Hf1 & Hp1 & E).
  rewrite E. clear E. rewrite <- Hp1 in Hp. rewrite (bind_ok _ _ _ _ _ (run_schedule_new _ _ _ _ _ _ _ _ Hp)).
  set (w2 := on_server (with_pool p) w1). pose proof (at_on_server _ _ _ (with_pool p) ltac:(done) Hs1) as Hs2. fold w2 in Hs2.
  destruct ok; cbn [negb].
  - rewrite (bind_ok _ _ tt w2 w2) by done. eexists. split; [by apply (run_release _ _ _ Hs2)|].
    split_and!; [by destruct Hok1; split | done | done | eexists; split; [by eapply at_put | by split]].
  - assert (tc_server_kick_session (Z.to_nat i) (Some (cstr "Server is Busy: Please try again or come back soon."))
              (current_generation s) true w2 = (Stuck Deadlock, w2)) as Ek.
    { unfold tc_server_kick_session. apply bind_stuck. unfold tc_session_aquire_action_lock. by rewrite (run_get _ _ _ _ Hs2). }
    by rewrite (bind_stuck _ _ _ _ _ Ek).
Qed.
End Sessions.

(** ** Examples *)

Definition null_task : tc_thread_pool_context task task_arg := null_context.

Definition sample_pool : tc_thread_pool task task_arg :=
  ThreadPool
    (initial_buffers (replicate 64 null_task) (replicate 128 null_task) (replicate 128 null_task) (replicate 256 null_task))
    (cstr "AABCAABCD") 4 0 0 0 2 false.

Definition idle_session (i : nat) : tc_session :=
  Session [] [0; 0; 0] None false false None None None (-1) false 0 (Z.of_nat i) (-1) 0.

Definition sample_heartbeat : tc_heartbeat_manager :=
  HeartbeatManager (HeartbeatInfo 25565 128 (cstr "TeleClassic") true 7 None false) [] [] false true.

Definition sample_server : tc_server :=
  Server (map idle_session (seq 0 128)) (map Z.of_nat (seq 0 128)) 0 sample_pool sample_heartbeat
    (JoinRouter [cstr "lobby"] (Some 0%nat) 0 false false) (cstr "Welcome") 0 true.

Definition sample_world : world := World sample_server ample_heap (fun _ => 0) 0 [] (no_maps (2 ^ 30)).

Lemma sample_ids_ok : ids_ok sample_server.
Proof.
  split; [reflexivity | unfold TC_SERVER_MAX_SESSIONS; cbn; lia | |].
  - change (free_ids sample_server) with (Z.of_nat <$> seq 0 128). apply NoDup_fmap_2; [apply _ | apply NoDup_seq].
  - change (free_ids sample_server) with (Z.of_nat <$> seq 0 128). apply Forall_fmap, Forall_seq.
    intros j Hj. unfold session_range, TC_SERVER_MAX_SESSIONS. cbn. lia.
Qed.

(** Joinables that let everyone in. *)
Definition open_joinables : Joinables :=
  {| attempt_join _ _ _ _ _ := mret true;
     leave _ _ _ _ := mret tt;
     joinable_set_block _ _ _ _ _ _ _ _ _ := mret true;
     joinable_position_update _ _ _ _ _ _ _ _ _ := mret true;
     joinable_server_stop _ := mret tt |}.

(** A set block packet in three pieces, with a delay and the start of the next. *)
Definition sample_connection : connection :=
  Connection ideal_socket [Arrived 5 [0; 1]; NoData; Arrived 0 [2; 0; 3]; Arrived 1 [49; 8; 255]].

Lemma packet_framing_witness :
  @complete signed_char_abi handle_player_set_block 5 [0; 1; 0; 2; 0; 3; 1; 49] [8; 255]
    (with_socket (Some sample_connection) (idle_session 0)) ample_heap.
Proof.
  apply (@packet_framing signed_char_abi (with_socket (Some sample_connection) (idle_session 0)) ample_heap sample_connection);
    [exact ample_heap_plentiful | reflexivity | reflexivity | repeat constructor | reflexivity | lia | reflexivity | reflexivity].
Defined.

Lemma payload_error_ignored_witness :
  let s := with_pending 5 (Some [0; 1]) (with_socket (Some (Connection ideal_socket [RecvFailed])) (idle_session 0)) in
  (exists s', @read_packet signed_char_abi s ample_heap = Some (ReadOn None, s', ample_heap) /\ goes_on (ReadOn None) = true) /\
  (exists s', @read_packet signed_char_abi (with_pending (-1) None s) ample_heap
                = Some (ReadOn (Some P_ERROR_IO_FAILED), s', ample_heap) /\
              goes_on (ReadOn (Some P_ERROR_IO_FAILED)) = false).
Proof.
  intros s. apply (@payload_error_ignored signed_char_abi s ample_heap (Connection ideal_socket [RecvFailed]) [0; 1] []);
    [reflexivity | discriminate | reflexivity | reflexivity].
Defined.

Lemma session_allocated_witness :
  exists w', @handle_new_session open_joinables sample_connection sample_world = (Ok tt, w') /\
    free_ids (w_server w') = map Z.of_nat (seq 1 127) /\
    exists s', at_session 0 w' s' /\ clean_session 0 sample_connection 0 s'.
Proof.
  destruct (tc_thread_schedule_new (thread_pool sample_server) (Some tc_server_client_listen_task) (Some (ArgSession 0))
              PRIORITY_LOW 0) as [[[ok p] ws]|] eqn:E; [|vm_compute in E; discriminate E].
  assert (ok = true) as -> by (vm_compute in E; injection E as <- _ _; reflexivity).
  destruct (@session_allocated open_joinables sample_connection sample_world (idle_session 0) 0 (map Z.of_nat (seq 1 127)) true p ws
    sample_ids_ok eq_refl eq_refl eq_refl ample_heap_plentiful E) as (w' & Ew & _ & Hf & _ & Hs).
  exists w'. split_and!; [exact Ew | exact Hf | exact Hs].
Defined.

(** The server with client 0 connected and authenticated. *)
Definition connected_server : tc_server :=
  with_players 1
    (with_sessions (<[0%nat := with_service (Some 0%nat) (with_socket (Some sample_connection) (idle_session 0))]> (session_buffer sample_server))
       (with_ids (id_buffer sample_server) 1 sample_server)).

Lemma connected_ids_ok : ids_ok connected_server.
Proof.
  destruct (ids_ok_pop sample_server 0 (map Z.of_nat (seq 1 127)) sample_ids_ok eq_refl) as (_ & _ & [H1 H2 H3 H4] & _).
  split; [exact H1 | exact H2 | exact H3 | exact H4].
Qed.

Lemma session_returned_witness :
  exists w', @disconnect_session open_joinables 0 0 (World connected_server ample_heap (fun _ => 0) 0 [] (no_maps (2 ^ 30))) = (Ok tt, w') /\
    free_ids (w_server w') = map Z.of_nat (seq 0 128) /\ active_players (w_server w') = 0.
Proof.
  destruct (@session_returned open_joinables 0 (World connected_server ample_heap (fun _ => 0) 0 [] (no_maps (2 ^ 30)))
    (with_service (Some 0%nat) (with_socket (Some sample_connection) (idle_session 0))) 0) as (w' & s' & E & _ & Hf & _ & _ & Ha).
  - intros j g w s Hs. exists w. repeat split. exact Hs.
  - exact connected_ids_ok.
  - reflexivity.
  - discriminate.
  - reflexivity.
  - cbn. unfold session_range, TC_SERVER_MAX_SESSIONS. lia.
  - apply (bool_decide_unpack (0 ∉ free_ids connected_server)). vm_compute. exact I.
  - exists w'. split; [exact E|]. split; [exact Hf | exact Ha].
Defined.
