(* ===== verification/Joinable.v ===== *)
(** * Worlds players can join

    [src/src/joinable.c]: the router from names to joinables and the move of a
    session into one.  A reader-writer lock is the number of its readers and
    whether a writer holds it. *)

From S2P Require Import Prelude Socket Protocol ThreadPool Heartbeat Objects Session.

Local Open Scope Z_scope.

Definition set_router_lock (r : tc_join_router) (readers : nat) (writer : bool) : tc_join_router :=
  JoinRouter (joinables r) (default_joinable r) readers writer (router_stopped r).

Definition p_rwlock_reader_lock : M unit :=
  r ← gets join_router;
  if router_writer r then stuck Deadlock
  else modify (with_router (set_router_lock r (S (router_readers r)) (router_writer r))).

Definition p_rwlock_reader_unlock : M unit :=
  r ← gets join_router;
  match router_readers r with
  | O => stuck BadUnlock
  | S n => modify (with_router (set_router_lock r n (router_writer r)))
  end.

Definition p_rwlock_writer_lock : M unit :=
  r ← gets join_router;
  if router_writer r || negb (router_readers r =? 0)%nat then stuck Deadlock
  else modify (with_router (set_router_lock r (router_readers r) true)).

Definition p_rwlock_writer_unlock : M unit :=
  r ← gets join_router;
  if router_writer r then modify (with_router (set_router_lock r (router_readers r) false)) else stuck BadUnlock.

(** [find_joinable_callback] over the list: the first match is kept. *)
Fixpoint find_joinable_loop (names : list (list Z)) (i : nat) (address : list Z) (best_match : option nat) :
    option nat :=
  match names with
  | [] => best_match
  | name :: names' =>
      let best_match' :=
        match best_match with
        | Some j => Some j
        | None => if strcmp name address =? 0 then Some i else None
        end in
      find_joinable_loop names' (S i) address best_match'
  end.

Definition is_default_address (address : option (list Z)) : bool :=
  match address with
  | None => true
  | Some a => (strcmp a (cstr "default") =? 0) || (strcmp a [] =? 0)
  end.

Definition tc_find_joinable (address : option (list Z)) : M (option nat) :=
  r ← gets join_router;
  match address with
  | Some a =>
      if is_default_address address then mret (default_joinable r)
      else
        _ ← p_rwlock_reader_lock;
        if router_stopped r then mret None
        else
          let best_match := find_joinable_loop (joinables r) 0 a None in
          _ ← p_rwlock_reader_unlock;
          mret best_match
  | None => mret (default_joinable r)
  end.

(** [lock_ok]: the lock could be created. *)
Definition tc_join_router_init (names : list (list Z)) (default_joinable_name : option (list Z)) (lock_ok : bool) :
    M bool :=
  _ ← modify (with_router (JoinRouter names None 0 false false));
  if negb lock_ok then mret false
  else
    j ← tc_find_joinable default_joinable_name;
    r ← gets join_router;
    _ ← modify (with_router (JoinRouter (joinables r) j (router_readers r) (router_writer r) (router_stopped r)));
    mret true.

Section Joinable.
Context {abi : CharABI} {jn : Joinables}.

Fixpoint stop_joinables (n i : nat) : M unit :=
  match n with
  | O => mret tt
  | S n' => _ ← joinable_server_stop i; stop_joinables n' (S i)
  end.

Definition tc_join_router_stop_all : M unit :=
  _ ← p_rwlock_writer_lock;
  r ← gets join_router;
  if router_stopped r then mret tt
  else
    _ ← modify (with_router (JoinRouter (joinables r) (default_joinable r) (router_readers r) (router_writer r) true));
    _ ← stop_joinables (length (joinables r)) 0;
    p_rwlock_writer_unlock.

Definition tc_join_router_finalize : M unit :=
  r ← gets join_router;
  when (negb (router_stopped r)) tc_join_router_stop_all.

Definition TC_MESSAGE_TYPE_CHAT : Z := 0.

(** [tc_api_send_message] of [api.c]. *)
Definition tc_api_send_message (sid : nat) (message_type : Z) (message : list Z) : M bool :=
  s ← get_session sid;
  if 0 <? tc_session_get_extension_version s TC_CPE_MESSAGE_TYPES_EXTENSION_INDEX
  then sending sid (tc_protocol_send_message (to_char message_type) message)
  else sending sid (tc_protocol_send_message 0 message).

(** The tail after a failed [attempt_join]. *)
Definition reroute_to_default (sid : nat) (address : option (list Z))
    (current_priority : tc_thread_pool_task_priority) (session_generation : Z) (aquire_lock : bool) : M bool :=
  told ← tc_api_send_message sid TC_MESSAGE_TYPE_CHAT (cstr "Failed to join world.");
  if negb told then
    _ ← tc_server_kick_session sid
          (Some (cstr "Failed to send message indicating that the player can't join the world.")) (-1) false;
    _ ← when aquire_lock (tc_session_release_action_lock sid);
    mret false
  else
    r ← gets join_router;
    d ← checked (default_joinable r);
    joined ← attempt_join d sid address current_priority session_generation;
    if negb joined then
      _ ← tc_server_kick_session sid
            (Some (cstr "Failed to reroute you to default/lobby after failing to join a world.")) (-1) false;
      _ ← when aquire_lock (tc_session_release_action_lock sid);
      mret false
    else
      _ ← update_session sid (with_joinable (Some d));
      _ ← when aquire_lock (tc_session_release_action_lock sid);
      mret true.

Definition tc_session_join (sid : nat) (address : option (list Z))
    (current_priority : tc_thread_pool_task_priority) (session_generation : Z) (aquire_lock : bool) : M bool :=
  found ← tc_find_joinable address;
  match found with
  | None => mret true
  | Some joinable =>
      locked ← (if aquire_lock then tc_session_aquire_action_lock sid session_generation else mret true);
      if negb locked then mret false
      else
        s ← get_session sid;
        _ ← match current_joinable s with
            | Some old => leave old sid current_priority session_generation
            | None => mret tt
            end;
        joined ← attempt_join joinable sid address current_priority session_generation;
        if negb joined then reroute_to_default sid address current_priority session_generation aquire_lock
        else
          _ ← update_session sid (with_joinable (Some joinable));
          _ ← when aquire_lock (tc_session_release_action_lock sid);
          mret true
  end.
End Joinable.
