(* ===== verification/JoinableProps.v ===== *)
(** * What the router promises

    Lookups of joinables by name, while the router runs and after it was
    stopped. *)

From S2P Require Import Prelude Socket Protocol ThreadPool Heartbeat Objects Session SessionSpec Joinable Server ServerProps.

Local Open Scope Z_scope.

(** [i] is the first name equal to [a], counted from [base]. *)
Definition first_named (names : list (list Z)) (base : nat) (a : list Z) (r : option nat) : Prop :=
  match r with
  | None => Forall (fun n => c_content n <> c_content a) names
  | Some i =>
      (base <= i)%nat /\ (exists n, names !! (i - base)%nat = Some n /\ c_content n = c_content a) /\
      forall j n, (j < i - base)%nat -> names !! j = Some n -> c_content n <> c_content a
  end.

Lemma find_joinable_found names base a j : find_joinable_loop names base a (Some j) = Some j.
Proof. revert base. induction names as [|n names IH]; intros base; [done|]. apply IH. Qed.

Lemma find_joinable_first names base a : first_named names base a (find_joinable_loop names base a None).
Proof.
  revert base. induction names as [|n names IH]; intros base; cbn [find_joinable_loop]; [constructor|].
  destruct (Z.eqb_spec (strcmp n a) 0) as [E|E]; rewrite strcmp_eq in E.
  - rewrite find_joinable_found. split; [done|]. rewrite Nat.sub_diag. split; [by exists n|]. lia.
  - specialize (IH (S base)). destruct (find_joinable_loop names (S base) a None) as [i|]; cbn in *; [|by constructor].
    destruct IH as (Hb & (n' & Hn' & En') & Hlt). split; [lia|]. replace (i - base)%nat with (S (i - S base)) by lia.
    split; [by exists n'|]. intros [|j] m Hj Hm; cbn in Hm; [by injection Hm as <-|]. eapply Hlt; [|done]. lia.
Qed.

(** Looking a world up by a name that is not the default's: a running router
    answers the first joinable of that name, or none when there is none, and is
    left as it was.  A stopped one answers none but keeps a reader lock, and
    the next attempt to take the writer lock never returns. *)
Theorem find_joinable_spec {jn : Joinables} a w :
  is_default_address (Some a) = false -> router_writer (join_router (w_server w)) = false ->
  let r := join_router (w_server w) in
  exists found w', tc_find_joinable (Some a) w = (Ok found, w') /\
    if router_stopped r
    then found = None /\ router_readers (join_router (w_server w')) = S (router_readers r) /\
         (tc_join_router_stop_all w').1 = Stuck Deadlock
    else first_named (joinables r) 0 a found /\ join_router (w_server w') = r.
Proof.
  intros Hd Hw r. subst r. destruct w as [v h e n c mp]. cbn [w_server] in *. unfold tc_find_joinable.
  rewrite (bind_ok (gets join_router) _ (join_router v) _ (World v h e n c mp)) by done. rewrite Hd.
  set (w1 := on_server (with_router (set_router_lock (join_router v) (S (router_readers (join_router v))) false)) (World v h e n c mp)).
  assert (p_rwlock_reader_lock (World v h e n c mp) = (Ok tt, w1)) as E1.
  { unfold p_rwlock_reader_lock. rewrite (bind_ok (gets join_router) _ (join_router v) _ (World v h e n c mp)) by done. by rewrite Hw. }
  rewrite (bind_ok _ _ _ _ _ E1). destruct (router_stopped (join_router v)) eqn:Est.
  - exists None, w1. split_and!; done.
  - assert (p_rwlock_reader_unlock w1 = (Ok tt, on_server (with_router (join_router v)) w1)) as E2.
    { unfold p_rwlock_reader_unlock. destruct v as [sb ib hd p m [js d rd wr st] mo a' s']. cbn in *. by subst. }
    rewrite (bind_ok _ _ _ _ _ E2). eexists _, _. split; [reflexivity|]. split; [apply find_joinable_first | done].
Qed.

(** The lobby of the sample server, before and after it is stopped. *)
Definition stopped_world : world :=
  on_server (with_router (JoinRouter [cstr "lobby"] (Some 0%nat) 0 false true)) sample_world.

Lemma find_joinable_spec_witness :
  (exists w', tc_find_joinable (Some (cstr "lobby")) sample_world = (Ok (Some 0%nat), w') /\
     join_router (w_server w') = join_router sample_server) /\
  (exists w', tc_find_joinable (Some (cstr "lobby")) stopped_world = (Ok None, w') /\
     (@tc_join_router_stop_all open_joinables w').1 = Stuck Deadlock).
Proof.
  split.
  - destruct (@find_joinable_spec open_joinables (cstr "lobby") sample_world eq_refl eq_refl) as (found & w' & E & _ & Hr).
    exists w'. split; [|exact Hr]. rewrite E. f_equal. vm_compute in E. injection E as <- _. reflexivity.
  - destruct (@find_joinable_spec open_joinables (cstr "lobby") stopped_world eq_refl eq_refl) as (found & w' & E & Hf & _ & Hs).
    exists w'. split; [by rewrite <- Hf | exact Hs].
Defined.
