(* ===== verification/Handler.v ===== *)
(** * Packet handlers

    [src/src/handler.c]: the handshake with its negotiation of extensions, and
    the packets of a player in a world.  [run_task] is what a worker of the
    pool does with a client task it has taken. *)

From S2P Require Import Prelude Socket Protocol ThreadPool Heartbeat Objects Session Server Joinable.

Local Open Scope Z_scope.

Definition TC_PROTOCOL_USER_TYPE_STANDARD : Z := 0x00.

Section Handler.
Context {abi : CharABI} {md5 : Md5} {jn : Joinables}.

(** The bytes of the pending packet from [offset] on. *)
Definition packet_from (s : tc_session) (offset : nat) : option (list Z) :=
  buffer ← pending_packet_buffer s; Some (drop offset buffer).

Definition packet_short (s : tc_session) (offset : nat) : M Z :=
  checked (p ← packet_from s offset; tc_protocol_decode_short p).

Definition packet_char (s : tc_session) (offset : nat) : M Z :=
  checked (p ← packet_from s offset; cell p 0).

Definition packet_string (s : tc_session) (offset : nat) : M (list Z) :=
  checked (p ← packet_from s offset; fst <$> tc_protocol_decode_string p).

Definition TC_ASSERT (b : bool) : M unit := if b then mret tt else stuck AssertionFailed.

(** ** The handshake *)

(** The lock is held by the caller; every way out but the first releases it. *)
Definition finalize_player_identification (sid : nat) (priority : tc_thread_pool_task_priority)
    (session_generation : Z) : M unit :=
  v ← gets id;
  identify_success ← sending sid (tc_protocol_server_identification (server_name (hm_info (heartbeat_manager v)))
                                    (motd v) TC_PROTOCOL_USER_TYPE_STANDARD);
  if negb identify_success then
    tc_server_kick_session sid (Some (cstr "Could not send server identification packet.")) (-1) false
  else
    _ ← tc_server_protocol_handler_cleanup sid None priority session_generation;
    _ ← modify (fun v => with_players (s32 (active_players v + 1)) v);
    joined ← tc_session_join sid None priority session_generation false;
    _ ← (if negb joined
         then tc_server_kick_session sid (Some (cstr "Failed to join default/lobby.")) session_generation true
         else mret tt);
    tc_session_release_action_lock sid.

Fixpoint send_extentries (sid : nat) (extensions : list tc_cpe_extension) : M bool :=
  match extensions with
  | [] => mret true
  | e :: extensions' =>
      extentry_success ← sending sid (tc_cpe_send_extentry (ext_name e) (ext_version e));
      if negb extentry_success then mret false else send_extentries sid extensions'
  end.

Definition run_begin_cpe_negotiation (sid : nat) (priority : tc_thread_pool_task_priority) (session_generation : Z) :
    M unit :=
  locked ← tc_session_aquire_action_lock sid session_generation;
  if negb locked then mret tt
  else
    s ← get_session sid;
    _ ← TC_ASSERT (supports_cpe s);
    extinfo_success ← sending sid (tc_cpe_send_extinfo (cstr "TeleClassic26"));
    if negb extinfo_success then kick_and_release sid "Could not send CPE extinfo packet."
    else
      extentries_success ← send_extentries sid tc_supported_extensions;
      if negb extentries_success then kick_and_release sid "Could not send CPE extentry packet."
      else
        _ ← tc_server_protocol_handler_cleanup sid (Some tc_server_client_listen_task) priority session_generation;
        tc_session_release_action_lock sid.

Definition run_cpe_extinfo (sid : nat) (priority : tc_thread_pool_task_priority) (session_generation : Z) : M unit :=
  locked ← tc_session_aquire_action_lock sid session_generation;
  if negb locked then mret tt
  else
    s ← get_session sid;
    _ ← TC_ASSERT (supports_cpe s);
    if 0 <=? remaining_cpe_ext_packets s
    then kick_and_release sid "Client cannot send more than 1 CPE extinfo packet."
    else
      _ ← packet_string s 0;
      extension_count ← packet_short s TC_PROTOCOL_MAX_STR_LEN;
      _ ← update_session sid (with_remaining extension_count);
      _ ← tc_server_protocol_handler_cleanup sid (Some tc_server_client_listen_task) priority session_generation;
      tc_session_release_action_lock sid.

(** [ext_cpe_versions[i / 4] |= (version & 3) << (i % 4 * 2)] *)
Definition record_version (versions : list Z) (extension_index extension_version : Z) : list Z :=
  let i := Z.to_nat (extension_index / 4) in
  let old := to_char (default 0 (versions !! i)) in
  let bits := Z.shiftl (Z.land extension_version 0x3) (extension_index mod 4 * 2) in
  <[i := u8 (Z.lor old bits)]> versions.

Definition one_ext_packet_less (s : tc_session) : tc_session :=
  with_remaining (s16 (remaining_cpe_ext_packets s - 1)) s.

(** After the last entry: ask for the block support level, or finish. *)
Definition finish_negotiation (sid : nat) (priority : tc_thread_pool_task_priority) (session_generation : Z) : M unit :=
  s ← get_session sid;
  if 0 <? tc_session_get_extension_version s TC_CPE_CUSTOM_BLOCKS_EXTENSION_INDEX then
    sent ← sending sid (tc_cpe_send_custom_block_support_level TC_CPE_CUSTOM_BLOCKS_MAX_SUPPORT_LEVEL);
    _ ← (if negb sent
         then tc_server_kick_session sid (Some (cstr "Could not send custom block support level packet.")) (-1) false
         else mret tt);
    tc_server_protocol_handler_cleanup sid (Some tc_server_client_listen_task) priority session_generation
  else finalize_player_identification sid priority session_generation.

Definition run_cpe_extentry (sid : nat) (priority : tc_thread_pool_task_priority) (session_generation : Z) : M unit :=
  locked ← tc_session_aquire_action_lock sid session_generation;
  if negb locked then mret tt
  else
    s ← get_session sid;
    _ ← TC_ASSERT (supports_cpe s);
    if remaining_cpe_ext_packets s =? 0
    then kick_and_release sid "Client has already sent all extension packets."
    else
      extension_name ← packet_string s 0;
      let extension_index := tc_cpe_get_extension_index extension_name in
      if extension_index <? 0 then
        _ ← update_session sid one_ext_packet_less;
        _ ← tc_server_protocol_handler_cleanup sid (Some tc_server_client_listen_task) priority session_generation;
        tc_session_release_action_lock sid
      else
        client_extension_version ← checked (p ← packet_from s TC_PROTOCOL_MAX_STR_LEN; tc_protocol_decode_int p);
        supported ← checked (tc_supported_extensions !! Z.to_nat extension_index);
        let extension_version := Z.min client_extension_version (ext_version supported) in
        if (extension_version <? 1) || (3 <? extension_version) then
          _ ← update_session sid one_ext_packet_less;
          kick_and_release sid "Invalid extension version: TeleClassic26 only supports extensions 1-3."
        else
          _ ← update_session sid (fun s => with_versions (record_version (ext_cpe_versions s) extension_index extension_version) s);
          _ ← update_session sid one_ext_packet_less;
          s ← get_session sid;
          _ ← (if remaining_cpe_ext_packets s =? 0 then finish_negotiation sid priority session_generation
               else tc_server_protocol_handler_cleanup sid (Some tc_server_client_listen_task) priority session_generation);
          tc_session_release_action_lock sid.

Definition run_cpe_custom_block_support_level (sid : nat) (priority : tc_thread_pool_task_priority)
    (session_generation : Z) : M unit :=
  locked ← tc_session_aquire_action_lock sid session_generation;
  if negb locked then mret tt
  else
    s ← get_session sid;
    _ ← TC_ASSERT (supports_cpe s);
    level ← packet_char s 0;
    _ ← update_session sid (with_level level);
    _ ← finalize_player_identification sid priority session_generation;
    tc_session_release_action_lock sid.

(** [tc_heartbeat_manager_validate] on the server's manager. *)
Definition authenticate (name key : list Z) : M (option nat) := fun w =>
  let '(service, m, h) := tc_heartbeat_manager_validate (heartbeat_manager (w_server w)) name key (w_heap w) in
  (Ok service, World (with_heartbeat m (w_server w)) h (w_elapsed w) (w_reads w) (w_closed w) (w_maps w)).

Definition run_player_identification (sid : nat) (priority : tc_thread_pool_task_priority) (session_generation : Z) :
    M unit :=
  locked ← tc_session_aquire_action_lock sid session_generation;
  if negb locked then mret tt
  else
    s ← get_session sid;
    match authenticated_service s with
    | Some _ => kick_and_release sid "Already Identified: Your client has a bug."
    | None =>
        version ← packet_char s 0;
        if negb (version =? TC_PROTOCOL_VERSION)
        then kick_and_release sid "Invalid Protocol Version: Please update your client."
        else
          name ← packet_string s 1;
          _ ← update_session sid (with_username name);
          key ← packet_string s (1 + TC_PROTOCOL_MAX_STR_LEN);
          service ← authenticate name key;
          _ ← update_session sid (with_service service);
          match service with
          | None => kick_and_release sid "Could not validate your identity."
          | Some _ =>
              magic ← packet_char s 129;
              _ ← update_session sid (with_cpe (magic =? 0x42));
              _ ← (if magic =? 0x42
                   then tc_server_protocol_handler_cleanup sid (Some handle_begin_cpe_negotiation) priority session_generation
                   else finalize_player_identification sid priority session_generation);
              tc_session_release_action_lock sid
          end
    end.

(** ** In a world *)

Definition run_player_set_block (sid : nat) (priority : tc_thread_pool_task_priority) (session_generation : Z) : M unit :=
  locked ← tc_session_aquire_action_lock sid session_generation;
  if negb locked then mret tt
  else
    s ← get_session sid;
    x ← packet_short s 0; y ← packet_short s 2; z ← packet_short s 4;
    mode ← packet_char s 6;
    block ← (if 0 <? tc_session_get_extension_version s TC_CPE_CUSTOM_BLOCKS_EXTENSION_INDEX
             then packet_short s 7 else packet_char s 7);
    match current_joinable s with
    | Some j =>
        handled ← joinable_set_block j sid x y z mode block priority session_generation;
        if negb handled then kick_and_release sid "Failed to handle set block request."
        else
          _ ← tc_server_protocol_handler_cleanup sid (Some tc_server_client_listen_task) priority session_generation;
          tc_session_release_action_lock sid
    | None => kick_and_release sid "Client cannot currently set blocks."
    end.

Definition run_player_position_and_orientation_update (sid : nat) (priority : tc_thread_pool_task_priority)
    (session_generation : Z) : M unit :=
  locked ← tc_session_aquire_action_lock sid session_generation;
  if negb locked then mret tt
  else
    s ← get_session sid;
    let offset := if 0 <? tc_session_get_extension_version s TC_CPE_CUSTOM_BLOCKS_EXTENSION_INDEX then 2%nat else 1%nat in
    x ← packet_short s offset; y ← packet_short s (offset + 2); z ← packet_short s (offset + 4);
    heading ← packet_char s (offset + 6); pitch ← packet_char s (offset + 7);
    match current_joinable s with
    | Some j =>
        handled ← joinable_position_update j sid x y z heading pitch priority session_generation;
        if negb handled then kick_and_release sid "Failed to handle position and orientation update request."
        else
          _ ← tc_server_protocol_handler_cleanup sid (Some tc_server_client_listen_task) priority session_generation;
          tc_session_release_action_lock sid
    | None => kick_and_release sid "Client cannot currently update their position and orientation."
    end.

(** ** A worker running a client task *)

(** The tasks whose argument is the session; the others belong to the listening
    socket and to maps on their way to a client. *)
Definition takes_session (t : task) : bool :=
  match t with
  | listener_worker_task | tc_map_cache_load_task | on_map_load_success | tc_send_map_task2
  | tc_send_buffer_task | tc_send_buffer_handle_failure | client_task _ => false
  | _ => true
  end.

Definition run_task (t : task) (sid : nat) (priority : tc_thread_pool_task_priority) (session_generation : Z) : M unit :=
  match t with
  | tc_server_client_listen_task => run_client_listen_task sid priority session_generation
  | tc_server_shutdown_client_task => run_shutdown_client_task sid priority session_generation
  | handle_begin_cpe_negotiation => run_begin_cpe_negotiation sid priority session_generation
  | handle_cpe_extinfo => run_cpe_extinfo sid priority session_generation
  | handle_cpe_extentry => run_cpe_extentry sid priority session_generation
  | handle_cpe_custom_block_support_level => run_cpe_custom_block_support_level sid priority session_generation
  | handle_player_identification => run_player_identification sid priority session_generation
  | handle_player_set_block => run_player_set_block sid priority session_generation
  | handle_player_position_and_orientation_update =>
      run_player_position_and_orientation_update sid priority session_generation
  | _ => stuck BadAccess      (* a task whose argument is not a session *)
  end.
End Handler.
