(* ===== verification/HandlerProps.v ===== *)
(** * What the handshake promises

    Tasks of an ended session do nothing; negotiated versions are recorded
    without disturbing each other; and two places where the handshake goes
    wrong. *)

From S2P Require Import Prelude Socket Protocol ProtocolSpec ThreadPool Heartbeat Objects Session SessionSpec.
From S2P Require Import Server ServerProps Joinable Handler.

Local Open Scope Z_scope.

Section Handler.
Context {abi : CharABI} {md5 : Md5} {jn : Joinables}.

(** ** Stale tasks *)

(** C17. A client task whose generation is not the session's any more (because
    the client was disconnected, or the session serves another client by now)
    returns without any effect, whichever task it is. *)
Theorem stale_task_ignored t sid q g w s :
  takes_session t = true -> at_session sid w s -> action_lock s = false -> current_generation s <> g ->
  run_task t sid q g w = (Ok tt, w).
Proof.
  intros Ht Hs Hl Hg. pose proof (run_aquire_stale sid w s g Hs Hl Hg) as E.
  destruct t; cbn [run_task]; try done;
    try (by unfold run_client_listen_task, run_begin_cpe_negotiation, run_cpe_extinfo, run_cpe_extentry,
           run_cpe_custom_block_support_level, run_player_identification, run_player_set_block,
           run_player_position_and_orientation_update; rewrite (bind_ok _ _ _ _ _ E)).
  unfold run_shutdown_client_task, tc_server_kick_session. by rewrite (bind_ok _ _ _ _ _ E).
Qed.

(** ** Negotiated versions *)

Lemma version_bit s j n :
  0 <= j < 10 -> 0 <= n ->
  Z.testbit (tc_session_get_extension_version s j) n
  = (n <? 2) && Z.testbit (to_char (default 0 (ext_cpe_versions s !! Z.to_nat (j / 4)))) (n + j mod 4 * 2).
Proof.
  intros Hj Hn. unfold tc_session_get_extension_version, TC_CPE_EXTENSION_MAX_SUPPORTED.
  destruct (Z.ltb_spec j 0); [lia|]. destruct (Z.leb_spec 10 j); [lia|]. cbn [orb].
  rewrite Z.land_spec, Z.shiftr_spec by lia. change 3 with (Z.ones 2). rewrite andb_comm. f_equal.
  destruct (Z.ltb_spec n 2); [apply Z.ones_spec_low; lia | apply Z.ones_spec_high; lia].
Qed.

Lemma to_char_low_bit b i : 0 <= i < 8 -> Z.testbit (to_char (u8 b)) i = Z.testbit b i.
Proof.
  intros Hi. rewrite testbit_to_char by (done || apply u8_range). unfold wrapu. by rewrite Z.mod_pow2_bits_low by lia.
Qed.

(** Recording a version adds its bits to the extension's own and leaves the
    other extensions alone. *)
Lemma record_version_get s i v j :
  length (ext_cpe_versions s) = 3%nat -> 0 <= i < 10 -> 0 <= j < 10 -> 0 <= v <= 3 ->
  tc_session_get_extension_version (with_versions (record_version (ext_cpe_versions s) i v) s) j
  = if j =? i then Z.lor (tc_session_get_extension_version s j) v else tc_session_get_extension_version s j.
Proof.
  intros Hl Hi Hj Hv. apply Z.bits_inj'. intros n Hn.
  assert (Z.land v 3 = v) as Hv3 by (change 3 with (Z.ones 2); rewrite Z.land_ones by lia; apply Z.mod_small; cbn; lia).
  assert (forall m, 2 <= m -> Z.testbit v m = false) as Hhigh by (intros m Hm; apply (testbit_small 2); cbn; lia).
  rewrite version_bit by done. cbn [with_versions ext_cpe_versions]. unfold record_version. rewrite Hv3.
  assert (Z.to_nat (i / 4) < 3)%nat by (assert (0 <= i / 4 < 3) by div_mod_lia; lia).
  destruct (Z.eqb_spec j i) as [->|Hne].
  - rewrite list_lookup_insert_eq by (rewrite Hl; lia). cbn [default]. unfold id. rewrite Z.lor_spec, version_bit by done.
    destruct (Z.ltb_spec n 2); cbn [andb orb]; [|by rewrite Hhigh by lia].
    rewrite to_char_low_bit by div_mod_lia. rewrite Z.lor_spec, Z.shiftl_spec by div_mod_lia. do 2 f_equal. lia.
  - rewrite version_bit by done. destruct (Z.ltb_spec n 2); cbn [andb]; [|done].
    destruct (decide (j / 4 = i / 4)) as [Eq|Eq].
    + rewrite Eq, list_lookup_insert_eq by (rewrite Hl; lia). cbn [default]. unfold id.
      rewrite to_char_low_bit by div_mod_lia. rewrite Z.lor_spec, Z.shiftl_spec by div_mod_lia.
      assert (Z.testbit v (n + j mod 4 * 2 - i mod 4 * 2) = false) as ->; [|by rewrite orb_false_r].
      destruct (Z.lt_ge_cases (j mod 4) (i mod 4)); [apply Z.testbit_neg_r; lia|].
      apply Hhigh. assert (j mod 4 <> i mod 4) by div_mod_lia. lia.
    + rewrite list_lookup_insert_ne; [done|]. intros E'. apply Z2Nat.inj in E'; [lia | div_mod_lia | div_mod_lia].
Qed.

(** ** Running the handlers *)

Lemma run_cleanup sid w s t q g p ws :
  at_session sid w s ->
  tc_thread_schedule_next (thread_pool (w_server w)) (Some t) (Some tc_server_shutdown_client_task)
    (Some (ArgSession sid)) q g = Some (p, ws) ->
  tc_server_protocol_handler_cleanup sid (Some t) q g w
  = (Ok tt, on_server (with_pool p) (put sid (with_pending (-1) None s) w)).
Proof.
  intros Hs Hp. unfold tc_server_protocol_handler_cleanup. rewrite (bind_ok _ _ _ _ _ (run_update _ _ _ _ Hs)).
  by eapply run_schedule_next.
Qed.

Lemma supported_versions i e : tc_supported_extensions !! i = Some e -> (i < 10)%nat /\ 1 <= ext_version e <= 2.
Proof.
  intros H. split; [by apply lookup_lt_Some in H|].
  assert (Forall (fun e => 1 <= ext_version e <= 2) tc_supported_extensions) as Hall
    by (repeat constructor; cbn; lia).
  rewrite Forall_lookup in Hall. by eapply Hall.
Qed.

(** An extension entry for extension [i], with more entries to come: the
    smaller of the client's and the server's version is added to what is
    recorded for [i], no other extension changes, one entry less is awaited, and
    the session is unlocked with its next read scheduled. *)
Theorem extentry_recorded sid q g w s b name i e cv p ws :
  at_session sid w s -> action_lock s = false -> current_generation s = g -> supports_cpe s = true ->
  length (ext_cpe_versions s) = 3%nat ->
  remaining_cpe_ext_packets s <> 0 -> s16 (remaining_cpe_ext_packets s - 1) <> 0 ->
  pending_packet_buffer s = Some b -> fst <$> tc_protocol_decode_string b = Some name ->
  tc_cpe_get_extension_index name = Z.of_nat i -> tc_supported_extensions !! i = Some e ->
  tc_protocol_decode_int (drop TC_PROTOCOL_MAX_STR_LEN b) = Some cv -> 1 <= cv ->
  tc_thread_schedule_next (thread_pool (w_server w)) (Some tc_server_client_listen_task)
    (Some tc_server_shutdown_client_task) (Some (ArgSession sid)) q g = Some (p, ws) ->
  exists w' s', run_task handle_cpe_extentry sid q g w = (Ok tt, w') /\ at_session sid w' s' /\
    thread_pool (w_server w') = p /\ action_lock s' = false /\ pending_packet_opcode s' = -1 /\
    remaining_cpe_ext_packets s' = s16 (remaining_cpe_ext_packets s - 1) /\
    forall j, 0 <= j < 10 ->
      tc_session_get_extension_version s' j =
      if j =? Z.of_nat i then Z.lor (tc_session_get_extension_version s j) (Z.min cv (ext_version e))
      else tc_session_get_extension_version s j.
Proof.
  intros Hs Hl Hg Hc Hv Hr0 Hr1 Hb Hname Hi He Hcv Hpos Hp. destruct (supported_versions i e He) as [Hi10 Hev].
  set (v := Z.min cv (ext_version e)). cbn [run_task]. unfold run_cpe_extentry.
  rewrite (bind_ok _ _ _ _ _ (run_aquire _ _ _ _ Hs Hl Hg)). cbn [negb].
  pose proof (at_put _ _ _ (with_lock true s) Hs) as Hs1. rewrite (run_get _ _ _ _ Hs1).
  cbn [with_lock supports_cpe remaining_cpe_ext_packets pending_packet_buffer].
  rewrite (bind_ok (TC_ASSERT _) _ tt (put sid (with_lock true s) w) (put sid (with_lock true s) w)) by (by rewrite Hc).
  destruct (Z.eqb_spec (remaining_cpe_ext_packets s) 0); [done|].
  unfold packet_string, packet_from. cbn [with_lock pending_packet_buffer]. rewrite Hb. cbn [mbind option_bind]. rewrite drop_0.
  rewrite (bind_ok _ _ name _ _ (run_checked _ _ _ Hname)). rewrite Hi.
  destruct (Z.ltb_spec (Z.of_nat i) 0); [lia|]. rewrite (bind_ok _ _ cv _ _ (run_checked _ _ _ Hcv)).
  rewrite Nat2Z.id. rewrite (bind_ok _ _ e _ _ (run_checked _ _ _ He)). fold v.
  destruct (Z.ltb_spec v 1); [lia|]. destruct (Z.ltb_spec 3 v); [lia|]. cbn [orb].
  rewrite (bind_ok _ _ _ _ _ (run_update _ _ _ _ Hs1)). pose proof (at_put _ _ _ (with_versions (record_version (ext_cpe_versions s) (Z.of_nat i) v) (with_lock true s)) Hs1) as Hs2.
  rewrite (bind_ok _ _ _ _ _ (run_update _ _ _ _ Hs2)).
  set (s3 := one_ext_packet_less _). pose proof (at_put _ _ _ s3 Hs2) as Hs3. set (w3 := put sid s3 _) in *.
  rewrite (run_get _ _ _ _ Hs3). change (remaining_cpe_ext_packets s3) with (s16 (remaining_cpe_ext_packets s - 1)).
  destruct (Z.eqb_spec (s16 (remaining_cpe_ext_packets s - 1)) 0); [done|].
  rewrite (bind_ok _ _ _ _ _ (run_cleanup sid w3 s3 _ _ _ p ws Hs3 Hp)).
  pose proof (at_put _ _ _ (with_pending (-1) None s3) Hs3) as Hs4.
  pose proof (at_on_server _ _ _ (with_pool p) ltac:(done) Hs4) as Hs5.
  exists (put sid (with_lock false (with_pending (-1) None s3)) (on_server (with_pool p) (put sid (with_pending (-1) None s3) w3))).
  exists (with_lock false (with_pending (-1) None s3)).
  split_and!; [by apply (run_release _ _ _ Hs5) | by eapply at_put | done | done | done | done |].
  intros j Hj. rewrite <- (record_version_get s (Z.of_nat i) v j) by (done || lia). done.
Qed.

(** ** Two errors of the handshake *)

(** A default world that lets players in and keeps their lock as it was. *)
Definition joins_politely (sid : nat) (q : tc_thread_pool_task_priority) (g : Z) : Prop :=
  forall j w s, at_session sid w s ->
    exists w' s', attempt_join j sid None q g w = (Ok true, w') /\ at_session sid w' s' /\ action_lock s' = action_lock s.

Lemma identification_sent name text cn :
  reliable (cn_out cn) ->
  exists out, tc_protocol_server_identification name text TC_PROTOCOL_USER_TYPE_STANDARD (cn_out cn) = (true, out).
Proof.
  intros Hr. rewrite (send_packet_chunks (ServerIdentification name text TC_PROTOCOL_USER_TYPE_STANDARD) _ _ eq_refl).
  rewrite run_chunks_reliable by (done || by apply packet_chunks_nonempty). by eexists.
Qed.

(** Joining the default world when the session is in none. *)
Lemma run_join_default sid w s q g :
  joins_politely sid q g -> at_session sid w s -> current_joinable s = None ->
  exists w' s', tc_session_join sid None q g false w = (Ok true, w') /\ at_session sid w' s' /\ action_lock s' = action_lock s.
Proof.
  intros Hj Hs Hn. unfold tc_session_join, tc_find_joinable.
  rewrite (bind_ok _ _ (default_joinable (join_router (w_server w))) w w) by done.
  destruct (default_joinable _) as [d|]; [|by exists w, s].
  rewrite (bind_ok (mret true) _ true w w) by done. cbn [negb]. rewrite (run_get _ _ _ _ Hs), Hn.
  rewrite (bind_ok (mret tt) _ tt w w) by done. destruct (Hj d w s Hs) as (w1 & s1 & E1 & Hs1 & Hl1).
  rewrite (bind_ok _ _ _ _ _ E1). cbn [negb]. rewrite (bind_ok _ _ _ _ _ (run_update _ _ _ _ Hs1)).
  exists (put sid (with_joinable (Some d) s1) w1), (with_joinable (Some d) s1).
  split_and!; [done | by eapply at_put | done].
Qed.

(** A handshake that succeeds gives the lock up. *)
Lemma finalize_unlocks sid w s cn q g :
  joins_politely sid q g -> at_session sid w s -> action_lock s = true -> client_socket s = Some cn ->
  reliable (cn_out cn) -> current_joinable s = None ->
  exists w' s', finalize_player_identification sid q g w = (Ok tt, w') /\ at_session sid w' s' /\ action_lock s' = false.
Proof.
  intros Hj Hs Hl Hcn Hr Hn. unfold finalize_player_identification.
  rewrite (bind_ok (gets id) _ (w_server w) w w) by done.
  destruct (identification_sent (server_name (hm_info (heartbeat_manager (w_server w)))) (motd (w_server w)) cn Hr) as (out & Eo).
  rewrite (bind_ok _ _ _ _ _ (run_sending _ _ _ _ _ _ Hs Hcn Eo)). cbn [negb].
  pose proof (at_put _ _ _ (with_socket (Some (Connection out (cn_in cn))) s) Hs) as Hs1. set (w1 := put sid _ w) in *.
  assert (tc_server_protocol_handler_cleanup sid None q g w1
          = (Ok tt, put sid (with_pending (-1) None (with_socket (Some (Connection out (cn_in cn))) s)) w1)) as E2.
  { unfold tc_server_protocol_handler_cleanup. by rewrite (bind_ok _ _ _ _ _ (run_update _ _ _ _ Hs1)). }
  rewrite (bind_ok _ _ _ _ _ E2). pose proof (at_put _ _ _ (with_pending (-1) None (with_socket (Some (Connection out (cn_in cn))) s)) Hs1) as Hs2.
  set (w2 := put sid _ w1) in *. set (w3 := on_server (fun v => with_players (s32 (active_players v + 1)) v) w2).
  rewrite (bind_ok (modify _) _ tt w2 w3) by done.
  assert (at_session sid w3 (with_pending (-1) None (with_socket (Some (Connection out (cn_in cn))) s))) as Hs3 by exact Hs2.
  destruct (run_join_default sid w3 _ q g Hj Hs3 Hn) as (w4 & s4 & E4 & Hs4 & Hl4).
  rewrite (bind_ok _ _ _ _ _ E4). cbn [negb]. rewrite (bind_ok (mret tt) _ tt w4 w4) by done.
  exists (put sid (with_lock false s4) w4), (with_lock false s4).
  split_and!; [apply run_release; [done | by rewrite Hl4] | by eapply at_put | done].
Qed.

(** An identification packet of a client without extensions, up to the end of
    the handshake. *)
Lemma identification_accepted sid q g w s b name key i m h :
  at_session sid w s -> action_lock s = false -> current_generation s = g -> authenticated_service s = None ->
  pending_packet_buffer s = Some (TC_PROTOCOL_VERSION :: b) -> length b = 129%nat ->
  fst <$> tc_protocol_decode_string b = Some name -> fst <$> tc_protocol_decode_string (drop 64 b) = Some key ->
  tc_heartbeat_manager_validate (heartbeat_manager (w_server w)) name key (w_heap w) = (Some i, m, h) ->
  to_char (default 0 (last b)) <> 0x42 ->
  let s1 := with_cpe false (with_service (Some i) (with_username name (with_lock true s))) in
  exists w1, at_session sid w1 s1 /\
    run_player_identification sid q g w
    = (_ ← finalize_player_identification sid q g; tc_session_release_action_lock sid) w1.
Proof.
  intros Hs Hl Hg Ha Hb Hlen En Ek Ev Hmagic s1. pose proof (at_put _ _ _ (with_lock true s) Hs) as Hs1.
  unfold run_player_identification. rewrite (bind_ok _ _ _ _ _ (run_aquire _ _ _ _ Hs Hl Hg)). cbn [negb].
  rewrite (run_get _ _ _ _ Hs1). change (authenticated_service (with_lock true s)) with (authenticated_service s). rewrite Ha.
  unfold packet_char, packet_string, packet_from. change (pending_packet_buffer (with_lock true s)) with (pending_packet_buffer s).
  rewrite Hb. cbn [mbind option_bind].
  assert (cell (drop 0 (TC_PROTOCOL_VERSION :: b)) 0 = Some TC_PROTOCOL_VERSION) as E0.
  { change (Some (to_char TC_PROTOCOL_VERSION) = Some TC_PROTOCOL_VERSION). f_equal. apply to_char_small. unfold TC_PROTOCOL_VERSION. lia. }
  rewrite (bind_ok _ _ _ _ _ (run_checked _ _ _ E0)), Z.eqb_refl. cbn [negb].
  change (drop 1 (TC_PROTOCOL_VERSION :: b)) with b. rewrite (bind_ok _ _ name _ _ (run_checked _ _ _ En)).
  rewrite (bind_ok _ _ _ _ _ (run_update _ _ _ _ Hs1)). pose proof (at_put _ _ _ (with_username name (with_lock true s)) Hs1) as Hs2.
  change (drop (1 + TC_PROTOCOL_MAX_STR_LEN) (TC_PROTOCOL_VERSION :: b)) with (drop 64 b).
  rewrite (bind_ok _ _ key _ _ (run_checked _ _ _ Ek)). set (w2 := put sid (with_username name _) _) in *.
  set (w3 := World (with_heartbeat m (w_server w2)) h (w_elapsed w2) (w_reads w2) (w_closed w2) (w_maps w2)).
  assert (authenticate name key w2 = (Ok (Some i), w3)) as E3.
  { unfold authenticate. change (heartbeat_manager (w_server w2)) with (heartbeat_manager (w_server w)).
    change (w_heap w2) with (w_heap w). by rewrite Ev. }
  rewrite (bind_ok _ _ _ _ _ E3). assert (at_session sid w3 (with_username name (with_lock true s))) as Hs3 by exact Hs2.
  rewrite (bind_ok _ _ _ _ _ (run_update _ _ _ _ Hs3)).
  pose proof (at_put _ _ _ (with_service (Some i) (with_username name (with_lock true s))) Hs3) as Hs4.
  assert (exists mg, last b = Some mg /\ cell (drop 129 (TC_PROTOCOL_VERSION :: b)) 0 = Some (to_char mg)) as (mg & Em & Ec).
  { change (drop 129 (TC_PROTOCOL_VERSION :: b)) with (drop 128 b). rewrite last_lookup, Hlen. cbn [Nat.pred].
    destruct (b !! 128%nat) as [mg|] eqn:Em; [|apply lookup_ge_None in Em; lia]. exists mg. split; [done|].
    unfold cell. by rewrite lookup_drop, Nat.add_0_r, Em. }
  rewrite (bind_ok _ _ _ _ _ (run_checked _ _ _ Ec)). rewrite (bind_ok _ _ _ _ _ (run_update _ _ _ _ Hs4)).
  rewrite Em in Hmagic. cbn [default] in Hmagic. unfold id in Hmagic. destruct (Z.eqb_spec (to_char mg) 66); [done|].
  eexists. split; [by eapply at_put | done].
Qed.

(** Every handshake that succeeds unlocks the session's mutex twice: once at
    the end of [finalize_player_identification] and once more in the handler
    that called it.  Shown for a client without extensions and for one that
    reports its block support level. *)
Theorem handshake_unlocks_twice sid q g w s cn c b :
  joins_politely sid q g -> at_session sid w s -> action_lock s = false -> current_generation s = g ->
  client_socket s = Some cn -> reliable (cn_out cn) -> current_joinable s = None ->
  pending_packet_buffer s = Some (c :: b) ->
  (forall name key i m h,
     authenticated_service s = None -> c = TC_PROTOCOL_VERSION -> length b = 129%nat ->
     fst <$> tc_protocol_decode_string b = Some name -> fst <$> tc_protocol_decode_string (drop 64 b) = Some key ->
     tc_heartbeat_manager_validate (heartbeat_manager (w_server w)) name key (w_heap w) = (Some i, m, h) ->
     to_char (default 0 (last b)) <> 0x42 ->
     (run_task handle_player_identification sid q g w).1 = Stuck BadUnlock) /\
  (supports_cpe s = true -> (run_task handle_cpe_custom_block_support_level sid q g w).1 = Stuck BadUnlock).
Proof.
  intros Hj Hs Hl Hg Hcn Hr Hn Hb. split; cbn [run_task].
  - intros name key i m h Ha -> Hlen En Ek Ev Hmagic.
    destruct (identification_accepted sid q g w s b name key i m h) as (w1 & Hs1 & E); try done. rewrite E.
    destruct (finalize_unlocks sid _ _ cn q g Hj Hs1) as (w2 & s2 & E2 & Hs2 & Hl2); [done..|].
    rewrite (bind_ok _ _ _ _ _ E2). by rewrite (run_bad_release _ _ _ Hs2 Hl2).
  - intros Hcpe. pose proof (at_put _ _ _ (with_lock true s) Hs) as Hs1.
    unfold run_cpe_custom_block_support_level. rewrite (bind_ok _ _ _ _ _ (run_aquire _ _ _ _ Hs Hl Hg)). cbn [negb].
    rewrite (run_get _ _ _ _ Hs1).
    rewrite (bind_ok (TC_ASSERT _) _ tt (put sid (with_lock true s) w) (put sid (with_lock true s) w))
      by (cbn [with_lock supports_cpe]; by rewrite Hcpe).
    unfold packet_char, packet_from. change (pending_packet_buffer (with_lock true s)) with (pending_packet_buffer s).
    rewrite Hb. cbn [mbind option_bind]. assert (cell (drop 0 (c :: b)) 0 = Some (to_char c)) as E0 by done.
    rewrite (bind_ok _ _ _ _ _ (run_checked _ _ _ E0)).
    rewrite (bind_ok _ _ _ _ _ (run_update _ _ _ _ Hs1)).
    pose proof (at_put _ _ _ (with_level (to_char c) (with_lock true s)) Hs1) as Hs2.
    destruct (finalize_unlocks sid _ _ cn q g Hj Hs2) as (w3 & s3 & E3 & Hs3 & Hl3); [done..|].
    rewrite (bind_ok _ _ _ _ _ E3). by rewrite (run_bad_release _ _ _ Hs3 Hl3).
Qed.
End Handler.

(** ** Examples *)

Lemma stale_task_ignored_witness :
  @run_task signed_char_abi (fun d => d) open_joinables handle_player_set_block 0 PRIORITY_LOW 7 sample_world
  = (Ok tt, sample_world).
Proof.
  apply (@stale_task_ignored signed_char_abi (fun d => d) open_joinables handle_player_set_block 0 PRIORITY_LOW 7 sample_world
    (idle_session 0)); [reflexivity | reflexivity | reflexivity | discriminate].
Defined.

(** Client 0 has sent an entry for EnvMapAppearance, version 5, with two awaited. *)
Definition entry_packet : list Z := string_buffer (cstr "EnvMapAppearance") ++ [0; 0; 0; 5].

Definition negotiating : tc_session :=
  with_remaining 2 (with_pending 0x11 (Some entry_packet) (with_cpe true (with_socket (Some sample_connection) (idle_session 0)))).

Definition negotiating_world : world := put 0 negotiating sample_world.

Lemma extentry_recorded_witness :
  exists w' s', @run_task signed_char_abi (fun d => d) open_joinables handle_cpe_extentry 0 PRIORITY_LOW 0 negotiating_world
                = (Ok tt, w') /\ at_session 0 w' s' /\
    @tc_session_get_extension_version signed_char_abi s' 6 = 2 /\ @tc_session_get_extension_version signed_char_abi s' 5 = 0.
Proof.
  destruct (tc_thread_schedule_next sample_pool (Some tc_server_client_listen_task) (Some tc_server_shutdown_client_task)
              (Some (ArgSession 0)) PRIORITY_LOW 0) as [[p ws]|] eqn:E; [|vm_compute in E; discriminate E].
  destruct (@extentry_recorded signed_char_abi (fun d => d) open_joinables 0 PRIORITY_LOW 0 negotiating_world negotiating
    entry_packet (cstr "EnvMapAppearance" ++ replicate 48 0) 6 (CpeExtension (cstr "EnvMapAppearance") 2) 5 p ws)
    as (w' & s' & Ew & Hs & _ & _ & _ & _ & Hv);
    [reflexivity | reflexivity | reflexivity | reflexivity | reflexivity | discriminate | discriminate | reflexivity
    | vm_compute; reflexivity | vm_compute; reflexivity | reflexivity | vm_compute; reflexivity | lia | exact E |].
  exists w', s'. split; [exact Ew|]. split; [exact Hs|]. rewrite !Hv by lia. split; reflexivity.
Defined.

(** A client without extensions identifies itself to a debugging service. *)
Definition identification_packet : list Z :=
  string_buffer (cstr "ann") ++ string_buffer (cstr "key") ++ [0].

Definition identifying_world : world :=
  put 0 (with_pending 0 (Some (TC_PROTOCOL_VERSION :: identification_packet))
           (with_socket (Some sample_connection) (idle_session 0)))
    (on_server (with_heartbeat (HeartbeatManager (hm_info sample_heartbeat)
       [HeartbeatService (replicate 16 65) None (cstr "debug") 80 false true] [] false true)) sample_world).

Lemma handshake_unlocks_twice_witness :
  (@run_task signed_char_abi (fun d => d) open_joinables handle_player_identification 0 PRIORITY_LOW 0 identifying_world).1
  = Stuck BadUnlock.
Proof.
  destruct (@handshake_unlocks_twice signed_char_abi (fun d => d) open_joinables 0 PRIORITY_LOW 0 identifying_world
    (with_pending 0 (Some (TC_PROTOCOL_VERSION :: identification_packet))
       (with_socket (Some sample_connection) (idle_session 0))) sample_connection TC_PROTOCOL_VERSION identification_packet)
    as [H _]; [|reflexivity | reflexivity | reflexivity | reflexivity | exact ideal_socket_reliable | reflexivity | reflexivity |].
  - intros j w s Hs. exists w, s. split; [reflexivity|]. split; [exact Hs | reflexivity].
  - destruct (@tc_heartbeat_manager_validate (fun d => d) (heartbeat_manager (w_server identifying_world))
      (cstr "ann" ++ replicate 61 0) (cstr "key" ++ replicate 61 0) (w_heap identifying_world)) as [[[i|] m] h] eqn:E;
      [|vm_compute in E; discriminate E].
    apply (H (cstr "ann" ++ replicate 61 0) (cstr "key" ++ replicate 61 0) i m h);
      [reflexivity | reflexivity | reflexivity | vm_compute; reflexivity | vm_compute; reflexivity | exact E
      | vm_compute; discriminate].
Defined.
