(* ===== verification/MapCache.v ===== *)
(** * The map cache

    [src/src/map_cache.c]: maps that are in memory or being loaded, in a doubly
    linked list of entries with an index by name; opening a map, loading it in
    a blocking task, counting references and evicting maps.

    The functions are computations on the server.  A mutex of an entry and the
    lock of the cache are flags, as in [Session]: an atomic computation runs
    while they are held, so that a lock found taken is one that an earlier task
    has kept. *)

From S2P Require Import Prelude Socket Protocol ThreadPool ThreadPoolSpec Heartbeat Map TaskBacklog TaskBacklogProps.
From S2P Require Import Objects Session.

Local Open Scope Z_scope.

(** ** The pool as scheduler of tasks that wait for a map *)

(** The queued tasks whose argument is a map, if they have one. *)
Definition map_context (t : tc_thread_pool_context task task_arg) : option (tc_thread_pool_context task map_args) :=
  match ctx_arg t with
  | Some (ArgMap a) => Some (Context (ctx_priority t) (ctx_func t) (Some a) (ctx_session_generation t))
  | None => Some (Context (ctx_priority t) (ctx_func t) None (ctx_session_generation t))
  | Some _ => None
  end.

#[export] Instance map_scheduler : Scheduler task map_args (tc_thread_pool task task_arg) := {
  sched_new p f a q g := pool_answer (tc_thread_schedule_new p f (ArgMap <$> a) q g);
  sched_next2 p f a q g := pool_answer (tc_thread_schedule_next2 p f (ArgMap <$> a) q g);
  sched_ok p := Forall ring_ok (task_prio_buffer p);
  queued p := omap map_context (pool_queued p) }.

(** ** The disk, and the sizes of the structs *)

Inductive load_answer := LoadOk (m : tc_map) | LoadFailed | LoadUndefined.

(** [tc_map_load] of a file, by the number of the call. *)
Class MapLoader := load_file : list Z -> nat -> load_answer.

Class CacheSizes := { map_sizes : sizes; sizeof_entry : Z }.

(** Calling the [failure_handler] of a backlog entry. *)
Class MapCallbacks := call_failure : failure_callback -> context -> Z -> M unit.

(** ** Objects *)

Definition getm {A} (f : map_state -> A) : M A := fun w => (Ok (f (w_maps w)), w).
Definition modm (f : map_state -> map_state) : M unit := fun w =>
  (Ok tt, World (w_server w) (w_heap w) (w_elapsed w) (w_reads w) (w_closed w) (f (w_maps w))).

Definition on_cache (f : tc_map_cache -> tc_map_cache) : M unit := modm (fun s => with_cache (f (ms_cache s)) s).
Definition live (n : Z) : M unit := modm (fun s => with_live (ms_live s + n) s).

Definition get_entry (l : loc) : M tc_map_cache_entry :=
  o ← getm (fun s => ms_entries s !! l); checked o.
Definition update_entry (l : loc) (f : tc_map_cache_entry -> tc_map_cache_entry) : M unit :=
  e ← get_entry l; modm (fun s => with_entries (<[l := f e]> (ms_entries s)) s).

(** A new location, and the object put there. *)
Definition new_entry : M loc :=
  l ← getm ms_next;
  _ ← modm (fun s => with_entries (<[l := raw_entry]> (ms_entries s)) (with_next (S l) s));
  mret l.
Definition free_entry (l : loc) : M unit :=
  _ ← get_entry l; modm (fun s => with_entries (delete l (ms_entries s)) s).

Definition new_load_args (a : tc_map_cache_load_task_args) : M loc :=
  l ← getm ms_next;
  _ ← modm (fun s => with_load_args (<[l := a]> (ms_load_args s)) (with_next (S l) s));
  mret l.
Definition get_load_args (l : loc) : M tc_map_cache_load_task_args :=
  o ← getm (fun s => ms_load_args s !! l); checked o.
Definition free_load_args (l : loc) : M unit :=
  _ ← get_load_args l; modm (fun s => with_load_args (delete l (ms_load_args s)) s).

(** The mutex and the key of an entry. *)
Definition p_mutex_lock (l : loc) : M unit :=
  e ← get_entry l;
  match ce_lock e with
  | None => stuck BadAccess
  | Some true => stuck Deadlock
  | Some false => update_entry l (entry_lock (Some true))
  end.
Definition p_mutex_unlock (l : loc) : M unit :=
  e ← get_entry l;
  match ce_lock e with
  | None => stuck BadAccess
  | Some false => stuck BadUnlock
  | Some true => update_entry l (entry_lock (Some false))
  end.
Definition p_mutex_free (l : loc) : M unit :=
  e ← get_entry l; _ ← checked (ce_lock e); _ ← update_entry l (entry_lock None); live (-1).
Definition free_key (l : loc) : M unit :=
  e ← get_entry l; _ ← checked (ce_key e); _ ← update_entry l (entry_key None); live (-1).

(** The lock of the cache. *)
Definition cache_reader_lock : M unit :=
  c ← getm ms_cache;
  if mc_writer c then stuck Deadlock else on_cache (with_cache_lock (S (mc_readers c)) false).
Definition cache_reader_unlock : M unit :=
  c ← getm ms_cache;
  match mc_readers c with O => stuck BadUnlock | S n => on_cache (with_cache_lock n (mc_writer c)) end.
Definition cache_writer_lock : M unit :=
  c ← getm ms_cache;
  if mc_writer c || negb (mc_readers c =? 0)%nat then stuck Deadlock else on_cache (with_cache_lock 0 true).
Definition cache_writer_unlock : M unit :=
  c ← getm ms_cache;
  if mc_writer c then on_cache (with_cache_lock (mc_readers c) false) else stuck BadUnlock.

(** [p_tree_lookup] and [p_tree_remove] *)
Definition index_lookup (name : list Z) : M (option loc) := getm (fun s => id_to_index (ms_cache s) !! c_content name).
Definition index_remove (name : list Z) : M unit :=
  on_cache (fun c => with_index (delete (c_content name) (id_to_index c)) c).

(** [tc_map_finalize] of the map of an entry: its pointers are freed, and must
    be those of a loaded map. *)
Definition tc_map_finalize (l : loc) : M unit :=
  e ← get_entry l;
  match ce_map e with MapLoaded _ => update_entry l (entry_map MapGarbage) | _ => stuck BadAccess end.

(** ** References *)

Definition tc_map_nolock_ref (l : loc) : M unit :=
  e ← get_entry l;
  n ← checked (int_result (ce_open_count e + 1));
  update_entry l (fun e => entry_referenced true (entry_count n e)).

Definition tc_map_nolock_unref (l : loc) : M unit :=
  e ← get_entry l;
  n ← checked (int_result (ce_open_count e - 1));
  update_entry l (entry_count n).

Definition tc_map_ref (l : loc) : M unit :=
  _ ← p_mutex_lock l; _ ← tc_map_nolock_ref l; p_mutex_unlock l.

Definition tc_map_unref (l : loc) : M unit :=
  _ ← p_mutex_lock l; _ ← tc_map_nolock_unref l; p_mutex_unlock l.

(** ** The list *)

Definition tc_map_cache_link_entry (l : loc) : M unit :=
  c ← getm ms_cache;
  _ ← match mc_head c with
      | None =>
          match mc_tail c with
          | Some _ => stuck AssertionFailed
          | None => on_cache (fun c => with_tail (Some l) (with_head (Some l) c))
          end
      | Some h =>
          _ ← update_entry l (entry_next (Some h));
          _ ← update_entry h (entry_prev (Some l));
          on_cache (with_head (Some l))
      end;
  e ← get_entry l;
  on_cache (fun c => with_usage (u64 (mc_num_entries c + 1)) (u64 (mc_memory_usage c + ce_memory_usage e)) c).

Definition tc_map_cache_unlink_entry (l : loc) : M unit :=
  e ← get_entry l;
  _ ← match ce_prev e with
      | Some p => update_entry p (entry_next (ce_next e))
      | None => on_cache (with_head (ce_next e))
      end;
  _ ← match ce_next e with
      | Some n => update_entry n (entry_prev (ce_prev e))
      | None => on_cache (with_tail (ce_prev e))
      end;
  _ ← on_cache (fun c => with_usage (u64 (mc_num_entries c - 1)) (u64 (mc_memory_usage c - ce_memory_usage e)) c);
  _ ← p_mutex_unlock l;
  _ ← p_mutex_free l;
  _ ← free_key l;
  free_entry l.

(** ** Eviction *)

(** The loop; [n] iterations are left. *)
Fixpoint evict_loop (n : nat) (current_entry : option loc) : M unit :=
  match n with
  | O => mret tt
  | S n' =>
      c ← getm ms_cache;
      l ← checked (match current_entry with None => mc_tail c | Some _ => current_entry end);
      _ ← p_mutex_lock l;
      e ← get_entry l;
      if negb (ce_is_loaded e) then
        l' ← checked (ce_prev e);
        _ ← p_mutex_unlock l';
        evict_loop n' (Some l')
      else if ce_open_count e =? 0 then
        if ce_is_referenced e then
          _ ← update_entry l (entry_referenced false);
          evict_loop n' (ce_prev e)
        else
          key ← checked (ce_key e);
          _ ← index_remove key;
          _ ← tc_map_finalize l;
          _ ← tc_map_cache_unlink_entry l;
          c ← getm ms_cache;
          _ ← when (bool_decide (mc_clock_hand c = Some l)) (on_cache (with_hand (ce_prev e)));
          c ← getm ms_cache;
          if mc_memory_usage c <? mc_memory_usage_threshold c
          then when (bool_decide (mc_clock_hand c = None)) (on_cache (with_hand (mc_tail c)))
          else evict_loop n' (ce_prev e)
      else
        _ ← p_mutex_unlock l;
        evict_loop n' (ce_prev e)
  end.

Definition tc_map_cache_evict : M unit :=
  c ← getm ms_cache;
  match mc_head c with
  | None => mret tt
  | Some h =>
      _ ← when (bool_decide (mc_clock_hand c = None)) (on_cache (with_hand (Some h)));
      evict_loop (Z.to_nat (s32 (mc_num_entries c))) (mc_tail c)
  end.

(** The end of [tc_map_cache_load_task]. *)
Definition relieve_pressure : M unit :=
  _ ← cache_writer_lock;
  c ← getm ms_cache;
  _ ← when (mc_memory_usage_threshold c <? mc_memory_usage c) tc_map_cache_evict;
  cache_writer_unlock.

(** ** Handing the map to waiting tasks *)

Section Handlers.
Context {cb : MapCallbacks}.

(** An [aquire_handler] or [release_handler]; [None] is [NULL]. *)
Abbreviation ref_handler := (option (loc -> M unit)).
Definition given (h : ref_handler) : bool := match h with Some _ => true | None => false end.

Definition call_ref (h : ref_handler) (result : option loc) : M unit :=
  match h, result with Some f, Some l => f l | _, _ => stuck BadAccess end.

(** The effects of the backlog functions on everything but the pool and the
    allocator, which the functions of [TaskBacklog] have changed already: the
    failure handlers and the reference counts touch neither. *)
Definition do_event (aquire release : ref_handler) (result : option loc)
    (ev : backlog_event task failure_callback context loc) : M unit :=
  match ev with
  | Failed e => call_failure (failure_handler e) (entry_context e) (entry_session_generation e)
  | Allocated => live 1
  | Freed => live (-1)
  | Acquired => call_ref aquire result
  | Released => call_ref release result
  | Scheduled _ _ => mret tt
  end.

Fixpoint replay (aquire release : ref_handler) (result : option loc)
    (ev : list (backlog_event task failure_callback context loc)) : M unit :=
  match ev with
  | [] => mret tt
  | e :: ev' => _ ← do_event aquire release result e; replay aquire release result ev'
  end.

Definition with_pool_heap (p : tc_thread_pool task task_arg) (h : heap) (w : world) : world :=
  World (with_pool p (w_server w)) h (w_elapsed w) (w_reads w) (w_closed w) (w_maps w).

Definition invoke_handler (schedule_info : map_waiter) (aquire release : ref_handler) (result : option loc)
    (current_priority : tc_thread_pool_task_priority) : M unit := fun w =>
  match tc_task_backlog_invoke_handler (given aquire) (given release) schedule_info (thread_pool (w_server w))
          (w_heap w) result current_priority with
  | None => (Stuck AssertionFailed, w)
  | Some (p, h, ev) => replay aquire release result ev (with_pool_heap p h w)
  end.

Definition schedule_backlog (backlog : map_backlog) (aquire release : ref_handler) (result : option loc)
    (current_priority : tc_thread_pool_task_priority) : M unit := fun w =>
  match tc_task_schedule_backlog (given aquire) (given release) backlog (thread_pool (w_server w))
          (w_heap w) result current_priority with
  | None => (Stuck AssertionFailed, w)
  | Some (p, h, _, ev) => replay aquire release result ev (with_pool_heap p h w)
  end.

(** [tc_task_backlog_push] and [tc_task_backlog_finalize] on the backlog of an
    entry. *)
Definition backlog_push (l : loc) (schedule_info : map_waiter) : M bool :=
  e ← get_entry l;
  '(ok, backlog) ← (fun w => let '(ok, backlog, h) := tc_task_backlog_push (ce_backlog e) schedule_info (w_heap w) in
                     (Ok (ok, backlog), with_pool_heap (thread_pool (w_server w)) h w));
  _ ← live (Z.of_nat (length backlog) - Z.of_nat (length (ce_backlog e)));
  _ ← update_entry l (entry_backlog backlog);
  mret ok.
Definition backlog_finalize (l : loc) : M unit :=
  e ← get_entry l; live (- Z.of_nat (length (tc_task_backlog_finalize (ce_backlog e)))).

(** ** Opening *)

(** An open that fails: [tc_task_backlog_invoke_handler] without a result. *)
Definition fail_open (schedule_info : map_waiter) : M unit :=
  invoke_handler schedule_info None None None PRIORITY_INVALID.

(** Both handlers are [tc_map_nolock_ref]. *)
Definition tc_map_cache_open_from_entry (l : loc) (schedule_info : map_waiter)
    (current_priority : tc_thread_pool_task_priority) : M unit :=
  _ ← p_mutex_lock l;
  e ← get_entry l;
  _ ← (if negb (ce_is_loaded e) then _ ← backlog_push l schedule_info; mret tt else tc_map_nolock_ref l);
  _ ← p_mutex_unlock l;
  invoke_handler schedule_info (Some tc_map_nolock_ref) (Some tc_map_nolock_ref) (Some l) current_priority.

Section Loading.
Context {ld : MapLoader} {sz : CacheSizes}.

(** A load, numbered. *)
Definition cache_load (name : list Z) : M load_answer :=
  n ← getm ms_loads; _ ← modm (with_loads (S n)); mret (load_file name n).

Definition run_load_task (a : loc) (priority : tc_thread_pool_task_priority) : M unit :=
  if negb (bool_decide (priority = PRIORITY_BLOCKING)) then stuck AssertionFailed
  else
    args ← get_load_args a;
    let l := la_entry args in
    _ ← p_mutex_lock l;
    answer ← cache_load (la_name args);
    match answer with
    | LoadUndefined => stuck BadAccess
    | LoadFailed =>
        _ ← update_entry l (entry_map MapGarbage);
        e ← get_entry l;
        _ ← schedule_backlog (ce_backlog e) None None None priority;
        _ ← p_mutex_unlock l;
        free_load_args a
    | LoadOk m =>
        _ ← update_entry l (fun e => entry_loaded true (entry_map (MapLoaded m) e));
        usage ← checked (tc_map_get_memory_usage map_sizes m);
        _ ← update_entry l (fun e => entry_usage (u64 (ce_memory_usage e + usage)) e);
        e ← get_entry l;
        _ ← schedule_backlog (ce_backlog e) (Some tc_map_nolock_ref) (Some tc_map_nolock_unref) (Some l) priority;
        _ ← p_mutex_unlock l;
        _ ← relieve_pressure;
        free_load_args a
    end.

(** The last steps of [tc_map_cache_schedule_open], for an entry whose parts
    are all there. *)
Definition link_and_load (l a : loc) (schedule_info : map_waiter) : M unit :=
  _ ← update_entry l (fun e => CacheEntry (ce_map e) (ce_map_readers e) (ce_backlog e) sizeof_entry 0 true false
                                 (ce_lock e) (ce_key e) None None);
  _ ← p_mutex_lock l;
  _ ← tc_map_cache_link_entry l;
  schedule_success ← schedule_new tc_map_cache_load_task (ArgLoad a) PRIORITY_BLOCKING (-1);
  if negb schedule_success then
    _ ← tc_map_cache_unlink_entry l;
    _ ← p_mutex_unlock l;
    _ ← free_load_args a;
    _ ← p_mutex_free l;
    _ ← free_key l;
    _ ← backlog_finalize l;
    _ ← free_entry l;
    _ ← cache_writer_unlock;
    fail_open schedule_info
  else
    _ ← p_mutex_unlock l;
    cache_writer_unlock.

(** The part under the writer lock, when the map is not in the cache. *)
Definition open_new (name : list Z) (schedule_info : map_waiter) : M unit :=
  entry_ok ← allocate;
  if negb entry_ok then _ ← cache_writer_unlock; fail_open schedule_info
  else
    l ← new_entry;
    lock_ok ← allocate;
    if negb lock_ok then _ ← free_entry l; _ ← cache_writer_unlock; fail_open schedule_info
    else
      _ ← update_entry l (entry_lock (Some false)); _ ← live 1;
      key_ok ← allocate;
      if negb key_ok then
        _ ← p_mutex_free l; _ ← free_entry l; _ ← cache_writer_unlock; fail_open schedule_info
      else
        _ ← update_entry l (entry_key (Some (c_content name))); _ ← live 1;
        args_ok ← allocate;
        if negb args_ok then
          _ ← p_mutex_free l; _ ← free_key l; _ ← free_entry l; _ ← cache_writer_unlock; fail_open schedule_info
        else
          a ← new_load_args (LoadArgs name l);
          _ ← update_entry l (entry_backlog tc_task_backlog_initialize);
          pushed ← backlog_push l schedule_info;
          if negb pushed then
            _ ← p_mutex_free l; _ ← free_key l; _ ← backlog_finalize l; _ ← free_entry l;
            _ ← cache_writer_unlock;
            _ ← free_load_args a;
            fail_open schedule_info
          else link_and_load l a schedule_info.

Definition tc_map_cache_schedule_open (name : list Z) (schedule_info : map_waiter)
    (current_priority : tc_thread_pool_task_priority) : M unit :=
  _ ← cache_reader_lock;
  found ← index_lookup name;
  match found with
  | Some l =>
      _ ← tc_map_cache_open_from_entry l schedule_info current_priority;
      cache_reader_unlock
  | None =>
      _ ← cache_reader_unlock;
      _ ← cache_writer_lock;
      found ← index_lookup name;
      match found with
      | Some l =>
          _ ← tc_map_cache_open_from_entry l schedule_info current_priority;
          cache_writer_unlock
      | None => open_new name schedule_info
      end
  end.
End Loading.
End Handlers.

(** ** Creation and destruction *)

(** [p_tree_new] and [p_rwlock_new] *)
Definition tc_map_cache_init (memory_usage_threshold : Z) : M bool :=
  _ ← on_cache (fun c => MapCache (id_to_index c) None None None 0 0 false 0 (mc_memory_usage_threshold c));
  tree_ok ← allocate;
  if negb tree_ok then mret false
  else
    _ ← on_cache (with_index ∅); _ ← live 1;
    lock_ok ← allocate;
    if negb lock_ok then _ ← live (-1); mret false
    else
      _ ← live 1;
      _ ← on_cache (fun c => MapCache (id_to_index c) (mc_head c) (mc_tail c) (mc_clock_hand c) (mc_num_entries c)
                               (mc_readers c) (mc_writer c) (mc_memory_usage c) memory_usage_threshold);
      mret true.

(** Every turn frees the entry it looks at, so that there are no more turns
    than entries. *)
Fixpoint finalize_loop (fuel : nat) (entry : option loc) : M unit :=
  match entry, fuel with
  | None, _ => mret tt
  | Some _, O => stuck BadAccess
  | Some l, S fuel' =>
      e ← get_entry l;
      _ ← tc_map_finalize l;
      _ ← p_mutex_free l;
      _ ← free_key l;
      _ ← free_entry l;
      finalize_loop fuel' (ce_next e)
  end.

Definition tc_map_cache_finalize : M unit :=
  c ← getm ms_cache;
  n ← getm (fun s => size (ms_entries s));
  _ ← finalize_loop n (mc_head c);
  live (-2).
