(* ===== verification/MapCacheSpec.v ===== *)
(** * The map cache as a list of entries

    The doubly linked list of [MapCache] represents a list of locations;
    linking an entry is putting its location in front, unlinking is leaving it
    out, and neither changes anything of an entry but its links.  Rules to run
    the computations of [MapCache] step by step. *)

From S2P Require Import Prelude Socket Protocol ThreadPool ThreadPoolSpec Heartbeat Map TaskBacklog TaskBacklogProps.
From S2P Require Import Objects Session SessionSpec MapCache.

Local Open Scope Z_scope.

(** ** Doubly linked segments *)

Abbreviation entries := (gmap loc tc_map_cache_entry).

(** The first location of a segment, or what follows it; the last, or what
    precedes it. *)
Definition first_or (ls : list loc) (n : option loc) : option loc := match head ls with Some l => Some l | None => n end.
Definition last_or (ls : list loc) (p : option loc) : option loc := match last ls with Some l => Some l | None => p end.

Definition links (m : entries) (l : loc) : option (option loc * option loc) := (fun e => (ce_prev e, ce_next e)) <$> m !! l.

(** The entries at [ls] are linked in this order, between [p] and [n]. *)
Fixpoint dseg (m : entries) (p : option loc) (ls : list loc) (n : option loc) : Prop :=
  match ls with
  | [] => True
  | l :: ls' => links m l = Some (p, first_or ls' n) /\ dseg m (Some l) ls' n
  end.

Lemma first_or_app l1 l2 n : first_or (l1 ++ l2) n = first_or l1 (first_or l2 n).
Proof. by destruct l1. Qed.

Lemma last_or_cons l ls p : last_or (l :: ls) p = last_or ls (Some l).
Proof. unfold last_or. rewrite last_cons. by destruct (last ls). Qed.

Lemma last_or_snoc ls l p : last_or (ls ++ [l]) p = Some l.
Proof. unfold last_or. by rewrite last_snoc. Qed.

Lemma dseg_app m l1 l2 p n :
  dseg m p (l1 ++ l2) n <-> dseg m p l1 (first_or l2 n) /\ dseg m (last_or l1 p) l2 n.
Proof.
  revert p. induction l1 as [|l l1 IH]; intros p; cbn [app dseg]; [tauto|].
  rewrite first_or_app, IH, last_or_cons. tauto.
Qed.

(** Only the links of the segment matter. *)
Lemma dseg_ext m m' ls p n : (forall l, l ∈ ls -> links m' l = links m l) -> dseg m p ls n -> dseg m' p ls n.
Proof.
  revert p. induction ls as [|l ls IH]; intros p Hm; cbn [dseg]; [done|]. intros [Hl Hs]. split.
  - rewrite Hm by apply list_elem_of_here. done.
  - apply IH; [|done]. intros l' Hl'. apply Hm. by right.
Qed.

Lemma links_insert_ne m l l' e : l <> l' -> links (<[l := e]> m) l' = links m l'.
Proof. intros H. unfold links. by rewrite lookup_insert_ne. Qed.

Lemma links_insert_eq m l e : links (<[l := e]> m) l = Some (ce_prev e, ce_next e).
Proof. unfold links. by rewrite lookup_insert_eq. Qed.

Lemma links_delete_ne m l l' : l <> l' -> links (delete l m) l' = links m l'.
Proof. intros H. unfold links. by rewrite lookup_delete_ne. Qed.

(** An entry outside the segment may change. *)
Lemma dseg_insert m ls p n l e : l ∉ ls -> dseg m p ls n -> dseg (<[l := e]> m) p ls n.
Proof. intros Hl. apply dseg_ext. intros l' Hl'. apply links_insert_ne. by intros ->. Qed.

(** So may what is not a link. *)
Lemma dseg_body m ls p n l e e' :
  m !! l = Some e -> ce_prev e' = ce_prev e -> ce_next e' = ce_next e -> dseg m p ls n -> dseg (<[l := e']> m) p ls n.
Proof.
  intros Hl Hp Hn. apply dseg_ext. intros l' _. destruct (decide (l = l')) as [<-|].
  - rewrite links_insert_eq, Hp, Hn. unfold links. by rewrite Hl.
  - by apply links_insert_ne.
Qed.

Lemma dseg_lookup m p ls n l : dseg m p ls n -> l ∈ ls -> is_Some (m !! l).
Proof.
  revert p. induction ls as [|l' ls IH]; intros p; [by intros _ ?%not_elem_of_nil|].
  intros [Hl Hs] [->|H]%elem_of_cons; [|by eapply IH].
  unfold links in Hl. by destruct (m !! l').
Qed.

(** The new successor of the last entry of a segment, the new predecessor of
    the first. *)
Lemma dseg_set_next m ls l p n n' e :
  m !! l = Some e -> l ∉ ls -> dseg m p (ls ++ [l]) n -> dseg (<[l := entry_next n' e]> m) p (ls ++ [l]) n'.
Proof.
  intros Hl Hls [Hs [Hn _]]%dseg_app. apply dseg_app. split; [by apply dseg_insert|]. cbn [dseg]. split; [|done].
  rewrite links_insert_eq. cbn. unfold links in Hn. rewrite Hl in Hn. cbn in Hn. congruence.
Qed.

Lemma dseg_set_prev m ls l p p' n e :
  m !! l = Some e -> l ∉ ls -> dseg m p (l :: ls) n -> dseg (<[l := entry_prev p' e]> m) p' (l :: ls) n.
Proof.
  intros Hl Hls [Hn Hs]. split; [|by apply dseg_insert].
  rewrite links_insert_eq. cbn. unfold links in Hn. rewrite Hl in Hn. cbn in Hn. congruence.
Qed.

(** ** Entries without their links *)

Definition body (e : tc_map_cache_entry) : tc_map_cache_entry := entry_prev None (entry_next None e).

Lemma fmap_insert_body (m : entries) l e e' :
  m !! l = Some e -> body e' = body e -> body <$> <[l := e']> m = body <$> m.
Proof.
  intros Hl Hb. rewrite fmap_insert, Hb, <- fmap_insert. by rewrite insert_id.
Qed.

(** ** What a cache represents *)

Record cache_rep (s : map_state) (ls : list loc) : Prop := {
  cr_head : mc_head (ms_cache s) = head ls;
  cr_tail : mc_tail (ms_cache s) = last ls;
  cr_seg : dseg (ms_entries s) None ls None;
  cr_nodup : NoDup ls;
  cr_count : mc_num_entries (ms_cache s) = u64 (Z.of_nat (length ls)) }.

(** ** Running *)

Definition on_maps (f : map_state -> map_state) (w : world) : world :=
  World (w_server w) (w_heap w) (w_elapsed w) (w_reads w) (w_closed w) (f (w_maps w)).

Definition at_entry (l : loc) (w : world) (e : tc_map_cache_entry) : Prop := ms_entries (w_maps w) !! l = Some e.

Definition put_entry (l : loc) (e : tc_map_cache_entry) (s : map_state) : map_state :=
  with_entries (<[l := e]> (ms_entries s)) s.
Definition put_cache (f : tc_map_cache -> tc_map_cache) (s : map_state) : map_state := with_cache (f (ms_cache s)) s.

(** Evaluate updates of a known state, innermost first. *)
Ltac map_state_cbv :=
  cbv [put_entry put_cache with_entries with_cache with_live with_load_args with_sends with_buffers with_next with_loads
       ms_cache ms_entries ms_load_args ms_sends ms_buffers ms_next ms_live ms_loads].

Lemma on_maps_on_maps f g w : on_maps f (on_maps g w) = on_maps (fun s => f (g s)) w.
Proof. done. Qed.

Lemma on_maps_ext f g w : f (w_maps w) = g (w_maps w) -> on_maps f w = on_maps g w.
Proof. unfold on_maps. by intros ->. Qed.

Lemma run_getm {A} (f : map_state -> A) w : getm f w = (Ok (f (w_maps w)), w).
Proof. done. Qed.

Lemma run_modm f w : modm f w = (Ok tt, on_maps f w).
Proof. done. Qed.

Lemma run_on_cache f w : on_cache f w = (Ok tt, on_maps (put_cache f) w).
Proof. done. Qed.

Lemma run_live n w : live n w = (Ok tt, on_maps (fun s => with_live (ms_live s + n) s) w).
Proof. done. Qed.

Lemma run_get_entry l w e : at_entry l w e -> get_entry l w = (Ok e, w).
Proof. intros H. unfold get_entry, mbind, M_bind, getm. by rewrite H. Qed.

Lemma run_update_entry l f w e : at_entry l w e -> update_entry l f w = (Ok tt, on_maps (put_entry l (f e)) w).
Proof. intros H. unfold update_entry. by rewrite (bind_ok _ _ _ _ _ (run_get_entry _ _ _ H)). Qed.

Lemma run_free_entry l w e :
  at_entry l w e -> free_entry l w = (Ok tt, on_maps (fun s => with_entries (delete l (ms_entries s)) s) w).
Proof. intros H. unfold free_entry. by rewrite (bind_ok _ _ _ _ _ (run_get_entry _ _ _ H)). Qed.

Lemma run_mutex_lock l w e :
  at_entry l w e -> ce_lock e = Some false ->
  p_mutex_lock l w = (Ok tt, on_maps (put_entry l (entry_lock (Some true) e)) w).
Proof.
  intros H Hl. unfold p_mutex_lock. rewrite (bind_ok _ _ _ _ _ (run_get_entry _ _ _ H)), Hl. by apply run_update_entry.
Qed.

Lemma run_mutex_unlock l w e :
  at_entry l w e -> ce_lock e = Some true ->
  p_mutex_unlock l w = (Ok tt, on_maps (put_entry l (entry_lock (Some false) e)) w).
Proof.
  intros H Hl. unfold p_mutex_unlock. rewrite (bind_ok _ _ _ _ _ (run_get_entry _ _ _ H)), Hl. by apply run_update_entry.
Qed.

(** A mutex that is taken is never handed out again. *)
Lemma run_mutex_deadlock l w e : at_entry l w e -> ce_lock e = Some true -> p_mutex_lock l w = (Stuck Deadlock, w).
Proof. intros H Hl. unfold p_mutex_lock. by rewrite (bind_ok _ _ _ _ _ (run_get_entry _ _ _ H)), Hl. Qed.

Lemma run_mutex_bad_unlock l w e : at_entry l w e -> ce_lock e = Some false -> p_mutex_unlock l w = (Stuck BadUnlock, w).
Proof. intros H Hl. unfold p_mutex_unlock. by rewrite (bind_ok _ _ _ _ _ (run_get_entry _ _ _ H)), Hl. Qed.

Lemma at_put_entry l e w : at_entry l (on_maps (put_entry l e) w) e.
Proof. unfold at_entry. cbn. apply lookup_insert_eq. Qed.

Lemma at_put_other l l' e e' w : l <> l' -> at_entry l w e -> at_entry l (on_maps (put_entry l' e') w) e.
Proof. intros Hn H. unfold at_entry in *. cbn. by rewrite lookup_insert_ne. Qed.

Lemma at_put_cache l e f w : at_entry l w e -> at_entry l (on_maps (put_cache f) w) e.
Proof. done. Qed.

(** ** Linking *)

Lemma alter_as_insert (m : entries) l f e : m !! l = Some e -> alter f l m = <[l := f e]> m.
Proof.
  intros H. apply map_eq. intros l'. destruct (decide (l = l')) as [<-|Hn].
  - by rewrite lookup_alter_eq, lookup_insert_eq, H.
  - by rewrite lookup_alter_ne, lookup_insert_ne.
Qed.

Lemma u64_succ n : u64 (u64 n + 1) = u64 (n + 1).
Proof. width_lia. Qed.

Lemma u64_pred n : u64 (u64 n - 1) = u64 (n - 1).
Proof. width_lia. Qed.

(** Linking an unlinked entry puts it in front of the list. *)
Lemma link_run l w ls e :
  cache_rep (w_maps w) ls -> at_entry l w e -> l ∉ ls -> ce_prev e = None -> ce_next e = None ->
  exists m, let c := ms_cache (w_maps w) in
    let w' := on_maps (fun s => with_cache
                (with_usage (u64 (mc_num_entries c + 1)) (u64 (mc_memory_usage c + ce_memory_usage e))
                   (with_tail (last (l :: ls)) (with_head (Some l) c))) (with_entries m s)) w in
    tc_map_cache_link_entry l w = (Ok tt, w') /\ cache_rep (w_maps w') (l :: ls) /\
    body <$> m = body <$> ms_entries (w_maps w).
Proof.
  intros [Hh Ht Hs Hn Hc] He Hl Hp Hx. unfold tc_map_cache_link_entry.
  rewrite (bind_ok _ _ _ _ _ (run_getm _ _)). cbv zeta. destruct ls as [|h ls].
  - cbn in Hh, Ht. rewrite Hh, Ht. rewrite (bind_ok _ _ _ _ _ (run_on_cache _ _)).
    rewrite (bind_ok _ _ _ _ _ (run_get_entry l _ e (at_put_cache _ _ _ _ He))). rewrite run_on_cache, on_maps_on_maps.
    exists (ms_entries (w_maps w)). split_and!; [by destruct w as [? ? ? ? ? []] | | done].
    split; cbn; [done | done | | apply NoDup_singleton | rewrite Hc; by apply u64_succ].
    unfold links. rewrite He. cbn. by rewrite Hp, Hx.
  - cbn in Hh. rewrite Hh. apply not_elem_of_cons in Hl as [Hlh Hl]. apply NoDup_cons in Hn as [Hhn Hn].
    destruct (dseg_lookup _ _ _ _ h Hs (list_elem_of_here _ _)) as [eh Heh].
    rewrite (bind_ok (update_entry _ _ ≫= _) _ tt _ (on_maps (fun s => put_cache (with_head (Some l))
              (put_entry h (entry_prev (Some l) eh) (put_entry l (entry_next (Some h) e) s))) w)).
    2: { rewrite (bind_ok _ _ _ _ _ (run_update_entry l _ _ _ He)).
         rewrite (bind_ok _ _ _ _ _ (run_update_entry h _ _ eh (at_put_other _ _ _ _ _ (not_eq_sym Hlh) Heh))).
         by rewrite run_on_cache, !on_maps_on_maps. }
    erewrite bind_ok by (apply (run_get_entry l _ (entry_next (Some h) e)); unfold at_entry; cbn;
                         rewrite lookup_insert_ne by done; apply lookup_insert_eq).
    rewrite run_on_cache, on_maps_on_maps.
    exists (<[h := entry_prev (Some l) eh]> (<[l := entry_next (Some h) e]> (ms_entries (w_maps w)))). split_and!.
    + destruct w as [? ? ? ? ? [[]]]. cbn in *. by rewrite Ht.
    + split; cbn [w_maps on_maps with_cache with_entries ms_cache ms_entries mc_head mc_tail mc_num_entries with_usage with_tail with_head].
      * done.
      * done.
      * change (dseg (<[h := entry_prev (Some l) eh]> (<[l := entry_next (Some h) e]> (ms_entries (w_maps w)))) None ([l] ++ h :: ls) None).
        apply dseg_app. split.
        { apply dseg_insert; [by apply not_elem_of_cons; split; [|apply not_elem_of_nil]|]. cbn.
          rewrite links_insert_eq. cbn. by rewrite Hp. }
        { apply (dseg_set_prev _ ls h None (Some l)); [by rewrite lookup_insert_ne | done |].
          by apply dseg_insert; [apply not_elem_of_cons|]. }
      * constructor; [by apply not_elem_of_cons | by constructor].
      * rewrite Hc. cbn [length]. rewrite u64_succ. f_equal. lia.
    + rewrite (fmap_insert_body _ h eh); [|by rewrite lookup_insert_ne | by destruct eh].
      by apply fmap_insert_body with e; [|destruct e].
Qed.

(** The links around an entry that is left out. *)
Definition relink (m : entries) (p n : option loc) : entries :=
  let m1 := match p with Some p => alter (entry_next n) p m | None => m end in
  match n with Some n => alter (entry_prev p) n m1 | None => m1 end.

Lemma dseg_relink m a l b :
  NoDup (a ++ l :: b) -> dseg m None (a ++ l :: b) None -> dseg (relink m (last a) (head b)) None (a ++ b) None.
Proof.
  intros (Ha & Hab & Hlb)%NoDup_app. apply NoDup_cons in Hlb as [Hlb Hb].
  intros [Hs1 [_ Hs2]]%dseg_app. cbn [first_or head] in Hs1.
  destruct a as [|p a _] using rev_ind; destruct b as [|n b]; cbn [relink head last]; rewrite ?last_snoc, ?app_nil_r in *.
  - done.
  - destruct (dseg_lookup _ _ _ _ n Hs2 (list_elem_of_here _ _)) as [en Hen].
    rewrite (alter_as_insert _ _ _ _ Hen). apply NoDup_cons in Hb as [Hb _]. by eapply dseg_set_prev.
  - assert (is_Some (m !! p)) as [ep Hep] by (eapply dseg_lookup; [exact Hs1 | set_solver]).
    rewrite (alter_as_insert _ _ _ _ Hep). apply NoDup_app in Ha as (_ & Hpa & _).
    eapply dseg_set_next; [done | | done]. intros H. by apply (Hpa p H), list_elem_of_here.
  - assert (is_Some (m !! p)) as [ep Hep] by (eapply dseg_lookup; [exact Hs1 | set_solver]).
    destruct (dseg_lookup _ _ _ _ n Hs2 (list_elem_of_here _ _)) as [en Hen].
    assert (p <> n) as Hpn by (intros ->; apply (Hab n); set_solver).
    rewrite (alter_as_insert _ _ _ _ Hep), (alter_as_insert _ n _ en) by (by rewrite lookup_insert_ne).
    apply NoDup_app in Ha as (_ & Hpa & _). apply NoDup_cons in Hb as [Hb _]. apply dseg_app. split.
    + apply dseg_insert; [intros Hn; apply (Hab n); set_solver|].
      eapply dseg_set_next; [done | | done]. intros H. by apply (Hpa p H), list_elem_of_here.
    + rewrite last_or_snoc. eapply dseg_set_prev; [by rewrite lookup_insert_ne | done |].
      apply dseg_insert; [|done]. intros Hp. apply (Hab p); set_solver.
Qed.

Lemma relink_body m p n : body <$> relink m p n = body <$> m.
Proof.
  assert (forall (m : entries) f l, (forall e, body (f e) = body e) -> body <$> alter f l m = body <$> m) as H.
  { intros m' f l Hf. apply map_eq. intros l'. rewrite !lookup_fmap. destruct (decide (l = l')) as [<-|Hn].
    - rewrite lookup_alter_eq. destruct (m' !! l); cbn; [by rewrite Hf | done].
    - by rewrite lookup_alter_ne. }
  unfold relink. destruct p, n; rewrite ?H; try done; by intros [].
Qed.

Lemma relink_ne m p n l : p <> Some l -> n <> Some l -> relink m p n !! l = m !! l.
Proof. intros Hp Hn. unfold relink. destruct p, n; rewrite ?lookup_alter_ne by congruence; done. Qed.

(** The two halves of unlinking. *)
Lemma run_set_next p n w :
  (forall l, p = Some l -> is_Some (ms_entries (w_maps w) !! l)) ->
  (match p with Some l => update_entry l (entry_next n) | None => on_cache (with_head n) end) w
  = (Ok tt, on_maps (fun s => with_cache (match p with Some _ => ms_cache s | None => with_head n (ms_cache s) end)
                      (with_entries (match p with Some l => alter (entry_next n) l (ms_entries s) | None => ms_entries s end) s)) w).
Proof.
  intros Hp. destruct p as [l|].
  - destruct (Hp l eq_refl) as [e He]. rewrite (run_update_entry _ _ _ _ He). destruct w as [? ? ? ? ? []].
    unfold on_maps, put_entry, with_entries, with_cache. cbn in *. by rewrite (alter_as_insert _ _ _ _ He).
  - by destruct w as [? ? ? ? ? []].
Qed.

Lemma set_next_keeps p n (q : option loc) c w :
  (forall l, q = Some l -> is_Some (ms_entries (w_maps w) !! l)) ->
  forall l, q = Some l ->
    is_Some (ms_entries (w_maps (on_maps (fun s => with_cache (c s)
      (with_entries (match p with Some l => alter (entry_next n) l (ms_entries s) | None => ms_entries s end) s)) w)) !! l).
Proof.
  intros Hq l El. cbn. destruct p as [p|]; [|by apply Hq]. destruct (decide (p = l)) as [->|].
  - rewrite lookup_alter_eq. by apply fmap_is_Some, Hq.
  - rewrite lookup_alter_ne by done. by apply Hq.
Qed.

Lemma run_set_prev n p w :
  (forall l, n = Some l -> is_Some (ms_entries (w_maps w) !! l)) ->
  (match n with Some l => update_entry l (entry_prev p) | None => on_cache (with_tail p) end) w
  = (Ok tt, on_maps (fun s => with_cache (match n with Some _ => ms_cache s | None => with_tail p (ms_cache s) end)
                      (with_entries (match n with Some l => alter (entry_prev p) l (ms_entries s) | None => ms_entries s end) s)) w).
Proof.
  intros Hp. destruct n as [l|].
  - destruct (Hp l eq_refl) as [e He]. rewrite (run_update_entry _ _ _ _ He). destruct w as [? ? ? ? ? []].
    unfold on_maps, put_entry, with_entries, with_cache. cbn in *. by rewrite (alter_as_insert _ _ _ _ He).
  - by destruct w as [? ? ? ? ? []].
Qed.

Lemma run_mutex_free l w e b :
  at_entry l w e -> ce_lock e = Some b ->
  p_mutex_free l w = (Ok tt, on_maps (fun s => with_live (ms_live s + -1) (put_entry l (entry_lock None e) s)) w).
Proof.
  intros He Hb. unfold p_mutex_free. rewrite (bind_ok _ _ _ _ _ (run_get_entry _ _ _ He)), Hb.
  by rewrite (bind_ok _ _ _ _ _ (run_checked _ b _ eq_refl)), (bind_ok _ _ _ _ _ (run_update_entry _ _ _ _ He)).
Qed.

Lemma run_free_key l w e k :
  at_entry l w e -> ce_key e = Some k ->
  free_key l w = (Ok tt, on_maps (fun s => with_live (ms_live s + -1) (put_entry l (entry_key None e) s)) w).
Proof.
  intros He Hk. unfold free_key. rewrite (bind_ok _ _ _ _ _ (run_get_entry _ _ _ He)), Hk.
  by rewrite (bind_ok _ _ _ _ _ (run_checked _ k _ eq_refl)), (bind_ok _ _ _ _ _ (run_update_entry _ _ _ _ He)).
Qed.

(** Giving up an entry whose mutex is held: its mutex, its key, itself. *)
Definition discard (l : loc) (s : map_state) : map_state :=
  with_live (ms_live s - 2) (with_entries (delete l (ms_entries s)) s).

Lemma discard_run l w e k :
  at_entry l w e -> is_Some (ce_lock e) -> ce_key e = Some k ->
  (_ ← p_mutex_free l; _ ← free_key l; free_entry l) w = (Ok tt, on_maps (discard l) w).
Proof.
  intros He [b Hb] Hk. rewrite (bind_ok _ _ _ _ _ (run_mutex_free _ _ _ _ He Hb)). set (w1 := on_maps _ w).
  rewrite (bind_ok _ _ _ _ _ (run_free_key l w1 (entry_lock None e) k (lookup_insert_eq _ _ _) Hk)).
  erewrite run_free_entry by apply lookup_insert_eq.
  subst w1. destruct w as [? ? ? ? ? []]. unfold on_maps, discard, put_entry, with_entries, with_live. cbn.
  rewrite !delete_insert_eq. do 3 f_equal. lia.
Qed.

(** The state after leaving out [l] between [a] and [b]. *)
Definition unlinked (a : list loc) (l : loc) (b : list loc) (usage : Z) (s : map_state) : map_state :=
  let c := ms_cache s in
  with_live (ms_live s - 2) (with_cache
    (with_usage (u64 (mc_num_entries c - 1)) (u64 (mc_memory_usage c - usage))
       (with_tail (last (a ++ b)) (with_head (head (a ++ b)) c)))
    (with_entries (delete l (relink (ms_entries s) (last a) (head b))) s)).

Lemma unlinked_rep a l b usage s : cache_rep s (a ++ l :: b) -> cache_rep (unlinked a l b usage s) (a ++ b).
Proof.
  intros [Hh Ht Hs Hn Hc]. split; cbn [unlinked with_live with_cache with_entries with_usage with_tail with_head
    ms_cache ms_entries mc_head mc_tail mc_num_entries].
  - done.
  - done.
  - eapply dseg_ext; [|by apply (dseg_relink _ _ _ _ Hn Hs)]. intros l' Hl'. apply links_delete_ne. intros ->.
    apply NoDup_app in Hn as (_ & Hx & [Hb _]%NoDup_cons). apply elem_of_app in Hl' as [H|H]; [|done].
    by apply (Hx l' H), list_elem_of_here.
  - apply NoDup_app in Hn as (Ha & Hx & [_ Hb]%NoDup_cons). apply NoDup_app. split_and!; [done | | done].
    intros x Hxa Hxb. by apply (Hx x Hxa), list_elem_of_further.
  - rewrite Hc, u64_pred, !length_app. cbn [length]. f_equal. lia.
Qed.

Lemma cache_rep_links s a l b e :
  cache_rep s (a ++ l :: b) -> ms_entries s !! l = Some e -> ce_prev e = last a /\ ce_next e = head b.
Proof.
  intros [_ _ Hs _ _] He. apply dseg_app in Hs as [_ [Hl _]]. unfold links in Hl. rewrite He in Hl.
  unfold last_or, first_or in Hl. cbn in Hl. injection Hl as Hp Hn. destruct (last a), (head b); by subst.
Qed.

Lemma cache_rep_lookup s ls l : cache_rep s ls -> l ∈ ls -> is_Some (ms_entries s !! l).
Proof. intros H Hl. by eapply dseg_lookup; [apply cr_seg|]. Qed.

(** Neighbours are in the list. *)
Lemma prev_listed s ls l e x : cache_rep s ls -> l ∈ ls -> ms_entries s !! l = Some e -> ce_prev e = Some x -> x ∈ ls.
Proof.
  intros Hr Hl He Hx. apply list_elem_of_split in Hl as (a & b & ->).
  destruct (cache_rep_links _ _ _ _ _ Hr He) as [Hp _]. rewrite Hp in Hx. apply last_Some in Hx as [a' ->]. set_solver.
Qed.

Lemma unlink_run a l b w e k :
  cache_rep (w_maps w) (a ++ l :: b) -> at_entry l w e -> ce_lock e = Some true -> ce_key e = Some k ->
  tc_map_cache_unlink_entry l w = (Ok tt, on_maps (unlinked a l b (ce_memory_usage e)) w).
Proof.
  intros Hr He Hl Hk. pose proof (cache_rep_links _ _ _ _ _ Hr He) as [Hp Hx].
  assert (forall x, last a = Some x -> x ∈ a) as Hla by (intros x H; apply last_Some in H as [? ->]; set_solver).
  assert (forall x, head b = Some x -> x ∈ b) as Hhb by (intros x H; apply head_Some in H as [? ->]; set_solver).
  assert (last a <> Some l /\ head b <> Some l) as [Hnl Hnb].
  { pose proof (cr_nodup _ _ Hr) as (_ & Hd & [Hb _]%NoDup_cons)%NoDup_app.
    split; [intros E%Hla; by apply (Hd l E), list_elem_of_here | by intros E%Hhb]. }
  unfold tc_map_cache_unlink_entry. rewrite (bind_ok _ _ _ _ _ (run_get_entry _ _ _ He)), Hp, Hx.
  rewrite (bind_ok _ _ _ _ _ (run_set_next (last a) (head b) w (fun x E => cache_rep_lookup _ _ x Hr ltac:(set_solver)))).
  rewrite (bind_ok _ _ _ _ _ (run_set_prev (head b) (last a) _ (set_next_keeps _ _ _ _ _ (fun x E => cache_rep_lookup _ _ x Hr ltac:(set_solver))))).
  rewrite on_maps_on_maps, (bind_ok _ _ _ _ _ (run_on_cache _ _)), on_maps_on_maps. set (w1 := on_maps _ w).
  assert (at_entry l w1 e) as He1.
  { etrans; [|exact He]. etrans; [|exact (relink_ne _ _ _ l Hnl Hnb)]. unfold w1, relink. by destruct (last a), (head b). }
  rewrite (bind_ok _ _ _ _ _ (run_mutex_unlock _ _ _ He1 Hl)).
  rewrite (discard_run l _ (entry_lock (Some false) e) k) by (first [apply at_put_entry | done | by eexists]).
  subst w1. rewrite !on_maps_on_maps. f_equal. apply on_maps_ext. clear He1 Hnl Hnb Hla Hhb He.
  destruct Hr as [Hh Ht _ _ _]. destruct (w_maps w) as [c m la sd bf nx lv lo]. cbn [ms_cache] in Hh, Ht.
  unfold discard, unlinked. map_state_cbv. rewrite delete_insert_eq.
  f_equal. destruct c. cbn in Hh, Ht. subst. unfold with_usage, with_tail, with_head. cbn.
  destruct a as [|p a _] using rev_ind; destruct b as [|n b]; cbn; rewrite ?last_snoc, ?app_nil_r;
    f_equal; rewrite ?last_app, ?last_cons; first [done | by destruct a | by destruct (last b)].
Qed.

(** ** Keeping the list *)

Lemma cache_rep_ext s s' ls :
  mc_head (ms_cache s') = mc_head (ms_cache s) -> mc_tail (ms_cache s') = mc_tail (ms_cache s) ->
  mc_num_entries (ms_cache s') = mc_num_entries (ms_cache s) -> ms_entries s' = ms_entries s ->
  cache_rep s ls -> cache_rep s' ls.
Proof. intros Hh Ht Hc He []. split; by rewrite ?Hh, ?Ht, ?Hc, ?He. Qed.

Lemma cache_rep_put s ls l e e' :
  ms_entries s !! l = Some e -> ce_prev e' = ce_prev e -> ce_next e' = ce_next e ->
  cache_rep s ls -> cache_rep (put_entry l e' s) ls.
Proof. intros He Hp Hn []. split; try done. by eapply dseg_body. Qed.

(** An entry that is not in the list may come and change. *)
Lemma cache_rep_put_new s ls l e : l ∉ ls -> cache_rep s ls -> cache_rep (put_entry l e s) ls.
Proof. intros Hl []. split; try done. by apply dseg_insert. Qed.

(** Bodies determine everything but the links. *)
Lemma body_lookup (m m' : entries) l e :
  body <$> m = body <$> m' -> m' !! l = Some e -> exists e', m !! l = Some e' /\ body e' = body e.
Proof.
  intros Hb Hl. assert ((body <$> m) !! l = Some (body e)) as H by (by rewrite Hb, lookup_fmap, Hl).
  rewrite lookup_fmap in H. destruct (m !! l) as [e'|]; [|done]. exists e'. cbn in H. split; congruence.
Qed.

Lemma body_proj {A} (f : tc_map_cache_entry -> A) e e' :
  (forall e, f (body e) = f e) -> body e = body e' -> f e = f e'.
Proof. intros Hf Hb. by rewrite <- (Hf e), <- (Hf e'), Hb. Qed.

Lemma body_lock x e e' : body e = body e' -> body (entry_lock x e) = body (entry_lock x e').
Proof. intros H. change (entry_lock x (body e) = entry_lock x (body e')). by rewrite H. Qed.
