(* ===== verification/MapCacheProps.v ===== *)
(** * What the map cache promises, and where it fails

    Opening a map, loading it, evicting: what every operation does to the list
    of entries, to the references and to the tasks that wait. *)

From S2P Require Import Prelude Socket Protocol ThreadPool ThreadPoolSpec Heartbeat Map TaskBacklog TaskBacklogProps.
From S2P Require Import Objects Session SessionSpec MapCache MapCacheSpec.

Local Open Scope Z_scope.

(** ** The scheduler of waiting tasks meets its laws *)

Lemma omap_perm {A B} (f : A -> option B) (l k : list A) : l ≡ₚ k -> omap f l ≡ₚ omap f k.
Proof. intros ->. done. Qed.

#[export] Instance map_scheduler_laws : SchedulerLaws task map_args (tc_thread_pool task task_arg).
Proof.
  split; intros p f a q g ok p' Hok Hn.
  - destruct (sched_new_law (sch := pool_scheduler) p f (ArgMap <$> a) q g ok p' Hok Hn) as [H1 H2].
    split; [exact H1|]. cbn [queued map_scheduler]. rewrite (omap_perm _ _ _ H2), omap_app.
    f_equiv; [destruct ok; by destruct a | done].
  - destruct (sched_next2_law (sch := pool_scheduler) p f (ArgMap <$> a) q g ok p' Hok Hn) as [H1 H2].
    split; [exact H1|]. cbn [queued map_scheduler]. rewrite (omap_perm _ _ _ H2), omap_app.
    f_equiv; [destruct ok; by destruct a | done].
Qed.

(** ** The state of the cache *)

(** What holds between two tasks: the list is well formed and is all there is,
    its entries have their parts, a map is there exactly when the entry says
    so, the entry of a pending load is still in the list and not loaded, and
    no two loads share an entry.  The index is empty. *)
Record cache_ok (s : map_state) (ls : list loc) : Prop := {
  ck_rep : cache_rep s ls;
  ck_unlocked : mc_readers (ms_cache s) = 0%nat /\ mc_writer (ms_cache s) = false;
  ck_index : id_to_index (ms_cache s) = ∅;
  ck_next : forall l : loc, (ms_next s <= l)%nat -> ms_entries s !! l = None /\ ms_load_args s !! l = None;
  ck_listed : forall l, is_Some (ms_entries s !! l) -> l ∈ ls;
  ck_parts : forall l e, ms_entries s !! l = Some e -> is_Some (ce_lock e) /\ is_Some (ce_key e);
  ck_loaded : forall l e, ms_entries s !! l = Some e -> ce_is_loaded e = true <-> exists m, ce_map e = MapLoaded m;
  ck_loads : forall a args, ms_load_args s !! a = Some args ->
    exists e, ms_entries s !! la_entry args = Some e /\ ce_is_loaded e = false;
  ck_own : forall a b x y, ms_load_args s !! a = Some x -> ms_load_args s !! b = Some y -> la_entry x = la_entry y -> a = b }.

Definition on_heap (h : heap) (w : world) : world :=
  World (w_server w) h (w_elapsed w) (w_reads w) (w_closed w) (w_maps w).

Lemma run_allocate w :
  allocate w = (Ok (h_grants (w_heap w) (h_next (w_heap w))),
                on_heap (Heap (h_grants (w_heap w)) (S (h_next (w_heap w)))) w).
Proof. done. Qed.

Lemma with_pool_same w : with_pool_heap (thread_pool (w_server w)) (w_heap w) w = w.
Proof. by destruct w as [[] ? ? ? ? ?]. Qed.

Lemma M_unit_ret (m : M unit) w : (_ ← m; mret tt) w = m w.
Proof. unfold mbind, M_bind. by destruct (m w) as [[[]|] ?]. Qed.

Section MapCache.
Context {cb : MapCallbacks}.

Lemma run_fail_open info w :
  fail_open info w = call_failure (failure_handler info) (entry_context info) (entry_session_generation info) w.
Proof.
  unfold fail_open, invoke_handler. cbn [tc_task_backlog_invoke_handler replay do_event given].
  by rewrite with_pool_same, M_unit_ret.
Qed.

Section Loading.
Context {ld : MapLoader} {sz : CacheSizes}.

(** With an empty index every open goes through to [open_new]. *)
Lemma open_is_new name info q w :
  mc_readers (ms_cache (w_maps w)) = 0%nat -> mc_writer (ms_cache (w_maps w)) = false ->
  id_to_index (ms_cache (w_maps w)) = ∅ ->
  tc_map_cache_schedule_open name info q w = open_new name info (on_maps (put_cache (with_cache_lock 0 true)) w).
Proof.
  intros Hr Hw Hi. unfold tc_map_cache_schedule_open.
  assert (cache_reader_lock w = (Ok tt, on_maps (put_cache (with_cache_lock 1 false)) w)) as E1.
  { unfold cache_reader_lock. rewrite (bind_ok _ _ _ _ _ (run_getm _ _)), Hr, Hw. done. }
  rewrite (bind_ok _ _ _ _ _ E1). unfold index_lookup.
  rewrite (bind_ok _ _ _ _ _ (run_getm _ _)). cbn [w_maps on_maps put_cache ms_cache with_cache id_to_index with_cache_lock].
  rewrite Hi, lookup_empty.
  assert (cache_reader_unlock (on_maps (put_cache (with_cache_lock 1 false)) w)
          = (Ok tt, on_maps (put_cache (with_cache_lock 0 false)) w)) as E2 by done.
  rewrite (bind_ok _ _ _ _ _ E2).
  assert (cache_writer_lock (on_maps (put_cache (with_cache_lock 0 false)) w)
          = (Ok tt, on_maps (put_cache (with_cache_lock 0 true)) w)) as E3 by done.
  rewrite (bind_ok _ _ _ _ _ E3), (bind_ok _ _ _ _ _ (run_getm _ _)).
  cbn [w_maps on_maps put_cache ms_cache with_cache id_to_index with_cache_lock]. by rewrite Hi, lookup_empty.
Qed.

(** A fresh entry as [link_and_load] leaves it, but for its links. *)
Definition opened_entry (e : tc_map_cache_entry) : tc_map_cache_entry :=
  CacheEntry (ce_map e) (ce_map_readers e) (ce_backlog e) sizeof_entry 0 true false (Some false) (ce_key e) None None.

(** Linking and scheduling the load. *)
Lemma link_and_load_run l a info w ls e p ws :
  cache_rep (w_maps w) ls -> at_entry l w e -> ce_lock e = Some false -> l ∉ ls -> mc_writer (ms_cache (w_maps w)) = true ->
  tc_thread_schedule_new (thread_pool (w_server w)) (Some tc_map_cache_load_task) (Some (ArgLoad a)) PRIORITY_BLOCKING (-1)
    = Some (true, p, ws) ->
  exists m, let c := ms_cache (w_maps w) in
    let w' := on_server (with_pool p) (on_maps (fun s => with_cache
                (with_cache_lock (mc_readers c) false (with_usage (u64 (mc_num_entries c + 1)) (u64 (mc_memory_usage c + sizeof_entry))
                   (with_tail (last (l :: ls)) (with_head (Some l) c)))) (with_entries m s)) w) in
    link_and_load l a info w = (Ok tt, w') /\ cache_rep (w_maps w') (l :: ls) /\
    body <$> m = <[l := opened_entry e]> (body <$> ms_entries (w_maps w)).
Proof.
  intros Hr He Hl Hn Hw Hp. unfold link_and_load. rewrite (bind_ok _ _ _ _ _ (run_update_entry _ _ _ _ He)), Hl.
  set (e1 := CacheEntry _ _ _ _ _ _ _ _ _ _ _). rewrite (bind_ok _ _ _ _ _ (run_mutex_lock l _ e1 (at_put_entry _ _ _) eq_refl)).
  set (e2 := entry_lock (Some true) e1). set (w2 := on_maps _ (on_maps _ w)).
  assert (cache_rep (w_maps w2) ls) as Hr2 by (by apply cache_rep_put_new, cache_rep_put_new).
  destruct (link_run l w2 ls e2 Hr2 (at_put_entry _ _ _) Hn eq_refl eq_refl) as (m & E & Hr3 & Hb).
  rewrite (bind_ok _ _ _ _ _ E). clear E. set (w3 := on_maps _ w2) in *.
  rewrite (bind_ok _ _ _ _ _ (run_schedule_new tc_map_cache_load_task (ArgLoad a) _ _ w3 _ _ _ Hp)). cbn [negb].
  destruct (body_lookup m _ l e2 Hb (at_put_entry _ _ _)) as (e3 & He3 & Hb3).
  assert (ce_lock e3 = Some true) as Hl3 by (by rewrite (body_proj ce_lock e3 e2)).
  erewrite bind_ok by (apply (run_mutex_unlock l _ e3); [exact He3 | exact Hl3]).
  exists (<[l := entry_lock (Some false) e3]> m). cbv zeta.
  assert (cache_rep (put_entry l (entry_lock (Some false) e3) (w_maps w3)) (l :: ls)) as Hr4
    by (by apply (cache_rep_put _ _ _ e3)).
  split_and!.
  - unfold cache_writer_unlock. rewrite (bind_ok _ _ _ _ _ (run_getm _ _)). cbn [w_maps on_maps on_server ms_cache put_entry with_entries].
    subst w3 w2. cbn [w_maps on_maps ms_cache with_cache with_usage with_tail with_head mc_writer put_entry with_entries].
    rewrite Hw, run_on_cache. done.
  - eapply cache_rep_ext; [..|exact Hr4]; done.
  - rewrite fmap_insert, (body_lock _ _ _ Hb3), Hb. subst w2. cbn [w_maps on_maps ms_entries put_entry with_entries].
    rewrite insert_insert_eq, !fmap_insert, !insert_insert_eq. done.
Qed.

(** When the pool refuses the load, the entry is used after it was freed. *)
Lemma link_and_load_refused l a info w ls e :
  cache_rep (w_maps w) ls -> at_entry l w e -> ce_lock e = Some false -> is_Some (ce_key e) -> l ∉ ls ->
  (forall p ws, tc_thread_schedule_new (thread_pool (w_server w)) (Some tc_map_cache_load_task) (Some (ArgLoad a)) PRIORITY_BLOCKING (-1)
    <> Some (true, p, ws)) ->
  exists w', link_and_load l a info w = (Stuck BadAccess, w').
Proof.
  intros Hr He Hl [k Hk] Hn Hp. unfold link_and_load. rewrite (bind_ok _ _ _ _ _ (run_update_entry _ _ _ _ He)), Hl.
  set (e1 := CacheEntry _ _ _ _ _ _ _ _ _ _ _). rewrite (bind_ok _ _ _ _ _ (run_mutex_lock l _ e1 (at_put_entry _ _ _) eq_refl)).
  set (e2 := entry_lock (Some true) e1). set (w2 := on_maps _ (on_maps _ w)).
  assert (cache_rep (w_maps w2) ls) as Hr2 by (by apply cache_rep_put_new, cache_rep_put_new).
  destruct (link_run l w2 ls e2 Hr2 (at_put_entry _ _ _) Hn eq_refl eq_refl) as (m & E & Hr3 & Hb).
  rewrite (bind_ok _ _ _ _ _ E). clear E. set (w3 := on_maps _ w2) in *.
  destruct (tc_thread_schedule_new _ _ _ _ _) as [[[[] p] ws]|] eqn:Es in Hp; [by destruct (Hp p ws)| |].
  2: { eexists. apply bind_stuck. unfold schedule_new. rewrite (bind_ok (gets thread_pool) _ (thread_pool (w_server w)) _ w3) by done.
       by rewrite Es. }
  rewrite (bind_ok _ _ _ _ _ (run_schedule_new tc_map_cache_load_task (ArgLoad a) _ _ w3 _ _ _ Es)). cbn [negb].
  destruct (body_lookup m _ l e2 Hb (at_put_entry _ _ _)) as (e3 & He3 & Hb3).
  rewrite (bind_ok _ _ _ _ _ (unlink_run [] l ls (on_server (with_pool p) w3) e3 k Hr3 He3
    (body_proj ce_lock e3 e2 (fun _ => eq_refl) Hb3) (eq_trans (body_proj ce_key e3 e2 (fun _ => eq_refl) Hb3) Hk))).
  eexists. apply bind_stuck. unfold p_mutex_unlock. apply bind_stuck. unfold get_entry.
  rewrite (bind_ok _ _ _ _ _ (run_getm _ _)). cbn. by rewrite lookup_delete_eq.
Qed.

(** The answer to the i-th of the next requests, and the allocator after [n]. *)
Definition grants (w : world) (i : nat) : bool := h_grants (w_heap w) (i + h_next (w_heap w)).
Definition asked (n : nat) (w : world) : world := on_heap (Heap (h_grants (w_heap w)) (n + h_next (w_heap w))) w.

(** An open that ran out of memory after [n] requests: nothing is left of it
    but used-up locations. *)
Definition backed_out (n used : nat) (w : world) : world :=
  asked n (on_maps (fun s => with_next (used + ms_next s)%nat (put_cache (with_cache_lock 0 false) s)) w).

(** The entry with all its parts, before it is linked. *)
Definition prepared_entry (name : list Z) (info : map_waiter) : tc_map_cache_entry :=
  CacheEntry MapUnset 0 [[info]] 0 0 false false (Some false) (Some (c_content name)) None None.

Definition prepared (name : list Z) (info : map_waiter) (w : world) : world :=
  let l := ms_next (w_maps w) in
  asked 5 (on_maps (fun s => with_live (ms_live s + 3) (with_next (S (S l))
    (with_load_args (<[S l := LoadArgs name l]> (ms_load_args s)) (with_entries (<[l := prepared_entry name info]> (ms_entries s)) s)))) w).

Lemma run_writer_unlock w :
  mc_writer (ms_cache (w_maps w)) = true ->
  cache_writer_unlock w = (Ok tt, on_maps (put_cache (with_cache_lock (mc_readers (ms_cache (w_maps w))) false)) w).
Proof. intros H. unfold cache_writer_unlock. by rewrite (bind_ok _ _ _ _ _ (run_getm _ _)), H. Qed.

Lemma push_nil (info : map_waiter) h :
  tc_task_backlog_push [] info h =
  (h_grants h (h_next h), if h_grants h (h_next h) then [[info]] else [], Heap (h_grants h) (S (h_next h))).
Proof. unfold tc_task_backlog_push, tc_task_backlog_block_new, p_malloc. by destruct (h_grants h (h_next h)). Qed.

(** The first task to wait needs a block. *)
Lemma run_push_first l info w e :
  at_entry l w e -> ce_backlog e = [] ->
  backlog_push l info w = (Ok (grants w 0), asked 1 (on_maps (fun s =>
    put_entry l (entry_backlog (if grants w 0 then [[info]] else []) e) (with_live (ms_live s + (if grants w 0 then 1 else 0)) s)) w)).
Proof.
  intros He Hb. unfold backlog_push. rewrite (bind_ok _ _ _ _ _ (run_get_entry _ _ _ He)), Hb.
  erewrite bind_ok by (rewrite push_nil; reflexivity).
  cbv beta iota. rewrite (bind_ok _ _ _ _ _ (run_live _ _)).
  erewrite bind_ok by (apply (run_update_entry l _ _ e); exact He).
  unfold grants. cbn [Nat.add]. destruct (h_grants (w_heap w) (h_next (w_heap w))); by destruct w as [[] ? ? ? ? ?].
Qed.

(** Three steps that are known together. *)
Lemma bind_assoc3 {A} (m1 m2 m3 : M unit) (k : M A) w w' :
  (_ ← m1; _ ← m2; m3) w = (Ok tt, w') -> (_ ← m1; _ ← m2; _ ← m3; k) w = k w'.
Proof.
  unfold mbind, M_bind. destruct (m1 w) as [[]]; [|done]. destruct (m2 _) as [[]]; [|done].
  destruct (m3 _) as [[]]; [|done]. by intros [= _ ->].
Qed.

Lemma run_free_load_args a w x :
  ms_load_args (w_maps w) !! a = Some x ->
  free_load_args a w = (Ok tt, on_maps (fun s => with_load_args (delete a (ms_load_args s)) s) w).
Proof. intros H. unfold free_load_args, get_load_args, mbind, M_bind, getm. by rewrite H. Qed.

Lemma world_eq v h el rd cl s s' : s = s' -> World v h el rd cl s = World v h el rd cl s'.
Proof. by intros ->. Qed.

(** Equality of two computed worlds: both are evaluated, innermost first. *)
Ltac same_world w :=
  match goal with |- ?x _ = ?x _ => apply (f_equal x) | _ => idtac end;
  destruct w as [? [] ? ? ? [[] ? ? ? ? ? ? ?]]; cbn [w_maps ms_cache ms_entries ms_load_args ms_next mc_readers mc_writer] in *; subst;
  cbv [backed_out prepared asked on_heap on_maps discard put_entry put_cache with_entries with_cache with_live with_load_args
       with_sends with_buffers with_next with_loads with_cache_lock w_server w_heap w_elapsed w_reads w_closed w_maps
       h_grants h_next ms_cache ms_entries ms_load_args ms_sends ms_buffers ms_next ms_live ms_loads
       id_to_index mc_head mc_tail mc_clock_hand mc_num_entries mc_readers mc_writer mc_memory_usage mc_memory_usage_threshold];
  rewrite ?insert_insert_eq, ?delete_insert_eq, ?delete_id by done;
  repeat match goal with |- World _ _ _ _ _ _ = _ => f_equal | |- MapState _ _ _ _ _ _ _ _ = _ => f_equal end;
  try done; cbn; try lia.

(** The five requests of an open, in order: the entry, its mutex, its key, the
    arguments of the load, a block for the backlog. *)
Lemma open_new_run name info w :
  mc_readers (ms_cache (w_maps w)) = 0%nat -> mc_writer (ms_cache (w_maps w)) = true ->
  ms_entries (w_maps w) !! ms_next (w_maps w) = None -> ms_load_args (w_maps w) !! S (ms_next (w_maps w)) = None ->
  open_new name info w =
  (if negb (grants w 0) then fail_open info (backed_out 1 0 w)
   else if negb (grants w 1) then fail_open info (backed_out 2 1 w)
   else if negb (grants w 2) then fail_open info (backed_out 3 1 w)
   else if negb (grants w 3) then fail_open info (backed_out 4 1 w)
   else if negb (grants w 4) then fail_open info (backed_out 5 2 w)
   else link_and_load (ms_next (w_maps w)) (S (ms_next (w_maps w))) info (prepared name info w)).
Proof.
  intros Hr Hw He Ha. unfold open_new. rewrite (bind_ok _ _ _ _ _ (run_allocate _)).
  change (h_grants (w_heap w) (h_next (w_heap w))) with (grants w 0). destruct (grants w 0); cbn [negb].
  2: { rewrite (bind_ok _ _ _ _ _ (run_writer_unlock (on_heap _ w) Hw)). same_world w. }
  set (w1 := on_heap _ w). assert (new_entry w1 = (Ok (ms_next (w_maps w)), on_maps (fun s => put_entry (ms_next s) raw_entry (with_next (S (ms_next s)) s)) w1)) as E
    by done. rewrite (bind_ok _ _ _ _ _ E). clear E. set (l := ms_next (w_maps w)). set (w2 := on_maps _ w1).
  rewrite (bind_ok _ _ _ _ _ (run_allocate _)).
  change (h_grants (w_heap w2) (h_next (w_heap w2))) with (grants w 1). destruct (grants w 1); cbn [negb].
  2: { rewrite (bind_ok _ _ _ _ _ (run_free_entry l (on_heap _ w2) raw_entry (lookup_insert_eq _ _ _))).
       erewrite bind_ok by (by apply run_writer_unlock). subst w1 w2 l. same_world w. }
  erewrite bind_ok by (apply (run_update_entry l _ _ raw_entry); apply lookup_insert_eq).
  rewrite (bind_ok _ _ _ _ _ (run_live _ _)). set (w3 := on_maps _ (on_maps _ _)).
  rewrite (bind_ok _ _ _ _ _ (run_allocate _)).
  change (h_grants (w_heap w3) (h_next (w_heap w3))) with (grants w 2). destruct (grants w 2); cbn [negb].
  2: { erewrite bind_ok by (apply (run_mutex_free l _ (entry_lock (Some false) raw_entry) false); [apply lookup_insert_eq | done]).
       erewrite bind_ok by (eapply (run_free_entry l); apply lookup_insert_eq).
       erewrite bind_ok by (by apply run_writer_unlock). subst w1 w2 w3 l. same_world w. }
  erewrite bind_ok by (apply (run_update_entry l _ _ (entry_lock (Some false) raw_entry)); apply lookup_insert_eq).
  rewrite (bind_ok _ _ _ _ _ (run_live _ _)). set (w4 := on_maps _ (on_maps _ _)).
  rewrite (bind_ok _ _ _ _ _ (run_allocate _)).
  change (h_grants (w_heap w4) (h_next (w_heap w4))) with (grants w 3).
  set (e4 := entry_key (Some (c_content name)) (entry_lock (Some false) raw_entry)). destruct (grants w 3); cbn [negb].
  2: { erewrite bind_assoc3 by (apply (discard_run l _ e4 (c_content name)); [apply lookup_insert_eq | by eexists | done]).
       erewrite bind_ok by (by apply run_writer_unlock). subst w1 w2 w3 w4 l. same_world w. }
  assert (new_load_args (LoadArgs name l) (on_heap (Heap (h_grants (w_heap w4)) (S (h_next (w_heap w4)))) w4)
    = (Ok (S l), on_maps (fun s => with_load_args (<[S l := LoadArgs name l]> (ms_load_args s)) (with_next (S (S l)) s))
                   (on_heap (Heap (h_grants (w_heap w4)) (S (h_next (w_heap w4)))) w4))) as E by done.
  rewrite (bind_ok _ _ _ _ _ E). clear E.
  erewrite bind_ok by (apply (run_update_entry l _ _ e4); apply lookup_insert_eq). set (w5 := on_maps _ (on_maps _ _)).
  rewrite (bind_ok _ _ _ _ _ (run_push_first l info w5 e4 (lookup_insert_eq _ _ _) eq_refl)).
  change (grants w5 0) with (grants w 4). set (w6 := asked 1 _). destruct (grants w 4); cbn [negb].
  2: { erewrite bind_ok by (apply (run_mutex_free l _ (entry_backlog [] e4) false); [apply lookup_insert_eq | done]).
       erewrite bind_ok by (eapply (run_free_key l _ _ (c_content name)); [apply lookup_insert_eq | done]).
       erewrite bind_ok by (unfold backlog_finalize; erewrite bind_ok by (eapply (run_get_entry l); apply lookup_insert_eq);
                            apply run_live).
       erewrite bind_ok by (eapply (run_free_entry l); apply lookup_insert_eq).
       erewrite bind_ok by (by apply run_writer_unlock).
       erewrite bind_ok by (eapply (run_free_load_args (S l)); apply lookup_insert_eq).
       subst w1 w2 w3 w4 w5 w6 l. same_world w. }
  subst w1 w2 w3 w4 w5 w6 l. same_world w.
Qed.

(** The state after an open: a new unloaded entry in front, and its load. *)
Record opened (name : list Z) (info : map_waiter) (w w' : world) (ls : list loc) : Prop := {
  op_ok : cache_ok (w_maps w') (ms_next (w_maps w) :: ls);
  op_bodies : body <$> ms_entries (w_maps w') =
    <[ms_next (w_maps w) := opened_entry (prepared_entry name info)]> (body <$> ms_entries (w_maps w));
  op_args : ms_load_args (w_maps w') =
    <[S (ms_next (w_maps w)) := LoadArgs name (ms_next (w_maps w))]> (ms_load_args (w_maps w));
  op_usage : mc_memory_usage (ms_cache (w_maps w')) = u64 (mc_memory_usage (ms_cache (w_maps w)) + sizeof_entry) }.

(** Entries after an insertion that may have changed links. *)
Lemma bodies_insert_inv (m m' : entries) l e0 l' e :
  body <$> m' = <[l := e0]> (body <$> m) -> m' !! l' = Some e ->
  (l' = l /\ body e = e0) \/ (l' <> l /\ exists e1, m !! l' = Some e1 /\ body e1 = body e).
Proof.
  intros Hb He. assert ((body <$> m') !! l' = Some (body e)) as H by (by rewrite lookup_fmap, He).
  rewrite Hb in H. destruct (decide (l' = l)) as [->|Hn].
  - left. rewrite lookup_insert_eq in H. split; congruence.
  - right. rewrite lookup_insert_ne, lookup_fmap in H by done. destruct (m !! l') as [e1|]; [|done].
    split; [done|]. exists e1. cbn in H. split; congruence.
Qed.

Lemma body_lookup_new (m m' : entries) l e0 :
  body <$> m' = <[l := e0]> (body <$> m) -> exists e, m' !! l = Some e /\ body e = e0.
Proof.
  intros Hb. assert ((body <$> m') !! l = Some e0) as H by (by rewrite Hb, lookup_insert_eq).
  rewrite lookup_fmap in H. destruct (m' !! l) as [e|]; [|done]. exists e. cbn in H. split; congruence.
Qed.

Lemma bodies_other (m m' : entries) l e0 l' e :
  body <$> m' = <[l := e0]> (body <$> m) -> m !! l' = Some e -> l' <> l -> exists e', m' !! l' = Some e' /\ body e' = body e.
Proof.
  intros Hb He Hn. assert ((body <$> m') !! l' = Some (body e)) as H by (by rewrite Hb, lookup_insert_ne, lookup_fmap, He).
  rewrite lookup_fmap in H. destruct (m' !! l') as [e'|]; [|done]. exists e'. cbn in H. split; congruence.
Qed.

Lemma opened_cache_ok s s' ls l e0 a args :
  cache_ok s ls -> l = ms_next s -> cache_rep s' (l :: ls) ->
  mc_readers (ms_cache s') = 0%nat /\ mc_writer (ms_cache s') = false -> id_to_index (ms_cache s') = ∅ ->
  ms_next s' = S (S l) -> a = S l -> la_entry args = l ->
  body <$> ms_entries s' = <[l := e0]> (body <$> ms_entries s) -> ms_load_args s' = <[a := args]> (ms_load_args s) ->
  is_Some (ce_lock e0) -> is_Some (ce_key e0) -> ce_is_loaded e0 = false -> ce_map e0 = MapUnset ->
  cache_ok s' (l :: ls).
Proof.
  intros [Hr Hu Hi Hnx Hls Hp Hld Hla Ho] -> Hr' Hu' Hi' Hnx' -> Hargs Hb Ha Hlk Hk Hl0 Hm0. split; try done.
  - intros x Hx. split.
    + destruct (ms_entries s' !! x) as [e|] eqn:E; [|done]. rewrite Hnx' in Hx.
      destruct (bodies_insert_inv _ _ _ _ _ _ Hb E) as [[-> _]|(Hne & e1 & E1 & _)]; [lia|].
      destruct (Hnx x) as [Hn _]; [lia|]. congruence.
    + rewrite Ha, lookup_insert_ne by lia. apply Hnx. lia.
  - intros x [e He]. destruct (bodies_insert_inv _ _ _ _ _ _ Hb He) as [[-> _]|(Hne & e1 & E1 & _)]; [left|].
    right. apply Hls. by eexists.
  - intros x e He. destruct (bodies_insert_inv _ _ _ _ _ _ Hb He) as [[-> <-]|(Hne & e1 & E1 & Hb1)]; [done|].
    rewrite <- (body_proj ce_lock e1 e), <- (body_proj ce_key e1 e) by done. by eapply Hp.
  - intros x e He. destruct (bodies_insert_inv _ _ _ _ _ _ Hb He) as [[-> <-]|(Hne & e1 & E1 & Hb1)].
    + change (ce_is_loaded e = false) in Hl0. change (ce_map e = MapUnset) in Hm0. rewrite Hl0, Hm0. naive_solver.
    + rewrite <- (body_proj ce_is_loaded e1 e), <- (body_proj ce_map e1 e) by done. by eapply Hld.
  - intros b y Hy. rewrite Ha in Hy. apply lookup_insert_Some in Hy as [[<- <-]|[Hne Hy]].
    + destruct (body_lookup_new _ _ _ _ Hb) as (e & He & <-). rewrite Hargs. by exists e.
    + destruct (Hla b y Hy) as (e & He & Hfl). destruct (bodies_other _ _ _ _ _ _ Hb He) as (e' & He' & Hb').
      { intros El. destruct (Hnx (la_entry y)) as [Hn _]; [by rewrite El | congruence]. }
      exists e'. by rewrite (body_proj ce_is_loaded e' e).
  - intros b c x y Hx Hy Hxy. rewrite Ha in Hx, Hy.
    assert (forall b y, ms_load_args s !! b = Some y -> la_entry y <> ms_next s) as Hold.
    { intros b' y' Hy' El. destruct (Hla b' y' Hy') as (e & He & _). rewrite El in He.
      destruct (Hnx (ms_next s)) as [Hn _]; [lia | congruence]. }
    apply lookup_insert_Some in Hx as [[<- <-]|[Hnx1 Hx]]; apply lookup_insert_Some in Hy as [[<- <-]|[Hny Hy]]; try done.
    + destruct (Hold _ _ Hy). by rewrite <- Hxy.
    + destruct (Hold _ _ Hx). by rewrite Hxy.
    + by eapply Ho.
Qed.

(** The failure handler of a task that wanted to wait. *)
Definition tell_failure (info : map_waiter) : M unit :=
  call_failure (failure_handler info) (entry_context info) (entry_session_generation info).

Lemma backed_out_eq n used w :
  mc_readers (ms_cache (w_maps w)) = 0%nat -> mc_writer (ms_cache (w_maps w)) = false ->
  backed_out n used (on_maps (put_cache (with_cache_lock 0 true)) w)
  = asked n (on_maps (fun s => with_next (used + ms_next s)%nat s) w).
Proof. intros Hr Hw. same_world w. Qed.

Lemma schedule_open_run name info q w ls :
  cache_ok (w_maps w) ls ->
  (forall n, (n < 5)%nat -> (forall i, (i < n)%nat -> grants w i = true) -> grants w n = false ->
     exists used, tc_map_cache_schedule_open name info q w
       = tell_failure info (asked (S n) (on_maps (fun s => with_next (used + ms_next s)%nat s) w))) /\
  ((forall i, (i < 5)%nat -> grants w i = true) ->
     match tc_thread_schedule_new (thread_pool (w_server w)) (Some tc_map_cache_load_task)
             (Some (ArgLoad (S (ms_next (w_maps w))))) PRIORITY_BLOCKING (-1) with
     | Some (true, p, _) =>
         exists w', tc_map_cache_schedule_open name info q w = (Ok tt, w') /\ opened name info w w' ls /\
           thread_pool (w_server w') = p
     | _ => exists w', tc_map_cache_schedule_open name info q w = (Stuck BadAccess, w')
     end).
Proof.
  intros Hok. pose proof Hok as [Hr [Hrd Hwr] Hi Hnx _ _ _ _ _].
  rewrite (open_is_new name info q w Hrd Hwr Hi). set (w1 := on_maps _ w).
  pose proof (open_new_run name info w1 eq_refl eq_refl (proj1 (Hnx _ (Nat.le_refl _))) (proj2 (Hnx _ (Nat.le_succ_diag_r _)))) as E.
  change (grants w1) with (grants w) in E. split.
  - intros n Hn Hb Hf. rewrite E. unfold w1. rewrite !backed_out_eq, !run_fail_open by done.
    destruct n as [|[|[|[|[|n]]]]]; [..|lia]; rewrite ?(Hb 0%nat), ?(Hb 1%nat), ?(Hb 2%nat), ?(Hb 3%nat), Hf by lia; cbn [negb];
      by eexists.
  - intros Hg. rewrite (Hg 0%nat), (Hg 1%nat), (Hg 2%nat), (Hg 3%nat), (Hg 4%nat) in E by lia. cbn [negb] in E. rewrite E.
    assert (ms_next (w_maps w) ∉ ls) as Hl.
    { intros H. destruct (cache_rep_lookup _ _ _ Hr H) as [e He]. destruct (Hnx _ (Nat.le_refl _)). congruence. }
    assert (cache_rep (w_maps (prepared name info w1)) ls) as Hr1.
    { eapply (cache_rep_ext (put_entry (ms_next (w_maps w)) (prepared_entry name info) (w_maps w))); try done.
      by apply cache_rep_put_new. }
    assert ((forall p ws, tc_thread_schedule_new (thread_pool (w_server w)) (Some tc_map_cache_load_task)
              (Some (ArgLoad (S (ms_next (w_maps w))))) PRIORITY_BLOCKING (-1) <> Some (true, p, ws)) ->
            exists w', link_and_load (ms_next (w_maps w)) (S (ms_next (w_maps w))) info (prepared name info w1) = (Stuck BadAccess, w')) as Hno.
    { intros Hp. apply (link_and_load_refused _ _ info (prepared name info w1) ls (prepared_entry name info)); try done.
      apply lookup_insert_eq. }
    destruct (tc_thread_schedule_new _ _ _ _ _) as [[[[] p] ws]|] eqn:Hp; [| by apply Hno | by apply Hno].
    + destruct (link_and_load_run (ms_next (w_maps w)) (S (ms_next (w_maps w))) info (prepared name info w1) ls
        (prepared_entry name info) p ws Hr1 (lookup_insert_eq _ _ _) eq_refl Hl eq_refl Hp) as (m & El & Hr2 & Hb).
      eexists. split; [exact El|]. split; [|done].
      assert (body <$> m = <[ms_next (w_maps w) := opened_entry (prepared_entry name info)]> (body <$> ms_entries (w_maps w))) as Hb'.
      { rewrite Hb. cbn. by rewrite fmap_insert, insert_insert_eq. }
      split; [|done..]. by eapply (opened_cache_ok (w_maps w)); try done; eexists.
Qed.

(** C13. [tc_map_cache_schedule_open] in a well-formed cache.  If one of its five
    allocations fails, the failure handler of the task is called once, and
    nothing of the attempt is left: no entry, no block, no lock.  If they
    succeed and the pool takes the load, the task waits in the backlog of a new
    entry in front of the list, a load of the name is queued for it, and the
    cache is well formed again.  If the pool refuses the load, the entry is
    used after it was freed. *)
Theorem schedule_open_spec name info q w ls :
  cache_ok (w_maps w) ls ->
  (forall n, (n < 5)%nat -> (forall i, (i < n)%nat -> grants w i = true) -> grants w n = false ->
     exists used, tc_map_cache_schedule_open name info q w
       = tell_failure info (asked (S n) (on_maps (fun s => with_next (used + ms_next s)%nat s) w))) /\
  ((forall i, (i < 5)%nat -> grants w i = true) ->
     match tc_thread_schedule_new (thread_pool (w_server w)) (Some tc_map_cache_load_task)
             (Some (ArgLoad (S (ms_next (w_maps w))))) PRIORITY_BLOCKING (-1) with
     | Some (true, p, _) =>
         exists w', tc_map_cache_schedule_open name info q w = (Ok tt, w') /\ opened name info w w' ls /\
           thread_pool (w_server w') = p
     | _ => exists w', tc_map_cache_schedule_open name info q w = (Stuck BadAccess, w')
     end).
Proof. apply schedule_open_run. Qed.
End Loading.
End MapCache.
