(* ===== verification/MapCacheEvict.v ===== *)
(** * Eviction

    [tc_map_cache_evict] against a reference definition on the list of entries:
    one pass from the tail to the head that gives referenced maps a second
    chance and drops unreferenced ones until memory is below the threshold.
    And what the pass does to the locks, the counter and entries that are not
    loaded yet. *)

From S2P Require Import Prelude Socket Protocol ThreadPool ThreadPoolSpec Heartbeat Map TaskBacklog TaskBacklogProps.
From S2P Require Import Objects Session SessionSpec MapCache MapCacheSpec MapCacheProps.

Local Open Scope Z_scope.
Set Default Proof Using "Type*".

(** ** The cache as a list *)

Abbreviation cache_view := (list (loc * tc_map_cache_entry)).

(** The list of the cache holds these entries and there are no others. *)
Record views (s : map_state) (v : cache_view) : Prop := {
  vw_rep : cache_rep s v.*1;
  vw_bodies : body <$> ms_entries s = list_to_map v }.

Lemma NoDup_fst_app (a b : cache_view) l e :
  NoDup (a ++ (l, e) :: b).*1 -> NoDup (a ++ b).*1 /\ l ∉ a.*1 /\ l ∉ b.*1.
Proof.
  rewrite !fmap_app. intros (Ha & Hd & [Hb Hb']%NoDup_cons)%NoDup_app. split_and!.
  - apply NoDup_app. split_and!; [done | | done]. intros x Hx Hx'. apply (Hd x Hx). by right.
  - intros H. by apply (Hd l H), list_elem_of_here.
  - done.
Qed.

Lemma view_lookup (a b : cache_view) l e :
  l ∉ a.*1 -> (list_to_map (a ++ (l, e) :: b) : entries) !! l = Some e.
Proof.
  intros Ha. rewrite list_to_map_app, lookup_union_r by (by apply not_elem_of_list_to_map_1). apply lookup_insert_eq.
Qed.

Lemma view_update (a b : cache_view) l e e' :
  l ∉ a.*1 -> <[l := e']> (list_to_map (a ++ (l, e) :: b) : entries) = list_to_map (a ++ (l, e') :: b).
Proof.
  intros Ha. rewrite !list_to_map_app. cbn [list_to_map foldr uncurry]. rewrite insert_union_r by (by apply not_elem_of_list_to_map_1).
  by rewrite insert_insert_eq.
Qed.

Lemma view_delete (a b : cache_view) l e :
  l ∉ a.*1 -> l ∉ b.*1 -> delete l (list_to_map (a ++ (l, e) :: b) : entries) = list_to_map (a ++ b).
Proof.
  intros Ha Hb. rewrite !list_to_map_app, delete_union. cbn [list_to_map foldr uncurry].
  rewrite delete_insert_id by (by apply not_elem_of_list_to_map_1).
  by rewrite delete_id by (by apply not_elem_of_list_to_map_1).
Qed.

Lemma views_at s a l e b : views s (a ++ (l, e) :: b) -> exists e', ms_entries s !! l = Some e' /\ body e' = e.
Proof.
  intros [Hr Hb]. pose proof (NoDup_fst_app _ _ _ _ (cr_nodup _ _ Hr)) as (_ & Ha & _).
  pose proof (view_lookup a b l e Ha) as H. rewrite <- Hb, lookup_fmap in H.
  destruct (ms_entries s !! l) as [e'|]; [|done]. exists e'. cbn in H. split; congruence.
Qed.

Lemma views_ext s s' v :
  mc_head (ms_cache s') = mc_head (ms_cache s) -> mc_tail (ms_cache s') = mc_tail (ms_cache s) ->
  mc_num_entries (ms_cache s') = mc_num_entries (ms_cache s) -> ms_entries s' = ms_entries s ->
  views s v -> views s' v.
Proof. intros Hh Ht Hn He []. split; [by eapply cache_rep_ext | by rewrite He]. Qed.

Lemma views_put s a l e0 b e e' :
  views s (a ++ (l, e0) :: b) -> ms_entries s !! l = Some e -> ce_prev e' = ce_prev e -> ce_next e' = ce_next e ->
  views (put_entry l e' s) (a ++ (l, body e') :: b).
Proof.
  intros [Hr Hb] He Hp Hn. pose proof (NoDup_fst_app _ _ _ _ (cr_nodup _ _ Hr)) as (_ & Ha & _). split.
  - rewrite fmap_app in *. cbn [fmap list_fmap fst] in *. by eapply cache_rep_put.
  - cbn. by rewrite fmap_insert, Hb, view_update.
Qed.

Lemma views_unlinked s a l e b usage :
  views s (a ++ (l, e) :: b) -> views (unlinked a.*1 l b.*1 usage s) (a ++ b).
Proof.
  intros [Hr Hb]. pose proof (NoDup_fst_app _ _ _ _ (cr_nodup _ _ Hr)) as (_ & Ha & Hb'). split.
  - rewrite fmap_app in *. by apply unlinked_rep.
  - cbn. by rewrite fmap_delete, relink_body, Hb, view_delete.
Qed.

(** ** The reference definition *)

(** The second chance: the mark is taken away, and the mutex stays locked. *)
Definition second_chance (e : tc_map_cache_entry) : tc_map_cache_entry := entry_lock (Some true) (entry_referenced false e).

(** [v] is the part of the list still to visit, nearest to the tail first. *)
Fixpoint sweep (threshold usage : Z) (v : cache_view) : cache_view * Z :=
  match v with
  | [] => ([], usage)
  | (l, e) :: rest =>
      if negb (ce_open_count e =? 0) then let '(kept, u) := sweep threshold usage rest in ((l, e) :: kept, u)
      else if ce_is_referenced e then let '(kept, u) := sweep threshold usage rest in ((l, second_chance e) :: kept, u)
      else
        let u := u64 (usage - ce_memory_usage e) in
        if u <? threshold then (rest, u) else sweep threshold u rest
  end.

(** An entry the pass can deal with. *)
Definition ready (e : tc_map_cache_entry) : Prop :=
  ce_is_loaded e = true /\ ce_lock e = Some false /\ is_Some (ce_key e) /\ exists m, ce_map e = MapLoaded m.

(** What the pass leaves alone. *)
Definition rest_of (s : map_state) :=
  (ms_load_args s, ms_sends s, ms_buffers s, ms_next s, ms_loads s, mc_memory_usage_threshold (ms_cache s),
   mc_readers (ms_cache s), mc_writer (ms_cache s)).

(** [w'] differs from [w] in the cache and its entries only. *)
Record passed (w w' : world) : Prop := {
  pa_world : w' = on_maps (fun _ => w_maps w') w;
  pa_rest : rest_of (w_maps w') = rest_of (w_maps w);
  pa_index : id_to_index (ms_cache (w_maps w)) = ∅ -> id_to_index (ms_cache (w_maps w')) = ∅ }.

Lemma passed_refl w : passed w w.
Proof. split; [by destruct w | done | done]. Qed.

Lemma passed_trans w1 w2 w3 : passed w1 w2 -> passed w2 w3 -> passed w1 w3.
Proof.
  intros [E1 R1 I1] [E2 R2 I2]. split; [|congruence | auto]. rewrite E2, E1. by destruct w1.
Qed.

Lemma passed_on_maps f w :
  rest_of (f (w_maps w)) = rest_of (w_maps w) ->
  (id_to_index (ms_cache (w_maps w)) = ∅ -> id_to_index (ms_cache (f (w_maps w))) = ∅) -> passed w (on_maps f w).
Proof. intros Hr Hi. by split. Qed.

(** Moving the clock hand changes nothing else. *)
Lemma move_hand (c : bool) x w :
  exists w', when c (on_cache (with_hand x)) w = (Ok tt, w') /\ passed w w' /\
    (forall v, views (w_maps w) v -> views (w_maps w') v) /\
    mc_memory_usage (ms_cache (w_maps w')) = mc_memory_usage (ms_cache (w_maps w)) /\
    mc_memory_usage_threshold (ms_cache (w_maps w')) = mc_memory_usage_threshold (ms_cache (w_maps w)).
Proof.
  destruct c.
  - exists (on_maps (put_cache (with_hand x)) w). split_and!; [done | by apply passed_on_maps | | done | done].
    intros v. by apply views_ext.
  - exists w. split_and!; [done | apply passed_refl | auto | done | done].
Qed.

(** ** One entry of the pass *)

Section Visit.
Variables (w : world) (a : cache_view) (l : loc) (e0 : tc_map_cache_entry) (b : cache_view).
Hypothesis Hv : views (w_maps w) (a ++ (l, e0) :: b).
Hypothesis Hready : ready e0.

(** The entry itself, with its links. *)
Lemma visit_entry :
  exists e, at_entry l w e /\ body e = e0 /\ ready e /\ ce_prev e = last a.*1 /\ ce_next e = head b.*1.
Proof.
  destruct (views_at _ _ _ _ _ Hv) as (e & He & Hb). exists e. split_and!; [done | done | by subst e0 | |];
    destruct Hv as [Hr _]; rewrite fmap_app in Hr; by apply (cache_rep_links _ _ _ _ _ Hr).
Qed.

(** The start of a turn: the mutex is taken. *)
Lemma visit_start n e :
  at_entry l w e -> ready e ->
  evict_loop (S n) (Some l) w =
  (let w1 := on_maps (put_entry l (entry_lock (Some true) e)) w in
   if ce_open_count e =? 0 then
     if ce_is_referenced e then
       (_ ← update_entry l (entry_referenced false); evict_loop n (ce_prev e)) w1
     else
       (_ ← index_remove (default [] (ce_key e));
        _ ← tc_map_finalize l;
        _ ← tc_map_cache_unlink_entry l;
        c ← getm ms_cache;
        _ ← when (bool_decide (mc_clock_hand c = Some l)) (on_cache (with_hand (ce_prev e)));
        c ← getm ms_cache;
        if mc_memory_usage c <? mc_memory_usage_threshold c
        then when (bool_decide (mc_clock_hand c = None)) (on_cache (with_hand (mc_tail c)))
        else evict_loop n (ce_prev e)) w1
   else (_ ← p_mutex_unlock l; evict_loop n (ce_prev e)) w1).
Proof.
  intros He (Hl & Hk & [k Hkey] & _). cbn [evict_loop]. rewrite (bind_ok _ _ _ _ _ (run_getm _ _)).
  rewrite (bind_ok _ _ _ _ _ (run_checked _ l _ eq_refl)), (bind_ok _ _ _ _ _ (run_mutex_lock _ _ _ He Hk)).
  rewrite (bind_ok _ _ _ _ _ (run_get_entry _ _ _ (at_put_entry _ _ _))).
  cbn [entry_lock ce_is_loaded ce_open_count ce_is_referenced ce_prev ce_key]. rewrite Hl. cbn [negb].
  destruct (ce_open_count e =? 0); [|done]. destruct (ce_is_referenced e); [done|].
  rewrite Hkey. by rewrite (bind_ok _ _ _ _ _ (run_checked _ k _ eq_refl)).
Qed.

(** A map that is open: nothing happens. *)
Lemma visit_opened n :
  ce_open_count e0 <> 0 ->
  exists w', evict_loop (S n) (Some l) w = evict_loop n (last a.*1) w' /\ passed w w' /\
    views (w_maps w') (a ++ (l, e0) :: b) /\
    mc_memory_usage (ms_cache (w_maps w')) = mc_memory_usage (ms_cache (w_maps w)).
Proof.
  intros Hc. destruct visit_entry as (e & He & Hb & Hr & Hp & _). rewrite (visit_start n e He Hr). cbv zeta.
  change (ce_open_count e0) with (ce_open_count (body e)) in Hc || rewrite <- Hb in Hc.
  destruct (Z.eqb_spec (ce_open_count e) 0) as [E|_]; [done|].
  erewrite bind_ok by (apply (run_mutex_unlock l); [apply at_put_entry | done]). rewrite Hp, on_maps_on_maps.
  eexists. split_and!; [done | by apply passed_on_maps | | done].
  set (e1 := entry_lock _ _). assert (e1 = e) as -> by (destruct e, Hr as (_ & Hk & _); cbn in *; by subst).
  pose proof (views_put _ _ _ _ _ _ (entry_lock (Some true) e) Hv He eq_refl eq_refl) as H1.
  pose proof (views_put _ _ _ _ _ _ e H1 (lookup_insert_eq _ _ _) eq_refl eq_refl) as H2. by rewrite Hb in H2.
Qed.

(** A map that was used since the last pass: its mark is taken away. *)
Lemma visit_referenced n :
  ce_open_count e0 = 0 -> ce_is_referenced e0 = true ->
  exists w', evict_loop (S n) (Some l) w = evict_loop n (last a.*1) w' /\ passed w w' /\
    views (w_maps w') (a ++ (l, second_chance e0) :: b) /\
    mc_memory_usage (ms_cache (w_maps w')) = mc_memory_usage (ms_cache (w_maps w)).
Proof.
  intros Hc Hf. destruct visit_entry as (e & He & Hb & Hr & Hp & _). rewrite (visit_start n e He Hr). cbv zeta.
  rewrite <- Hb in Hc, Hf. cbn in Hc, Hf. rewrite Hc, Hf. cbn [Z.eqb].
  erewrite bind_ok by (apply (run_update_entry l); apply at_put_entry). rewrite Hp, on_maps_on_maps.
  eexists. split_and!; [done | by apply passed_on_maps | | done].
  pose proof (views_put _ _ _ _ _ _ (entry_lock (Some true) e) Hv He eq_refl eq_refl) as H1.
  pose proof (views_put _ _ _ _ _ _ (entry_referenced false (entry_lock (Some true) e)) H1 (lookup_insert_eq _ _ _) eq_refl eq_refl) as H2.
  rewrite <- Hb. exact H2.
Qed.

(** A map nobody uses: it is gone, and the pass stops if that is enough. *)
Lemma visit_evicted n :
  ce_open_count e0 = 0 -> ce_is_referenced e0 = false ->
  let u := u64 (mc_memory_usage (ms_cache (w_maps w)) - ce_memory_usage e0) in
  exists w', evict_loop (S n) (Some l) w
      = (if u <? mc_memory_usage_threshold (ms_cache (w_maps w)) then (Ok tt, w') else evict_loop n (last a.*1) w') /\
    passed w w' /\ views (w_maps w') (a ++ b) /\ mc_memory_usage (ms_cache (w_maps w')) = u.
Proof.
  intros Hc Hf u. destruct visit_entry as (e & He & Hb & Hr & Hp & _). rewrite (visit_start n e He Hr). cbv zeta.
  rewrite <- Hb in Hc, Hf. cbn in Hc, Hf. rewrite Hc, Hf. cbn [Z.eqb].
  destruct Hr as (Hl & Hk & [k Hkey] & m & Hm). rewrite Hkey. cbn [default].
  unfold index_remove. rewrite (bind_ok _ _ _ _ _ (run_on_cache _ _)). set (w1 := on_maps _ (on_maps _ w)).
  assert (tc_map_finalize l w1 = (Ok tt, on_maps (put_entry l (entry_map MapGarbage (entry_lock (Some true) e))) w1)) as E.
  { unfold tc_map_finalize. rewrite (bind_ok _ _ _ _ _ (run_get_entry l w1 (entry_lock (Some true) e) (lookup_insert_eq _ _ _))).
    cbn [ce_map entry_lock]. rewrite Hm. apply (run_update_entry l). apply lookup_insert_eq. }
  rewrite (bind_ok _ _ _ _ _ E). clear E. set (w2 := on_maps _ w1).
  assert (views (w_maps w2) (a ++ (l, body (entry_map MapGarbage (entry_lock (Some true) e))) :: b)) as Hv2.
  { pose proof (views_put _ _ _ _ _ _ (entry_lock (Some true) e) Hv He eq_refl eq_refl) as H1.
    eapply (views_put _ _ _ _ _ (entry_lock (Some true) e)); [|apply lookup_insert_eq | done | done].
    eapply views_ext; [..|exact H1]; done. }
  assert (cache_rep (w_maps w2) (a.*1 ++ l :: b.*1)) as Hr2 by (destruct Hv2 as [Hr2 _]; by rewrite fmap_app in Hr2).
  rewrite (bind_ok _ _ _ _ _ (unlink_run a.*1 l b.*1 w2 _ k Hr2 (at_put_entry _ _ _) eq_refl Hkey)).
  rewrite (bind_ok _ _ _ _ _ (run_getm _ _)). set (w3 := on_maps _ w2).
  assert (views (w_maps w3) (a ++ b)) as Hv3 by (by eapply views_unlinked).
  assert (passed w w3) as Hp3.
  { apply (passed_trans _ (on_maps (put_entry l (entry_lock (Some true) e)) w)); [by apply passed_on_maps|].
    apply (passed_trans _ w1); [apply passed_on_maps; [done|]; intros Hi; cbn in Hi |- *; rewrite Hi; apply delete_empty|].
    apply (passed_trans _ w2); by apply passed_on_maps. }
  assert (mc_memory_usage (ms_cache (w_maps w3)) = u) as Hu by (unfold u; by rewrite <- Hb).
  assert (mc_memory_usage_threshold (ms_cache (w_maps w3)) = mc_memory_usage_threshold (ms_cache (w_maps w))) as Ht by done.
  clearbody w3. clear w1 w2 Hv2 Hr2. rewrite Hp.
  destruct (move_hand (bool_decide (mc_clock_hand (ms_cache (w_maps w3)) = Some l)) (last a.*1) w3) as (w4 & E4 & Hp4 & Hv4 & Hu4 & Ht4).
  rewrite (bind_ok _ _ _ _ _ E4), (bind_ok _ _ _ _ _ (run_getm _ _)), Hu4, Hu, Ht4, Ht.
  destruct (u <? _).
  - destruct (move_hand (bool_decide (mc_clock_hand (ms_cache (w_maps w4)) = None)) (mc_tail (ms_cache (w_maps w4))) w4)
      as (w5 & E5 & Hp5 & Hv5 & Hu5 & _).
    exists w5. split_and!; [done | eauto using passed_trans | auto | congruence].
  - exists w4. split_and!; [done | eauto using passed_trans | auto | congruence].
Qed.
End Visit.

(** ** The whole pass *)

Lemma evict_loop_sweep ra : forall w b,
  views (w_maps w) (reverse ra ++ b) -> Forall (fun x => ready x.2) ra ->
  let s := ms_cache (w_maps w) in
  exists w', evict_loop (length ra) (head ra.*1) w = (Ok tt, w') /\ passed w w' /\
    views (w_maps w') (reverse (sweep (mc_memory_usage_threshold s) (mc_memory_usage s) ra).1 ++ b) /\
    mc_memory_usage (ms_cache (w_maps w')) = (sweep (mc_memory_usage_threshold s) (mc_memory_usage s) ra).2.
Proof.
  induction ra as [|[l e] ra IH]; intros w b Hv Hr; cbv zeta.
  - exists w. split_and!; [done | apply passed_refl | done | done].
  - apply Forall_cons in Hr as [Hr Hra]. rewrite reverse_cons, <- app_assoc in Hv. cbn [app] in Hv.
    assert (forall w', passed w w' -> mc_memory_usage_threshold (ms_cache (w_maps w')) = mc_memory_usage_threshold (ms_cache (w_maps w))) as Ht.
    { intros w' [_ H _]. unfold rest_of in H. congruence. }
    assert (last (reverse ra).*1 = head ra.*1) as Hl by (by rewrite fmap_reverse, last_reverse).
    cbn [length head fmap list_fmap fst sweep]. destruct (Z.eqb_spec (ce_open_count e) 0) as [Hc|Hc]; cbn [negb].
    + destruct (ce_is_referenced e) eqn:Hf.
      * destruct (visit_referenced w _ l e b Hv Hr (length ra) Hc Hf) as (w1 & E & Hp & Hv1 & Hu). rewrite E, Hl.
        destruct (IH w1 _ Hv1 Hra) as (w2 & E2 & Hp2 & Hv2 & Hu2). rewrite Ht, Hu in Hv2, Hu2 by done.
        destruct (sweep _ _ ra) as [kept u]. cbn [fst snd] in *. rewrite reverse_cons, <- app_assoc.
        exists w2. eauto using passed_trans.
      * destruct (visit_evicted w _ l e b Hv Hr (length ra) Hc Hf) as (w1 & E & Hp & Hv1 & Hu). rewrite E, Hl.
        destruct (_ <? _) eqn:El; [by exists w1|].
        destruct (IH w1 _ Hv1 Hra) as (w2 & E2 & Hp2 & Hv2 & Hu2). rewrite Ht, Hu in Hv2, Hu2 by done.
        exists w2. eauto using passed_trans.
    + destruct (visit_opened w _ l e b Hv Hr (length ra) Hc) as (w1 & E & Hp & Hv1 & Hu). rewrite E, Hl.
      destruct (IH w1 _ Hv1 Hra) as (w2 & E2 & Hp2 & Hv2 & Hu2). rewrite Ht, Hu in Hv2, Hu2 by done.
      destruct (sweep _ _ ra) as [kept u]. cbn [fst snd] in *. rewrite reverse_cons, <- app_assoc.
      exists w2. eauto using passed_trans.
Qed.

Lemma evict_run w v :
  views (w_maps w) v -> Forall (fun x => ready x.2) v -> (Z.of_nat (length v) < 2 ^ 31) ->
  let c := ms_cache (w_maps w) in
  let '(kept, u) := sweep (mc_memory_usage_threshold c) (mc_memory_usage c) (reverse v) in
  exists w', tc_map_cache_evict w = (Ok tt, w') /\ passed w w' /\ views (w_maps w') (reverse kept) /\
    mc_memory_usage (ms_cache (w_maps w')) = u.
Proof.
  intros Hv Hr Hlen. cbv zeta. unfold tc_map_cache_evict. rewrite (bind_ok _ _ _ _ _ (run_getm _ _)).
  pose proof (vw_rep _ _ Hv) as [Hh Ht _ _ Hn]. rewrite Hh. destruct v as [|[l e] v].
  { exists w. split_and!; [done | apply passed_refl | done | done]. }
  cbn [fmap list_fmap fst head].
  destruct (move_hand (bool_decide (mc_clock_hand (ms_cache (w_maps w)) = None)) (Some l) w) as (w1 & E1 & Hp1 & Hv1 & Hu1 & Ht1).
  rewrite (bind_ok _ _ _ _ _ E1). clear E1. set (v' := (l, e) :: v) in *.
  destruct (evict_loop_sweep (reverse v') w1 []) as (w2 & E2 & Hp2 & Hv2 & Hu2).
  { rewrite reverse_involutive, app_nil_r. auto. }
  { by apply Forall_reverse. }
  rewrite Hn, Ht. rewrite Hu1, Ht1, ?app_nil_r in *.
  replace (Z.to_nat (s32 (u64 (Z.of_nat (length v'.*1))))) with (length (reverse v'))
    by (rewrite length_fmap, length_reverse; rewrite (wrapu_small 64) by width_lia; rewrite wraps_small by width_lia; lia).
  replace (last v'.*1) with (head (reverse v').*1) by (by rewrite fmap_reverse, head_reverse).
  destruct (sweep _ _ (reverse v')) as [kept u]. exists w2. split_and!; [exact E2 | eauto using passed_trans | done | done].
Qed.

(** C5. The pass over the doubly linked list computes the reference definition:
    when every entry is loaded and unlocked, [tc_map_cache_evict] returns, and
    the list, the entries and the counter are those of one [sweep] from the
    tail to the head. *)
Theorem evict_refines_sweep w v :
  views (w_maps w) v -> Forall (fun x => ready x.2) v -> (Z.of_nat (length v) < 2 ^ 31) ->
  let c := ms_cache (w_maps w) in
  let '(kept, u) := sweep (mc_memory_usage_threshold c) (mc_memory_usage c) (reverse v) in
  exists w', tc_map_cache_evict w = (Ok tt, w') /\ passed w w' /\ views (w_maps w') (reverse kept) /\
    mc_memory_usage (ms_cache (w_maps w')) = u.
Proof. apply evict_run. Qed.

(** ** What the reference definition keeps *)

Lemma sweep_keeps threshold usage v l e :
  (l, e) ∈ v ->
  (ce_open_count e <> 0 -> (l, e) ∈ (sweep threshold usage v).1) /\
  (ce_is_referenced e = true -> exists e', (l, e') ∈ (sweep threshold usage v).1 /\ (e' = e \/ e' = second_chance e)).
Proof.
  revert usage. induction v as [|[l' e'] v IH]; intros usage; [by intros ?%not_elem_of_nil|].
  intros [[= <- <-]|Hin]%elem_of_cons; cbn [sweep].
  - destruct (Z.eqb_spec (ce_open_count e) 0) as [Hc|Hc]; cbn [negb].
    + destruct (ce_is_referenced e) eqn:Hf.
      * destruct (sweep _ _ v) as [kept u]. cbn. split; [done|]. intros _. exists (second_chance e). split; [left | by right].
      * destruct (_ <? _); by split.
    + destruct (sweep _ _ v) as [kept u]. cbn. split; [left|]. intros _. exists e. split; [left | by left].
  - assert (forall u, (ce_open_count e <> 0 -> (l, e) ∈ (sweep threshold u v).1) /\
      (ce_is_referenced e = true -> exists e', (l, e') ∈ (sweep threshold u v).1 /\ (e' = e \/ e' = second_chance e))) as IH'
      by (intros u; by apply IH). clear IH.
    assert (forall x u, let k := (sweep threshold u v).1 in (ce_open_count e <> 0 -> (l, e) ∈ x :: k) /\
      (ce_is_referenced e = true -> exists e', (l, e') ∈ x :: k /\ (e' = e \/ e' = second_chance e))) as Hcons.
    { intros x u. destruct (IH' u) as [H1 H2]. cbn. split; [intros H; right; by apply H1|].
      intros H. destruct (H2 H) as (e2 & Hi & Ho). exists e2. split; [by right | done]. }
    destruct (negb _); [|destruct (ce_is_referenced e')].
    + specialize (Hcons (l', e') usage). by destruct (sweep _ usage v).
    + specialize (Hcons (l', second_chance e') usage). by destruct (sweep _ usage v).
    + destruct (_ <? _); [|by apply IH']. cbn. split; [done|]. intros _. exists e. split; [done | by left].
Qed.

(** Nothing is made up. *)
Lemma sweep_from threshold usage v l e' :
  (l, e') ∈ (sweep threshold usage v).1 -> exists e, (l, e) ∈ v /\ (e' = e \/ e' = second_chance e).
Proof.
  revert usage. induction v as [|[l1 e1] v IH]; intros usage; cbn [sweep]; [by intros ?%not_elem_of_nil|].
  assert (forall u, (l, e') ∈ (sweep threshold u v).1 -> exists e, (l, e) ∈ (l1, e1) :: v /\ (e' = e \/ e' = second_chance e)) as IH'.
  { intros u H. destruct (IH u H) as (e & He & Ho). exists e. split; [by right | done]. }
  destruct (negb _); [|destruct (ce_is_referenced e1)].
  - specialize (IH' usage). destruct (sweep _ usage v). cbn. intros [[= -> ->]|H]%elem_of_cons; [|by apply IH'].
    exists e1. split; [left | by left].
  - specialize (IH' usage). destruct (sweep _ usage v). cbn. intros [[= -> ->]|H]%elem_of_cons; [|by apply IH'].
    exists e1. split; [left | by right].
  - destruct (_ <? _); [|by apply IH']. cbn. intros H. exists e'. split; [by right | by left].
Qed.

(** Eviction never takes a map away that is in use: an entry with open
    references survives unchanged, one that was opened since the last pass
    survives with the same map, and no entry changes but for its mark and its
    mutex. *)
Theorem evict_keeps_used w v :
  views (w_maps w) v -> Forall (fun x => ready x.2) v -> (Z.of_nat (length v) < 2 ^ 31) ->
  exists w' v', tc_map_cache_evict w = (Ok tt, w') /\ views (w_maps w') v' /\
    (forall l e, (l, e) ∈ v -> ce_open_count e <> 0 -> (l, e) ∈ v') /\
    (forall l e, (l, e) ∈ v -> ce_is_referenced e = true -> exists e', (l, e') ∈ v' /\ ce_map e' = ce_map e) /\
    (forall l e', (l, e') ∈ v' -> exists e, (l, e) ∈ v /\ (e' = e \/ e' = second_chance e)).
Proof.
  intros Hv Hr Hlen. pose proof (evict_run w v Hv Hr Hlen) as H. cbv zeta in H.
  set (t := mc_memory_usage_threshold (ms_cache (w_maps w))) in *. set (u := mc_memory_usage (ms_cache (w_maps w))) in *.
  pose proof (sweep_keeps t u (reverse v)) as Hk. pose proof (sweep_from t u (reverse v)) as Hf.
  destruct (sweep t u (reverse v)) as [kept u']. destruct H as (w' & E & _ & Hv' & _). cbn [fst] in *.
  exists w', (reverse kept). split_and!; [done | done | | |].
  - intros l e Hin Hc. apply elem_of_reverse. by apply Hk; [apply elem_of_reverse|].
  - intros l e Hin Hrf. destruct (Hk l e) as [_ H]; [by apply elem_of_reverse|]. destruct (H Hrf) as (e' & Hi & Ho).
    exists e'. split; [by apply elem_of_reverse | by destruct Ho as [-> | ->]].
  - intros l e' Hin. rewrite <- (reverse_involutive kept) in Hf. apply elem_of_reverse in Hin. destruct (Hf l e' Hin) as (e & He & Ho).
    exists e. split; [by apply elem_of_reverse | done].
Qed.

(** ** Where the pass goes wrong *)

(** The last entry is visited first. *)
Lemma evict_first w v l e :
  views (w_maps w) (v ++ [(l, e)]) -> (Z.of_nat (S (length v)) < 2 ^ 31) ->
  exists w1, views (w_maps w1) (v ++ [(l, e)]) /\ tc_map_cache_evict w = evict_loop (S (length v)) (Some l) w1.
Proof.
  intros Hv Hlen. unfold tc_map_cache_evict. rewrite (bind_ok _ _ _ _ _ (run_getm _ _)).
  pose proof (vw_rep _ _ Hv) as [Hh Ht _ _ Hn]. rewrite Ht, Hn, Hh, fmap_app. cbn [fmap list_fmap fst]. rewrite last_snoc.
  assert (exists h, head (v.*1 ++ [l]) = Some h) as [h ->] by (destruct v as [|[h ?] ?]; [by exists l | by exists h]).
  destruct (move_hand (bool_decide (mc_clock_hand (ms_cache (w_maps w)) = None)) (Some h) w) as (w1 & E1 & _ & Hv1 & _).
  rewrite (bind_ok _ _ _ _ _ E1). exists w1. split; [auto|]. do 3 f_equal.
  rewrite length_app, length_fmap. cbn [length]. rewrite (wrapu_small 64) by width_lia. rewrite wraps_small by width_lia. lia.
Qed.

(** An entry that is still loading stops the pass: at the tail of the list it
    makes [tc_map_cache_evict] unlock the mutex of its neighbour, which it does
    not hold, or dereference [NULL] when there is none. *)
Theorem evict_trips_on_loading w v l e :
  views (w_maps w) (v ++ [(l, e)]) -> (Z.of_nat (S (length v)) < 2 ^ 31) ->
  ce_is_loaded e = false -> ce_lock e = Some false -> Forall (fun x => ce_lock x.2 = Some false) v ->
  (tc_map_cache_evict w).1 = Stuck (match v with [] => BadAccess | _ => BadUnlock end).
Proof.
  intros Hv Hlen Hl Hk Hall. destruct (evict_first w v l e Hv Hlen) as (w1 & Hv1 & ->). clear Hv w.
  destruct (views_at _ _ _ _ _ Hv1) as (e' & He & Hb). pose proof (vw_rep _ _ Hv1) as Hr. rewrite fmap_app in Hr.
  destruct (cache_rep_links _ _ _ _ _ Hr He) as [Hp _]. cbn [evict_loop]. rewrite (bind_ok _ _ _ _ _ (run_getm _ _)).
  rewrite (bind_ok _ _ _ _ _ (run_checked _ l _ eq_refl)).
  rewrite (bind_ok _ _ _ _ _ (run_mutex_lock _ _ _ He ltac:(by rewrite <- Hb in Hk))).
  rewrite (bind_ok _ _ _ _ _ (run_get_entry _ _ _ (at_put_entry _ _ _))).
  cbn [entry_lock ce_is_loaded ce_prev]. rewrite <- Hb in Hl. change (ce_is_loaded e' = false) in Hl. rewrite Hl, Hp. cbn [negb].
  destruct v as [|x v0 _] using rev_ind; [done|]. destruct x as [l0 e0]. apply Forall_app in Hall as [_ [H0 _]%Forall_cons]. cbn [snd] in H0.
  rewrite fmap_app. cbn [fmap list_fmap fst]. rewrite last_snoc, (bind_ok _ _ _ _ _ (run_checked _ l0 _ eq_refl)).
  destruct (NoDup_fst_app _ _ _ _ (cr_nodup _ _ (vw_rep _ _ Hv1))) as (_ & Hn & _).
  rewrite <- app_assoc in Hv1. destruct (views_at _ _ _ _ _ Hv1) as (e1 & He1 & Hb1).
  erewrite bind_stuck by (apply (run_mutex_bad_unlock l0 _ e1);
    [apply at_put_other; [intros ->; apply Hn; rewrite fmap_app; set_solver | exact He1] | by rewrite <- Hb1 in H0]).
  by destruct v0.
Qed.

Lemma sweep_length threshold usage v : (length (sweep threshold usage v).1 <= length v)%nat.
Proof.
  revert usage. induction v as [|[l e] v IH]; intros usage; cbn [sweep]; [done|].
  destruct (negb _); [|destruct (ce_is_referenced e)].
  - specialize (IH usage). destruct (sweep _ usage v). cbn in *. lia.
  - specialize (IH usage). destruct (sweep _ usage v). cbn in *. lia.
  - destruct (_ <? _); cbn; [lia|]. specialize (IH (u64 (usage - ce_memory_usage e))). lia.
Qed.

(** A map that gets a second chance is lost: the pass leaves its mutex
    locked, so that taking a reference to it, and the next pass, wait
    forever. *)
Theorem second_chance_deadlocks w v l e :
  views (w_maps w) (v ++ [(l, e)]) -> Forall (fun x => ready x.2) (v ++ [(l, e)]) -> (Z.of_nat (S (length v)) < 2 ^ 31) ->
  ce_open_count e = 0 -> ce_is_referenced e = true ->
  exists w', tc_map_cache_evict w = (Ok tt, w') /\ tc_map_ref l w' = (Stuck Deadlock, w') /\
    (tc_map_cache_evict w').1 = Stuck Deadlock.
Proof.
  intros Hv Hr Hlen Hc Hf. pose proof (evict_run w _ Hv Hr) as H. cbv zeta in H.
  rewrite reverse_snoc in H. cbn [sweep] in H. rewrite Hc, Hf in H. cbn [Z.eqb negb] in H.
  pose proof (sweep_length (mc_memory_usage_threshold (ms_cache (w_maps w))) (mc_memory_usage (ms_cache (w_maps w))) (reverse v)) as Hk.
  destruct (sweep _ _ (reverse v)) as [kept u]. rewrite length_reverse in Hk.
  destruct H as (w' & E & _ & Hv' & _); [rewrite length_app; cbn; lia|]. rewrite reverse_cons in Hv'. exists w'.
  destruct (views_at _ _ _ _ _ Hv') as (e' & He & Hb).
  assert (ce_lock e' = Some true) as Hl by (change (ce_lock (body e') = Some true); by rewrite Hb).
  split_and!; [done | unfold tc_map_ref; by rewrite (bind_stuck _ _ _ _ _ (run_mutex_deadlock _ _ _ He Hl)) |].
  destruct (evict_first w' _ _ _ Hv') as (w1 & Hv1 & ->); [rewrite length_reverse; cbn in Hk; lia|].
  destruct (views_at _ _ _ _ _ Hv1) as (e1 & He1 & Hb1).
  assert (ce_lock e1 = Some true) as Hl1 by (change (ce_lock (body e1) = Some true); by rewrite Hb1).
  cbn [evict_loop]. rewrite (bind_ok _ _ _ _ _ (run_getm _ _)), (bind_ok _ _ _ _ _ (run_checked _ l _ eq_refl)).
  by rewrite (bind_stuck _ _ _ _ _ (run_mutex_deadlock _ _ _ He1 Hl1)).
Qed.
