(* ===== verification/MapCacheLoad.v ===== *)
(** * Loading a map for the tasks that wait for it

    [tc_map_cache_load_task]: the waiting tasks are handed the map or told that
    there is none, and the open count of the entry is the number of tasks that
    now hold a reference. *)

From Stdlib Require Import Btauto.
From S2P Require Import Prelude Socket Protocol ThreadPool ThreadPoolSpec Heartbeat Map TaskBacklog TaskBacklogProps.
From S2P Require Import Objects Session SessionSpec MapCache MapCacheSpec MapCacheProps MapCacheEvict.

Local Open Scope Z_scope.
Set Default Proof Using "Type*".

(** ** What is asked of failure handlers *)

(** The state of the cache and of the pool. *)
Definition cache_part (w : world) :=
  (ms_cache (w_maps w), ms_entries (w_maps w), ms_load_args (w_maps w), ms_next (w_maps w), thread_pool (w_server w)).

(** [v] differs from [w] at most in what a load changes on its way from one
    waiting task to the next: the pool, the allocator, the entries, and the
    numbers of blocks and loads. *)
Definition agrees (w v : world) : Prop :=
  exists p h m n k, v = World (with_pool p (w_server w)) h (w_elapsed w) (w_reads w) (w_closed w)
                          (with_loads k (with_live n (with_entries m (w_maps w)))).

Lemma agrees_refl w : agrees w w.
Proof.
  exists (thread_pool (w_server w)), (w_heap w), (ms_entries (w_maps w)), (ms_live (w_maps w)), (ms_loads (w_maps w)).
  by destruct w as [[] ? ? ? ? []].
Qed.

Lemma agrees_trans w v u : agrees w v -> agrees v u -> agrees w u.
Proof. intros (p & h & m & n & k & ->) (p' & h' & m' & n' & k' & ->). by exists p', h', m', n', k'. Qed.

#[export] Instance agrees_preorder : PreOrder agrees.
Proof. split; [exact agrees_refl | exact agrees_trans]. Qed.

Section Told.
Context {cb : MapCallbacks}.

(** The failure handlers of these tasks, called one after the other from [w]
    on: each of them returns, and leaves the cache and the pool alone. *)
Fixpoint told_in_turn (infos : list map_waiter) (w : world) : Prop :=
  match infos with
  | [] => True
  | info :: infos' => forall v, agrees w v ->
      exists v', tell_failure info v = (Ok tt, v') /\ cache_part v' = cache_part v /\ told_in_turn infos' v'
  end.

Lemma agrees_live n w : agrees w (on_maps (fun s => with_live (ms_live s + n) s) w).
Proof.
  exists (thread_pool (w_server w)), (w_heap w), (ms_entries (w_maps w)), (ms_live (w_maps w) + n), (ms_loads (w_maps w)).
  by destruct w as [[] ? ? ? ? []].
Qed.

Lemma agrees_entry l e w : agrees w (on_maps (put_entry l e) w).
Proof.
  exists (thread_pool (w_server w)), (w_heap w), (<[l := e]> (ms_entries (w_maps w))), (ms_live (w_maps w)), (ms_loads (w_maps w)).
  by destruct w as [[] ? ? ? ? []].
Qed.

Lemma agrees_loads n w : agrees w (on_maps (fun s => with_loads n s) w).
Proof.
  exists (thread_pool (w_server w)), (w_heap w), (ms_entries (w_maps w)), (ms_live (w_maps w)), n.
  by destruct w as [[] ? ? ? ? []].
Qed.

Lemma agrees_pool p h w : agrees w (with_pool_heap p h w).
Proof.
  exists p, h, (ms_entries (w_maps w)), (ms_live (w_maps w)), (ms_loads (w_maps w)). by destruct w as [? ? ? ? ? []].
Qed.

Lemma told_agrees infos w v : agrees w v -> told_in_turn infos w -> told_in_turn infos v.
Proof. destruct infos as [|info infos]; [done|]. intros Hv H u Hu. apply H. by transitivity v. Qed.
End Told.

(** Handlers that do nothing. *)
Definition quiet_callbacks : MapCallbacks := fun _ _ _ => mret tt.

(** ** Counting references *)

Section Counting.
Context {cb : MapCallbacks}.
Abbreviation event := (backlog_event task failure_callback context loc).

(** An entry after a number of references was taken and given back. *)
Definition counted (taken given_back : nat) (e : tc_map_cache_entry) : tc_map_cache_entry :=
  entry_referenced (ce_is_referenced e || negb (taken =? 0)%nat)
    (entry_count (ce_open_count e + Z.of_nat taken - Z.of_nat given_back) e).

Lemma counted_counted t g t' g' e : counted t' g' (counted t g e) = counted (t + t') (g + g') e.
Proof.
  destruct e. unfold counted, entry_referenced, entry_count. cbn. f_equal; [lia|]. destruct t, t'; cbn; btauto.
Qed.

(** No prefix of the events takes the count out of the range of [int]. *)
Definition count_fits (e : tc_map_cache_entry) (ev : list event) : Prop :=
  0 <= ce_open_count e - Z.of_nat (number is_released ev) + 2 ^ 31 /\
  ce_open_count e + Z.of_nat (number is_acquired ev) < 2 ^ 31.

Definition with_part (e : tc_map_cache_entry) (l : loc) (w w' : world) : Prop :=
  cache_part w' = (ms_cache (w_maps w), <[l := e]> (ms_entries (w_maps w)), ms_load_args (w_maps w), ms_next (w_maps w),
                   thread_pool (w_server w)).

Lemma with_part_at e l w w' : with_part e l w w' -> at_entry l w' e.
Proof. intros H. unfold with_part, cache_part in H. injection H as _ He _ _ _. unfold at_entry. by rewrite He, lookup_insert_eq. Qed.

Lemma with_part_trans e e' l w w1 w2 : with_part e l w w1 -> with_part e' l w1 w2 -> with_part e' l w w2.
Proof.
  unfold with_part, cache_part. intros H1 H2. injection H1 as Hc He Ha Hn Hp.
  rewrite Hc, He, Ha, Hn, Hp, insert_insert_eq in H2. exact H2.
Qed.

Lemma int_result_ok z : - 2 ^ 31 <= z < 2 ^ 31 -> int_result z = Some z.
Proof.
  intros H. unfold int_result. destruct (Z.leb_spec (- 2 ^ 31) z); [|lia]. by destruct (Z.ltb_spec z (2 ^ 31)); [|lia].
Qed.

(** The tasks whose failure handlers are called. *)
Definition failed_of (ev : list event) : list map_waiter :=
  omap (fun x => match x with Failed info => Some info | _ => None end) ev.

(** Replaying the events of a backlog that hands out the map at [l]. *)
Lemma replay_counts ev : forall l w e,
  at_entry l w e -> count_fits e ev -> told_in_turn (failed_of ev) w ->
  exists w', replay (Some tc_map_nolock_ref) (Some tc_map_nolock_unref) (Some l) ev w = (Ok tt, w') /\
    with_part (counted (number is_acquired ev) (number is_released ev) e) l w w'.
Proof.
  induction ev as [|x ev IH].
  - intros l w e He _ _. exists w. split; [done|]. unfold with_part, cache_part, counted. cbn. rewrite orb_false_r, Z.sub_0_r, Z.add_0_r.
    replace (entry_referenced _ _) with e by (by destruct e). by rewrite insert_id.
  - intros l w e He [Hf1 Hf2] Htold.
    assert (number is_released (x :: ev) = (number is_released [x] + number is_released ev)%nat) as Er by apply (number_app _ [x]).
    assert (number is_acquired (x :: ev) = (number is_acquired [x] + number is_acquired ev)%nat) as Ea by apply (number_app _ [x]).
    assert (exists w1, do_event (Some tc_map_nolock_ref) (Some tc_map_nolock_unref) (Some l) x w = (Ok tt, w1) /\
      with_part (counted (number is_acquired [x]) (number is_released [x]) e) l w w1 /\ told_in_turn (failed_of ev) w1) as (w1 & E1 & H1 & Ht1).
    { clear IH. destruct x; cbn [do_event call_ref].
      all: try (eexists; split; [reflexivity|]; split;
                [unfold with_part, cache_part, counted; cbn; rewrite orb_false_r, Z.sub_0_r, Z.add_0_r;
                 replace (entry_referenced _ _) with e by (by destruct e); by rewrite insert_id
                |eapply told_agrees; [|exact Htold]; first [apply agrees_live | reflexivity]]).
      - destruct (Htold w (agrees_refl w)) as (w1 & E & Hcp & Ht1).
        exists w1. split; [done|]. split; [|done]. unfold with_part, counted. rewrite Hcp. cbn.
        rewrite orb_false_r, Z.sub_0_r, Z.add_0_r. replace (entry_referenced _ _) with e by (by destruct e).
        unfold cache_part. by rewrite insert_id.
      - unfold tc_map_nolock_ref. rewrite (bind_ok _ _ _ _ _ (run_get_entry _ _ _ He)).
        rewrite int_result_ok by (cbn in *; lia). rewrite (bind_ok _ _ _ _ _ (run_checked _ _ _ eq_refl)).
        rewrite (run_update_entry _ _ _ _ He). eexists. split; [done|].
        split; [unfold with_part, counted; cbn; by rewrite orb_true_r, Z.sub_0_r | exact (told_agrees _ _ _ (agrees_entry _ _ _) Htold)].
      - unfold tc_map_nolock_unref. rewrite (bind_ok _ _ _ _ _ (run_get_entry _ _ _ He)).
        rewrite int_result_ok by (cbn in *; lia). rewrite (bind_ok _ _ _ _ _ (run_checked _ _ _ eq_refl)).
        rewrite (run_update_entry _ _ _ _ He). eexists. split; [done|].
        split; [unfold with_part, counted; cbn; by rewrite orb_false_r, Z.add_0_r | exact (told_agrees _ _ _ (agrees_entry _ _ _) Htold)]. }
    destruct (IH l w1 _ (with_part_at _ _ _ _ H1)) as (w2 & E2 & H2); [| exact Ht1 |].
    { unfold count_fits, counted in *. cbn [ce_open_count entry_referenced entry_count]. lia. }
    exists w2. cbn [replay]. rewrite (bind_ok _ _ _ _ _ E1). split; [done|].
    rewrite Er, Ea, <- counted_counted. by eapply with_part_trans.
Qed.

(** ** A load that succeeds *)

Section Loading.
Context {ld : MapLoader} {sz : CacheSizes}.

(** The entry with its map. *)
Definition filled (m : tc_map) (usage : Z) (e : tc_map_cache_entry) : tc_map_cache_entry :=
  entry_usage (u64 (ce_memory_usage e + usage)) (entry_loaded true (entry_map (MapLoaded m) e)).

Lemma run_cache_load name w :
  cache_load name w = (Ok (load_file name (ms_loads (w_maps w))), on_maps (fun s => with_loads (S (ms_loads s)) s) w).
Proof. done. Qed.

Lemma run_get_load_args a w args : ms_load_args (w_maps w) !! a = Some args -> get_load_args a w = (Ok args, w).
Proof. intros H. unfold get_load_args, mbind, M_bind, getm. by rewrite H. Qed.

(** Up to the check of the memory in use. *)
Lemma load_run a w args e m usage p h c ev :
  ms_load_args (w_maps w) !! a = Some args -> at_entry (la_entry args) w e -> ce_lock e = Some false ->
  load_file (la_name args) (ms_loads (w_maps w)) = LoadOk m -> tc_map_get_memory_usage map_sizes m = Some usage ->
  tc_task_schedule_backlog true true (ce_backlog e) (thread_pool (w_server w)) (w_heap w) (Some (la_entry args)) PRIORITY_BLOCKING
    = Some (p, h, c, ev) ->
  count_fits e ev -> told_in_turn (failed_of ev) w ->
  exists w1, run_load_task a PRIORITY_BLOCKING w = (_ ← relieve_pressure; free_load_args a) w1 /\
    cache_part w1 = (ms_cache (w_maps w),
      <[la_entry args := counted (number is_acquired ev) (number is_released ev) (filled m usage e)]> (ms_entries (w_maps w)),
      ms_load_args (w_maps w), ms_next (w_maps w), p).
Proof.
  intros Ha He Hl Hld Hu Hb Hf Htold. unfold run_load_task. rewrite bool_decide_true by done. cbn [negb].
  rewrite (bind_ok _ _ _ _ _ (run_get_load_args _ _ _ Ha)). set (l := la_entry args) in *.
  rewrite (bind_ok _ _ _ _ _ (run_mutex_lock _ _ _ He Hl)), (bind_ok _ _ _ _ _ (run_cache_load _ _)).
  cbn [w_maps on_maps put_entry with_entries ms_loads]. rewrite Hld.
  erewrite bind_ok by (apply (run_update_entry l); apply lookup_insert_eq). rewrite Hu, (bind_ok _ _ _ _ _ (run_checked _ usage _ eq_refl)).
  erewrite bind_ok by (apply (run_update_entry l); apply at_put_entry).
  erewrite bind_ok by (apply (run_get_entry l); apply at_put_entry). set (e1 := entry_usage _ _). set (w1 := on_maps _ _).
  change (ce_backlog e1) with (ce_backlog e).
  assert (exists w2, schedule_backlog (ce_backlog e) (Some tc_map_nolock_ref) (Some tc_map_nolock_unref) (Some l) PRIORITY_BLOCKING w1
    = (Ok tt, w2) /\ with_part (counted (number is_acquired ev) (number is_released ev) e1) l (with_pool_heap p h w1) w2) as (w2 & E2 & H2).
  { unfold schedule_backlog. cbn [given]. change (thread_pool (w_server w1)) with (thread_pool (w_server w)).
    change (w_heap w1) with (w_heap w). rewrite Hb. apply (replay_counts ev l (with_pool_heap p h w1) e1); [apply lookup_insert_eq | exact Hf |].
    eapply told_agrees; [|exact Htold]. subst w1 e1 l. etrans; [apply (agrees_entry (la_entry args) (entry_lock (Some true) e))|].
    etrans; [apply (agrees_loads (S (ms_loads (w_maps w))))|]. etrans; [apply agrees_entry|]. etrans; [apply agrees_entry|]. apply agrees_pool. }
  rewrite (bind_ok _ _ _ _ _ E2). erewrite bind_ok by (apply (run_mutex_unlock l); [exact (with_part_at _ _ _ _ H2) | done]).
  eexists. split; [done|]. unfold with_part, cache_part in H2. injection H2 as Hc Hen Hla Hn Hp.
  unfold cache_part. cbn [w_maps on_maps put_entry with_entries ms_cache ms_entries ms_load_args ms_next w_server].
  rewrite Hc, Hen, Hla, Hn, Hp. subst w1. cbn. rewrite !insert_insert_eq. do 5 f_equal.
  destruct e. cbn in Hl. by subst.
Qed.

(** The cache after one entry has got its map, or lost its chance to, and its
    load is over. *)
Lemma cache_ok_finish s s' ls a args e e' :
  cache_ok s ls -> ms_load_args s !! a = Some args -> ms_entries s !! la_entry args = Some e ->
  ms_cache s' = ms_cache s -> ms_entries s' = <[la_entry args := e']> (ms_entries s) ->
  ms_load_args s' = delete a (ms_load_args s) -> ms_next s' = ms_next s ->
  ce_prev e' = ce_prev e -> ce_next e' = ce_next e -> is_Some (ce_lock e') -> is_Some (ce_key e') ->
  (ce_is_loaded e' = true <-> exists m, ce_map e' = MapLoaded m) -> cache_ok s' ls.
Proof.
  intros [Hr Hu Hi Hnx Hls Hp Hld Hla Ho] Ha He Hc Hen Harg Hn Hpr Hne Hlk Hk Hm. split.
  - eapply (cache_rep_ext (put_entry (la_entry args) e' s)); try (by rewrite Hc); [exact Hen|]. by apply (cache_rep_put _ _ _ e).
  - by rewrite Hc.
  - by rewrite Hc.
  - intros l Hl. rewrite Hn in Hl. destruct (Hnx l Hl) as [H1 H2]. rewrite Hen, Harg. split.
    + rewrite lookup_insert_ne; [done|]. intros <-. congruence.
    + rewrite lookup_delete_ne; [done|]. intros <-. congruence.
  - intros l. rewrite Hen. destruct (decide (l = la_entry args)) as [->|Hd].
    + intros _. apply Hls. by eexists.
    + rewrite lookup_insert_ne by done. apply Hls.
  - intros l x Hx. rewrite Hen in Hx. apply lookup_insert_Some in Hx as [[<- <-]|[_ Hx]]; [done | by eapply Hp].
  - intros l x Hx. rewrite Hen in Hx. apply lookup_insert_Some in Hx as [[<- <-]|[_ Hx]]; [done | by eapply Hld].
  - intros b y Hy. rewrite Harg in Hy. apply lookup_delete_Some in Hy as [Hb Hy]. destruct (Hla b y Hy) as (x & Hx & Hf).
    exists x. split; [|done]. rewrite Hen, lookup_insert_ne; [done|]. intros E. apply Hb. by eapply Ho.
  - intros b c x y Hx Hy. rewrite Harg in Hx, Hy. apply lookup_delete_Some in Hx as [_ Hx]. apply lookup_delete_Some in Hy as [_ Hy].
    by eapply Ho.
Qed.

Lemma tasks_number (ev : list event) : length (tasks_of ev) = number is_scheduled ev.
Proof. unfold tasks_of, number. induction ev as [|[] ev IH]; cbn in *; [done|..]; rewrite ?IH; done. Qed.

(** Without pressure the end of the task only frees its arguments. *)
Lemma finish_calm a w args :
  ms_load_args (w_maps w) !! a = Some args ->
  mc_readers (ms_cache (w_maps w)) = 0%nat /\ mc_writer (ms_cache (w_maps w)) = false ->
  mc_memory_usage (ms_cache (w_maps w)) <= mc_memory_usage_threshold (ms_cache (w_maps w)) ->
  (_ ← relieve_pressure; free_load_args a) w = (Ok tt, on_maps (fun s => with_load_args (delete a (ms_load_args s)) s) w).
Proof.
  intros Ha [Hr Hw] Hm.
  assert (relieve_pressure w = (Ok tt, w)) as E.
  { unfold relieve_pressure.
    assert (cache_writer_lock w = (Ok tt, on_maps (put_cache (with_cache_lock 0 true)) w)) as E1
      by (unfold cache_writer_lock; by rewrite (bind_ok _ _ _ _ _ (run_getm _ _)), Hr, Hw).
    rewrite (bind_ok _ _ _ _ _ E1), (bind_ok _ _ _ _ _ (run_getm _ _)). cbn [w_maps on_maps put_cache with_cache ms_cache with_cache_lock
      mc_memory_usage mc_memory_usage_threshold]. destruct (Z.ltb_spec (mc_memory_usage_threshold (ms_cache (w_maps w))) (mc_memory_usage (ms_cache (w_maps w)))); [lia|].
    rewrite (bind_ok (when false _) _ tt _ _ eq_refl), run_writer_unlock by done. f_equal.
    destruct w as [? ? ? ? ? [[]]]. cbn in *. by subst. }
  rewrite (bind_ok _ _ _ _ _ E). by apply run_free_load_args with args.
Qed.

(** C12. A load that succeeds, in a well-formed cache whose counter of the memory
    in use is not above the threshold (above it, an eviction follows); where
    the failure handlers of the tasks that cannot be queued, for want of memory
    or of room in the pool, return and leave the cache and the pool alone; and
    where the open count stays within an [int].  Every task that waited is
    queued with the map and its context, or its failure handler was called, in
    the order of the backlog; the open count of the entry grows by exactly the
    number of tasks that were queued, so that each holds one reference; the
    entry is loaded and unlocked, the load is over and the cache is well
    formed. *)
Theorem load_task_spec a w ls args e m usage p h c ev :
  cache_ok (w_maps w) ls -> sched_ok (thread_pool (w_server w)) ->
  ms_load_args (w_maps w) !! a = Some args -> at_entry (la_entry args) w e -> ce_lock e = Some false ->
  load_file (la_name args) (ms_loads (w_maps w)) = LoadOk m -> tc_map_get_memory_usage map_sizes m = Some usage ->
  mc_memory_usage (ms_cache (w_maps w)) <= mc_memory_usage_threshold (ms_cache (w_maps w)) ->
  tc_task_schedule_backlog true true (ce_backlog e) (thread_pool (w_server w)) (w_heap w) (Some (la_entry args)) PRIORITY_BLOCKING
    = Some (p, h, c, ev) ->
  count_fits e ev -> told_in_turn (failed_of ev) w ->
  exists w' e' tasks, run_load_task a PRIORITY_BLOCKING w = (Ok tt, w') /\ cache_ok (w_maps w') ls /\
    at_entry (la_entry args) w' e' /\ ce_map e' = MapLoaded m /\ ce_lock e' = Some false /\
    ce_open_count e' = ce_open_count e + Z.of_nat (length tasks) /\
    queued (thread_pool (w_server w')) ≡ₚ tasks ++ queued (thread_pool (w_server w)) /\
    Forall2 (outcome_for (Some (la_entry args))) (concat (ce_backlog e)) (List.filter is_outcome ev) /\ tasks = tasks_of ev /\
    ms_load_args (w_maps w') !! a = None.
Proof.
  intros Hok Hs Ha He Hl Hld Hu Hm Hb Hf Htold.
  destruct (load_run a w args e m usage p h c ev Ha He Hl Hld Hu Hb Hf Htold) as (w1 & E1 & H1).
  unfold cache_part in H1. injection H1 as Hc Hen Hla Hn Hp. set (e' := counted _ _ _) in *.
  rewrite (finish_calm a w1 args) in E1 by (rewrite ?Hc, ?Hla; first [done | apply (ck_unlocked _ _ Hok)]).
  destruct (schedule_blocks_ok true true (ce_backlog e) _ _ _ _ _ _ _ _ _ Hs Hb) as [[Ro _ Rr _ Rq] _].
  eexists _, e', (tasks_of ev). split_and!; [exact E1 | | | done | done | | | exact Ro | done | ].
  - eapply (cache_ok_finish (w_maps w)); [exact Hok | exact Ha | exact He | cbn..]; try done.
    + by rewrite Hla.
    + apply (ck_parts _ _ Hok _ _ He).
    + split; [by eexists | done].
  - unfold at_entry. cbn. by rewrite Hen, lookup_insert_eq.
  - specialize (Rr eq_refl). cbn. rewrite tasks_number. lia.
  - cbn. by rewrite Hp.
  - cbn. by rewrite lookup_delete_eq.
Qed.

(** ** A load that fails *)

(** The failure handlers of waiting tasks, one after the other. *)
Fixpoint tell_all (infos : list map_waiter) : M unit :=
  match infos with [] => mret tt | info :: infos' => _ ← tell_failure info; tell_all infos' end.

Lemma replay_failures infos w : replay None None None (map Failed infos) w = tell_all infos w.
Proof.
  revert w. induction infos as [|info infos IH]; intros w; [done|]. cbn [map replay tell_all do_event].
  unfold mbind, M_bind. unfold tell_failure. by destruct (call_failure _ _ _ w) as [[] w1].
Qed.

Lemma tell_all_returns infos w : told_in_turn infos w -> exists w', tell_all infos w = (Ok tt, w') /\ cache_part w' = cache_part w.
Proof.
  revert w. induction infos as [|info infos IH]; intros w Htold; [by exists w|]. cbn [tell_all].
  destruct (Htold w (agrees_refl w)) as (w1 & E1 & H1 & Ht1). destruct (IH w1 Ht1) as (w2 & E2 & H2).
  exists w2. rewrite (bind_ok _ _ _ _ _ E1). split; [done|]. by rewrite H2.
Qed.

(** A load that fails calls the failure handler of every waiting task
    exactly once, in the order they came, with the entry locked; then the lock
    and the arguments of the load are given back.  The entry stays in the list
    without a map: nothing will ever remove it. *)
Theorem load_failure_spec a w ls args e :
  cache_ok (w_maps w) ls -> ms_load_args (w_maps w) !! a = Some args -> at_entry (la_entry args) w e -> ce_lock e = Some false ->
  load_file (la_name args) (ms_loads (w_maps w)) = LoadFailed -> told_in_turn (concat (ce_backlog e)) w ->
  exists w' w1, run_load_task a PRIORITY_BLOCKING w = (Ok tt, w') /\
    at_entry (la_entry args) w1 (entry_map MapGarbage (entry_lock (Some true) e)) /\
    run_load_task a PRIORITY_BLOCKING w
      = (_ ← tell_all (concat (ce_backlog e)); _ ← p_mutex_unlock (la_entry args); free_load_args a) w1 /\
    cache_ok (w_maps w') ls /\ la_entry args ∈ ls /\ at_entry (la_entry args) w' (entry_map MapGarbage e).
Proof.
  intros Hok Ha He Hl Hld Htold. set (l := la_entry args) in *. set (e1 := entry_map MapGarbage (entry_lock (Some true) e)).
  set (w1 := on_maps (put_entry l e1) (on_maps (fun s => with_loads (S (ms_loads s)) s) (on_maps (put_entry l (entry_lock (Some true) e)) w))).
  assert (run_load_task a PRIORITY_BLOCKING w
      = (_ ← tell_all (concat (ce_backlog e)); _ ← p_mutex_unlock l; free_load_args a) w1) as Hrun.
  { unfold run_load_task. rewrite bool_decide_true by done. cbn [negb].
    rewrite (bind_ok _ _ _ _ _ (run_get_load_args _ _ _ Ha)). fold l.
    rewrite (bind_ok _ _ _ _ _ (run_mutex_lock _ _ _ He Hl)), (bind_ok _ _ _ _ _ (run_cache_load _ _)).
    cbn [w_maps on_maps put_entry with_entries ms_loads]. rewrite Hld.
    erewrite bind_ok by (apply (run_update_entry l); apply lookup_insert_eq).
    erewrite bind_ok by (apply (run_get_entry l); apply at_put_entry). fold e1. fold w1.
    unfold mbind at 1, M_bind at 1, schedule_backlog, tc_task_schedule_backlog. rewrite schedule_blocks_none.
    by rewrite with_pool_same, replay_failures. }
  rewrite Hrun. destruct (tell_all_returns (concat (ce_backlog e)) w1) as (w2 & E2 & H2).
  { eapply told_agrees; [|exact Htold]. subst w1 e1. etrans; [apply (agrees_entry l (entry_lock (Some true) e))|].
    etrans; [apply (agrees_loads (S (ms_loads (w_maps w))))|]. apply agrees_entry. }
  unfold cache_part in H2. injection H2 as Hc Hen Hla Hn _.
  assert (at_entry l w2 e1) as He2 by (unfold at_entry; rewrite Hen; apply lookup_insert_eq).
  assert (entry_lock (Some false) e1 = entry_map MapGarbage e) as Ee by (destruct e; cbn in Hl; by subst).
  eexists _, w1. split_and!; [| apply lookup_insert_eq | done | | apply (ck_listed _ _ Hok); by exists e |].
  - rewrite (bind_ok _ _ _ _ _ E2), (bind_ok _ _ _ _ _ (run_mutex_unlock _ _ _ He2 eq_refl)).
    apply (run_free_load_args a _ args). cbn. by rewrite Hla.
  - eapply (cache_ok_finish (w_maps w) _ ls a args e (entry_map MapGarbage e)); [exact Hok | exact Ha | exact He | cbn..]; try done.
    + rewrite Hen, Ee. subst w1. cbn. by rewrite !insert_insert_eq.
    + by rewrite Hla.
    + apply (ck_parts _ _ Hok _ _ He).
    + destruct (ck_loads _ _ Hok _ _ Ha) as (x & Hx & Hf). fold l in Hx. rewrite He in Hx. injection Hx as <-. rewrite Hf. naive_solver.
  - unfold at_entry. cbn. by rewrite Ee, lookup_insert_eq.
Qed.
End Loading.
End Counting.
