(* ===== verification/MapCacheSystem.v ===== *)
(** * The map cache in use

    The tasks of the server use the cache in any order: they open maps, load
    them, take and give back references.  What holds of the cache along every
    such run, and what does not: no open ever finds a map, and the memory of
    maps is not counted. *)

From S2P Require Import Prelude Socket Protocol ThreadPool ThreadPoolSpec Heartbeat Map TaskBacklog TaskBacklogProps.
From S2P Require Import Objects Session SessionSpec MapCache MapCacheSpec MapCacheProps MapCacheEvict MapCacheLoad.

Local Open Scope Z_scope.
Set Default Proof Using "Type*".

(** ** Runs that return *)

Lemma bind_inv {A B} (m : M A) (k : A -> M B) w b w' :
  (m ≫= k) w = (Ok b, w') -> exists a w1, m w = (Ok a, w1) /\ k a w1 = (Ok b, w').
Proof. unfold mbind, M_bind. destruct (m w) as [[a|c] w1]; [|done]. intros H. by exists a, w1. Qed.

Lemma bind_inv3 {A} (m1 m2 m3 : M unit) (k : M A) w b w' :
  (_ ← m1; _ ← m2; _ ← m3; k) w = (Ok b, w') -> exists w1, (_ ← m1; _ ← m2; m3) w = (Ok tt, w1) /\ k w1 = (Ok b, w').
Proof.
  intros H. apply bind_inv in H as ([] & w1 & E1 & H). apply bind_inv in H as ([] & w2 & E2 & H).
  apply bind_inv in H as ([] & w3 & E3 & H). exists w3. by rewrite (bind_ok _ _ _ _ _ E1), (bind_ok _ _ _ _ _ E2).
Qed.

Lemma checked_inv {A} (o : option A) w a w' : checked o w = (Ok a, w') -> o = Some a /\ w' = w.
Proof. destruct o; [by intros [= -> ->] | done]. Qed.

Lemma get_entry_inv l w e w' : get_entry l w = (Ok e, w') -> at_entry l w e /\ w' = w.
Proof. intros H. apply bind_inv in H as (o & w1 & [= <- <-] & H). by apply checked_inv in H. Qed.

Lemma update_entry_inv l f w w' :
  update_entry l f w = (Ok tt, w') -> exists e, at_entry l w e /\ w' = on_maps (put_entry l (f e)) w.
Proof. intros H. apply bind_inv in H as (e & w1 & [He ->]%get_entry_inv & [= <-]). by exists e. Qed.

Lemma mutex_lock_inv l w w' :
  p_mutex_lock l w = (Ok tt, w') ->
  exists e, at_entry l w e /\ ce_lock e = Some false /\ w' = on_maps (put_entry l (entry_lock (Some true) e)) w.
Proof.
  intros H. apply bind_inv in H as (e & w1 & [He ->]%get_entry_inv & H). exists e.
  destruct (ce_lock e) as [[]|]; try done. rewrite (run_update_entry _ _ _ _ He) in H. by injection H as <-.
Qed.

Lemma mutex_unlock_inv l w w' :
  p_mutex_unlock l w = (Ok tt, w') ->
  exists e, at_entry l w e /\ ce_lock e = Some true /\ w' = on_maps (put_entry l (entry_lock (Some false) e)) w.
Proof.
  intros H. apply bind_inv in H as (e & w1 & [He ->]%get_entry_inv & H). exists e.
  destruct (ce_lock e) as [[]|]; try done. rewrite (run_update_entry _ _ _ _ He) in H. by injection H as <-.
Qed.

(** ** The cache while its lock is held *)

(** With the lock set aside, and with [X] in the place of the pending loads,
    which eviction does not look at. *)
Definition core (X : gmap loc tc_map_cache_load_task_args) (s : map_state) (ls : list loc) : Prop :=
  cache_ok (with_load_args X (put_cache (with_cache_lock 0 false) s)) ls.

(** An entry may change in its counters, its mark and its mutex. *)
Lemma cache_ok_touch s ls l e e' :
  cache_ok s ls -> ms_entries s !! l = Some e -> ce_prev e' = ce_prev e -> ce_next e' = ce_next e ->
  ce_key e' = ce_key e -> ce_map e' = ce_map e -> ce_is_loaded e' = ce_is_loaded e -> is_Some (ce_lock e') ->
  cache_ok (put_entry l e' s) ls.
Proof.
  intros [Hr Hu Hi Hnx Hls Hp Hld Hla Ho] He Hpr Hne Hk Hm Hf Hlk. split; try done.
  - by apply (cache_rep_put _ _ _ e).
  - intros x Hx. destruct (Hnx x Hx) as [H1 H2]. split; [|done]. cbn. rewrite lookup_insert_ne; [done | congruence].
  - intros x. cbn. destruct (decide (x = l)) as [->|Hd]; [intros _; apply Hls; by eexists|].
    rewrite lookup_insert_ne by done. apply Hls.
  - intros x y. cbn. intros [[<- <-]|[_ Hx]]%lookup_insert_Some; [|by eapply Hp].
    split; [done|]. rewrite Hk. by eapply Hp.
  - intros x y. cbn. intros [[<- <-]|[_ Hx]]%lookup_insert_Some; [|by eapply Hld]. rewrite Hf, Hm. by eapply Hld.
  - intros a args Ha. destruct (Hla a args Ha) as (x & Hx & Hxf). cbn. destruct (decide (la_entry args = l)) as [Hl|Hd].
    + rewrite Hl in *. exists e'. rewrite lookup_insert_eq. split; [done|]. rewrite Hf. congruence.
    + exists x. by rewrite lookup_insert_ne.
Qed.

(** *** References and locks

    What is left of an entry when its counters, its mark, and whether its locks
    are held are set aside. *)
Definition fixed_part (e : tc_map_cache_entry) :=
  (ce_prev e, ce_next e, ce_key e, ce_map e, ce_is_loaded e, bool_decide (is_Some (ce_lock e))).

(** [w'] is [w] but for references and locks of maps, as far as the cache is
    concerned. *)
Record only_counts (w w' : world) : Prop := {
  oc_cache : ms_cache (w_maps w') = ms_cache (w_maps w);
  oc_args : ms_load_args (w_maps w') = ms_load_args (w_maps w);
  oc_next : (ms_next (w_maps w) <= ms_next (w_maps w'))%nat;
  oc_entries : fixed_part <$> ms_entries (w_maps w') = fixed_part <$> ms_entries (w_maps w) }.

#[export] Instance only_counts_preorder : PreOrder only_counts.
Proof.
  split; [by split|]. intros w v u [H1 H2 H3 H4] [H5 H6 H7 H8]. split; [congruence | congruence | lia | congruence].
Qed.

Lemma fixed_lookup (m m' : entries) l e :
  fixed_part <$> m' = fixed_part <$> m -> m !! l = Some e -> exists e', m' !! l = Some e' /\ fixed_part e' = fixed_part e.
Proof.
  intros H He. assert ((fixed_part <$> m') !! l = Some (fixed_part e)) as Hl by (by rewrite H, lookup_fmap, He).
  rewrite lookup_fmap in Hl. destruct (m' !! l) as [e'|]; [|done]. exists e'. split; [done|]. cbn in Hl. congruence.
Qed.

Lemma cache_ok_counts s s' ls :
  ms_cache s' = ms_cache s -> ms_load_args s' = ms_load_args s -> (ms_next s <= ms_next s')%nat ->
  fixed_part <$> ms_entries s' = fixed_part <$> ms_entries s -> cache_ok s ls -> cache_ok s' ls.
Proof.
  intros Hc Ha Hn He [[Hh Ht Hs Hd Hct] Hu Hi Hnx Hls Hp Hld Hla Ho].
  assert (forall l e', ms_entries s' !! l = Some e' -> exists e, ms_entries s !! l = Some e /\ fixed_part e = fixed_part e') as Hb
    by (intros l e'; by apply fixed_lookup).
  split; rewrite ?Hc, ?Ha; try done.
  - split; rewrite ?Hc; try done. eapply dseg_ext; [|exact Hs]. intros l Hl.
    destruct (dseg_lookup _ _ _ _ _ Hs Hl) as [e Hle]. destruct (fixed_lookup _ _ _ _ He Hle) as (e' & Hle' & Hf).
    unfold links. rewrite Hle, Hle'. cbn. injection Hf. congruence.
  - intros l Hl. destruct (Hnx l) as [H1 H2]; [lia|]. split; [|done]. destruct (ms_entries s' !! l) eqn:E; [|done].
    destruct (Hb _ _ E) as (e & Hle & _). congruence.
  - intros l [e' Hle']. destruct (Hb _ _ Hle') as (e & Hle & _). apply Hls. by eexists.
  - intros l e' Hle'. destruct (Hb _ _ Hle') as (e & Hle & Hf). destruct (Hp l e Hle) as [Hlk Hk]. injection Hf as _ _ Hkey _ _ Hlock.
    rewrite <- Hkey. split; [|done]. rewrite (bool_decide_true _ Hlk) in Hlock. symmetry in Hlock. by apply bool_decide_eq_true in Hlock.
  - intros l e' Hle'. destruct (Hb _ _ Hle') as (e & Hle & Hf). injection Hf as _ _ _ Hm Hl _. rewrite <- Hm, <- Hl. by eapply Hld.
  - intros a args Hargs. destruct (Hla a args Hargs) as (e & Hle & Hfl). destruct (fixed_lookup _ _ _ _ He Hle) as (e' & Hle' & Hf).
    exists e'. split; [done|]. injection Hf. congruence.
Qed.

Lemma only_counts_ok w w' ls : only_counts w w' -> cache_ok (w_maps w) ls -> cache_ok (w_maps w') ls.
Proof. intros [Hc Ha Hn He]. by apply cache_ok_counts. Qed.

Lemma fixed_put (m : entries) l e e' : m !! l = Some e -> fixed_part e' = fixed_part e -> fixed_part <$> <[l := e']> m = fixed_part <$> m.
Proof. intros Hl Hf. rewrite fmap_insert, Hf, <- fmap_insert. by rewrite insert_id. Qed.

Lemma only_counts_put l e e' w : at_entry l w e -> fixed_part e' = fixed_part e -> only_counts w (on_maps (put_entry l e') w).
Proof. intros He Hf. split; [done | done | done | exact (fixed_put _ _ _ _ He Hf)]. Qed.

(** A loaded entry may go. *)
Lemma cache_ok_drop s s' a l b usage e e' :
  cache_ok s (a ++ l :: b) -> ms_entries s !! l = Some e -> ce_is_loaded e = true ->
  ce_prev e' = ce_prev e -> ce_next e' = ce_next e ->
  s' = unlinked a l b usage (put_entry l e' (put_cache (fun c => with_index ∅ c) s)) -> cache_ok s' (a ++ b).
Proof.
  intros [Hr Hu Hi Hnx Hls Hp Hld Hla Ho] He Hl Hpr Hne ->.
  set (s1 := put_entry l e' (put_cache (fun c => with_index ∅ c) s)).
  assert (cache_rep s1 (a ++ l :: b)) as Hr1.
  { apply (cache_rep_put _ _ _ e); try done. by eapply cache_rep_ext; [..|exact Hr]. }
  assert (forall x y, ms_entries (unlinked a l b usage s1) !! x = Some y ->
    x <> l /\ exists y', ms_entries s !! x = Some y' /\ body y' = body y) as Hback.
  { intros x y Hxy. cbn in Hxy. apply lookup_delete_Some in Hxy as [Hx Hxy]. split; [done|].
    destruct (body_lookup (<[l := e']> (ms_entries s)) _ x y (eq_sym (relink_body _ (last a) (head b))) Hxy) as (y' & Hy & Hb).
    rewrite lookup_insert_ne in Hy by done. by exists y'. }
  assert (forall x y, x <> l -> ms_entries s !! x = Some y ->
    exists y', ms_entries (unlinked a l b usage s1) !! x = Some y' /\ body y' = body y) as Hforth.
  { intros x y Hx Hy. destruct (body_lookup _ _ x y (relink_body (<[l := e']> (ms_entries s)) (last a) (head b)))
      as (y' & Hy' & Hb); [by rewrite lookup_insert_ne|]. exists y'. split; [cbn; by rewrite lookup_delete_ne | done]. }
  split; try done.
  - by apply unlinked_rep.
  - intros x Hx. destruct (Hnx x Hx) as [H1 H2]. split; [|done].
    destruct (ms_entries (unlinked a l b usage s1) !! x) as [y|] eqn:E; [|done].
    destruct (Hback x y E) as (_ & y' & Hy & _). congruence.
  - intros x [y Hy]. destruct (Hback x y Hy) as (Hx & y' & Hy' & _).
    assert (x ∈ a ++ l :: b) as Hin by (apply Hls; by eexists). set_solver.
  - intros x y Hy. destruct (Hback x y Hy) as (Hx & y' & Hy' & Hb).
    rewrite <- (body_proj ce_lock y' y), <- (body_proj ce_key y' y) by done. by eapply Hp.
  - intros x y Hy. destruct (Hback x y Hy) as (Hx & y' & Hy' & Hb).
    rewrite <- (body_proj ce_is_loaded y' y), <- (body_proj ce_map y' y) by done. by eapply Hld.
  - intros c args Hc. destruct (Hla c args Hc) as (y & Hy & Hf).
    destruct (Hforth _ _ ltac:(intros E; rewrite E in Hy; congruence) Hy) as (y' & Hy' & Hb).
    exists y'. split; [done|]. by rewrite (body_proj ce_is_loaded y' y).
Qed.

Section Held.
Variable X : gmap loc tc_map_cache_load_task_args.

Lemma core_touch s ls l e e' :
  core X s ls -> ms_entries s !! l = Some e -> ce_prev e' = ce_prev e -> ce_next e' = ce_next e ->
  ce_key e' = ce_key e -> ce_map e' = ce_map e -> ce_is_loaded e' = ce_is_loaded e -> is_Some (ce_lock e') ->
  core X (put_entry l e' s) ls.
Proof. exact (cache_ok_touch (with_load_args X (put_cache (with_cache_lock 0 false) s)) ls l e e'). Qed.

Lemma core_cache s ls f :
  core X s ls -> mc_head (f (ms_cache s)) = mc_head (ms_cache s) -> mc_tail (f (ms_cache s)) = mc_tail (ms_cache s) ->
  mc_num_entries (f (ms_cache s)) = mc_num_entries (ms_cache s) -> id_to_index (f (ms_cache s)) = id_to_index (ms_cache s) ->
  core X (put_cache f s) ls.
Proof.
  intros [Hr Hu Hi Hnx Hls Hp Hld Hla Ho] Hh Ht Hn Hx. split; try done.
  - by eapply cache_rep_ext; [..|exact Hr].
  - etrans; [exact Hx | exact Hi].
Qed.

Lemma move_hand_core (c : bool) x w ls :
  core X (w_maps w) ls ->
  exists w', when c (on_cache (with_hand x)) w = (Ok tt, w') /\ core X (w_maps w') ls /\
    w' = on_maps (fun _ => w_maps w') w /\ rest_of (w_maps w') = rest_of (w_maps w).
Proof.
  intros Hc. destruct c; [|exists w; split_and!; [done | done | by destruct w | done]].
  exists (on_maps (put_cache (with_hand x)) w). split_and!; try done. by apply core_cache.
Qed.

(** Dropping the loaded entry the pass has locked. *)
Lemma evict_drop_core w a l b e k w' :
  core X (w_maps w) (a ++ l :: b) -> at_entry l w e -> ce_lock e = Some true -> ce_is_loaded e = true -> ce_key e = Some k ->
  (_ ← index_remove k; _ ← tc_map_finalize l; tc_map_cache_unlink_entry l) w = (Ok tt, w') ->
  core X (w_maps w') (a ++ b) /\ w' = on_maps (fun _ => w_maps w') w /\ rest_of (w_maps w') = rest_of (w_maps w).
Proof.
  intros Hc He Hlk Hld Hk H. apply bind_inv in H as ([] & w1 & [= <-] & H). apply bind_inv in H as ([] & w2 & Hf & H).
  assert (w2 = on_maps (put_entry l (entry_map MapGarbage e)) (on_maps (put_cache (fun c => with_index (delete (c_content k) (id_to_index c)) c)) w)) as ->.
  { apply bind_inv in Hf as (x & w3 & [Hx ->]%get_entry_inv & Hf). change (at_entry l w x) in Hx.
    assert (x = e) as -> by (unfold at_entry in *; congruence).
    destruct (ce_map e); try done. rewrite (run_update_entry l _ _ e) in Hf by done. by injection Hf as <-. }
  set (w3 := on_maps _ (on_maps _ w)) in *.
  assert (cache_rep (w_maps w3) (a ++ l :: b)) as Hr3.
  { apply (cache_rep_put _ _ _ e); [done..|]. by eapply cache_rep_ext; [..|exact (ck_rep _ _ Hc)]. }
  rewrite (unlink_run a l b w3 _ k Hr3 (at_put_entry _ _ _) Hlk Hk) in H. injection H as <-. split_and!; [|done|done].
  eapply (cache_ok_drop _ _ a l b (ce_memory_usage e) e (entry_map MapGarbage e) Hc); [done.. |].
  pose proof (ck_index _ _ Hc) as Hi. cbn in Hi. subst w3. unfold unlinked. cbn. rewrite Hi, delete_empty. done.
Qed.

(** Eviction in any state, as long as it returns. *)
Lemma evict_loop_core n : forall cur w w' ls,
  core X (w_maps w) ls -> (forall l, cur = Some l -> l ∈ ls) -> evict_loop n cur w = (Ok tt, w') ->
  exists ls', core X (w_maps w') ls' /\ w' = on_maps (fun _ => w_maps w') w /\ rest_of (w_maps w') = rest_of (w_maps w).
Proof.
  induction n as [|n IH]; intros cur w w' ls Hc Hcur; cbn [evict_loop].
  { intros [= <-]. exists ls. split_and!; [done | by destruct w | done]. }
  intros H. apply bind_inv in H as (c & w1 & [= <- <-] & H). apply bind_inv in H as (l & w1 & [Hl ->]%checked_inv & H).
  assert (l ∈ ls) as Hin.
  { destruct cur as [x|]; [injection Hl as ->; by apply Hcur|].
    pose proof (cr_tail _ _ (ck_rep _ _ Hc)) as Ht. cbn in Ht. rewrite Ht in Hl. apply last_Some in Hl as [k ->]. set_solver. }
  apply bind_inv in H as ([] & w1 & (e & He & Hlk & ->)%mutex_lock_inv & H).
  set (e1 := entry_lock (Some true) e) in *. set (w1 := on_maps _ w) in *.
  assert (core X (w_maps w1) ls) as Hc1 by (by apply (core_touch _ _ _ e)).
  apply bind_inv in H as (x & w2 & [Hx ->]%get_entry_inv & H).
  assert (x = e1) as -> by (unfold at_entry in Hx; cbn in Hx; rewrite lookup_insert_eq in Hx; congruence). clear Hx.
  assert (forall w2 cur', core X (w_maps w2) ls -> (cur' = ce_prev e) -> w2 = on_maps (fun _ => w_maps w2) w ->
    rest_of (w_maps w2) = rest_of (w_maps w) -> evict_loop n cur' w2 = (Ok tt, w') ->
    exists ls', core X (w_maps w') ls' /\ w' = on_maps (fun _ => w_maps w') w /\ rest_of (w_maps w') = rest_of (w_maps w)) as Hnext.
  { intros w2 cur' Hc2 -> Hw2 Hr2 H2. destruct (IH (ce_prev e) w2 w' ls Hc2) as (ls' & Hls & Hw & Hr); [| done |].
    - intros y Hy. by apply (prev_listed _ ls l e y (ck_rep _ _ Hc)).
    - exists ls'. split_and!; [done | rewrite Hw, Hw2; by destruct w | congruence]. }
  change (ce_is_loaded e1) with (ce_is_loaded e) in H. destruct (ce_is_loaded e) eqn:Hld; cbn [negb] in H.
  2: { apply bind_inv in H as (l' & w2 & [Hl' ->]%checked_inv & H). change (ce_prev e = Some l') in Hl'.
       apply bind_inv in H as ([] & w2 & (e2 & He2 & Hlk2 & ->)%mutex_unlock_inv & H).
       eapply Hnext; [| | | |exact H]; try done. by apply (core_touch _ _ _ e2). }
  change (ce_open_count e1) with (ce_open_count e) in H. destruct (ce_open_count e =? 0).
  2: { apply bind_inv in H as ([] & w2 & (e2 & He2 & Hlk2 & ->)%mutex_unlock_inv & H).
       eapply Hnext; [| | | |exact H]; try done. by apply (core_touch _ _ _ e2). }
  change (ce_is_referenced e1) with (ce_is_referenced e) in H. destruct (ce_is_referenced e).
  { apply bind_inv in H as ([] & w2 & (e2 & He2 & ->)%update_entry_inv & H).
    eapply Hnext; [| | | |exact H]; try done. apply (core_touch _ _ _ e2); try done.
    assert (e2 = e1) as -> by (unfold at_entry in He2; cbn in He2; rewrite lookup_insert_eq in He2; congruence). by eexists. }
  apply bind_inv in H as (k & w2 & [Hk ->]%checked_inv & H). apply list_elem_of_split in Hin as (a & b & ->).
  apply bind_inv3 in H as (w4 & Hd & H).
  destruct (evict_drop_core w1 a l b e1 k w4 Hc1 (at_put_entry _ _ _) eq_refl Hld Hk Hd) as (Hc4 & Hw4 & Hr4).
  rewrite (bind_ok _ _ _ _ _ (run_getm _ _)) in H.
  destruct (move_hand_core (bool_decide (mc_clock_hand (ms_cache (w_maps w4)) = Some l)) (ce_prev e1) w4 _ Hc4) as (w5 & E5 & Hc5 & Hw5 & Hr5).
  rewrite (bind_ok _ _ _ _ _ E5), (bind_ok _ _ _ _ _ (run_getm _ _)) in H.
  assert (w5 = on_maps (fun _ => w_maps w5) w) as Hw by (rewrite Hw5, Hw4; by destruct w).
  assert (rest_of (w_maps w5) = rest_of (w_maps w)) as Hr by (by rewrite Hr5, Hr4). destruct (_ <? _).
  - destruct (move_hand_core (bool_decide (mc_clock_hand (ms_cache (w_maps w5)) = None)) (mc_tail (ms_cache (w_maps w5))) w5 _ Hc5)
      as (w6 & E6 & Hc6 & Hw6 & Hr6). rewrite E6 in H. injection H as <-.
    exists (a ++ b). split_and!; [done | rewrite Hw6, Hw; by destruct w | congruence].
  - destruct (IH (ce_prev e1) w5 w' (a ++ b) Hc5) as (ls' & Hls & Hwl & Hrl); [| done |].
    + intros y Hy. change (ce_prev e = Some y) in Hy. destruct (cache_rep_links _ _ _ _ _ (ck_rep _ _ Hc) He) as [Hp _].
      rewrite Hp in Hy. apply last_Some in Hy as [a' ->]. set_solver.
    + exists ls'. split_and!; [done | rewrite Hwl, Hw; by destruct w | congruence].
Qed.

Lemma evict_core w w' ls :
  core X (w_maps w) ls -> tc_map_cache_evict w = (Ok tt, w') ->
  exists ls', core X (w_maps w') ls' /\ rest_of (w_maps w') = rest_of (w_maps w).
Proof.
  intros Hc H. unfold tc_map_cache_evict in H. rewrite (bind_ok _ _ _ _ _ (run_getm _ _)) in H.
  destruct (mc_head (ms_cache (w_maps w))) as [h|] eqn:Hh; [|injection H as <-; by exists ls].
  destruct (move_hand_core (bool_decide (mc_clock_hand (ms_cache (w_maps w)) = None)) (Some h) w ls Hc) as (w1 & E1 & Hc1 & _ & Hr1).
  rewrite (bind_ok _ _ _ _ _ E1) in H.
  eapply (evict_loop_core _ _ _ _ ls Hc1) in H as (ls' & Hls & _ & Hr); [exists ls'; split; [done | congruence]|].
  intros l Hl. pose proof (cr_tail _ _ (ck_rep _ _ Hc)) as Ht. cbn in Ht. rewrite Ht in Hl. apply last_Some in Hl as [k ->]. set_solver.
Qed.
End Held.

Lemma writer_lock_inv w w' : cache_writer_lock w = (Ok tt, w') -> w' = on_maps (put_cache (with_cache_lock 0 true)) w.
Proof.
  unfold cache_writer_lock. rewrite (bind_ok _ _ _ _ _ (run_getm _ _)). destruct (_ || _); [done|].
  rewrite run_on_cache. by intros [= <-].
Qed.

(** The core depends on the cache, its entries and the next location. *)
Lemma core_ext X s s' ls :
  ms_cache s' = ms_cache s -> ms_entries s' = ms_entries s -> ms_next s' = ms_next s -> core X s ls -> core X s' ls.
Proof.
  intros Hc He Hn H. unfold core in *. replace (with_load_args X (put_cache (with_cache_lock 0 false) s')) with
    (with_loads (ms_loads s') (with_live (ms_live s') (with_buffers (ms_buffers s') (with_sends (ms_sends s')
       (with_load_args X (put_cache (with_cache_lock 0 false) s))))))
    by (destruct s, s'; cbn in *; by subst).
  destruct H as [Hr]. split; [by eapply cache_rep_ext; [..|exact Hr] | done..].
Qed.

(** References and locks leave the core alone. *)
Lemma only_counts_core X w w' ls : only_counts w w' -> core X (w_maps w) ls -> core X (w_maps w') ls.
Proof.
  intros [Hc _ Hn He]. apply cache_ok_counts; cbn; [by rewrite Hc | done | done | done].
Qed.

(** ** Steps *)

(** Failure handlers change the cache at most by references and locks. *)
Class MapCallbacksCount {cb : MapCallbacks} : Prop :=
  failure_counts f c g w w' : call_failure f c g w = (Ok tt, w') -> only_counts w w'.

Arguments MapCallbacksCount : clear implicits.

Section System.
Context {cb : MapCallbacks} {ct : MapCallbacksCount cb} {ld : MapLoader} {sz : CacheSizes}.

Lemma nolock_ref_inv l w w' :
  tc_map_nolock_ref l w = (Ok tt, w') ->
  exists e n, at_entry l w e /\ w' = on_maps (put_entry l (entry_referenced true (entry_count n e))) w.
Proof.
  intros H. apply bind_inv in H as (e & w1 & [He ->]%get_entry_inv & H). apply bind_inv in H as (n & w1 & [_ ->]%checked_inv & H).
  exists e, n. rewrite (run_update_entry _ _ _ _ He) in H. by injection H as <-.
Qed.

Lemma nolock_unref_inv l w w' :
  tc_map_nolock_unref l w = (Ok tt, w') -> exists e n, at_entry l w e /\ w' = on_maps (put_entry l (entry_count n e)) w.
Proof.
  intros H. apply bind_inv in H as (e & w1 & [He ->]%get_entry_inv & H). apply bind_inv in H as (n & w1 & [_ ->]%checked_inv & H).
  exists e, n. rewrite (run_update_entry _ _ _ _ He) in H. by injection H as <-.
Qed.

(** The handlers a backlog is given. *)
Definition counting (h : option (loc -> M unit)) : Prop := h = None \/ h = Some tc_map_nolock_ref \/ h = Some tc_map_nolock_unref.

Lemma call_ref_core X h l w w' ls :
  counting h -> core X (w_maps w) ls -> call_ref h l w = (Ok tt, w') ->
  core X (w_maps w') ls /\ ms_load_args (w_maps w') = ms_load_args (w_maps w) /\ ms_cache (w_maps w') = ms_cache (w_maps w).
Proof.
  intros [-> | [-> | ->]] Hc H; destruct l as [l|]; try done; cbn [call_ref] in H.
  - apply nolock_ref_inv in H as (e & n & He & ->). split; [|done]. apply (core_touch _ _ _ _ e); try done.
    exact (proj1 (ck_parts _ _ Hc l e He)).
  - apply nolock_unref_inv in H as (e & n & He & ->). split; [|done]. apply (core_touch _ _ _ _ e); try done.
    exact (proj1 (ck_parts _ _ Hc l e He)).
Qed.

Lemma replay_core X aq rl l ev : forall w w' ls,
  counting aq -> counting rl -> core X (w_maps w) ls -> replay aq rl l ev w = (Ok tt, w') ->
  core X (w_maps w') ls /\ ms_load_args (w_maps w') = ms_load_args (w_maps w) /\ ms_cache (w_maps w') = ms_cache (w_maps w).
Proof.
  induction ev as [|x ev IH]; intros w w' ls Haq Hrl Hc; cbn [replay]; [by intros [= <-]|].
  intros H. apply bind_inv in H as ([] & w1 & E & H).
  assert (core X (w_maps w1) ls /\ ms_load_args (w_maps w1) = ms_load_args (w_maps w) /\ ms_cache (w_maps w1) = ms_cache (w_maps w))
    as (Hc1 & Ha1 & Hm1).
  { destruct x; cbn [do_event] in E.
    - pose proof (failure_counts _ _ _ _ _ E) as Hf. split; [by apply (only_counts_core X w) | by destruct Hf].
    - injection E as <-. split; [by eapply core_ext; [..|exact Hc] | done].
    - injection E as <-. split; [by eapply core_ext; [..|exact Hc] | done].
    - exact (call_ref_core X _ _ _ _ _ Haq Hc E).
    - exact (call_ref_core X _ _ _ _ _ Hrl Hc E).
    - by injection E as <-. }
  destruct (IH w1 w' ls Haq Hrl Hc1 H) as (Hc2 & Ha2 & Hm2). split_and!; [done | congruence | congruence].
Qed.

(** The end of a load. *)
Lemma relieve_core X w w' ls :
  core X (w_maps w) ls -> relieve_pressure w = (Ok tt, w') ->
  exists ls', cache_ok (with_load_args X (w_maps w')) ls' /\ ms_load_args (w_maps w') = ms_load_args (w_maps w).
Proof.
  intros Hc H. apply bind_inv in H as ([] & w1 & ->%writer_lock_inv & H).
  rewrite (bind_ok _ _ _ _ _ (run_getm _ _)) in H. apply bind_inv in H as ([] & w2 & E2 & H).
  set (w1 := on_maps _ w) in *. assert (core X (w_maps w1) ls) as Hc1 by (by apply core_cache).
  assert (exists ls', core X (w_maps w2) ls' /\ rest_of (w_maps w2) = rest_of (w_maps w1)) as (ls' & Hc2 & Hr2).
  { destruct (_ <? _); [by eapply evict_core|]. injection E2 as <-. by exists ls. }
  unfold rest_of in Hr2. injection Hr2 as Ha _ _ _ _ _ Hrd Hwr. cbn in Ha, Hrd, Hwr.
  rewrite run_writer_unlock in H by done. injection H as <-. rewrite Hrd. by exists ls'.
Qed.

Lemma cache_ok_core s ls : cache_ok s ls -> core (ms_load_args s) s ls.
Proof.
  intros [Hr Hu Hi Hnx Hls Hp Hld Hla Ho]. split; try done. by eapply cache_rep_ext; [..|exact Hr].
Qed.

Lemma core_unlocked X s ls :
  core X s ls -> mc_readers (ms_cache s) = 0%nat -> mc_writer (ms_cache s) = false -> ms_load_args s = X -> cache_ok s ls.
Proof.
  intros [Hr Hu Hi Hnx Hls Hp Hld Hla Ho] H1 H2 <-. split; try done. by eapply cache_rep_ext; [..|exact Hr].
Qed.

(** The entry of a load with its new contents, as the core without that load. *)
Lemma finish_core s s' ls a args e e' :
  cache_ok s ls -> ms_load_args s !! a = Some args -> ms_entries s !! la_entry args = Some e ->
  ms_cache s' = ms_cache s -> ms_entries s' = <[la_entry args := e']> (ms_entries s) -> ms_next s' = ms_next s ->
  ce_prev e' = ce_prev e -> ce_next e' = ce_next e -> is_Some (ce_lock e') -> ce_key e' = ce_key e ->
  (ce_is_loaded e' = true <-> exists m, ce_map e' = MapLoaded m) -> core (delete a (ms_load_args s)) s' ls.
Proof.
  intros Hok Ha He Hc Hen Hn Hp Hx Hlk Hk Hm.
  apply (cache_ok_finish s _ ls a args e e'); cbn; try done.
  - rewrite Hc. destruct (ck_unlocked _ _ Hok) as [H1 H2]. destruct (ms_cache s). cbn in *. by subst.
  - rewrite Hk. by apply (ck_parts _ _ Hok _ _ He).
Qed.

(** Handing a backlog over. *)
Lemma schedule_backlog_core X bl aq rl r q w w' ls :
  counting aq -> counting rl -> core X (w_maps w) ls -> schedule_backlog bl aq rl r q w = (Ok tt, w') ->
  core X (w_maps w') ls /\ ms_load_args (w_maps w') = ms_load_args (w_maps w) /\ ms_cache (w_maps w') = ms_cache (w_maps w).
Proof.
  intros Haq Hrl Hc H. unfold schedule_backlog in H.
  destruct (tc_task_schedule_backlog _ _ _ _ _ _ _) as [[[[p h] c] ev]|]; [|done].
  exact (replay_core X aq rl r ev (with_pool_heap p h w) w' ls Haq Hrl Hc H).
Qed.

Lemma load_step a q w w' ls : cache_ok (w_maps w) ls -> run_load_task a q w = (Ok tt, w') -> exists ls', cache_ok (w_maps w') ls'.
Proof.
  intros Hok H. unfold run_load_task in H. destruct (negb _); [done|].
  apply bind_inv in H as (args & w1 & Ha & H). apply bind_inv in Ha as (o & w2 & [= <- <-] & [Ha ->]%checked_inv).
  set (l := la_entry args) in *. set (X := delete a (ms_load_args (w_maps w))).
  apply bind_inv in H as ([] & w1 & (e & He & Hlk & ->)%mutex_lock_inv & H). rewrite (bind_ok _ _ _ _ _ (run_cache_load _ _)) in H.
  set (w1 := on_maps (fun s => with_loads _ s) _) in H.
  assert (at_entry l w1 (entry_lock (Some true) e)) as He1 by apply lookup_insert_eq.
  destruct (load_file _ _) as [m| |]; [| |done].
  - rewrite (bind_ok _ _ _ _ _ (run_update_entry _ _ _ _ He1)) in H. apply bind_inv in H as (u & w2 & [_ ->]%checked_inv & H).
    rewrite (bind_ok _ _ _ _ _ (run_update_entry l _ _ _ (at_put_entry _ _ _))) in H.
    rewrite (bind_ok _ _ _ _ _ (run_get_entry l _ _ (at_put_entry _ _ _))) in H. set (w2 := on_maps _ (on_maps _ w1)) in H.
    assert (core X (w_maps w2) ls) as Hc2.
    { eapply (finish_core (w_maps w) (w_maps w2) ls a args e _ Hok Ha He eq_refl);
        [cbn; rewrite !insert_insert_eq; reflexivity|..]; try done. split; [by eexists | done]. }
    apply bind_inv in H as ([] & w3 & E3 & H).
    destruct (schedule_backlog_core X _ _ _ _ _ w2 w3 ls (or_intror (or_introl eq_refl)) (or_intror (or_intror eq_refl)) Hc2 E3) as (Hc3 & Ha3 & _).
    apply bind_inv in H as ([] & w4 & (e4 & He4 & Hl4 & ->)%mutex_unlock_inv & H).
    assert (core X (w_maps (on_maps (put_entry l (entry_lock (Some false) e4)) w3)) ls) as Hc4 by (by apply (core_touch _ _ _ _ e4)).
    apply bind_inv in H as ([] & w5 & E5 & H). destruct (relieve_core X _ _ _ Hc4 E5) as (ls' & Hok5 & Ha5).
    rewrite (run_free_load_args a _ args) in H by (rewrite Ha5; cbn; by rewrite Ha3). injection H as <-.
    exists ls'. cbn. rewrite Ha5. cbn. by rewrite Ha3.
  - rewrite (bind_ok _ _ _ _ _ (run_update_entry _ _ _ _ He1)) in H.
    rewrite (bind_ok _ _ _ _ _ (run_get_entry l _ _ (at_put_entry _ _ _))) in H. set (w2 := on_maps _ w1) in H.
    assert (core X (w_maps w2) ls) as Hc2.
    { eapply (finish_core (w_maps w) (w_maps w2) ls a args e _ Hok Ha He eq_refl);
        [cbn; rewrite !insert_insert_eq; reflexivity|..]; try done.
      destruct (ck_loads _ _ Hok _ _ Ha) as (x & Hx & Hf). fold l in Hx. rewrite He in Hx. injection Hx as <-. cbn. rewrite Hf. naive_solver. }
    apply bind_inv in H as ([] & w3 & E3 & H).
    destruct (schedule_backlog_core X _ _ _ _ _ w2 w3 ls (or_introl eq_refl) (or_introl eq_refl) Hc2 E3) as (Hc3 & Ha3 & Hm3).
    apply bind_inv in H as ([] & w4 & (e4 & He4 & Hl4 & ->)%mutex_unlock_inv & H).
    rewrite (run_free_load_args a _ args) in H by (cbn; by rewrite Ha3). injection H as <-.
    destruct (ck_unlocked _ _ Hok) as [Hu1 Hu2]. exists ls.
    apply (core_unlocked X); cbn; rewrite ?Hm3, ?Ha3; try done. 
    eapply (core_ext X (put_entry l (entry_lock (Some false) e4) (w_maps w3))); try done. by apply (core_touch _ _ _ _ e4).
Qed.

(** A reference taken or given back. *)
Lemma lock_unlock_counts l (m : M unit) w w' :
  (forall w w', m w = (Ok tt, w') -> only_counts w w') ->
  (_ ← p_mutex_lock l; _ ← m; p_mutex_unlock l) w = (Ok tt, w') -> only_counts w w'.
Proof.
  intros Hm H. apply bind_inv in H as ([] & w1 & (e & He & Hl & ->)%mutex_lock_inv & H).
  apply bind_inv in H as ([] & w2 & E%Hm & H). apply mutex_unlock_inv in H as (e2 & He2 & Hl2 & ->).
  etrans; [apply (only_counts_put l e (entry_lock (Some true) e)); [exact He | unfold fixed_part; cbn; by rewrite Hl]|].
  etrans; [exact E|]. apply (only_counts_put l e2); [exact He2 | unfold fixed_part; cbn; by rewrite Hl2].
Qed.

Lemma nolock_ref_counts l w w' : tc_map_nolock_ref l w = (Ok tt, w') -> only_counts w w'.
Proof. intros (e & n & He & ->)%nolock_ref_inv. by apply (only_counts_put l e). Qed.

Lemma nolock_unref_counts l w w' : tc_map_nolock_unref l w = (Ok tt, w') -> only_counts w w'.
Proof. intros (e & n & He & ->)%nolock_unref_inv. by apply (only_counts_put l e). Qed.

Lemma ref_counts l w w' : tc_map_ref l w = (Ok tt, w') -> only_counts w w'.
Proof. apply lock_unlock_counts, nolock_ref_counts. Qed.

Lemma unref_counts l w w' : tc_map_unref l w = (Ok tt, w') -> only_counts w w'.
Proof. apply lock_unlock_counts, nolock_unref_counts. Qed.

(** Either the next [k] requests are granted, or there is a first refusal. *)
Lemma first_refusal w k :
  (forall i, (i < k)%nat -> grants w i = true) \/
  exists n, (n < k)%nat /\ (forall i, (i < n)%nat -> grants w i = true) /\ grants w n = false.
Proof.
  induction k as [|k [IH|(n & Hn & Hb & Hg)]].
  - left. lia.
  - destruct (grants w k) eqn:E.
    + left. intros i Hi. destruct (decide (i = k)) as [->|]; [done | apply IH; lia].
    + right. exists k. eauto.
  - right. exists n. split_and!; [lia | done | done].
Qed.

Lemma open_step name info q w w' ls :
  cache_ok (w_maps w) ls -> tc_map_cache_schedule_open name info q w = (Ok tt, w') -> exists ls', cache_ok (w_maps w') ls'.
Proof.
  intros Hok H. destruct (schedule_open_run name info q w ls Hok) as [Hfail Hgo].
  assert (forall n, (n < 5)%nat -> (forall i, (i < n)%nat -> grants w i = true) -> grants w n = false -> exists ls', cache_ok (w_maps w') ls') as Hf.
  { intros n Hn Hb Hg. destruct (Hfail n Hn Hb Hg) as (used & E). rewrite E in H. unfold tell_failure in H.
    exists ls. apply (only_counts_ok _ _ _ (failure_counts _ _ _ _ _ H)).
    apply (cache_ok_counts (w_maps w)); [done | done | cbn; lia | done | exact Hok]. }
  destruct (first_refusal w 5) as [Hall|(n & Hn & Hb & Hg)]; [|by eapply Hf].
  specialize (Hgo Hall). destruct (tc_thread_schedule_new _ _ _ _ _) as [[[[] p] ws]|].
  - destruct Hgo as (w1 & E & Hop & _). rewrite E in H. injection H as <-. eexists. exact (op_ok _ _ _ _ _ Hop).
  - destruct Hgo as (w1 & E). congruence.
  - destruct Hgo as (w1 & E). congruence.
Qed.

Lemma empty_ok threshold : cache_ok (no_maps threshold) [].
Proof.
  split; try done.
  - split; try done. constructor.
  - intros l [e He]. done.
Qed.

End System.

(** ** Memory *)

(** The counter of the memory in use knows only the entries: loading a map
    does not add its memory to it, but evicting the map subtracts it, so that
    the counter wraps around.  With one entry in the list, whose map takes [m]
    bytes and is not in use, it shows 2^64 - m bytes after the eviction, with
    no map left. *)
Theorem eviction_underflows {sz : CacheSizes} w l e m :
  views (w_maps w) [(l, e)] -> ready e -> ce_open_count e = 0 -> ce_is_referenced e = false ->
  mc_memory_usage (ms_cache (w_maps w)) = sizeof_entry -> ce_memory_usage e = sizeof_entry + m -> 0 < m < 2 ^ 64 ->
  exists w', tc_map_cache_evict w = (Ok tt, w') /\ views (w_maps w') [] /\ mc_memory_usage (ms_cache (w_maps w')) = 2 ^ 64 - m.
Proof.
  intros Hv Hr Hc Hf Hu He Hm. pose proof (evict_run w _ Hv) as H. cbv zeta in H. cbn [reverse rev_append sweep] in H.
  rewrite Hc, Hf, Hu, He in H. cbn [Z.eqb negb] in H.
  assert (u64 (sizeof_entry - (sizeof_entry + m)) = 2 ^ 64 - m) as Ew by width_lia. rewrite Ew in H.
  destruct (_ <? _); destruct H as (w' & E & _ & Hv' & Hu'); [by constructor | cbn; lia | | by constructor | cbn; lia |]; by exists w'.
Qed.

(** ** Destruction *)

(** The end of the loop over a list whose entries are all whole. *)
Lemma finalize_loop_run ls : forall n w p,
  dseg (ms_entries (w_maps w)) p ls None -> NoDup ls -> (length ls <= n)%nat ->
  (forall l e, l ∈ ls -> ms_entries (w_maps w) !! l = Some e ->
     is_Some (ce_lock e) /\ is_Some (ce_key e) /\ exists m, ce_map e = MapLoaded m) ->
  exists w', finalize_loop n (head ls) w = (Ok tt, w') /\
    (forall l, ms_entries (w_maps w') !! l = if decide (l ∈ ls) then None else ms_entries (w_maps w) !! l) /\
    ms_live (w_maps w') = ms_live (w_maps w) - 2 * Z.of_nat (length ls).
Proof.
  induction ls as [|l ls IH]; intros n w p Hs Hn Hlen Hall.
  { exists w. destruct n; (split_and!; [done | intros l; by rewrite decide_False by apply not_elem_of_nil | cbn; lia]). }
  destruct n as [|n]; [cbn in Hlen; lia|]. apply NoDup_cons in Hn as [Hl Hn]. cbn [head finalize_loop]. destruct Hs as [Hlk Hs].
  destruct (ms_entries (w_maps w) !! l) as [e|] eqn:He; [|unfold links in Hlk; by rewrite He in Hlk].
  destruct (Hall l e) as (Hk & [k Hkey] & m & Hm); [left | done |].
  rewrite (bind_ok _ _ _ _ _ (run_get_entry _ _ _ He)).
  assert (tc_map_finalize l w = (Ok tt, on_maps (put_entry l (entry_map MapGarbage e)) w)) as E.
  { unfold tc_map_finalize. rewrite (bind_ok _ _ _ _ _ (run_get_entry _ _ _ He)), Hm. by apply (run_update_entry l). }
  rewrite (bind_ok _ _ _ _ _ E).
  rewrite (bind_assoc3 _ _ _ _ _ _ (discard_run l _ (entry_map MapGarbage e) k (at_put_entry _ _ _) Hk Hkey)).
  assert (ce_next e = head ls) as ->.
  { unfold links in Hlk. rewrite He in Hlk. cbn in Hlk. injection Hlk as _ ->. unfold first_or. by destruct (head ls). }
  set (w1 := on_maps (discard l) _).
  assert (forall x, x <> l -> ms_entries (w_maps w1) !! x = ms_entries (w_maps w) !! x) as Hx.
  { intros x Hne. cbn. by rewrite lookup_delete_ne, lookup_insert_ne. }
  assert (forall x, x ∈ ls -> x <> l) as Hne by (intros x Hin ->; done).
  destruct (IH n w1 (Some l)) as (w2 & E2 & He2 & Hl2); [| done | cbn in Hlen; lia | |].
  - eapply dseg_ext; [|exact Hs]. intros x Hin. unfold links. by rewrite Hx by auto.
  - intros x y Hin Hy. rewrite Hx in Hy by auto. apply (Hall x y); [by right | done].
  - exists w2. split_and!; [done | | rewrite Hl2; cbn; lia]. intros x. rewrite He2.
    destruct (decide (x ∈ ls)) as [Hin|Hin]; [by rewrite decide_True by (by right)|].
    destruct (decide (x = l)) as [->|Hd].
    + rewrite decide_True by left. cbn. apply lookup_delete_eq.
    + rewrite decide_False by set_solver. by apply Hx.
Qed.

(** [tc_map_cache_finalize] frees every entry of a cache whose maps are all
    loaded exactly once, with its mutex and its key, and the tree and the lock;
    but an entry at the head of the list that is not loaded, since its load is
    pending or has failed, has its map finalized all the same, through pointers
    that were never set or were freed. *)
Theorem finalize_spec w ls :
  cache_ok (w_maps w) ls ->
  ((forall l e, ms_entries (w_maps w) !! l = Some e -> ce_is_loaded e = true) ->
     exists w', tc_map_cache_finalize w = (Ok tt, w') /\ ms_entries (w_maps w') = ∅ /\
       ms_live (w_maps w') = ms_live (w_maps w) - 2 * Z.of_nat (length ls) - 2) /\
  (forall l e, head ls = Some l -> ms_entries (w_maps w) !! l = Some e -> ce_is_loaded e = false ->
     (tc_map_cache_finalize w).1 = Stuck BadAccess).
Proof.
  intros Hok. pose proof (ck_rep _ _ Hok) as [Hh _ Hs Hn _].
  assert (length ls <= size (ms_entries (w_maps w)))%nat as Hsize.
  { replace (length ls) with (size (list_to_set ls : gset loc)) by (by apply size_list_to_set).
    rewrite <- size_dom. apply subseteq_size. intros l Hl%elem_of_list_to_set. apply elem_of_dom. by eapply dseg_lookup. }
  unfold tc_map_cache_finalize. rewrite !(bind_ok _ _ _ _ _ (run_getm _ _)), Hh. split.
  - intros Hall. destruct (finalize_loop_run ls (size (ms_entries (w_maps w))) w None Hs Hn Hsize) as (w1 & E & He & Hl).
    { intros l e _ Hle. destruct (ck_parts _ _ Hok _ _ Hle). split_and!; [done | done |]. apply (ck_loaded _ _ Hok _ _ Hle), (Hall _ _ Hle). }
    rewrite (bind_ok _ _ _ _ _ E). eexists. split_and!; [done | | cbn; rewrite Hl; lia]. cbn. apply map_eq. intros l. rewrite He, lookup_empty.
    destruct (decide (l ∈ ls)) as [|Hd]; [done|]. destruct (ms_entries (w_maps w) !! l) eqn:E'; [|done].
    destruct Hd. apply (ck_listed _ _ Hok). by rewrite E'.
  - intros l e Hhd Hle Hf. rewrite Hhd. destruct ls as [|l' ls]; [done|]. cbn [length] in Hsize.
    destruct (size (ms_entries (w_maps w))) as [|n]; [lia|]. cbn [finalize_loop].
    assert (forall m, ce_map e <> MapLoaded m) as Hm.
    { intros m Em. assert (ce_is_loaded e = true) by (apply (ck_loaded _ _ Hok _ _ Hle); by eexists). congruence. }
    erewrite bind_stuck; [done|]. rewrite (bind_ok _ _ _ _ _ (run_get_entry l w e Hle)). apply bind_stuck.
    unfold tc_map_finalize. rewrite (bind_ok _ _ _ _ _ (run_get_entry l w e Hle)).
    destruct (ce_map e) as [|m|]; [done | by destruct (Hm m) | done].
Qed.
