(* ===== verification/MapCacheExample.v ===== *)
(** * The map cache on concrete states

    Small caches on which the theorems of the map cache are applied: the
    hypotheses of each of them hold here. *)

From S2P Require Import Prelude Socket Protocol ThreadPool ThreadPoolSpec Heartbeat Map MapProps TaskBacklog TaskBacklogProps.
From S2P Require Import Objects Session SessionSpec ServerProps MapCache MapCacheSpec MapCacheProps MapCacheEvict MapCacheLoad MapCacheSystem.

Local Open Scope Z_scope.

(** ** A disk, sizes, and a waiting task *)

(** The file [lobby] holds the small map, there is no other file. *)
#[local] Instance lobby_disk : MapLoader := fun name _ =>
  if bool_decide (name = cstr "lobby") then LoadOk small_map else LoadFailed.

#[local] Instance lp64_sizes : CacheSizes := { map_sizes := Sizes 232 8 32 96 8 16; sizeof_entry := 336 }.

Definition lobby_waiter : map_waiter :=
  Entry (Some on_map_load_success) handle_map_load_failure (ContextSendMap 7%nat) PRIORITY_BLOCKING 0.

(** ** Caches *)

(** An entry with its map in memory. *)
Definition loaded_entry (count : Z) (referenced : bool) (next prev : option loc) : tc_map_cache_entry :=
  CacheEntry (MapLoaded small_map) 0 [] 583 count referenced true (Some false) (Some (cstr "lobby")) next prev.

(** An entry whose map is being loaded. *)
Definition loading_entry (next prev : option loc) : tc_map_cache_entry :=
  CacheEntry MapUnset 0 [[lobby_waiter]] 336 0 true false (Some false) (Some (cstr "lobby")) next prev.

Definition with_maps (s : map_state) : world := on_maps (fun _ => s) sample_world.

(** Two entries, the first in use, with memory above the threshold. *)
Definition two_maps (count : Z) (referenced : bool) : map_state :=
  MapState (MapCache ∅ (Some 1%nat) (Some 0%nat) None 2 0 false 672 100)
    {[ 1%nat := loaded_entry 2 true (Some 0%nat) None; 0%nat := loaded_entry count referenced None (Some 1%nat) ]}
    ∅ ∅ ∅ 2%nat 4 2%nat.

(** The entry at the tail is still loading. *)
Definition one_loading : map_state :=
  MapState (MapCache ∅ (Some 1%nat) (Some 0%nat) None 2 0 false 672 100)
    {[ 1%nat := loaded_entry 0 true (Some 0%nat) None; 0%nat := loading_entry None (Some 1%nat) ]}
    ∅ ∅ ∅ 2%nat 4 2%nat.

(** One map, and the load of one. *)
Definition single_map : map_state :=
  MapState (MapCache ∅ (Some 0%nat) (Some 0%nat) None 1 0 false 336 100) {[ 0%nat := loaded_entry 0 false None None ]}
    ∅ ∅ ∅ 1%nat 2 1%nat.

Definition single_load (name : list Z) : map_state :=
  MapState (MapCache ∅ (Some 0%nat) (Some 0%nat) None 1 0 false 336 (2 ^ 30)) {[ 0%nat := loading_entry None None ]}
    {[ 1%nat := LoadArgs name 0%nat ]} ∅ ∅ 2%nat 4 0%nat.

(** ** They are well formed *)

(** For representation predicates of closed states. *)
Ltac solve_rep := split; [reflexivity | reflexivity | repeat split | by apply (bool_decide_unpack _) | reflexivity].

Definition two_view (count : Z) (referenced : bool) : list (loc * tc_map_cache_entry) :=
  [(1%nat, loaded_entry 2 true None None); (0%nat, loaded_entry count referenced None None)].

Lemma two_maps_views count referenced : views (two_maps count referenced) (two_view count referenced).
Proof. split; [solve_rep | cbn; by rewrite fmap_insert, map_fmap_singleton]. Qed.

Lemma one_loading_views :
  views one_loading ([(1%nat, loaded_entry 0 true None None)] ++ [(0%nat, loading_entry None None)]).
Proof. split; [solve_rep | cbn; by rewrite fmap_insert, map_fmap_singleton]. Qed.

Lemma single_map_views : views single_map [(0%nat, loaded_entry 0 false None None)].
Proof. split; [solve_rep | cbn; by rewrite map_fmap_singleton]. Qed.

Lemma loaded_ready count referenced : ready (loaded_entry count referenced None None).
Proof. repeat split; by eexists. Qed.

Lemma single_ok s l e :
  ms_entries s = {[ l := e ]} -> cache_rep s [l] -> mc_readers (ms_cache s) = 0%nat /\ mc_writer (ms_cache s) = false ->
  id_to_index (ms_cache s) = ∅ -> (forall x : loc, (ms_next s <= x)%nat -> x <> l /\ ms_load_args s !! x = None) ->
  is_Some (ce_lock e) /\ is_Some (ce_key e) -> (ce_is_loaded e = true <-> exists m, ce_map e = MapLoaded m) ->
  (forall a args, ms_load_args s !! a = Some args -> la_entry args = l /\ ce_is_loaded e = false) ->
  (forall a b x y, ms_load_args s !! a = Some x -> ms_load_args s !! b = Some y -> la_entry x = la_entry y -> a = b) ->
  cache_ok s [l].
Proof.
  intros He Hr Hu Hi Hn Hp Hm Ha Ho. split; try done; rewrite He.
  - intros x Hx. destruct (Hn x Hx). by rewrite lookup_singleton_ne.
  - intros x [y [<- _]%lookup_singleton_Some]. set_solver.
  - by intros x y [<- <-]%lookup_singleton_Some.
  - by intros x y [<- <-]%lookup_singleton_Some.
  - intros a args H. destruct (Ha a args H) as [-> Hf]. exists e. by rewrite lookup_singleton_eq.
Qed.

Lemma single_map_ok : cache_ok single_map [0%nat].
Proof.
  apply (single_ok _ 0%nat (loaded_entry 0 false None None)); try done; [solve_rep | |].
  - intros x Hx. cbn in Hx. split; [lia | done].
  - split; [by eexists | done].
Qed.

Lemma single_load_ok name : cache_ok (single_load name) [0%nat].
Proof.
  apply (single_ok _ 0%nat (loading_entry None None)); try done; [solve_rep | | | |].
  - intros x Hx. cbn in Hx. split; [lia|]. cbn. rewrite lookup_singleton_ne by lia. done.
  - split; [done | intros [m Hm]; done].
  - cbn. intros a args [<- <-]%lookup_singleton_Some. done.
  - cbn. intros a b x y [<- <-]%lookup_singleton_Some [<- <-]%lookup_singleton_Some _. done.
Qed.

(** ** The theorems at work *)

Lemma schedule_open_spec_witness :
  exists w', @tc_map_cache_schedule_open quiet_callbacks lp64_sizes (cstr "lobby") lobby_waiter PRIORITY_LOW sample_world = (Ok tt, w') /\
    opened (cstr "lobby") lobby_waiter sample_world w' [].
Proof.
  destruct (@schedule_open_spec quiet_callbacks lp64_sizes (cstr "lobby") lobby_waiter PRIORITY_LOW sample_world [] (empty_ok _)) as [_ H].
  specialize (H (fun i _ => eq_refl)).
  destruct (tc_thread_schedule_new _ _ _ _ _) as [[[[] p] ws]|] eqn:E.
  - destruct H as (w' & Ew & Ho & _). exists w'. split; [exact Ew | exact Ho].
  - vm_compute in E. discriminate E.
  - vm_compute in E. discriminate E.
Defined.

Lemma evict_refines_sweep_witness :
  exists w', tc_map_cache_evict (with_maps (two_maps 0 false)) = (Ok tt, w') /\
    views (w_maps w') [(1%nat, loaded_entry 2 true None None)] /\ mc_memory_usage (ms_cache (w_maps w')) = 89.
Proof.
  destruct (evict_refines_sweep (with_maps (two_maps 0 false)) (two_view 0 false)) as (w' & E & _ & Hv & Hu).
  - apply two_maps_views.
  - repeat constructor; apply loaded_ready.
  - cbn. lia.
  - exists w'. split; [exact E | split; [exact Hv | exact Hu]].
Defined.

Lemma evict_keeps_used_witness :
  exists w' v', tc_map_cache_evict (with_maps (two_maps 0 false)) = (Ok tt, w') /\ views (w_maps w') v' /\
    (1%nat, loaded_entry 2 true None None) ∈ v'.
Proof.
  destruct (evict_keeps_used (with_maps (two_maps 0 false)) (two_view 0 false)) as (w' & v' & E & Hv & Hk & _).
  - apply two_maps_views.
  - repeat constructor; apply loaded_ready.
  - cbn. lia.
  - exists w', v'. split; [exact E | split; [exact Hv|]]. apply Hk; [left | discriminate].
Defined.

Lemma evict_trips_on_loading_witness : (tc_map_cache_evict (with_maps one_loading)).1 = Stuck BadUnlock.
Proof.
  apply (evict_trips_on_loading (with_maps one_loading) [(1%nat, loaded_entry 0 true None None)] 0%nat (loading_entry None None));
    [exact one_loading_views | cbn; lia | reflexivity | reflexivity | repeat constructor].
Defined.

Lemma second_chance_deadlocks_witness :
  exists w', tc_map_cache_evict (with_maps (two_maps 0 true)) = (Ok tt, w') /\ tc_map_ref 0%nat w' = (Stuck Deadlock, w').
Proof.
  destruct (second_chance_deadlocks (with_maps (two_maps 0 true)) [(1%nat, loaded_entry 2 true None None)] 0%nat
    (loaded_entry 0 true None None)) as (w' & E & Hd & _).
  - apply two_maps_views.
  - repeat constructor; apply loaded_ready.
  - cbn. lia.
  - reflexivity.
  - reflexivity.
  - exists w'. split; [exact E | exact Hd].
Defined.

Lemma eviction_underflows_witness :
  exists w', tc_map_cache_evict (with_maps single_map) = (Ok tt, w') /\ mc_memory_usage (ms_cache (w_maps w')) = 2 ^ 64 - 247.
Proof.
  destruct (@eviction_underflows lp64_sizes (with_maps single_map) 0%nat (loaded_entry 0 false None None) 247) as (w' & E & _ & Hu).
  - exact single_map_views.
  - apply loaded_ready.
  - reflexivity.
  - reflexivity.
  - reflexivity.
  - reflexivity.
  - lia.
  - exists w'. split; [exact E | exact Hu].
Defined.

Lemma finalize_spec_witness :
  (exists w', tc_map_cache_finalize (with_maps single_map) = (Ok tt, w') /\ ms_entries (w_maps w') = ∅) /\
  (tc_map_cache_finalize (with_maps (single_load (cstr "lobby")))).1 = Stuck BadAccess.
Proof.
  split.
  - destruct (finalize_spec (with_maps single_map) [0%nat] single_map_ok) as [H _].
    destruct H as (w' & E & He & _); [cbn; by intros l e [<- <-]%lookup_singleton_Some|]. exists w'. split; [exact E | exact He].
  - destruct (finalize_spec (with_maps (single_load (cstr "lobby"))) [0%nat] (single_load_ok _)) as [_ H].
    apply (H 0%nat (loading_entry None None)); reflexivity.
Defined.

(** The sample pool is in order. *)
Lemma sample_pool_ok : sched_ok (thread_pool (w_server sample_world)).
Proof. repeat constructor; cbn; lia. Qed.

Lemma load_failure_spec_witness :
  exists w', @run_load_task quiet_callbacks lobby_disk lp64_sizes 1%nat PRIORITY_BLOCKING (with_maps (single_load (cstr "nowhere"))) = (Ok tt, w') /\
    cache_ok (w_maps w') [0%nat].
Proof.
  destruct (@load_failure_spec quiet_callbacks lobby_disk lp64_sizes 1%nat (with_maps (single_load (cstr "nowhere")))
    [0%nat] (LoadArgs (cstr "nowhere") 0%nat) (loading_entry None None)) as (w' & w1 & E & _ & _ & Hok & _).
  - apply single_load_ok.
  - reflexivity.
  - reflexivity.
  - reflexivity.
  - reflexivity.
  - intros v _. exists v. split; [reflexivity|]. split; [reflexivity | exact I].
  - exists w'. split; [exact E | exact Hok].
Defined.
