(* ===== verification/Float32.v ===== *)
(** * Single precision arithmetic

    The program uses [float] in two places: the progress of a transfer and the
    speeds of a map's environment.  Values are those of the Standard Library's
    specification of IEEE 754, with the 24 bits of precision of [float]; a
    conversion to an integer type is defined when the value, without its
    fraction, fits the type. *)

From Stdlib Require Import QArith Qpower Lqa SpecFloat.
From S2P Require Import Prelude Map.

Local Open Scope Z_scope.

(** ** Values and conversions *)

Definition float : Type := spec_float.

Definition float_of_Z (z : Z) : float := binary_normalize 24 128 z 0 false.
Definition float_mul : float -> float -> float := SFmul 24 128.
Definition float_div : float -> float -> float := SFdiv 24 128.

(** The value of a bit pattern. *)
Definition float_of_bits (b : Z) : float :=
  let sign := Z.testbit b 31 in
  let exponent := Z.land (Z.shiftr b 23) 0xFF in
  let fraction := Z.land b 0x7FFFFF in
  if exponent =? 0xFF then (if fraction =? 0 then S754_infinity sign else S754_nan)
  else if exponent =? 0 then
    match fraction with Zpos m => S754_finite sign m (-149) | _ => S754_zero sign end
  else S754_finite sign (Z.to_pos (fraction + 0x800000)) (exponent - 150).

(** Without the fraction; [None] for an infinity and what is not a number. *)
Definition float_trunc (f : float) : option Z :=
  match f with
  | S754_zero _ => Some 0
  | S754_finite s m e =>
      let magnitude := if 0 <=? e then Z.pos m * 2 ^ e else Z.pos m / 2 ^ (- e) in
      Some (if s then - magnitude else magnitude)
  | _ => None
  end.

(** [(pint32)f] *)
Definition float_to_int32 (f : float) : option Z := z ← float_trunc f; int_result z.

(** [(pchar)f] *)
Definition float_to_char {abi : CharABI} (f : float) : option Z :=
  z ← float_trunc f; if bool_decide (to_char z = z) then Some z else None.

(** ** How far rounding goes *)

Definition digits (m : Z) : Z := Zdigits2 m.

Lemma digits_pos p : 2 ^ (Z.pos (digits2_pos p) - 1) <= Z.pos p < 2 ^ Z.pos (digits2_pos p).
Proof.
  induction p as [p IH|p IH|]; cbn [digits2_pos]; [..|done].
  all: rewrite Pos2Z.inj_succ; replace (Z.succ (Z.pos (digits2_pos p)) - 1) with (Z.succ (Z.pos (digits2_pos p) - 1)) by lia;
    rewrite !Z.pow_succ_r by lia; lia.
Qed.

Lemma digits_spec m : 0 < m -> 2 ^ (digits m - 1) <= m < 2 ^ digits m.
Proof. destruct m as [|p|p]; [lia | intros _; apply digits_pos | lia]. Qed.

Lemma digits_unique m d : 0 < d -> 2 ^ (d - 1) <= m < 2 ^ d -> digits m = d.
Proof.
  intros Hd H. assert (0 < 2 ^ (d - 1)) by (apply Z.pow_pos_nonneg; lia). pose proof (digits_spec m ltac:(lia)) as Hm.
  assert (0 < digits m) as Hp by (destruct m; [lia | done | lia]).
  destruct (Z.lt_trichotomy (digits m) d) as [Hlt|[->|Hgt]]; [|done|].
  - assert (2 ^ digits m <= 2 ^ (d - 1)) by (apply Z.pow_le_mono_r; lia). lia.
  - assert (2 ^ d <= 2 ^ (digits m - 1)) by (apply Z.pow_le_mono_r; lia). lia.
Qed.

(** Shifting to the right drops digits. *)
Lemma shr_1_half x : 0 <= shr_m x -> shr_m (shr_1 x) = shr_m x / 2 /\ 0 <= shr_m (shr_1 x).
Proof.
  destruct x as [m r s]. cbn [shr_m]. intros H. assert (forall p, Z.pos p~1 / 2 = Z.pos p /\ Z.pos p~0 / 2 = Z.pos p) as Hp.
  { intros p. split; [rewrite Pos2Z.inj_xI | rewrite Pos2Z.inj_xO]; div_mod_lia. }
  destruct m as [|[p|p|]|p]; cbn; try done; destruct (Hp p) as [H1 H2]; by rewrite ?H1, ?H2.
Qed.

Lemma iter_shr p x : 0 <= shr_m x -> shr_m (SpecFloat.iter_pos shr_1 p x) = shr_m x / 2 ^ Z.pos p /\ 0 <= shr_m (SpecFloat.iter_pos shr_1 p x).
Proof.
  revert x. induction p as [p IH|p IH|]; intros x Hx; cbn [SpecFloat.iter_pos].
  - destruct (shr_1_half x Hx) as [E1 H1]. destruct (IH _ H1) as [E2 H2]. destruct (IH _ H2) as [E3 H3].
    split; [|done]. rewrite E3, E2, E1, !Z.div_div by (try apply Z.pow_nonzero; try apply Z.pow_pos_nonneg; lia).
    f_equal. rewrite (Pos2Z.inj_xI p), Z.pow_add_r, Z.pow_twice_r by lia. lia.
  - destruct (IH _ Hx) as [E2 H2]. destruct (IH _ H2) as [E3 H3].
    split; [|done]. rewrite E3, E2, Z.div_div by (try apply Z.pow_nonzero; try apply Z.pow_pos_nonneg; lia).
    f_equal. rewrite (Pos2Z.inj_xO p), Z.pow_twice_r by lia. done.
  - rewrite Z.pow_1_r. by apply shr_1_half.
Qed.

Lemma shr_value x e n : 0 <= n -> 0 <= shr_m x -> exists y, shr x e n = (y, e + n) /\ shr_m y = shr_m x / 2 ^ n /\ 0 <= shr_m y.
Proof.
  intros Hn Hx. destruct n as [|p|p]; [| |lia].
  - exists x. cbn [shr]. rewrite Z.add_0_r, Z.pow_0_r, Z.div_1_r. done.
  - exists (SpecFloat.iter_pos shr_1 p x). destruct (iter_shr p x Hx). done.
Qed.

Lemma round_choice q l : round_nearest_even q l = q \/ round_nearest_even q l = q + 1.
Proof. destruct l as [|[]]; cbn; auto. destruct (Z.even q); auto. Qed.

(** A mantissa of 24 digits or more is cut to 24, up or down. *)
Lemma round_aux m e l :
  0 < m -> 24 <= digits m -> -149 <= e + digits m - 24 <= 103 ->
  exists p e' k, binary_round_aux 24 128 false m e l = S754_finite false p e' /\
    2 ^ 23 <= Z.pos p < 2 ^ 24 /\ (k = m / 2 ^ (digits m - 24) \/ k = m / 2 ^ (digits m - 24) + 1) /\
    e + digits m - 24 <= e' <= e + digits m - 23 /\ Z.pos p * 2 ^ (e' - (e + digits m - 24)) = k.
Proof.
  intros Hm Hd He. pose proof (digits_spec m Hm) as Hs.
  set (d := digits m) in *. set (n := d - 24). assert (2 ^ 23 <= m / 2 ^ n < 2 ^ 24) as Hq.
  { assert (0 < 2 ^ n) by (apply Z.pow_pos_nonneg; lia). replace (2 ^ (d - 1)) with (2 ^ 23 * 2 ^ n) in Hs
      by (rewrite <- Z.pow_add_r by lia; f_equal; lia).
    replace (2 ^ d) with (2 ^ 24 * 2 ^ n) in Hs by (rewrite <- Z.pow_add_r by lia; f_equal; lia).
    split; [apply Z.div_le_lower_bound | apply Z.div_lt_upper_bound]; lia. }
  unfold binary_round_aux, shr_fexp. fold (digits m). fold d. replace (fexp 24 128 (d + e) - e) with n
    by (unfold fexp, emin, n; lia).
  destruct (shr_value (shr_record_of_loc m l) e n ltac:(lia)) as (y & -> & Ey & _); [destruct l as [|[]]; cbn; lia|].
  replace (shr_m (shr_record_of_loc m l)) with m in Ey by (by destruct l as [|[]]). rewrite Ey.
  set (k := round_nearest_even _ _). assert (k = m / 2 ^ n \/ k = m / 2 ^ n + 1) as Hk by apply round_choice.
  fold (digits k). assert (k < 2 ^ 24 \/ k = 2 ^ 24) as [Hlt| ->] by lia.
  - rewrite (digits_unique k 24) by (change (24 - 1) with 23; lia).
    replace (fexp 24 128 (24 + (e + n)) - (e + n)) with 0 by (unfold fexp, emin, n; lia). cbn [shr].
    destruct k as [|p|p] eqn:E; [lia | | lia]. cbn [shr_record_of_loc shr_m].
    destruct (Z.leb_spec (e + n) (128 - 24)); [|lia]. exists p, (e + n), (Z.pos p).
    split_and!; try done; try lia. replace (e + n - (e + d - 24)) with 0 by lia. lia.
  - rewrite (digits_unique (2 ^ 24) 25) by (cbn; lia).
    replace (fexp 24 128 (25 + (e + n)) - (e + n)) with 1 by (unfold fexp, emin, n; lia). cbn [shr shr_record_of_loc SpecFloat.iter_pos].
    change (shr_m (shr_1 _)) with (2 ^ 23). change (2 ^ 23) with (Z.pos 8388608).
    destruct (Z.leb_spec (e + n + 1) (128 - 24)); [|lia]. exists 8388608%positive, (e + n + 1), (2 ^ 24).
    split_and!; try done; try lia. replace (e + n + 1 - (e + d - 24)) with 1 by lia. done.
Qed.

(** *** As rational numbers *)

Definition value (m e : Z) : Q := (inject_Z m * Qpower 2 e)%Q.

Lemma value_shift m e n : 0 <= n -> (value (m * 2 ^ n) e == value m (e + n))%Q.
Proof.
  intros Hn. unfold value. rewrite inject_Z_mult, Qpower_plus by done. rewrite (Zpower_Qpower 2 n Hn). change (inject_Z 2) with 2%Q. ring.
Qed.

Lemma value_le a b m m' e : a * m <= b * m' -> (inject_Z a * value m e <= inject_Z b * value m' e)%Q.
Proof.
  intros H. unfold value. rewrite !Qmult_assoc, <- !inject_Z_mult. apply Qmult_le_compat_r; [by rewrite <- Zle_Qle|].
  apply Qpower_0_le. done.
Qed.

Lemma value_positive m e : 0 < m -> (0 < value m e)%Q.
Proof.
  intros H. unfold value. apply Qmult_lt_0_compat; [by rewrite (Zlt_Qlt 0) in H | by apply Qpower_0_lt].
Qed.

(** [x] is [y] up to a rounding. *)
Definition close (x y : Q) : Prop :=
  (inject_Z (2 ^ 23) * x <= inject_Z (2 ^ 23 + 1) * y)%Q /\ (inject_Z (2 ^ 23 - 1) * y <= inject_Z (2 ^ 23) * x)%Q.

#[local] Instance close_proper : Proper (Qeq ==> Qeq ==> iff) close.
Proof. intros x x' Hx y y' Hy. unfold close. by rewrite Hx, Hy. Qed.

(** What a rounded operation answers. *)
Record rounds_to (m e : Z) (f : float) : Prop := {
  rt_value : exists p e', f = S754_finite false p e' /\ 2 ^ 23 <= Z.pos p < 2 ^ 24 /\
    e + digits m - 24 <= e' <= e + digits m - 23 /\ close (value (Z.pos p) e') (value m e) }.

Lemma round_close m e l :
  0 < m -> 24 <= digits m -> -149 <= e + digits m - 24 <= 103 -> rounds_to m e (binary_round_aux 24 128 false m e l).
Proof.
  intros Hm Hd He. destruct (round_aux m e l Hm Hd He) as (p & e' & k & E & Hp & Hk & He' & Ek).
  split. exists p, e'. split_and!; try done; try lia. set (n := digits m - 24) in *.
  assert (0 < 2 ^ n) as Hn by (apply Z.pow_pos_nonneg; lia).
  assert (2 ^ 23 * 2 ^ n <= m) as Hb.
  { rewrite <- Z.pow_add_r by lia. replace (23 + n) with (digits m - 1) by lia. by apply digits_spec. }
  assert (value (Z.pos p) e' == value (k * 2 ^ n) e)%Q as Ev.
  { rewrite value_shift, <- Ek by lia. rewrite value_shift by lia. by replace (e + n + (e' - (e + digits m - 24))) with e' by lia. }
  pose proof (Z.mul_div_le m (2 ^ n) Hn) as H1. pose proof (Z.mul_succ_div_gt m (2 ^ n) Hn) as H2.
  unfold close. rewrite Ev. split; apply value_le; destruct Hk as [-> | ->]; nia.
Qed.

(** ** The operations *)

Lemma of_Z_close z : 0 < z < 2 ^ 64 -> exists m e, value m e == inject_Z z /\ rounds_to m e (float_of_Z z) /\ -23 <= e + digits m - 24 <= 40.
Proof.
  intros Hz. destruct z as [|z|z]; [lia | | lia]. unfold float_of_Z, binary_normalize, binary_round.
  pose proof (digits_pos z) as Hs. set (d := Z.pos (digits2_pos z)) in *.
  assert (1 <= d <= 64) as Hd.
  { split; [lia|]. destruct (Z.le_gt_cases d 64); [done|]. assert (2 ^ 64 <= 2 ^ (d - 1)) by (apply Z.pow_le_mono_r; lia). lia. }
  unfold shl_align. replace (fexp 24 128 (d + 0) - 0) with (d - 24) by (unfold fexp, emin; lia).
  destruct (Z.le_gt_cases 24 d) as [Hge|Hlt].
  - exists (Z.pos z), 0. assert (exists x, match d - 24 with Z.neg b => (Pos.iter xO z b, fexp 24 128 (d + 0)) | _ => (z, 0) end = x /\ x = (z, 0)) as (x & -> & ->)
      by (destruct (d - 24) eqn:Ed; [eauto | eauto | lia]).
    change (digits (Z.pos z)) with d. split_and!; [| apply round_close; change (digits (Z.pos z)) with d; lia | lia | lia].
    unfold value. cbn. ring.
  - exists (Z.pos z * 2 ^ (24 - d)), (d - 24). destruct (d - 24) as [|b|b] eqn:Ed; [lia | lia |].
    assert (Z.pos (Pos.iter xO z b) = Z.pos z * 2 ^ (24 - d)) as Em.
    { replace (24 - d) with (Z.pos b) by lia. rewrite <- Z.shiftl_mul_pow2 by lia. unfold Z.shiftl. apply (Pos.iter_swap_gen _ _ Z.pos xO (Z.mul 2)). done. }
    assert (fexp 24 128 (d + 0) = Z.neg b) as -> by (unfold fexp, emin; lia). rewrite Em.
    assert (digits (Z.pos z * 2 ^ (24 - d)) = 24) as E24.
    { apply digits_unique; [lia|]. assert (0 < 2 ^ (24 - d)) by (apply Z.pow_pos_nonneg; lia).
      replace (2 ^ (24 - 1)) with (2 ^ (d - 1) * 2 ^ (24 - d)) by (rewrite <- Z.pow_add_r by lia; f_equal; lia).
      replace (2 ^ 24) with (2 ^ d * 2 ^ (24 - d)) by (rewrite <- Z.pow_add_r by lia; f_equal; lia). nia. }
    rewrite E24. split_and!; [| apply round_close; rewrite ?E24; lia | lia | lia].
    rewrite value_shift by lia. replace (Z.neg b + (24 - d)) with 0 by lia. unfold value. cbn. ring.
Qed.

Definition normal (p : positive) : Prop := 2 ^ 23 <= Z.pos p < 2 ^ 24.

Lemma digits_between m a b : 0 < a -> 2 ^ (a - 1) <= m < 2 ^ b -> a <= digits m <= b.
Proof.
  intros Ha H. assert (0 < 2 ^ (a - 1)) by (apply Z.pow_pos_nonneg; lia). pose proof (digits_spec m ltac:(lia)) as Hm.
  assert (0 < digits m) as Hp by (destruct m; [lia | done | lia]). split.
  - destruct (Z.le_gt_cases a (digits m)); [done|]. assert (2 ^ digits m <= 2 ^ (a - 1)) by (apply Z.pow_le_mono_r; lia). lia.
  - destruct (Z.le_gt_cases (digits m) b); [done|]. assert (2 ^ b <= 2 ^ (digits m - 1)) by (apply Z.pow_le_mono_r; lia). lia.
Qed.

Lemma mul_close p1 e1 p2 e2 :
  normal p1 -> normal p2 -> -172 <= e1 + e2 <= 79 ->
  rounds_to (Z.pos p1 * Z.pos p2) (e1 + e2) (float_mul (S754_finite false p1 e1) (S754_finite false p2 e2)) /\
  47 <= digits (Z.pos p1 * Z.pos p2) <= 48.
Proof.
  intros H1 H2 He. unfold normal in *. assert (47 <= digits (Z.pos p1 * Z.pos p2) <= 48) as Hd.
  { apply digits_between; [lia|]. change (2 ^ (47 - 1)) with (2 ^ 23 * 2 ^ 23). change (2 ^ 48) with (2 ^ 24 * 2 ^ 24). nia. }
  split; [|done]. unfold float_mul, SFmul. cbn [xorb]. rewrite Pos2Z.inj_mul. apply round_close; lia.
Qed.

Lemma div_close p1 e1 p2 e2 :
  normal p1 -> normal p2 -> -124 <= e1 - e2 <= 102 ->
  exists q e', rounds_to q e' (float_div (S754_finite false p1 e1) (S754_finite false p2 e2)) /\ 0 < q /\
    (value q e' * value (Z.pos p2) e2 <= value (Z.pos p1) e1)%Q.
Proof.
  intros H1 H2 He. unfold normal in *. unfold float_div, SFdiv, SFdiv_core_binary.
  change (Zdigits2 (Z.pos p1)) with (digits (Z.pos p1)). change (Zdigits2 (Z.pos p2)) with (digits (Z.pos p2)).
  rewrite (digits_unique (Z.pos p1) 24), (digits_unique (Z.pos p2) 24) by (change (24 - 1) with 23; lia).
  assert (Z.min (fexp 24 128 (24 + e1 - (24 + e2))) (e1 - e2) = e1 - e2 - 24) as -> by (unfold fexp, emin; lia).
  replace (e1 - e2 - (e1 - e2 - 24)) with 24 by lia. cbv iota. rewrite Z.shiftl_mul_pow2 by lia.
  destruct (Z.div_eucl (Z.pos p1 * 2 ^ 24) (Z.pos p2)) as [q r] eqn:E. cbn [xorb].
  pose proof (Z_div_mod (Z.pos p1 * 2 ^ 24) (Z.pos p2) ltac:(lia)) as Hdm. rewrite E in Hdm. destruct Hdm as [Hq Hr].
  assert (24 <= digits q <= 25) as Hd by (apply digits_between; [lia|]; change (24 - 1) with 23; change (2 ^ 25) with (2 * 2 ^ 24); nia).
  assert (0 < q) as Hpos by nia. exists q, (e1 - e2 - 24). split_and!; [| done |].
  - apply round_close; lia.
  - assert (value q (e1 - e2 - 24) * value (Z.pos p2) e2 == value (q * Z.pos p2) (e1 - 24))%Q as ->.
    { unfold value. replace (e1 - 24) with (e1 - e2 - 24 + e2) by lia. rewrite inject_Z_mult, (Qpower_plus 2 (e1 - e2 - 24) e2) by done. ring. }
    assert (value (Z.pos p1) e1 == value (Z.pos p1 * 2 ^ 24) (e1 - 24))%Q as ->
      by (rewrite value_shift by lia; by replace (e1 - 24 + 24) with e1 by lia).
    pose proof (value_le 1 1 (q * Z.pos p2) (Z.pos p1 * 2 ^ 24) (e1 - 24) ltac:(lia)) as H. rewrite !Qmult_1_l in H. exact H.
Qed.

(** Cutting the fraction off. *)
Lemma trunc_value p e : exists z, float_trunc (S754_finite false p e) = Some z /\ 0 <= z /\ (inject_Z z <= value (Z.pos p) e)%Q.
Proof.
  cbn [float_trunc]. eexists. split; [done|]. destruct (Z.leb_spec 0 e) as [He|He].
  - assert (0 < 2 ^ e) by (apply Z.pow_pos_nonneg; lia). split; [lia|]. pose proof (value_shift (Z.pos p) 0 e He) as H'.
    rewrite Z.add_0_l in H'. rewrite <- H'. unfold value. rewrite Qmult_1_r. apply Qle_refl.
  - assert (0 < 2 ^ (- e)) as Hp by (apply Z.pow_pos_nonneg; lia). split; [apply Z.div_pos; lia|].
    set (z := Z.pos p / 2 ^ (- e)). assert (z * 2 ^ (- e) <= Z.pos p) as Hz by (rewrite Z.mul_comm; by apply Z.mul_div_le).
    assert (inject_Z z == value (z * 2 ^ (- e)) e)%Q as ->.
    { rewrite value_shift by lia. replace (e + - e) with 0 by lia. unfold value. by rewrite Qmult_1_r. }
    pose proof (value_le 1 1 _ _ e ltac:(by rewrite !Z.mul_1_l)) as H. rewrite !Qmult_1_l in H. exact H.
Qed.

(** ** A percentage *)

(** [sent * 100.0f / size] *)
Definition float_percent (sent size : Z) : float :=
  float_div (float_mul (float_of_Z sent) (float_of_Z 100)) (float_of_Z size).

Lemma percent_close s z x1 x2 x3 q x4 t :
  (0 < s)%Q -> (s <= z)%Q -> (0 < x2)%Q -> (0 < x4)%Q -> close x1 s -> close x2 z -> close x3 (x1 * 100) -> (q * x2 <= x3)%Q -> close x4 q ->
  (t <= x4)%Q -> (t < 101)%Q.
Proof.
  unfold close. change (2 ^ 23 + 1) with 8388609. change (2 ^ 23 - 1) with 8388607. change (2 ^ 23) with 8388608. unfold inject_Z.
  intros Hs Hsz H2 H4 [U1 _] [_ L2] [U3 _] Hq [U4 _] Ht.
  assert (8388608 * (x4 * x2) <= 8388609 * x3)%Q as H5.
  { apply Qle_trans with ((8388609 # 1) * q * x2)%Q; [|nra].
    rewrite Qmult_assoc. apply Qmult_le_compat_r; [exact U4 | lra]. }
  assert (x4 < 101)%Q as H6; [|lra]. apply (Qmult_lt_r _ _ x2 H2). lra.
Qed.

Lemma hundred : float_of_Z 100 = S754_finite false 13107200 (-17).
Proof. vm_compute. reflexivity. Qed.

Lemma hundred_value : value (Z.pos 13107200) (-17) == 100.
Proof. vm_compute. reflexivity. Qed.

Lemma percent_trunc sent size :
  0 <= sent <= size -> 0 < size < 2 ^ 64 -> exists t, float_trunc (float_percent sent size) = Some t /\ 0 <= t <= 100.
Proof.
  intros Hs Hz. destruct (of_Z_close size Hz) as (m2 & e2 & V2 & [(p2 & f2 & E2 & Hp2 & Hf2 & C2)] & Hr2).
  unfold float_percent. rewrite hundred. destruct (decide (sent = 0)) as [->|Hne].
  { rewrite E2. exists 0. split; [done | lia]. }
  destruct (of_Z_close sent ltac:(lia)) as (m1 & e1 & V1 & [(p1 & f1 & E1 & Hp1 & Hf1 & C1)] & Hr1). rewrite E1, E2.
  destruct (mul_close p1 f1 13107200 (-17) Hp1) as ([(p3 & f3 & E3 & Hp3 & Hf3 & C3)] & Hd3); [done | lia |]. rewrite E3.
  destruct (div_close p3 f3 p2 f2 Hp3 Hp2) as (q & e4 & [(p4 & f4 & E4 & Hp4 & _ & C4)] & Hq & Hle); [lia|]. rewrite E4.
  destruct (trunc_value p4 f4) as (t & Et & Ht & Hv). exists t. split; [done|]. split; [done|].
  assert (inject_Z t < 101)%Q as Hlt; [|apply Z.lt_succ_r; rewrite Zlt_Qlt; exact Hlt].
  rewrite V1 in C1. rewrite V2 in C2.
  apply (percent_close (inject_Z sent) (inject_Z size) (value (Z.pos p1) f1) (value (Z.pos p2) f2) (value (Z.pos p3) f3)
           (value q e4) (value (Z.pos p4) f4)); try done.
  - rewrite <- (Zlt_Qlt 0). lia.
  - rewrite <- Zle_Qle. lia.
  - by apply value_positive.
  - by apply value_positive.
  - assert (value (Z.pos p1 * Z.pos 13107200) (f1 + -17) == value (Z.pos p1) f1 * 100)%Q as Ev; [|by rewrite Ev in C3].
    rewrite <- hundred_value. unfold value. rewrite inject_Z_mult, Qpower_plus by done. ring.
Qed.

(** C37. The progress of a transfer is a percentage: with a [float] of 24 bits and
    its four roundings, [sent * 100.0f / size] converted to [pchar] is defined
    and between 0 and 100 for every position in a buffer of any size. *)
Theorem percent_bounds {abi : CharABI} sent size :
  0 <= sent <= size -> 0 < size < 2 ^ 64 -> exists p, float_to_char (float_percent sent size) = Some p /\ 0 <= p <= 100.
Proof.
  intros Hs Hz. destruct (percent_trunc sent size Hs Hz) as (t & Et & Ht). exists t. split; [|done].
  unfold float_to_char. rewrite Et. cbn. rewrite bool_decide_true; [done|]. by rewrite to_char_small by lia.
Qed.

Lemma percent_bounds_witness :
  float_to_char (abi := signed_char_abi) (float_percent 3072 9000) = Some 34 /\
  exists p, float_to_char (abi := signed_char_abi) (float_percent 3072 9000) = Some p /\ 0 <= p <= 100.
Proof. split; [vm_compute; reflexivity | apply (percent_bounds 3072 9000); lia]. Defined.
