(* ===== verification/NbtUtil.v ===== *)
(** * Comparing trees

    [src/cNBT/nbt_util.c]: the names of tag types and errors, and [nbt_eq].

    Numbers of floating point are compared up to a millionth, in double
    precision as the Standard Library specifies it.  Arrays are compared with
    [memcmp] over [length] bytes of memory, which for integers is a quarter of
    the array, in the byte order of the machine. *)

From Stdlib Require Import SpecFloat.
From S2P Require Import Prelude Buffer Nbt NbtSpec Float32.

Local Open Scope Z_scope.

Definition nbt_type_to_string (t : Z) : list Z :=
  match t with
  | 0 => cstr "TAG_END"
  | TAG_BYTE => cstr "TAG_BYTE"
  | TAG_SHORT => cstr "TAG_SHORT"
  | TAG_INT => cstr "TAG_INT"
  | TAG_LONG => cstr "TAG_LONG"
  | TAG_FLOAT => cstr "TAG_FLOAT"
  | TAG_DOUBLE => cstr "TAG_DOUBLE"
  | TAG_BYTE_ARRAY => cstr "TAG_BYTE_ARRAY"
  | TAG_STRING => cstr "TAG_STRING"
  | TAG_LIST => cstr "TAG_LIST"
  | TAG_COMPOUND => cstr "TAG_COMPOUND"
  | TAG_INT_ARRAY => cstr "TAG_INT_ARRAY"
  | _ => cstr "TAG_UNKNOWN"
  end.

Definition nbt_error_to_string (s : nbt_status) : list Z :=
  match s with
  | NBT_OK => cstr "No error."
  | NBT_ERR => cstr "NBT tree is corrupt."
  | NBT_EMEM => cstr "Out of memory. You should buy some RAM."
  | NBT_EIO => cstr "IO Error. Nonexistant/corrupt file?"
  | NBT_EZ => cstr "Fatal zlib error. Corrupt file?"
  end.

(** 1 when one is [NULL] and the other is not. *)
Definition safe_strcmp (a b : option (list Z)) : Z :=
  match a, b with
  | None, None => 0
  | None, Some _ => 1
  | Some _, None => 1
  | Some a, Some b => strcmp a b
  end.

(** ** Doubles *)

Definition double : Type := spec_float.

Definition double_of_bits (b : Z) : double :=
  let sign := Z.testbit b 63 in
  let exponent := Z.land (Z.shiftr b 52) 0x7FF in
  let fraction := Z.land b 0xFFFFFFFFFFFFF in
  if exponent =? 0x7FF then (if fraction =? 0 then S754_infinity sign else S754_nan)
  else if exponent =? 0 then
    match fraction with Zpos m => S754_finite sign m (-1074) | _ => S754_zero sign end
  else S754_finite sign (Z.to_pos (fraction + 0x10000000000000)) (exponent - 1075).

(** [(double)f]: the same value, in the form of a double. *)
Definition double_of_float (f : float) : double :=
  match f with
  | S754_finite s m e => binary_normalize 53 1024 (if s then Z.neg m else Z.pos m) e s
  | _ => f
  end.

(** 0.000001 *)
Definition epsilon : double := double_of_bits 0x3EB0C6F7A0B5ED8D.

Definition double_min (a b : double) : double := if SFltb a b then a else b.
Definition double_max (a b : double) : double := if SFltb b a then a else b.

Definition floats_are_close (a b : double) : bool :=
  SFleb (double_max a b) (SFadd 53 1024 (double_min a b) epsilon).

(** ** Trees *)

(** [memcmp(a, b, n) == 0] *)
Definition memcmp_eq (a b : list Z) (n : nat) : bool := bool_decide (take n a = take n b).

Section Equality.
Context {bo : ByteOrder}.

Definition int_array_memory (data : list Z) : list Z := concat (ne_bytes 4 <$> data).

Fixpoint nbt_eq (a b : nbt_node) : bool :=
  let 'NbtNode aname ap := a in
  let 'NbtNode bname bp := b in
  let fix lists (ai bi : list nbt_node) : bool :=
    match ai, bi with
    | ae :: ai', be :: bi' => if negb (nbt_eq ae be) then false else lists ai' bi'
    | [], [] => true
    | _, _ => false
    end in
  if negb (payload_type ap =? payload_type bp) then false
  else if negb (safe_strcmp aname bname =? 0) then false
  else
    match ap, bp with
    | TagByte x, TagByte y | TagShort x, TagShort y | TagInt x, TagInt y | TagLong x, TagLong y => x =? y
    | TagFloat x, TagFloat y => floats_are_close (double_of_float (float_of_bits x)) (double_of_float (float_of_bits y))
    | TagDouble x, TagDouble y => floats_are_close (double_of_bits x) (double_of_bits y)
    | TagByteArray x, TagByteArray y => if negb (length x =? length y)%nat then false else memcmp_eq x y (length x)
    | TagIntArray x, TagIntArray y =>
        if negb (length x =? length y)%nat then false
        else memcmp_eq (int_array_memory x) (int_array_memory y) (length x)
    | TagString x, TagString y => strcmp x y =? 0
    | TagList _ x, TagList _ y | TagCompound x, TagCompound y => lists x y
    | _, _ => false
    end.

(** ** What equality means *)

Definition c_string (s : list Z) : list Z := c_content s.

(** The relation [nbt_eq] decides, constructor by constructor. *)
Inductive same_tree : nbt_node -> nbt_node -> Prop :=
| same_node an ap bn bp : c_string <$> an = c_string <$> bn -> same_payload ap bp -> same_tree (NbtNode an ap) (NbtNode bn bp)
with same_payload : nbt_payload -> nbt_payload -> Prop :=
| same_byte v : same_payload (TagByte v) (TagByte v)
| same_short v : same_payload (TagShort v) (TagShort v)
| same_int v : same_payload (TagInt v) (TagInt v)
| same_long v : same_payload (TagLong v) (TagLong v)
| same_float x y : floats_are_close (double_of_float (float_of_bits x)) (double_of_float (float_of_bits y)) = true ->
    same_payload (TagFloat x) (TagFloat y)
| same_double x y : floats_are_close (double_of_bits x) (double_of_bits y) = true -> same_payload (TagDouble x) (TagDouble y)
| same_bytes x : same_payload (TagByteArray x) (TagByteArray x)
| same_ints x y : length x = length y -> take (length x) (int_array_memory x) = take (length x) (int_array_memory y) ->
    same_payload (TagIntArray x) (TagIntArray y)
| same_string x y : c_string x = c_string y -> same_payload (TagString x) (TagString y)
| same_list s s' x y : same_trees x y -> same_payload (TagList s x) (TagList s' y)
| same_compound x y : same_trees x y -> same_payload (TagCompound x) (TagCompound y)
with same_trees : list nbt_node -> list nbt_node -> Prop :=
| same_nil : same_trees [] []
| same_cons a b x y : same_tree a b -> same_trees x y -> same_trees (a :: x) (b :: y).

Definition eq_lists : list nbt_node -> list nbt_node -> bool :=
  fix lists ai bi :=
    match ai, bi with
    | ae :: ai', be :: bi' => if negb (nbt_eq ae be) then false else lists ai' bi'
    | [], [] => true
    | _, _ => false
    end.

Lemma safe_strcmp_eq a b : safe_strcmp a b = 0 <-> c_string <$> a = c_string <$> b.
Proof.
  destruct a as [a|], b as [b|]; cbn [safe_strcmp fmap option_fmap option_map]; [|split; [lia | done]..|done].
  unfold c_string. rewrite strcmp_eq. split; [by intros -> | by intros [=]].
Qed.

Lemma eq_lists_spec x : Forall (fun a => forall b, nbt_eq a b = true <-> same_tree a b) x ->
  forall y, eq_lists x y = true <-> same_trees x y.
Proof.
  induction 1 as [|a x Ha _ IH]; intros [|b y]; cbn.
  - split; [constructor | done].
  - split; [done | inversion 1].
  - split; [done | inversion 1].
  - destruct (nbt_eq a b) eqn:E; cbn [negb].
    + rewrite IH. apply Ha in E. split; [by constructor | by inversion 1].
    + split; [done|]. inversion 1; subst. match goal with H : same_tree _ _ |- _ => apply Ha in H end. congruence.
Qed.

Lemma eq_payload_spec name name' ap bp :
  (forall es, (ap = TagCompound es \/ exists s, ap = TagList s es) -> Forall (fun a => forall b, nbt_eq a b = true <-> same_tree a b) es) ->
  safe_strcmp name name' = 0 -> nbt_eq (NbtNode name ap) (NbtNode name' bp) = true <-> same_payload ap bp.
Proof.
  intros IH Hn. cbn [nbt_eq]. fold eq_lists. rewrite Hn. cbn [Z.eqb negb].
  destruct ap, bp; cbn [payload_type Z.eqb Pos.eqb negb]; try (split; [done | by inversion 1]).
  - rewrite Z.eqb_eq. split; [intros ->; constructor | by inversion 1].
  - rewrite Z.eqb_eq. split; [intros ->; constructor | by inversion 1].
  - rewrite Z.eqb_eq. split; [intros ->; constructor | by inversion 1].
  - rewrite Z.eqb_eq. split; [intros ->; constructor | by inversion 1].
  - split; [by constructor | by inversion 1].
  - split; [by constructor | by inversion 1].
  - destruct (Nat.eqb_spec (length data) (length data0)) as [El|]; cbn [negb].
    + unfold memcmp_eq. rewrite bool_decide_eq_true, !take_ge by lia. split; [intros ->; constructor | by inversion 1].
    + split; [done|]. inversion 1; subst. done.
  - rewrite Z.eqb_eq, strcmp_eq. split; [by constructor | by inversion 1].
  - rewrite eq_lists_spec by (apply IH; eauto). split; [by constructor | by inversion 1].
  - rewrite eq_lists_spec by (apply IH; eauto). split; [by constructor | by inversion 1].
  - destruct (Nat.eqb_spec (length data) (length data0)) as [El|]; cbn [negb].
    + unfold memcmp_eq. rewrite bool_decide_eq_true. split; [by constructor | by inversion 1].
    + split; [done|]. by inversion 1.
Qed.

(** [nbt_eq] decides the relation [same_tree]: names and strings up to their
    terminators, byte arrays and integers exactly, numbers of floating point up
    to a millionth, of an array of integers the first quarter, lists and
    compounds entry by entry in order; the element types of lists do not count,
    and an array of longs equals nothing. *)
Theorem nbt_eq_spec a b : nbt_eq a b = true <-> same_tree a b.
Proof.
  revert b. induction a as [name p IH] using nbt_node_nested_ind. intros [name' p'].
  destruct (Z.eqb_spec (safe_strcmp name name') 0) as [E|E].
  - rewrite eq_payload_spec; [|intros es [-> | [s ->]]; exact IH | done]. apply safe_strcmp_eq in E.
    split; [by constructor | by inversion 1].
  - split.
    + cbn [nbt_eq]. destruct (negb (payload_type p =? payload_type p')); [done|].
      rewrite (proj2 (Z.eqb_neq _ _) E). done.
    + inversion 1; subst. by destruct E; apply safe_strcmp_eq.
Qed.
End Equality.

(** Two arrays of two integers that differ in the second are equal; an array of
    longs is not equal to itself. *)
Example int_arrays_compared_in_part :
  @nbt_eq true (NbtNode None (TagIntArray [7; 1])) (NbtNode None (TagIntArray [7; 2])) = true.
Proof. vm_compute. reflexivity. Qed.

Example long_array_not_itself : @nbt_eq true (NbtNode None (TagLongArray [1])) (NbtNode None (TagLongArray [1])) = false.
Proof. reflexivity. Qed.

(** 1.0 and 1.0000005 are close, 1.0 and 1.000002 are not. *)
Example floats_close :
  floats_are_close (double_of_bits 0x3FF0000000000000) (double_of_bits 0x3FF000008637BD06) = true /\
  floats_are_close (double_of_bits 0x3FF0000000000000) (double_of_bits 0x3FF00002188DA05F) = false.
Proof. vm_compute. split; reflexivity. Qed.
