(* ===== verification/NbtText.v ===== *)
(** * Trees as text

    The textual dump of [src/cNBT/nbt_parsing.c], [nbt_dump_ascii], with the
    [printf] of the C library for the formats it uses, and the text it should
    be.

    The text grows in a buffer.  A computation without a result has crashed:
    [bprintf] does not look at the result of [buffer_reserve] and prints to a
    [NULL] pointer when there is no memory. *)

From Stdlib Require Import SpecFloat.
From S2P Require Import Prelude Buffer Nbt NbtSpec Float32 NbtUtil.

Local Open Scope Z_scope.

(** ** [%f] *)

(** [a / b], to the nearest, ties to even. *)
Definition round_even (a b : Z) : Z :=
  let q := a / b in
  let r := a mod b in
  if 2 * r <? b then q else if b <? 2 * r then q + 1 else if Z.even q then q else q + 1.

Definition pad6 (n : Z) : list Z :=
  [48 + n / 100000 mod 10; 48 + n / 10000 mod 10; 48 + n / 1000 mod 10; 48 + n / 100 mod 10; 48 + n / 10 mod 10; 48 + n mod 10].

(** Six decimals; [sign] is the sign bit, which decides for what is not a number. *)
Definition format_f (sign : bool) (f : double) : list Z :=
  (if sign then [45] else []) ++
  match f with
  | S754_infinity _ => cstr "inf"
  | S754_nan => cstr "nan"
  | S754_zero _ => cstr "0.000000"
  | S754_finite _ m e =>
      let millionths := if 0 <=? e then Z.pos m * 2 ^ e * 1000000 else round_even (Z.pos m * 1000000) (2 ^ (- e)) in
      dec_loop 310 (millionths / 1000000) [] ++ [46] ++ pad6 (millionths mod 1000000)
  end.

(** [%u] of what is passed for an [unsigned int]. *)
Definition format_u (v : Z) : list Z := dec (u32 v).

(** ** Printing into the buffer *)

Definition text_state : Type := buffer * heap.

Definition bprintf (text : list Z) (st : text_state) : option text_state :=
  let '(b, h) := st in
  let siz := Z.of_nat (length text) in
  '(_, b', h') ← buffer_reserve b (u64 (b_len b + siz + 1)) h;
  match b_data b' with
  | None => None
  | Some bs => Some (Buffer (Some (bs ++ text)) (b_cap b'), h')
  end.

Definition indent (amount : nat) (st : text_state) : option text_state := bprintf (replicate (amount * 4) 32) st.

Definition SAFE_NAME (name : option (list Z)) : list Z := match name with Some s => c_content s | None => cstr "<null>" end.

Fixpoint dump_numbers (data : list Z) (st : text_state) : option text_state :=
  match data with
  | [] => Some st
  | v :: data' => st ← bprintf (format_u v ++ cstr " ") st; dump_numbers data' st
  end.

Definition dump_array (data : list Z) (st : text_state) : option text_state :=
  st ← bprintf (cstr "[ ") st;
  st ← dump_numbers data st;
  bprintf (cstr "]") st.

Definition dump_byte_array (ba : list Z) := dump_array ba.
Definition dump_int_array (ia : list Z) := dump_array ia.
Definition dump_long_array (la : list Z) := dump_array la.

(** The quotation mark and the end of a line. *)
Definition quoted (s : list Z) : list Z := [34] ++ s ++ [34].
Definition newline : list Z := [10].

Definition header (kind : string) (name : option (list Z)) : list Z := cstr kind ++ cstr "(" ++ quoted (SAFE_NAME name) ++ cstr ")".

Fixpoint nbt_dump_ascii_node (tree : nbt_node) (st : text_state) (ident : nat) {struct tree} : option (nbt_status * text_state) :=
  let fix dump_list_contents_ascii (list : list nbt_node) (st : text_state) (ident : nat) : option (nbt_status * text_state) :=
    match list with
    | [] => Some (NBT_OK, st)
    | entry :: list' =>
        '(err, st) ← nbt_dump_ascii_node entry st ident;
        if decide (err = NBT_OK) then dump_list_contents_ascii list' st ident else Some (err, st)
    end in
  let 'NbtNode name payload := tree in
  let print (s : list Z) (st : text_state) := st ← bprintf s st; Some (NBT_OK, st) in
  let array (kind : string) (dump : text_state -> option text_state) (st : text_state) :=
    st ← bprintf (header kind name ++ cstr ": ") st;
    st ← dump st;
    st ← bprintf newline st;
    Some (NBT_OK, st) in
  let block (head : list Z) (list : list nbt_node) (st : text_state) :=
    st ← bprintf (head ++ newline) st;
    st ← indent ident st;
    st ← bprintf (cstr "{" ++ newline) st;
    '(err, st) ← dump_list_contents_ascii list st (ident + 1)%nat;
    st ← indent ident st;
    st ← bprintf (cstr "}" ++ newline) st;
    Some (err, st) in
  st ← indent ident st;
  match payload with
  | TagByte v => print (header "TAG_Byte" name ++ cstr ": " ++ dec v ++ newline) st
  | TagShort v => print (header "TAG_Short" name ++ cstr ": " ++ dec v ++ newline) st
  | TagInt v => print (header "TAG_Int" name ++ cstr ": " ++ dec v ++ newline) st
  | TagLong v => print (header "TAG_Long" name ++ cstr ": " ++ dec v ++ newline) st
  | TagFloat v => print (header "TAG_Float" name ++ cstr ": " ++ format_f (Z.testbit v 31) (double_of_float (float_of_bits v)) ++ newline) st
  | TagDouble v => print (header "TAG_Double" name ++ cstr ": " ++ format_f (Z.testbit v 63) (double_of_bits v) ++ newline) st
  | TagByteArray data => array "TAG_Byte_Array" (dump_byte_array data) st
  | TagIntArray data => array "Tag_Int_Array" (dump_int_array data) st
  | TagLongArray data => array "Tag_Long_Array" (dump_long_array data) st
  | TagString s => print (header "TAG_String" name ++ cstr ": " ++ c_content s ++ newline) st
  | TagList sentinel es => block (header "TAG_List" name ++ cstr " [" ++ nbt_type_to_string sentinel ++ cstr "]") es st
  | TagCompound es => block (header "TAG_Compound" name) es st
  end.

(** The text or [NULL], and [errno]. *)
Definition nbt_dump_ascii (tree : nbt_node) (h : heap) : option (option (list Z) * nbt_status * heap) :=
  '(errno, (b, h)) ← nbt_dump_ascii_node tree (BUFFER_INIT, h) 0;
  let OOM errno h := Some (None, if decide (errno = NBT_OK) then NBT_OK else NBT_EMEM, h) in
  if negb (bool_decide (errno = NBT_OK)) then OOM errno h
  else
    '(r, b, h) ← buffer_reserve b (u64 (b_len b + 1)) h;
    if negb (r =? 0) then OOM errno h
    else Some (Some (b_bytes b), errno, h).

(** ** The text it should be *)

Definition line (ident : nat) (s : list Z) : list Z := replicate (ident * 4) 32 ++ s ++ newline.

Definition array_text (data : list Z) : list Z := cstr "[ " ++ concat (map (fun v => format_u v ++ cstr " ") data) ++ cstr "]".

Fixpoint render (tree : nbt_node) (ident : nat) : list Z :=
  let 'NbtNode name payload := tree in
  let value (kind : string) (s : list Z) := line ident (header kind name ++ cstr ": " ++ s) in
  let block (head : list Z) (es : list nbt_node) :=
    line ident head ++ line ident (cstr "{") ++ concat (map (fun n => render n (ident + 1)) es) ++ line ident (cstr "}") in
  match payload with
  | TagByte v => value "TAG_Byte" (dec v)
  | TagShort v => value "TAG_Short" (dec v)
  | TagInt v => value "TAG_Int" (dec v)
  | TagLong v => value "TAG_Long" (dec v)
  | TagFloat v => value "TAG_Float" (format_f (Z.testbit v 31) (double_of_float (float_of_bits v)))
  | TagDouble v => value "TAG_Double" (format_f (Z.testbit v 63) (double_of_bits v))
  | TagByteArray data => value "TAG_Byte_Array" (array_text data)
  | TagIntArray data => value "Tag_Int_Array" (array_text data)
  | TagLongArray data => value "Tag_Long_Array" (array_text data)
  | TagString s => value "TAG_String" (c_content s)
  | TagList sentinel es => block (header "TAG_List" name ++ cstr " [" ++ nbt_type_to_string sentinel ++ cstr "]") es
  | TagCompound es => block (header "TAG_Compound" name) es
  end.

(** ** Printing appends *)

(** Room for the text and its terminator. *)
Definition fits (b : buffer) (s : list Z) : Prop := b_len b + Z.of_nat (length s) + 1 <= 2 ^ 63.

(** A refused request of the allocator. *)
Definition refused (h : heap) : Prop := exists n, h_grants h n = false.

Definition appended (b : buffer) (h : heap) (s : list Z) (b' : buffer) (h' : heap) : Prop :=
  h_grants h' = h_grants h /\ b_bytes b' = b_bytes b ++ s /\ buffer_ok b' /\ cap_pow2 b'.

Definition prints_ok (c : text_state -> option (nbt_status * text_state)) (s : list Z) : Prop := forall b h,
  buffer_ok b -> cap_pow2 b -> fits b s ->
  match c (b, h) with Some (err, (b', h')) => err = NBT_OK /\ appended b h s b' h' | None => refused h end.

(** A step without a status. *)
Definition quiet (c : text_state -> option text_state) (st : text_state) : option (nbt_status * text_state) := st ← c st; Some (NBT_OK, st).
Definition prints (c : text_state -> option text_state) (s : list Z) : Prop := prints_ok (quiet c) s.

Lemma appended_len b h s b' h' : appended b h s b' h' -> b_len b' = b_len b + Z.of_nat (length s).
Proof. intros (_ & E & _). unfold b_len. rewrite E, length_app. lia. Qed.

Lemma bprintf_prints s : prints (bprintf s) s.
Proof.
  intros b h Hok Hp Hf. unfold quiet, bprintf. unfold fits in Hf.
  rewrite wrapu_small by (split; [unfold b_len; lia | change (2 ^ 64) with (2 * 2 ^ 63); lia]).
  destruct (buffer_reserve_spec b _ h Hok Hp Hf) as (r & b' & h' & E & Eg & Hr). rewrite E. cbn [mbind option_bind].
  destruct Hr as [(-> & Ed & Hcap & Hok2 & Hp2) | (-> & Ed & n & Hn)]; rewrite Ed.
  - destruct (store_ok b' (b_bytes b) s Hok2 Hp2 Ed) as [? ?]; [unfold b_len in Hcap; lia|]. by split_and!.
  - by exists n.
Qed.

Lemma prints_bind c1 s1 k s2 : prints_ok c1 s1 -> prints_ok (k NBT_OK) s2 ->
  prints_ok (fun st => '(err, st) ← c1 st; k err st) (s1 ++ s2).
Proof.
  intros H1 H2 b h Hok Hp Hf. unfold fits in Hf. rewrite length_app in Hf.
  specialize (H1 b h Hok Hp ltac:(unfold fits; lia)). destruct (c1 (b, h)) as [[err [b1 h1]]|]; cbn [mbind option_bind]; [|done].
  destruct H1 as [-> H1]. pose proof (appended_len _ _ _ _ _ H1) as Hl. destruct H1 as (Eg & Ed & Hok1 & Hp1).
  specialize (H2 b1 h1 Hok1 Hp1 ltac:(unfold fits; lia)). destruct (k NBT_OK (b1, h1)) as [[err [b2 h2]]|].
  - destruct H2 as (-> & Eg2 & Ed2 & Hok2 & Hp2). split; [done|]. split_and!; [congruence | | done | done].
    by rewrite Ed2, Ed, app_assoc.
  - destruct H2 as [n Hn]. exists n. by rewrite <- Eg.
Qed.

Lemma prints_ext c c' s : (forall st, c' st = c st) -> prints_ok c s -> prints_ok c' s.
Proof. intros E H b h. rewrite E. apply H. Qed.

Lemma prints_eq c s s' : prints_ok c s -> s = s' -> prints_ok c s'.
Proof. by intros H <-. Qed.

Lemma prints_step c1 s1 c2 s2 : prints c1 s1 -> prints_ok c2 s2 -> prints_ok (fun st => st ← c1 st; c2 st) (s1 ++ s2).
Proof.
  intros H1 H2. eapply prints_ext; [|exact (prints_bind _ _ (fun _ => c2) _ H1 H2)].
  intros st. unfold quiet. by destruct (c1 st).
Qed.

Lemma prints_then c1 s1 c2 s2 : prints c1 s1 -> prints c2 s2 -> prints (fun st => st ← c1 st; c2 st) (s1 ++ s2).
Proof.
  intros H1 H2. eapply prints_ext; [|exact (prints_step _ _ _ _ H1 H2)]. intros st. unfold quiet. by destruct (c1 st).
Qed.

Lemma prints_done : prints_ok (fun st => Some (NBT_OK, st)) [].
Proof. intros b h Hok Hp Hf. split; [done|]. split_and!; [done | by rewrite app_nil_r | done | done]. Qed.

(** A last step. *)
Lemma prints_end c s : prints c s -> prints_ok (fun st => st ← c st; Some (NBT_OK, st)) s.
Proof. done. Qed.

Lemma numbers_print data : prints (dump_numbers data) (concat (map (fun v => format_u v ++ cstr " ") data)).
Proof. induction data as [|v data IH]; [apply prints_done|]. cbn [dump_numbers map concat]. apply prints_then; [apply bprintf_prints | exact IH]. Qed.

Lemma array_prints data : prints (dump_array data) (array_text data).
Proof. unfold dump_array, array_text. do 2 (apply prints_then; [apply bprintf_prints || apply numbers_print|]). apply bprintf_prints. Qed.

Definition dump_list_contents_ascii : list nbt_node -> text_state -> nat -> option (nbt_status * text_state) :=
  fix contents list st ident :=
    match list with
    | [] => Some (NBT_OK, st)
    | entry :: list' =>
        '(err, st) ← nbt_dump_ascii_node entry st ident;
        if decide (err = NBT_OK) then contents list' st ident else Some (err, st)
    end.

Lemma contents_print es ident : Forall (fun n => prints_ok (fun st => nbt_dump_ascii_node n st ident) (render n ident)) es ->
  prints_ok (fun st => dump_list_contents_ascii es st ident) (concat (map (fun n => render n ident) es)).
Proof.
  induction 1 as [|n es Hn _ IH]; [apply prints_done|]. cbn [dump_list_contents_ascii map concat].
  exact (prints_bind _ _ (fun err st => if decide (err = NBT_OK) then dump_list_contents_ascii es st ident else Some (err, st)) _ Hn IH).
Qed.

(** An opened and closed block. *)
Lemma block_prints ident head es : Forall (fun n => prints_ok (fun st => nbt_dump_ascii_node n st (ident + 1)) (render n (ident + 1))) es ->
  prints_ok (fun st => st ← indent ident st; st ← bprintf (head ++ newline) st; st ← indent ident st; st ← bprintf (cstr "{" ++ newline) st;
    '(err, st) ← dump_list_contents_ascii es st (ident + 1)%nat; st ← indent ident st; st ← bprintf (cstr "}" ++ newline) st; Some (err, st))
   (line ident head ++ line ident (cstr "{") ++ concat (map (fun n => render n (ident + 1)) es) ++ line ident (cstr "}")).
Proof.
  intros H. eapply prints_eq.
  { do 4 (apply prints_step; [apply bprintf_prints|]).
    eapply prints_bind with (k := fun err st => st ← indent ident st; st ← bprintf (cstr "}" ++ newline) st; Some (err, st)); [exact (contents_print _ _ H)|].
    apply prints_step; [apply bprintf_prints|]. apply prints_end, bprintf_prints. }
  unfold line. by rewrite <- !app_assoc.
Qed.

(** A node with its value on the line. *)
Lemma value_prints ident head s :
  prints_ok (fun st => st ← indent ident st; st ← bprintf (head ++ cstr ": " ++ s ++ newline) st; Some (NBT_OK, st)) (line ident (head ++ cstr ": " ++ s)).
Proof.
  eapply prints_eq; [apply prints_step; [apply bprintf_prints|]; apply prints_end, bprintf_prints|]. unfold line. by rewrite <- !app_assoc.
Qed.

Lemma array_line_prints ident head data :
  prints_ok (fun st => st ← indent ident st; st ← bprintf (head ++ cstr ": ") st; st ← dump_array data st; st ← bprintf newline st; Some (NBT_OK, st))
    (line ident (head ++ cstr ": " ++ array_text data)).
Proof.
  eapply prints_eq.
  { do 2 (apply prints_step; [apply bprintf_prints|]). apply prints_step; [apply array_prints|]. apply prints_end, bprintf_prints. }
  unfold line. by rewrite <- !app_assoc.
Qed.

Lemma node_prints tree : forall ident, prints_ok (fun st => nbt_dump_ascii_node tree st ident) (render tree ident).
Proof.
  induction tree as [name p IH] using nbt_node_nested_ind. intros ident. cbn [nbt_dump_ascii_node render]. fold dump_list_contents_ascii.
  assert (forall es, Forall (fun n => forall ident, prints_ok (fun st => nbt_dump_ascii_node n st ident) (render n ident)) es ->
    Forall (fun n => prints_ok (fun st => nbt_dump_ascii_node n st (ident + 1)) (render n (ident + 1))) es) as Hes.
  { intros es H. eapply Forall_impl; [exact H|]. intros n Hn. apply Hn. }
  destruct p as [v|v|v|v|v|v|data|str|sen es|es|data|data]; cbn [children] in IH.
  - exact (value_prints ident (header "TAG_Byte" name) (dec v)).
  - exact (value_prints ident (header "TAG_Short" name) (dec v)).
  - exact (value_prints ident (header "TAG_Int" name) (dec v)).
  - exact (value_prints ident (header "TAG_Long" name) (dec v)).
  - exact (value_prints ident (header "TAG_Float" name) _).
  - exact (value_prints ident (header "TAG_Double" name) _).
  - exact (array_line_prints ident (header "TAG_Byte_Array" name) data).
  - exact (value_prints ident (header "TAG_String" name) (c_content str)).
  - exact (block_prints ident _ es (Hes es IH)).
  - exact (block_prints ident _ es (Hes es IH)).
  - exact (array_line_prints ident (header "Tag_Int_Array" name) data).
  - exact (array_line_prints ident (header "Tag_Long_Array" name) data).
Qed.

(** Dumping a tree crashes when there is no memory while it prints, and then
    only; otherwise it gives the text of the tree, or [NULL] when there is no
    memory for the terminator, and [errno] reports no error in either case. *)
Theorem nbt_dump_ascii_spec tree h : Z.of_nat (length (render tree 0)) + 1 <= 2 ^ 63 ->
  match nbt_dump_ascii tree h with
  | Some (r, errno, _) => errno = NBT_OK /\ (r = Some (render tree 0) \/ (r = None /\ refused h))
  | None => refused h
  end.
Proof.
  intros Hl. unfold nbt_dump_ascii. pose proof (node_prints tree 0 BUFFER_INIT h buffer_init_ok I) as H.
  specialize (H ltac:(unfold fits; change (b_len BUFFER_INIT) with 0; lia)). destruct (nbt_dump_ascii_node tree (BUFFER_INIT, h) 0) as [[err [b h']]|]; cbn [mbind option_bind]; [|done].
  destruct H as [-> H]. pose proof (appended_len _ _ _ _ _ H) as El. destruct H as (Eg & Eb & Hok & Hp).
  rewrite bool_decide_eq_true_2 by done. cbn [negb]. change (b_len BUFFER_INIT) with 0 in El.
  rewrite wrapu_small by (split; [lia | change (2 ^ 64) with (2 * 2 ^ 63); lia]).
  destruct (buffer_reserve_spec b (b_len b + 1) h' Hok Hp ltac:(lia)) as (r & b' & h2 & E & _ & Hr). rewrite E. cbn [mbind option_bind].
  destruct Hr as [(-> & Ed & _) | (-> & Ed & n & Hn)]; cbn [Z.eqb negb].
  - split; [done|]. left. unfold b_bytes at 1. rewrite Ed. cbn. by rewrite Eb.
  - split; [done|]. right. split; [done|]. exists n. by rewrite <- Eg.
Qed.

(** With memory it is the text, and not enough is a crash. *)
Example dump_example :
  fst <$> nbt_dump_ascii (NbtNode (Some (cstr "m")) (TagCompound [NbtNode None (TagDouble 0xBFF8000000000000); NbtNode None (TagIntArray [-1])])) ample_heap =
    Some (Some (line 0 (cstr "TAG_Compound(" ++ quoted (cstr "m") ++ cstr ")") ++ line 0 (cstr "{") ++
                line 1 (cstr "TAG_Double(" ++ quoted (cstr "<null>") ++ cstr "): -1.500000") ++
                line 1 (cstr "Tag_Int_Array(" ++ quoted (cstr "<null>") ++ cstr "): [ 4294967295 ]") ++ line 0 (cstr "}")), NBT_OK) /\
  nbt_dump_ascii (NbtNode None (TagByte 0)) (Heap (fun _ => false) 0) = None.
Proof. split; vm_compute; reflexivity. Qed.
