(* ===== verification/Compression.v ===== *)
(** * Compressing blocks

    [src/src/utils.c]: the block arrays of a map are compressed in memory
    before they are sent, in one call of [deflate] with room for
    [compressBound] ([zlib/compress.c]) bytes.

    zlib is the class [Zlib] of [NbtFile]; the theorems use its laws and, for
    [deflate] in one call, [ZlibFinish]. *)

From S2P Require Import Prelude Buffer Nbt NbtSpec NbtFile NbtFileProps Socket Protocol ThreadPool Heartbeat Map TaskBacklog.
From S2P Require Import Objects Session SessionSpec MapCache MapCacheSpec MapCacheProps.

Local Open Scope Z_scope.
Set Default Proof Using "Type*".

(** ** The functions *)

Definition compressBound (sourceLen : Z) : Z :=
  let bound := u64 (sourceLen + Z.shiftr sourceLen 12 + Z.shiftr sourceLen 14 + Z.shiftr sourceLen 25 + 13) in
  if bound <? sourceLen then 2 ^ 64 - 1 else bound.

Definition write_u32_be (v : Z) : list Z :=
  let v := u32 v in [u8 (Z.shiftr v 24); u8 (Z.shiftr v 16); u8 (Z.shiftr v 8); u8 v].

(** The [n] bytes at [input]; [None] when they are not all there. *)
Definition bytes_at (input : option (list Z)) (n : Z) : option (list Z) :=
  l ← input; if n <=? Z.of_nat (length l) then Some (take (Z.to_nat n) l) else None.

Definition no_buffer : send_buffer := SendBuffer None 0.

Section Compression.
Context {zl : Zlib}.

(** A stream has state of its own, which [deflateEnd] frees. *)
Definition deflateEnd : M unit := live (-1).

(** [zs.avail_in] and [zs.avail_out] are 32 bits wide. *)
Definition tc_gzip_byte_array (input : option (list Z)) (input_size : Z) : M (bool * send_buffer) :=
  let new_input_size := u64 (input_size + 4) in
  new_ok ← allocate;
  if negb new_ok then mret (false, no_buffer)
  else
    _ ← live 1;
    bytes ← checked (bytes_at input input_size);
    let new_input := write_u32_be input_size ++ bytes in
    match deflateInit2 (take (Z.to_nat (u32 new_input_size)) new_input) (15 + 16) with
    | None => _ ← live (-1); mret (false, no_buffer)
    | Some zs =>
        _ ← live 1;
        let out_upper_bound := compressBound new_input_size in
        out_ok ← allocate;
        if negb out_ok then _ ← deflateEnd; _ ← live (-1); mret (false, no_buffer)
        else
          _ ← live 1;
          let '(ret, out, _) := deflate_finish zs (u32 out_upper_bound) in
          if decide (ret = Z_STREAM_END)
          then _ ← deflateEnd; _ ← live (-1); mret (true, SendBuffer (Some out) (Z.of_nat (length out)))
          else _ ← deflateEnd; _ ← live (-1); _ ← live (-1); mret (false, no_buffer)
    end.

Definition tc_deflate_byte_array (input : option (list Z)) (input_size : Z) : M (bool * send_buffer) :=
  bytes ← checked (bytes_at input (u32 input_size));
  match deflateInit2 bytes (-15) with
  | None => mret (false, no_buffer)
  | Some zs =>
      _ ← live 1;
      let out_upper_bound := compressBound input_size in
      out_ok ← allocate;
      if negb out_ok then _ ← deflateEnd; mret (false, no_buffer)
      else
        _ ← live 1;
        let '(ret, out, _) := deflate_finish zs (u32 out_upper_bound) in
        if decide (ret = Z_STREAM_END)
        then _ ← deflateEnd; mret (true, SendBuffer (Some out) (Z.of_nat (length out)))
        else _ ← deflateEnd; _ ← live (-1); mret (false, no_buffer)
  end.
End Compression.

(** ** What zlib promises about a single call

    [deflate] with [Z_FINISH] answers [Z_STREAM_END] when all output has been
    produced, and something else when there was not enough room for it. *)
Class ZlibFinish {zl : Zlib} {laws : ZlibLaws} : Prop :=
  finish_law data w s (avail : nat) : deflateInit2 data w = Some s -> (0 < avail)%nat ->
    exists r out s', deflate_finish s (Z.of_nat avail) = (r, out, s') /\
      ((length (deflated w data) <= avail)%nat -> r = Z_STREAM_END /\ out = deflated w data) /\
      ((avail < length (deflated w data))%nat -> r <> Z_STREAM_END).
Arguments ZlibFinish : clear implicits.

#[export] Instance plain_zlib_finish : ZlibFinish plain_zlib plain_zlib_laws.
Proof.
  intros data w s avail [= <-] _. cbn -[Nat.leb]. rewrite Nat2Z.id. do 3 eexists. split; [reflexivity|].
  destruct (Nat.leb_spec (length data) avail); split; try (intros; lia); [|done].
  intros _. split; [done | by apply take_ge].
Qed.

(** ** What they do *)

Lemma write_u32_be_split v : in_u 32 v -> write_u32_be v = be_split 4 v.
Proof.
  intros H. unfold write_u32_be. rewrite (wrapu_small 32) by done. unfold be_split. rewrite !shiftr_div by lia. cbn.
  by rewrite Z.div_1_r.
Qed.

Lemma bytes_at_all l : bytes_at (Some l) (Z.of_nat (length l)) = Some l.
Proof. unfold bytes_at. cbn. by rewrite Z.leb_refl, Nat2Z.id, firstn_all. Qed.

(** The bound of inputs that fit a map fits the 32 bits of [avail_out]. *)
Lemma compressBound_small n : 0 <= n < 2 ^ 31 -> n + 13 <= compressBound n < 2 ^ 32.
Proof.
  intros Hn. unfold compressBound. rewrite !shiftr_div by lia.
  assert (0 <= n / 2 ^ 12 <= n / 4096 /\ 0 <= n / 2 ^ 14 <= n / 16384 /\ 0 <= n / 2 ^ 25 <= n / 33554432) by (unfold Z.pow; cbn; div_mod_lia).
  rewrite wrapu_small by (split; [div_mod_lia | width_lia]).
  destruct (Z.ltb_spec (n + n / 2 ^ 12 + n / 2 ^ 14 + n / 2 ^ 25 + 13) n); div_mod_lia.
Qed.

Section Results.
Context {zl : Zlib} {laws : ZlibLaws} {fin : ZlibFinish zl laws}.

(** The room for the compressed form of [n] bytes. *)
Definition room (n : nat) : nat := Z.to_nat (compressBound (Z.of_nat n)).

(** [deflate] in one call. *)
Lemma single_call data w s n :
  deflateInit2 data w = Some s -> Z.of_nat n < 2 ^ 31 ->
  exists r out s', deflate_finish s (u32 (compressBound (Z.of_nat n))) = (r, out, s') /\
    ((length (deflated w data) <= room n)%nat -> r = Z_STREAM_END /\ out = deflated w data) /\
    ((room n < length (deflated w data))%nat -> r <> Z_STREAM_END).
Proof.
  intros Hs Hn. pose proof (compressBound_small (Z.of_nat n) ltac:(lia)) as Hb. rewrite wrapu_small by (split; [lia | width_lia]).
  replace (compressBound (Z.of_nat n)) with (Z.of_nat (room n)) by (unfold room; lia).
  apply (finish_law data w s); [done | unfold room; lia].
Qed.

(** The block array after its length, compressed, and the raw form. *)
Definition gzipped (l : list Z) : list Z := deflated 31 (be_split 4 (Z.of_nat (length l)) ++ l).
Definition raw_deflated (l : list Z) : list Z := deflated (-15) l.

(** What a call answers for [out], with room for [n] bytes, after [k]
    allocations. *)
Definition compressed_to (out : list Z) (n k : nat) (w : world) : result (bool * send_buffer) * world :=
  if decide (length out <= room n)%nat
  then (Ok (true, SendBuffer (Some out) (Z.of_nat (length out))), asked k (on_maps (fun s => with_live (ms_live s + 1) s) w))
  else (Ok (false, no_buffer), asked k w).

(** The count of small blocks changed by [n]. *)
Abbreviation counted n := (on_maps (fun s => with_live (ms_live s + n) s)).

Lemma counted_twice a b w : counted a (counted b w) = counted (b + a) w.
Proof. destruct w as [? ? ? ? ? []]. unfold on_maps, with_live. cbn. do 2 f_equal. lia. Qed.
Lemma counted_zero w : counted 0 w = w.
Proof. destruct w as [? ? ? ? ? []]. unfold on_maps, with_live. cbn. do 2 f_equal. lia. Qed.

(** Allocations and small blocks are counted apart. *)
Lemma live_on_heap h w f : on_maps f (on_heap h w) = on_heap h (on_maps f w).
Proof. done. Qed.

(** Freed blocks and blocks of the same call cancel out. *)
Ltac settle :=
  unfold deflateEnd; rewrite !(bind_ok _ _ _ _ _ (run_live _ _)), !live_on_heap, !counted_twice; cbn [Z.add Z.opp Z.pos_sub];
  rewrite ?counted_zero; try reflexivity.

Lemma gzip_run l w :
  Z.of_nat (length l) + 4 < 2 ^ 31 ->
  tc_gzip_byte_array (Some l) (Z.of_nat (length l)) w =
    if negb (grants w 0) then (Ok (false, no_buffer), asked 1 w)
    else match deflateInit2 (be_split 4 (Z.of_nat (length l)) ++ l) 31 with
         | None => (Ok (false, no_buffer), asked 1 w)
         | Some _ => if negb (grants w 1) then (Ok (false, no_buffer), asked 2 w) else compressed_to (gzipped l) (4 + length l) 2 w
         end.
Proof.
  intros Hn. unfold tc_gzip_byte_array. rewrite (bind_ok _ _ _ _ _ (run_allocate w)).
  change (h_grants (w_heap w) (h_next (w_heap w))) with (grants w 0). destruct (grants w 0); cbn [negb]; [|done].
  rewrite (bind_ok _ _ _ _ _ (run_live _ _)), (bind_ok _ _ _ _ _ (run_checked _ l _ (bytes_at_all l))).
  rewrite (wrapu_small 64) by (split; [lia | width_lia]). rewrite (wrapu_small 32) by (split; [lia | width_lia]).
  rewrite write_u32_be_split by (split; [lia | width_lia]).
  rewrite take_ge by (rewrite length_app, length_be_split; lia). change (15 + 16) with 31.
  destruct (deflateInit2 _ 31) as [zs|] eqn:Ez; [|settle].
  rewrite (bind_ok _ _ _ _ _ (run_live _ _)), !live_on_heap, counted_twice, (bind_ok _ _ _ _ _ (run_allocate _)).
  change (h_grants (w_heap (on_heap _ _)) _) with (grants w 1). destruct (grants w 1); cbn [negb]; [|settle].
  rewrite (bind_ok _ _ _ _ _ (run_live _ _)). replace (Z.of_nat (length l) + 4) with (Z.of_nat (4 + length l)) by lia.
  destruct (single_call _ 31 zs (4 + length l) Ez ltac:(lia)) as (r & out & zs' & -> & Hy & Hno). unfold compressed_to, gzipped.
  destruct (decide (length (deflated 31 _) <= room (4 + length l))%nat) as [Hle|Hgt].
  - destruct (Hy Hle) as [-> ->]. rewrite decide_True by done. settle.
  - rewrite decide_False by (apply Hno; lia). settle.
Qed.

Lemma deflate_run l w :
  Z.of_nat (length l) < 2 ^ 31 ->
  tc_deflate_byte_array (Some l) (Z.of_nat (length l)) w =
    match deflateInit2 l (-15) with
    | None => (Ok (false, no_buffer), w)
    | Some _ => if negb (grants w 0) then (Ok (false, no_buffer), asked 1 w) else compressed_to (raw_deflated l) (length l) 1 w
    end.
Proof.
  intros Hn. unfold tc_deflate_byte_array. rewrite (wrapu_small 32 (Z.of_nat (length l))) by (split; [lia | width_lia]).
  rewrite (bind_ok _ _ _ _ _ (run_checked _ l _ (bytes_at_all l))). destruct (deflateInit2 l (-15)) as [zs|] eqn:Ez; [|done].
  rewrite (bind_ok _ _ _ _ _ (run_live _ _)), (bind_ok _ _ _ _ _ (run_allocate _)).
  change (h_grants (w_heap (counted 1 w)) _) with (grants w 0). destruct (grants w 0); cbn [negb]; [|settle].
  rewrite (bind_ok _ _ _ _ _ (run_live _ _)).
  destruct (single_call _ (-15) zs (length l) Ez Hn) as (r & out & zs' & -> & Hy & Hno). unfold compressed_to, raw_deflated.
  destruct (decide (length (deflated (-15) _) <= room (length l))%nat) as [Hle|Hgt].
  - destruct (Hy Hle) as [-> ->]. rewrite decide_True by done. settle.
  - rewrite decide_False by (apply Hno; lia). settle.
Qed.

(** C39. [tc_gzip_byte_array] of a block array, whichever allocations fail and
    whether or not zlib grants a stream: when anything is refused it answers
    [FALSE] and keeps nothing; otherwise it answers [TRUE] exactly when the
    compressed form of the length and the blocks fits [compressBound] bytes, and
    then its buffer, the only block it keeps, inflates to the length as four
    big-endian bytes and the blocks. *)
Theorem gzip_spec l w :
  Z.of_nat (length l) + 4 < 2 ^ 31 ->
  tc_gzip_byte_array (Some l) (Z.of_nat (length l)) w =
    (if negb (grants w 0) then (Ok (false, no_buffer), asked 1 w)
     else if negb (bool_decide (is_Some (deflateInit2 (be_split 4 (Z.of_nat (length l)) ++ l) 31)))
     then (Ok (false, no_buffer), asked 1 w)
     else if negb (grants w 1) then (Ok (false, no_buffer), asked 2 w)
     else if decide (length (gzipped l) <= room (4 + length l))%nat
     then (Ok (true, SendBuffer (Some (gzipped l)) (Z.of_nat (length (gzipped l)))),
           asked 2 (on_maps (fun s => with_live (ms_live s + 1) s) w))
     else (Ok (false, no_buffer), asked 2 w)) /\
  forall s, inflateInit2 (gzipped l) 47 = Some s -> inflating s /\ pending s = be_split 4 (Z.of_nat (length l)) ++ l.
Proof.
  intros Hn. split.
  - rewrite (gzip_run l w Hn). destruct (deflateInit2 _ 31); [|done]. by rewrite bool_decide_true by eauto.
  - intros s Hs. destruct (inflate_init_law (be_split 4 (Z.of_nat (length l)) ++ l) 31 s) as [Hp Hi]; [by right | done | done].
Qed.
End Results.
