(* ===== verification/MapSend.v ===== *)
(** * Sending a map to a client

    [src/src/api.c]: a map is opened through the cache, its block arrays are
    compressed in a blocking task ([on_map_load_success]), the start of the
    level and its environment are sent ([tc_send_map_task2]), and then one task
    per 1024 bytes sends the compressed blocks ([tc_send_buffer_task]).  The
    map stays referenced and read-locked from the compression to the end, and
    the session's action lock is held from [tc_send_map_task2] to the end.

    The users of the interface name a success and a failure handler of their
    own: the class [MapClients]. *)

From S2P Require Import Prelude Buffer Nbt NbtSpec NbtFile NbtFileProps Socket Protocol ThreadPool Heartbeat Map TaskBacklog.
From S2P Require Import Float32 Objects Session MapCache Compression.

Local Open Scope Z_scope.

(** ** The users of maps *)

Class MapClients := {
  client_failure : nat -> context -> Z -> M unit;
  client_success : nat -> map_args -> tc_thread_pool_task_priority -> Z -> M unit }.

(** The entry of a user, as the backlog has it. *)
Definition client_entry (i : client_waiter) : map_waiter :=
  Entry (success_handler i) (client_failure_handler (failure_handler i)) (entry_context i) (entry_priority i)
    (entry_session_generation i).

(** ** Objects *)

Definition get_send (d : loc) : M tc_send_map_data := o ← getm (fun s => ms_sends s !! d); checked o.
Definition update_send (d : loc) (f : tc_send_map_data -> tc_send_map_data) : M unit :=
  x ← get_send d; modm (fun s => with_sends (<[d := f x]> (ms_sends s)) s).
Definition new_send (x : tc_send_map_data) : M loc :=
  d ← getm ms_next;
  _ ← modm (fun s => with_sends (<[d := x]> (ms_sends s)) (with_next (S d) s));
  mret d.
Definition free_send (d : loc) : M unit :=
  _ ← get_send d; modm (fun s => with_sends (delete d (ms_sends s)) s).

Definition get_buffer (b : loc) : M tc_send_buffer_task_data := o ← getm (fun s => ms_buffers s !! b); checked o.
Definition store_buffer (b : loc) (x : tc_send_buffer_task_data) : M unit :=
  _ ← get_buffer b; modm (fun s => with_buffers (<[b := x]> (ms_buffers s)) s).
Definition new_buffer (x : tc_send_buffer_task_data) : M loc :=
  b ← getm ms_next;
  _ ← modm (fun s => with_buffers (<[b := x]> (ms_buffers s)) (with_next (S b) s));
  mret b.
Definition free_buffer (b : loc) : M unit :=
  _ ← get_buffer b; modm (fun s => with_buffers (delete b (ms_buffers s)) s).

Definition send_with_map (l : option loc) (x : tc_send_map_data) : tc_send_map_data :=
  SendMapData (sm_session x) (sm_file_name x) l (sm_schedule_info x) (sm_block_array_buffer x) (sm_block_array2_buffer x).
Definition send_with_buffer (o : send_buffer) (x : tc_send_map_data) : tc_send_map_data :=
  SendMapData (sm_session x) (sm_file_name x) (sm_map x) (sm_schedule_info x) o (sm_block_array2_buffer x).
Definition send_with_buffer2 (o : send_buffer) (x : tc_send_map_data) : tc_send_map_data :=
  SendMapData (sm_session x) (sm_file_name x) (sm_map x) (sm_schedule_info x) (sm_block_array_buffer x) o.

(** The map of an entry, with its own reader lock. *)
Definition loaded_map (l : loc) : M tc_map :=
  e ← get_entry l; match ce_map e with MapLoaded m => mret m | _ => stuck BadAccess end.
Definition map_reader_lock (l : loc) : M unit :=
  _ ← loaded_map l; update_entry l (fun e => entry_readers (S (ce_map_readers e)) e).
Definition map_reader_unlock (l : loc) : M unit :=
  _ ← loaded_map l;
  e ← get_entry l;
  match ce_map_readers e with O => stuck BadUnlock | S n => update_entry l (entry_readers n) end.

(** [p_free] of a compressed buffer, if there is one. *)
Definition free_data (o : send_buffer) : M unit := match sb_data o with Some _ => live (-1) | None => mret tt end.

(** ** Ends of a transfer *)

Section Sending.
Context {cl : MapClients}.

(** Handlers of users are no [handle_map_load_failure]. *)
#[local] Instance client_callbacks : MapCallbacks := fun f c g =>
  match f with client_failure_handler n => client_failure n c g | handle_map_load_failure => stuck BadAccess end.

Definition free_send_map_data (d : loc) : M unit :=
  x ← get_send d;
  _ ← match sm_map x with Some l => tc_map_unref l | None => mret tt end;
  _ ← free_data (sm_block_array_buffer x);
  _ ← free_data (sm_block_array2_buffer x);
  free_send d.

Definition handle_success (d : loc) (current_priority : tc_thread_pool_task_priority) : M unit :=
  x ← get_send d;
  _ ← tc_session_release_action_lock (sm_session x);
  l ← checked (sm_map x);
  _ ← map_reader_unlock l;
  _ ← invoke_handler (client_entry (sm_schedule_info x)) None (Some tc_map_unref) (Some l) current_priority;
  free_send_map_data d.

Definition handle_failure (d : loc) (release_lock : bool) : M unit :=
  x ← get_send d;
  _ ← when release_lock (tc_session_release_action_lock (sm_session x));
  _ ← match sm_map x with Some l => map_reader_unlock l | None => mret tt end;
  _ ← invoke_handler (client_entry (sm_schedule_info x)) None None None PRIORITY_INVALID;
  free_send_map_data d.

Definition run_send_buffer_handle_failure (b : loc) : M unit :=
  t ← get_buffer b;
  _ ← handle_failure (st_send_map_data t) true;
  free_buffer b.

(** [handle_map_load_failure] *)
Definition run_map_load_failure (d : loc) : M unit :=
  x ← get_send d;
  _ ← invoke_handler (client_entry (sm_schedule_info x)) None (Some tc_map_unref) None PRIORITY_INVALID;
  free_send_map_data d.

(** The failure handlers of all entries of the cache's backlogs. *)
Definition api_callbacks : MapCallbacks := fun f c g =>
  match f, c with
  | client_failure_handler n, _ => client_failure n c g
  | handle_map_load_failure, ContextSendMap d => run_map_load_failure d
  | handle_map_load_failure, _ => stuck BadAccess
  end.

(** ** One chunk *)

Section Chunks.
Context {abi : CharABI}.

Definition chunk_size : Z := 1024.

(** [current_chunk] and [chunk_length]; [None] is an access outside the buffer. *)
Definition current_chunk (selected_buffer : send_buffer) (sent_count : Z) : option (list Z * Z) :=
  data ← sb_data selected_buffer;
  let rest := u64 (sb_size selected_buffer - sent_count) in
  let chunk_length := s32 (if chunk_size <? rest then chunk_size else rest) in
  if (0 <=? chunk_length) && (sent_count + chunk_length <=? Z.of_nat (length data)) then
    let bytes := take (Z.to_nat chunk_length) (drop (Z.to_nat sent_count) data) in
    Some (bytes ++ replicate (Z.to_nat (chunk_size - chunk_length)) 0, chunk_length)
  else None.

Definition percent_complete (s : tc_session) (send_main_buffer : bool) (sent_count size : Z) : option Z :=
  if 0 <? tc_session_get_extension_version s TC_CPE_EXTENDED_BLOCKS_EXTENSION_INDEX
  then Some (if send_main_buffer then 0 else 1)
  else float_to_char (float_percent sent_count size).

Definition run_send_buffer_task (b : loc) (priority : tc_thread_pool_task_priority) (session_generation : Z) : M unit :=
  t ← get_buffer b;
  let d := st_send_map_data t in
  x ← get_send d;
  if negb (bool_decide (priority = entry_priority (sm_schedule_info x))) then stuck AssertionFailed
  else
    let sid := sm_session x in
    let selected_buffer := if st_send_main_buffer t then sm_block_array_buffer x else sm_block_array2_buffer x in
    '(chunk, chunk_length) ← checked (current_chunk selected_buffer (st_sent_count t));
    s ← get_session sid;
    percent ← checked (percent_complete s (st_send_main_buffer t) (st_sent_count t) (sb_size selected_buffer));
    sent ← sending sid (tc_protocol_send_level_data_chunk chunk_length chunk percent);
    if negb sent then _ ← handle_failure d true; free_buffer b
    else
      let sent_count := u64 (st_sent_count t + chunk_length) in
      let schedule := schedule_next (Some tc_send_buffer_task) (Some tc_send_buffer_handle_failure) (ArgSendBuffer b)
                        (entry_priority (sm_schedule_info x)) session_generation in
      if sent_count <? sb_size selected_buffer then
        _ ← store_buffer b (SendBufferTaskData d sent_count (st_send_main_buffer t)); schedule
      else
        l ← checked (sm_map x);
        m ← loaded_map l;
        if st_send_main_buffer t && bool_decide (is_Some (block_array2 m)) then
          _ ← store_buffer b (SendBufferTaskData d 0 false); schedule
        else
          _ ← store_buffer b (SendBufferTaskData d sent_count (st_send_main_buffer t));
          sent ← sending sid (tc_protocol_send_level_finalize (x_size m) (y_size m) (z_size m));
          if negb sent then _ ← handle_failure d true; free_buffer b
          else _ ← handle_success d priority; free_buffer b.

(** ** The start of a level *)

(** [HANDLE_FAILURE]: go on with [k] when the action succeeded. *)
Definition sent_or_fail (d : loc) (action : M bool) (k : M unit) : M unit :=
  ok ← action; if negb ok then handle_failure d true else k.

Definition property (sid : nat) (field value : Z) : M bool := sending sid (tc_cpe_send_set_map_env_property field value).

(** A member times a scale, as [pint32]. *)
Definition scaled (bits scale : Z) : M Z := checked (float_to_int32 (float_mul (float_of_bits bits) (float_of_Z scale))).

Definition supports (s : tc_session) (extension_index : Z) : bool := 0 <? tc_session_get_extension_version s extension_index.

(** The texture is the one of the appearance, also in the branch of the aspect. *)
Definition send_texture (sid : nat) (m : tc_map) : M bool :=
  a ← checked (env_appearance_extension m);
  url ← checked (ap_texture_url a);
  sending sid (tc_cpe_send_set_texture_url url).

Definition send_env_aspect (d : loc) (sid : nat) (m : tc_map) (e : tc_map_env_aspect_extension) (k : M unit) : M unit :=
  sent_or_fail d (send_texture sid m) (
  sent_or_fail d (property sid 0 (to_char (as_side_block e))) (
  sent_or_fail d (property sid 1 (to_char (as_edge_block e))) (
  sent_or_fail d (property sid 2 (as_edge_height e)) (
  sent_or_fail d (property sid 3 (as_clouds_height e)) (
  sent_or_fail d (v ← scaled (as_clouds_speed e) 256; property sid 5 v) (
  sent_or_fail d (v ← scaled (as_weather_speed e) 256; property sid 6 v) (
  sent_or_fail d (v ← scaled (as_weather_fade e) 128; property sid 7 v) (
  sent_or_fail d (property sid 8 (to_char (as_use_exponential_fog e))) (
  sent_or_fail d (property sid 9 (as_side_offset e)) k))))))))).

(** The fall back on the packets of the aspect extension. *)
Definition send_appearance_properties (d : loc) (sid : nat) (m : tc_map) (a : tc_map_env_appearance_extension) (k : M unit) :
    M unit :=
  sent_or_fail d (send_texture sid m) (
  sent_or_fail d (property sid 0 (to_char (ap_side_block a))) (
  sent_or_fail d (property sid 1 (to_char (ap_edge_block a))) (
  sent_or_fail d (property sid 2 (ap_side_level a)) (
  sent_or_fail d (property sid 3 (ap_cloud_level a)) (
  sent_or_fail d (property sid 4 (ap_maximum_view_distance a)) k))))).

Definition send_env_appearance (d : loc) (sid : nat) (s : tc_session) (m : tc_map) (a : tc_map_env_appearance_extension)
    (k : M unit) : M unit :=
  let client_supported_version := tc_session_get_extension_version s TC_CPE_ENV_MAP_APPEARANCE_EXTENSION_INDEX in
  let packet :=
    if client_supported_version =? 2 then
      url ← checked (ap_texture_url a);
      sent_or_fail d (sending sid (tc_cpe_send_env_map_appearance2 url (ap_side_block a) (ap_edge_block a) (ap_side_level a)
                                (ap_cloud_level a) (ap_maximum_view_distance a))) k
    else if negb (client_supported_version =? 1) then stuck AssertionFailed
    else
      url ← checked (ap_texture_url a);
      sent_or_fail d (sending sid (tc_cpe_send_env_map_appearance1 url (ap_side_block a) (ap_edge_block a) (ap_side_level a))) k in
  if client_supported_version <? ap_extension_version a then
    if negb (supports s TC_CPE_ENV_MAP_ASPECT_EXTENSION_INDEX) then handle_failure d true
    else send_appearance_properties d sid m a packet
  else packet.

Definition send_color (sid : nat) (field : Z) (c : tc_map_color_config) : M bool :=
  match tc_cpe_send_set_env_color field (Map.red c) (green c) (blue c) with
  | Some packet => sending sid packet
  | None => stuck AssertionFailed
  end.

Definition send_env_colors (d : loc) (sid : nat) (e : tc_map_env_colors_extension) (k : M unit) : M unit :=
  sent_or_fail d (send_color sid 0 (ec_sky e)) (
  sent_or_fail d (send_color sid 1 (ec_cloud e)) (
  sent_or_fail d (send_color sid 2 (ec_fog e)) (
  sent_or_fail d (send_color sid 3 (ec_ambient e)) (
  sent_or_fail d (send_color sid 4 (ec_sunlight e)) k)))).

(** The first chunk task. *)
Definition start_chunks (d : loc) (x : tc_send_map_data) (session_generation : Z) : M unit :=
  ok ← allocate;
  if negb ok then handle_failure d true
  else
    b ← new_buffer (SendBufferTaskData d 0 true);
    schedule_next (Some tc_send_buffer_task) (Some tc_send_buffer_handle_failure) (ArgSendBuffer b)
      (entry_priority (sm_schedule_info x)) session_generation.

(** The extensions a map needs one after the other. *)
Definition send_environment (d : loc) (sid : nat) (s : tc_session) (m : tc_map) (k : M unit) : M unit :=
  let definitions :=
    match block_definition_extensions m with
    | Some _ => if negb (supports s TC_CPE_BLOCK_DEFINITIONS_EXTENSION_INDEX) then handle_failure d true else k
    | None => k
    end in
  let colors :=
    match env_colors_extension m with
    | Some e => if negb (supports s TC_CPE_ENV_MAP_COLORS_EXTENSION_INDEX) then handle_failure d true
                else send_env_colors d sid e definitions
    | None => definitions
    end in
  let weather :=
    match env_weather_extension m with
    | Some e => if negb (supports s TC_CPE_ENV_MAP_WEATHER_TYPE_EXTENSION_INDEX) then handle_failure d true
                else sent_or_fail d (sending sid (tc_cpe_send_env_set_weather_type (ew_weather_type e))) colors
    | None => colors
    end in
  match env_aspect_extension m, env_appearance_extension m with
  | Some e, _ => if negb (supports s TC_CPE_ENV_MAP_ASPECT_EXTENSION_INDEX) then handle_failure d true
                 else send_env_aspect d sid m e weather
  | None, Some a => send_env_appearance d sid s m a weather
  | None, None => weather
  end.

(** The size of the first buffer is asserted to fit an [int32]. *)
Definition send_initialize (s : tc_session) (sid : nat) (x : tc_send_map_data) (m : tc_map) : M bool :=
  if supports s TC_CPE_FASTMAP_EXTENSION_INDEX then
    if negb (sb_size (sm_block_array_buffer x) <=? 2 ^ 31 - 1) then stuck AssertionFailed
    else sending sid (tc_protocol_send_level_initialize2 (s32 (block_array_count m)))
  else sending sid tc_protocol_send_level_initialize.

Definition run_send_map_task2 (d : loc) (priority : tc_thread_pool_task_priority) (session_generation : Z) : M unit :=
  x ← get_send d;
  if negb (bool_decide (priority = entry_priority (sm_schedule_info x))) then stuck AssertionFailed
  else
    let sid := sm_session x in
    locked ← tc_session_aquire_action_lock sid session_generation;
    if negb locked then mret tt
    else
      s ← get_session sid;
      l ← checked (sm_map x);
      m ← loaded_map l;
      sent_or_fail d (send_initialize s sid x m)
        (send_environment d sid s m (start_chunks d x session_generation)).

(** ** Compression *)

Context {zl : Zlib}.

Definition compress_blocks (s : tc_session) (input : option (list Z)) (count : Z) : M (bool * send_buffer) :=
  if supports s TC_CPE_FASTMAP_EXTENSION_INDEX then tc_deflate_byte_array input count else tc_gzip_byte_array input count.

Definition run_on_map_load_success (args : map_args) (priority : tc_thread_pool_task_priority) (session_generation : Z) : M unit :=
  match args_context args with
  | ContextSession _ => stuck BadAccess
  | ContextSendMap d =>
      let l := args_result args in
      _ ← update_send d (send_with_map (Some l));
      if negb (bool_decide (priority = PRIORITY_BLOCKING)) then stuck AssertionFailed
      else
        _ ← map_reader_lock l;
        x ← get_send d;
        s ← get_session (sm_session x);
        m ← loaded_map l;
        let fail := _ ← handle_failure d false; live (-1) in
        let task2 :=
          result ← schedule_new tc_send_map_task2 (ArgSendMap d) (entry_priority (sm_schedule_info x)) session_generation;
          _ ← when (negb result) (handle_failure d false);
          live (-1) in
        '(result, o) ← compress_blocks s (block_array m) (block_array_count m);
        _ ← update_send d (send_with_buffer o);
        if negb result then fail
        else
          match block_array2 m with
          | None => task2
          | Some arr =>
              if negb (supports s TC_CPE_EXTENDED_BLOCKS_EXTENSION_INDEX) then fail
              else
                '(result, o) ← compress_blocks s (Some arr) (block_array2_count m);
                _ ← update_send d (send_with_buffer2 o);
                if negb result then fail else task2
          end
  end.

(** ** The interface *)

Context {sz : CacheSizes}.

Definition tc_api_schedule_send_map (sid : nat) (file_name : list Z) (pre_loaded_map : option loc)
    (schedule_info : client_waiter) (current_priority : tc_thread_pool_task_priority) : M bool :=
  ok ← allocate;
  if negb ok then mret false
  else
    d ← new_send (SendMapData sid file_name None schedule_info no_buffer no_buffer);
    let load_map_schedule_info : map_waiter :=
      Entry (Some on_map_load_success) handle_map_load_failure (ContextSendMap d) PRIORITY_BLOCKING
        (entry_session_generation schedule_info) in
    _ ← match pre_loaded_map with
        | Some l =>
            invoke_handler (cb := api_callbacks) load_map_schedule_info (Some tc_map_ref) (Some tc_map_unref) (Some l) current_priority
        | None => tc_map_cache_schedule_open (cb := api_callbacks) file_name load_map_schedule_info current_priority
        end;
    mret true.

(** ** All tasks of maps *)

Definition run_map_task {ld : MapLoader} (t : task) (arg : option task_arg) (priority : tc_thread_pool_task_priority)
    (session_generation : Z) : M unit :=
  match t, arg with
  | tc_map_cache_load_task, Some (ArgLoad a) => run_load_task (cb := api_callbacks) a priority
  | on_map_load_success, Some (ArgMap a) => run_on_map_load_success a priority session_generation
  | tc_send_map_task2, Some (ArgSendMap d) => run_send_map_task2 d priority session_generation
  | tc_send_buffer_task, Some (ArgSendBuffer b) => run_send_buffer_task b priority session_generation
  | tc_send_buffer_handle_failure, Some (ArgSendBuffer b) => run_send_buffer_handle_failure b
  | client_task n, Some (ArgMap a) => client_success n a priority session_generation
  | _, _ => stuck BadAccess
  end.
End Chunks.
End Sending.
