(* ===== verification/MapSendProps.v ===== *)
(** * What sending a map does

    The chunk tasks of [MapSend]: run to the end, whatever other tasks do in
    between, they put the compressed block arrays on the wire in pieces of 1024
    bytes, followed by the end of the level; and they give back what the
    transfer holds, also when a packet cannot be sent. *)

From S2P Require Import Prelude Buffer Nbt NbtSpec NbtFile NbtFileProps Socket Protocol ProtocolSpec ThreadPool ThreadPoolSpec ThreadPoolSystem.
From S2P Require Import Heartbeat Map.
From S2P Require Import TaskBacklog TaskBacklogProps Float32 Objects Session SessionSpec MapCache MapCacheSpec MapCacheProps Compression MapSend.

Local Open Scope Z_scope.
Set Default Proof Using "Type*".

(** ** Rules *)

Lemma run_get_send d w x : ms_sends (w_maps w) !! d = Some x -> get_send d w = (Ok x, w).
Proof. intros H. unfold get_send, mbind, M_bind, getm. by rewrite H. Qed.

Lemma run_get_buffer b w t : ms_buffers (w_maps w) !! b = Some t -> get_buffer b w = (Ok t, w).
Proof. intros H. unfold get_buffer, mbind, M_bind, getm. by rewrite H. Qed.

Definition put_buffer (b : loc) (t : tc_send_buffer_task_data) (s : map_state) : map_state :=
  with_buffers (<[b := t]> (ms_buffers s)) s.

Lemma run_store_buffer b w t t' :
  ms_buffers (w_maps w) !! b = Some t -> store_buffer b t' w = (Ok tt, on_maps (put_buffer b t') w).
Proof. intros H. unfold store_buffer. by rewrite (bind_ok _ _ _ _ _ (run_get_buffer _ _ _ H)). Qed.

Lemma run_free_buffer b w t :
  ms_buffers (w_maps w) !! b = Some t -> free_buffer b w = (Ok tt, on_maps (fun s => with_buffers (delete b (ms_buffers s)) s) w).
Proof. intros H. unfold free_buffer. by rewrite (bind_ok _ _ _ _ _ (run_get_buffer _ _ _ H)). Qed.

Lemma run_free_data o w :
  free_data o w = (Ok tt, on_maps (fun s => with_live (ms_live s - (if sb_data o is Some _ then 1 else 0)) s) w).
Proof.
  unfold free_data. destruct (sb_data o); [done|]. rewrite (on_maps_ext _ id); [by destruct w|].
  destruct (w_maps w). unfold with_live. cbn. f_equal. lia.
Qed.

Lemma run_free_send d w x :
  ms_sends (w_maps w) !! d = Some x -> free_send d w = (Ok tt, on_maps (fun s => with_sends (delete d (ms_sends s)) s) w).
Proof. intros H. unfold free_send. by rewrite (bind_ok _ _ _ _ _ (run_get_send _ _ _ H)). Qed.

Lemma run_loaded_map l w e m : at_entry l w e -> ce_map e = MapLoaded m -> loaded_map l w = (Ok m, w).
Proof. intros He Hm. unfold loaded_map. by rewrite (bind_ok _ _ _ _ _ (run_get_entry _ _ _ He)), Hm. Qed.

Lemma run_reader_unlock l w e m n :
  at_entry l w e -> ce_map e = MapLoaded m -> ce_map_readers e = S n ->
  map_reader_unlock l w = (Ok tt, on_maps (put_entry l (entry_readers n e)) w).
Proof.
  intros He Hm Hn. unfold map_reader_unlock. rewrite (bind_ok _ _ _ _ _ (run_loaded_map _ _ _ _ He Hm)).
  rewrite (bind_ok _ _ _ _ _ (run_get_entry _ _ _ He)), Hn. by apply run_update_entry.
Qed.

Lemma run_unref l w e :
  at_entry l w e -> ce_lock e = Some false -> - 2 ^ 31 < ce_open_count e <= 2 ^ 31 ->
  tc_map_unref l w = (Ok tt, on_maps (put_entry l (entry_count (ce_open_count e - 1) e)) w).
Proof.
  intros He Hl Hc. unfold tc_map_unref. rewrite (bind_ok _ _ _ _ _ (run_mutex_lock _ _ _ He Hl)).
  assert (tc_map_nolock_unref l (on_maps (put_entry l (entry_lock (Some true) e)) w)
    = (Ok tt, on_maps (put_entry l (entry_count (ce_open_count e - 1) (entry_lock (Some true) e))) (on_maps (put_entry l (entry_lock (Some true) e)) w))) as E.
  { unfold tc_map_nolock_unref. rewrite (bind_ok _ _ _ _ _ (run_get_entry _ _ _ (at_put_entry _ _ _))).
    unfold int_result. cbn [entry_lock ce_open_count].
    destruct (Z.leb_spec (- 2 ^ 31) (ce_open_count e - 1)), (Z.ltb_spec (ce_open_count e - 1) (2 ^ 31)); try lia. cbn [andb].
    rewrite (bind_ok _ _ _ _ _ (run_checked _ _ _ eq_refl)). by rewrite (run_update_entry _ _ _ _ (at_put_entry _ _ _)). }
  rewrite (bind_ok _ _ _ _ _ E). erewrite run_mutex_unlock by (first [apply at_put_entry | done]). rewrite !on_maps_on_maps. f_equal.
  apply on_maps_ext. unfold put_entry, with_entries. cbn. rewrite !insert_insert_eq. f_equal. f_equal. destruct e. cbn in Hl. by subst.
Qed.

(** A packet on a socket that takes everything. *)
Lemma packet_accepted p snd s :
  send_packet p = Some snd -> packet_ok p -> reliable s -> snd s = (true, sk_after s (length (packet_chunks p)) (packet_bytes p)).
Proof.
  intros Hs Hp Hr. rewrite (send_packet_chunks p snd s Hs), (run_chunks_reliable _ _ Hr (packet_chunks_nonempty p Hp)).
  by rewrite packet_chunks_bytes.
Qed.

(** ** Pieces *)

Definition piece (data : list Z) (off : nat) : list Z := take 1024 (drop off data).
Definition padded (l : list Z) : list Z := l ++ replicate (1024 - length l) 0.

Lemma length_piece data off : length (piece data off) = Nat.min 1024 (length data - off).
Proof. unfold piece. by rewrite length_take, length_drop. Qed.

Lemma length_padded data off : length (padded (piece data off)) = 1024%nat.
Proof. unfold padded. rewrite length_app, length_replicate, length_piece. lia. Qed.

(** The number of pieces of [n] bytes. *)
Definition pieces (n : nat) : nat := (n + 1023) / 1024.

Lemma pieces_spec n : (0 < n)%nat -> pieces n = S (pieces (n - 1024)) /\ ((n <= 1024)%nat -> pieces (n - 1024) = 0%nat).
Proof.
  intros Hn. unfold pieces. split.
  - destruct (Nat.le_gt_cases n 1024).
    + replace (n - 1024 + 1023)%nat with 1023%nat by lia. change (1023 / 1024)%nat with 0%nat.
      symmetry. apply Nat.div_unique with (n + 1023 - 1024)%nat; lia.
    + replace (n + 1023)%nat with (n - 1024 + 1023 + 1 * 1024)%nat by lia. rewrite Nat.div_add by lia. lia.
  - intros H. replace (n - 1024 + 1023)%nat with 1023%nat by lia. done.
Qed.

Definition whole (data : list Z) : send_buffer := SendBuffer (Some data) (Z.of_nat (length data)).

Lemma current_chunk_piece data off :
  (off < length data)%nat -> Z.of_nat (length data) < 2 ^ 63 ->
  current_chunk (whole data) (Z.of_nat off) = Some (padded (piece data off), Z.of_nat (length (piece data off))).
Proof.
  intros Ho Hl. unfold current_chunk, whole, chunk_size. cbn [sb_data sb_size mbind option_bind].
  rewrite wrapu_small by (split; [lia | width_lia]).
  assert (s32 (if 1024 <? Z.of_nat (length data) - Z.of_nat off then 1024 else Z.of_nat (length data) - Z.of_nat off)
    = Z.of_nat (length (piece data off))) as ->.
  { rewrite length_piece. destruct (Z.ltb_spec 1024 (Z.of_nat (length data) - Z.of_nat off)); rewrite wraps_small by width_lia; lia. }
  rewrite length_piece. destruct (Z.leb_spec 0 (Z.of_nat (Nat.min 1024 (length data - off)))); [|lia].
  destruct (Z.leb_spec (Z.of_nat off + Z.of_nat (Nat.min 1024 (length data - off))) (Z.of_nat (length data))); [|lia].
  cbn [andb]. rewrite !Nat2Z.id. do 2 f_equal.
  - unfold padded. rewrite length_piece. f_equal.
    + unfold piece. destruct (Nat.le_gt_cases 1024 (length data - off)); [by rewrite Nat.min_l|].
      rewrite Nat.min_r by lia. rewrite !take_ge; [done | rewrite length_drop; lia..].
    + f_equal. lia.
Qed.

(** The pieces of the data make up the data. *)
Fixpoint pieces_from (k off : nat) (data : list Z) : list (list Z) :=
  match k with O => [] | S k' => piece data off :: pieces_from k' (off + 1024) data end.

Lemma pieces_concat k : forall off data, k = pieces (length data - off) -> concat (pieces_from k off data) = drop off data.
Proof.
  induction k as [|k IH]; intros off data Hk; cbn [pieces_from concat].
  - destruct (Nat.eq_0_gt_0_cases (length data - off)) as [H|H]; [by rewrite drop_ge by lia|].
    destruct (pieces_spec _ H) as [E _]. lia.
  - destruct (Nat.eq_0_gt_0_cases (length data - off)) as [H|H]; [by rewrite H in Hk|].
    destruct (pieces_spec _ H) as [E _]. rewrite IH by (replace (length data - (off + 1024))%nat with (length data - off - 1024)%nat by lia; lia).
    unfold piece. rewrite <- drop_drop. apply take_drop.
Qed.

(** ** A transfer *)

Section Transfer.
Context {cl : MapClients} {abi : CharABI}.

(** The task [b] of the transfer [x], at [d], of the map [m] in the cache entry
    [l], on the socket with pending input [input] of a session that is [s]
    otherwise. *)
Variables (b d l : loc) (x : tc_send_map_data) (m : tc_map) (s : tc_session) (input : list recv_answer) (g : Z).
Variables (blocks blocks2 : list Z).

Abbreviation sid := (sm_session x).
Abbreviation q := (entry_priority (sm_schedule_info x)).

Hypothesis Hmap : sm_map x = Some l.
Hypothesis Hlock : action_lock s = true.
Hypothesis Hblocks : sm_block_array_buffer x = whole blocks /\ blocks <> [] /\ Z.of_nat (length blocks) < 2 ^ 63.
Hypothesis Hblocks2 : is_Some (block_array2 m) ->
  sm_block_array2_buffer x = whole blocks2 /\ blocks2 <> [] /\ Z.of_nat (length blocks2) < 2 ^ 63.

(** The session with this much on the wire. *)
Definition on_wire (out : psocket) : tc_session := with_socket (Some (Connection out input)) s.

(** The map is there, locked for reading, and its entry is not in use. *)
Definition holds_map (w : world) : Prop :=
  exists e n, at_entry l w e /\ ce_map e = MapLoaded m /\ ce_map_readers e = S n /\ ce_lock e = Some false /\
    - 2 ^ 31 < ce_open_count e <= 2 ^ 31.

(** The pool has room for one more task of this chain, and there is memory. *)
Definition ready_for_next (w : world) : Prop :=
  let p := thread_pool (w_server w) in
  shutdown p = false /\ grants w 0 = true /\ Forall ring_ok (task_prio_buffer p) /\
  exists i buf, priority_index q = Some i /\ task_prio_buffer p !! i = Some buf /\
    ((head_index buf + 1) mod capacity buf =? tail_index buf)%nat = false.

(** The state of a transfer that has got to [off] of one of the arrays. *)
Record in_transfer (main : bool) (off : nat) (out : psocket) (w : world) : Prop := {
  sg_task : ms_buffers (w_maps w) !! b = Some (SendBufferTaskData d (Z.of_nat off) main);
  sg_send : ms_sends (w_maps w) !! d = Some x;
  sg_session : at_session sid w (on_wire out);
  sg_map : holds_map w }.

(** The task of the transfer, as it is queued. *)
Definition chunk_context : tc_thread_pool_context task task_arg :=
  Context q (Some tc_send_buffer_task) (Some (ArgSendBuffer b)) g.

(** Between two tasks of the transfer: the next one is queued. *)
Definition streaming (main : bool) (off : nat) (out : psocket) (w : world) : Prop :=
  in_transfer main off out w /\ chunk_context ∈ pool_queued (thread_pool (w_server w)).

Definition chosen (main : bool) : list Z := if main then blocks else blocks2.

(** The packet for the piece at [off]. *)
Definition percent_at (main : bool) (off : nat) : Z :=
  default 0 (percent_complete s main (Z.of_nat off) (Z.of_nat (length (chosen main)))).
Definition data_packet (main : bool) (off : nat) : packet :=
  LevelDataChunk (Z.of_nat (length (piece (chosen main) off))) (padded (piece (chosen main) off)) (percent_at main off).

Definition after_packet (p : packet) (out : psocket) : psocket := sk_after out (length (packet_chunks p)) (packet_bytes p).

Lemma percent_defined main off out :
  (off < length (chosen main))%nat -> Z.of_nat (length (chosen main)) < 2 ^ 63 ->
  percent_complete (with_socket out s) main (Z.of_nat off) (Z.of_nat (length (chosen main))) = Some (percent_at main off).
Proof.
  intros Ho Hl. unfold percent_at. change (percent_complete (with_socket out s)) with (percent_complete s).
  unfold percent_complete. destruct (0 <? _); [done|].
  destruct (percent_trunc (Z.of_nat off) (Z.of_nat (length (chosen main)))) as (t & Et & Ht); [lia | split; [lia | width_lia] |].
  unfold float_to_char. rewrite Et. cbn. by rewrite bool_decide_true by (by rewrite to_char_small by lia).
Qed.

(** The buffer a task looks at is the chosen one. *)
Lemma chosen_buffer main :
  (main = true \/ is_Some (block_array2 m)) ->
  (if main then sm_block_array_buffer x else sm_block_array2_buffer x) = whole (chosen main) /\
  (0 < length (chosen main))%nat /\ Z.of_nat (length (chosen main)) < 2 ^ 63.
Proof.
  intros H. assert (forall l : list Z, l <> [] -> (0 < length l)%nat) as Hne by (intros [] Hz; [done | cbn; lia]).
  destruct main; cbn.
  - destruct Hblocks as (E & H1 & H2). auto.
  - destruct H as [|H]; [done|]. destruct (Hblocks2 H) as (E & H1 & H2). auto.
Qed.

(** What follows the packet of a piece. *)
Definition afterwards (main : bool) (sent_count : Z) : M unit :=
  let schedule := schedule_next (Some tc_send_buffer_task) (Some tc_send_buffer_handle_failure) (ArgSendBuffer b) q g in
  if sent_count <? Z.of_nat (length (chosen main)) then
    _ ← store_buffer b (SendBufferTaskData d sent_count main); schedule
  else if main && bool_decide (is_Some (block_array2 m)) then
    _ ← store_buffer b (SendBufferTaskData d 0 false); schedule
  else
    _ ← store_buffer b (SendBufferTaskData d sent_count main);
    sent ← sending sid (tc_protocol_send_level_finalize (x_size m) (y_size m) (z_size m));
    if negb sent then _ ← handle_failure d true; free_buffer b
    else _ ← handle_success d q; free_buffer b.

(** A packet to the client of the transfer. *)
Lemma run_wire v out c ok out' :
  at_session sid v (on_wire out) -> c out = (ok, out') -> sending sid c v = (Ok ok, put sid (on_wire out') v).
Proof using Type. intros Hs Hc. exact (run_send sid v (on_wire out) (Connection out input) c ok out' Hs eq_refl Hc). Qed.

(** A task up to the answer of the socket. *)
Lemma send_piece_run main off out w ok out' :
  in_transfer main off out w -> (main = true \/ is_Some (block_array2 m)) -> (off < length (chosen main))%nat ->
  tc_protocol_send_level_data_chunk (Z.of_nat (length (piece (chosen main) off))) (padded (piece (chosen main) off)) (percent_at main off) out
    = (ok, out') ->
  run_send_buffer_task b q g w =
    (if negb ok then _ ← handle_failure d true; free_buffer b
     else afterwards main (Z.of_nat (off + length (piece (chosen main) off)))) (put sid (on_wire out') w).
Proof.
  intros [Ht Hx Hs (e & n & He & Hm & Hn & Hk & Hc)] Hmain Ho Hsend. unfold run_send_buffer_task.
  rewrite (bind_ok _ _ _ _ _ (run_get_buffer _ _ _ Ht)). cbn [st_send_map_data st_sent_count st_send_main_buffer].
  rewrite (bind_ok _ _ _ _ _ (run_get_send _ _ _ Hx)), bool_decide_true by done. cbn [negb].
  destruct (chosen_buffer main Hmain) as (-> & Hpos & Hlen).
  rewrite (bind_ok _ _ _ _ _ (run_checked _ _ _ (current_chunk_piece _ _ Ho Hlen))). cbv beta iota.
  rewrite (run_get _ _ _ _ Hs). cbn [whole sb_size]. rewrite (bind_ok _ _ _ _ _ (run_checked _ _ _ (percent_defined main off (Some (Connection out input)) Ho Hlen))).
  rewrite (bind_ok _ _ _ _ _ (run_wire _ _ _ ok out' Hs Hsend)).
  destruct ok; cbn [negb]; [|done].
  unfold afterwards. rewrite length_piece. rewrite wrapu_small by (split; [lia | width_lia]).
  replace (Z.of_nat off + Z.of_nat (Nat.min 1024 (length (chosen main) - off)))
    with (Z.of_nat (off + Nat.min 1024 (length (chosen main) - off))) by lia.
  destruct (_ <? _); [done|]. rewrite Hmap, (bind_ok _ _ _ _ _ (run_checked _ l _ eq_refl)).
  erewrite bind_ok by (eapply run_loaded_map; [exact He | exact Hm]). done.
Qed.

Lemma send_piece main off out w :
  in_transfer main off out w -> (main = true \/ is_Some (block_array2 m)) -> (off < length (chosen main))%nat -> reliable out ->
  run_send_buffer_task b q g w =
    afterwards main (Z.of_nat (off + length (piece (chosen main) off))) (put sid (on_wire (after_packet (data_packet main off) out)) w).
Proof.
  intros Hin Hmain Ho Hrel. pose proof (packet_accepted (data_packet main off) _ out eq_refl (length_padded _ _) Hrel) as Hp.
  by rewrite (send_piece_run main off out w true _ Hin Hmain Ho Hp).
Qed.

(** The end of the last task. *)
Lemma afterwards_last main off out w :
  in_transfer main off out w -> (length (chosen main) <= off + 1024)%nat -> (main = false \/ block_array2 m = None) ->
  afterwards main (Z.of_nat (off + length (piece (chosen main) off))) w =
    (sent ← sending sid (tc_protocol_send_level_finalize (x_size m) (y_size m) (z_size m));
     if negb sent then _ ← handle_failure d true; free_buffer b
     else _ ← handle_success d q; free_buffer b)
    (on_maps (put_buffer b (SendBufferTaskData d (Z.of_nat (off + length (piece (chosen main) off))) main)) w).
Proof.
  intros [Ht _ _ _] Hge Hend. unfold afterwards. rewrite length_piece.
  destruct (Z.ltb_spec (Z.of_nat (off + Nat.min 1024 (length (chosen main) - off))) (Z.of_nat (length (chosen main)))); [lia|].
  assert (main && bool_decide (is_Some (block_array2 m)) = false) as ->.
  { destruct Hend as [-> | ->]; [done|]. by rewrite andb_false_r. }
  by rewrite (bind_ok _ _ _ _ _ (run_store_buffer b _ _ _ Ht)).
Qed.

(** *** Room in the pool *)

Lemma next_accepted w arg :
  ready_for_next w ->
  exists p ws, tc_thread_schedule_next (thread_pool (w_server w)) (Some tc_send_buffer_task) (Some tc_send_buffer_handle_failure) (Some arg) q g
      = Some (p, ws) /\
    pool_queued p ≡ₚ Context q (Some tc_send_buffer_task) (Some arg) g :: pool_queued (thread_pool (w_server w)).
Proof using Type.
  intros (Hsd & _ & Hok & i & buf & Hi & Hb & Hroom).
  assert (exists p ws, tc_thread_schedule_next (thread_pool (w_server w)) (Some tc_send_buffer_task) (Some tc_send_buffer_handle_failure)
            (Some arg) q g = Some (p, ws)) as (p & ws & E).
  { unfold tc_thread_schedule_next. rewrite Hsd, Hi. cbn [mbind option_bind].
    rewrite Hb. cbn [mbind option_bind]. unfold task_buffer_enqueue. cbn [negb andb]. rewrite Hroom. cbn [negb]. by do 2 eexists. }
  exists p, ws. split; [exact E|]. by apply (next_law _ _ _ _ _ _ _ _ Hok Hsd E).
Qed.

Lemma next2_accepted w f arg gen :
  ready_for_next w ->
  exists p ws, tc_thread_schedule_next2 (thread_pool (w_server w)) (Some f) arg q gen = Some (true, p, ws) /\
    pool_queued p ≡ₚ Context q (Some f) arg gen :: pool_queued (thread_pool (w_server w)).
Proof using Type.
  intros (Hsd & _ & Hok & i & buf & Hi & Hb & Hroom).
  assert (exists p ws, tc_thread_schedule_next2 (thread_pool (w_server w)) (Some f) arg q gen = Some (true, p, ws)) as (p & ws & E).
  { unfold tc_thread_schedule_next2. rewrite Hsd, Hi. cbn [mbind option_bind].
    rewrite Hb. cbn [mbind option_bind]. unfold task_buffer_enqueue. cbn [negb andb]. rewrite Hroom. cbn [negb]. by do 2 eexists. }
  exists p, ws. split; [exact E|].
  apply (sched_next2_law (sch := pool_scheduler) (thread_pool (w_server w)) (Some f) arg q gen true p Hok). cbn. unfold pool_answer. by rewrite E.
Qed.

(** *** Going on *)

(** What a task that is not the last one does besides sending [p]: the map and
    the records stay as they are, the session stays locked, and the next task
    is queued. *)
Record kept (p : packet) (w w' : world) : Prop := {
  kp_wire : exists out, at_session sid w (on_wire out) /\ at_session sid w' (on_wire (after_packet p out));
  kp_entries : ms_entries (w_maps w') = ms_entries (w_maps w);
  kp_sends : ms_sends (w_maps w') = ms_sends (w_maps w);
  kp_live : ms_live (w_maps w') = ms_live (w_maps w);
  kp_pool : pool_queued (thread_pool (w_server w')) ≡ₚ chunk_context :: pool_queued (thread_pool (w_server w)) }.

(** The record and the pool when the next task has been queued. *)
Lemma go_on main off out w main' off' :
  in_transfer main off out w -> ready_for_next w ->
  exists w', (_ ← store_buffer b (SendBufferTaskData d (Z.of_nat off') main');
              schedule_next (Some tc_send_buffer_task) (Some tc_send_buffer_handle_failure) (ArgSendBuffer b) q g) w = (Ok tt, w') /\
    in_transfer main' off' out w' /\ ms_entries (w_maps w') = ms_entries (w_maps w) /\ ms_sends (w_maps w') = ms_sends (w_maps w) /\
    ms_live (w_maps w') = ms_live (w_maps w) /\
    pool_queued (thread_pool (w_server w')) ≡ₚ chunk_context :: pool_queued (thread_pool (w_server w)).
Proof.
  intros [Ht Hx Hs Hm] Hr. rewrite (bind_ok _ _ _ _ _ (run_store_buffer b w _ _ Ht)).
  destruct (next_accepted w (ArgSendBuffer b) Hr) as (p & ws & E & Hq).
  eexists. split; [eapply run_schedule_next; exact E|]. split_and!; [|done..].
  split; [cbn; apply lookup_insert_eq | done | done | done].
Qed.

Lemma put_transfer main off out out' w : in_transfer main off out w -> in_transfer main off out' (put sid (on_wire out') w).
Proof. intros [Ht Hx Hs Hm]. split; [done | done | by apply (at_put _ _ _ _ Hs) | done]. Qed.

(** A task that is not the last one. *)
Lemma step_on main off out w :
  in_transfer main off out w -> ready_for_next w -> (main = true \/ is_Some (block_array2 m)) -> (off < length (chosen main))%nat -> reliable out ->
  let after main' off' := exists w', run_send_buffer_task b q g w = (Ok tt, w') /\
    in_transfer main' off' (after_packet (data_packet main off) out) w' /\ kept (data_packet main off) w w' in
  ((off + 1024 < length (chosen main))%nat -> after main (off + 1024)%nat) /\
  ((length (chosen main) <= off + 1024)%nat -> main = true -> is_Some (block_array2 m) -> after false 0%nat).
Proof.
  intros Hst Hr Hmain Ho Hrel after.
  set (w1 := put sid (on_wire (after_packet (data_packet main off) out)) w).
  pose proof (put_transfer main off out (after_packet (data_packet main off) out) w Hst) as Hst'. fold w1 in Hst'.
  assert (forall main' off', (exists w', (_ ← store_buffer b (SendBufferTaskData d (Z.of_nat off') main');
              schedule_next (Some tc_send_buffer_task) (Some tc_send_buffer_handle_failure) (ArgSendBuffer b) q g) w1 = (Ok tt, w') /\
            in_transfer main' off' (after_packet (data_packet main off) out) w' /\ kept (data_packet main off) w w')) as Hgo.
  { intros main' off'. destruct (go_on main off _ w1 main' off' Hst' Hr) as (w' & E & Hin & H1 & H2 & H3 & H4).
    exists w'. split_and!; [exact E | exact Hin |]. split; [|exact H1 | exact H2 | exact H3 | exact H4].
    exists out. split; [exact (sg_session _ _ _ _ Hst) | exact (sg_session _ _ _ _ Hin)]. }
  unfold after. rewrite (send_piece main off out w Hst Hmain Ho Hrel), length_piece. unfold afterwards. fold w1. split.
  - intros Hlt. rewrite Nat.min_l by lia. destruct (Z.ltb_spec (Z.of_nat (off + 1024)) (Z.of_nat (length (chosen main)))); [|lia].
    apply Hgo.
  - intros Hge -> H2. destruct (Z.ltb_spec (Z.of_nat (off + Nat.min 1024 (length (chosen true) - off))) (Z.of_nat (length (chosen true)))); [lia|].
    rewrite bool_decide_true by done. cbn [andb]. apply (Hgo false 0%nat).
Qed.

(** *** The end *)

(** The entry without the reader lock and the reference of the transfer. *)
Definition given_back (e : tc_map_cache_entry) : tc_map_cache_entry :=
  entry_count (ce_open_count e - 1) (entry_readers (pred (ce_map_readers e)) e).

(** The number of compressed buffers. *)
Definition buffers_held : Z :=
  (if sb_data (sm_block_array_buffer x) is Some _ then 1 else 0) + (if sb_data (sm_block_array2_buffer x) is Some _ then 1 else 0).

(** Without the transfer: its reference to the map, whose entry is [e], its
    compressed buffers and both of its records. *)
Definition given_up (e : tc_map_cache_entry) (st : map_state) : map_state :=
  MapState (ms_cache st) (<[l := entry_count (ce_open_count e - 1) e]> (ms_entries st)) (ms_load_args st)
    (delete d (ms_sends st)) (delete b (ms_buffers st)) (ms_next st) (ms_live st - buffers_held) (ms_loads st).

(** [free_send_map_data] and the [p_free] of the task's record. *)
Lemma give_up_run w e t :
  ms_sends (w_maps w) !! d = Some x -> ms_buffers (w_maps w) !! b = Some t ->
  at_entry l w e -> ce_lock e = Some false -> - 2 ^ 31 < ce_open_count e <= 2 ^ 31 ->
  (_ ← free_send_map_data d; free_buffer b) w = (Ok tt, on_maps (given_up e) w).
Proof.
  intros Hx Hb He Hk Hc. erewrite bind_ok.
  2: { unfold free_send_map_data. rewrite (bind_ok _ _ _ _ _ (run_get_send _ _ _ Hx)), Hmap.
       rewrite (bind_ok _ _ _ _ _ (run_unref _ _ _ He Hk Hc)), (bind_ok _ _ _ _ _ (run_free_data _ _)), (bind_ok _ _ _ _ _ (run_free_data _ _)).
       eapply run_free_send. exact Hx. }
  erewrite run_free_buffer by exact Hb. rewrite !on_maps_on_maps. f_equal. apply on_maps_ext.
  unfold given_up, buffers_held, put_entry, with_entries, with_live, with_sends, with_buffers. cbn. f_equal. lia.
Qed.

(** *** Failure *)

(** The session and the entry when the locks have been given back. *)
Definition unlocked_for (s' : tc_session) (e : tc_map_cache_entry) (w : world) : world :=
  on_maps (put_entry l (entry_readers (pred (ce_map_readers e)) e)) (put sid (with_lock false s') w).

(** The failure handler of the user. *)
Definition user_told : M unit :=
  client_failure (failure_handler (sm_schedule_info x)) (entry_context (sm_schedule_info x)) (entry_session_generation (sm_schedule_info x)).

(** It leaves the transfer and its map alone. *)
Record leaves_alone (w w' : world) : Prop := {
  la_task : ms_buffers (w_maps w') !! b = ms_buffers (w_maps w) !! b;
  la_send : ms_sends (w_maps w') !! d = ms_sends (w_maps w) !! d;
  la_map : ms_entries (w_maps w') !! l = ms_entries (w_maps w) !! l }.

(** [handle_failure]: the user is told, with nothing locked any more. *)
Lemma failure_run w s' e n :
  ms_sends (w_maps w) !! d = Some x -> at_session sid w s' -> action_lock s' = true ->
  at_entry l w e -> ce_map e = MapLoaded m -> ce_map_readers e = S n ->
  handle_failure d true w = (_ ← user_told; free_send_map_data d) (unlocked_for s' e w).
Proof.
  intros Hx Hs Hl He Hm Hn. unfold handle_failure. rewrite (bind_ok _ _ _ _ _ (run_get_send _ _ _ Hx)). cbn [when].
  rewrite (bind_ok _ _ _ _ _ (run_release _ _ _ Hs Hl)), Hmap.
  erewrite bind_ok by (eapply run_reader_unlock; [exact He | exact Hm | exact Hn]).
  unfold unlocked_for. rewrite Hn. cbn [pred]. unfold mbind at 1, M_bind at 1. unfold invoke_handler. cbn [tc_task_backlog_invoke_handler replay do_event given].
  rewrite with_pool_same, M_unit_ret. done.
Qed.

(** The failing end of a task, with the session in state [s']. *)
Lemma failing_run main off out w e s' w1 :
  in_transfer main off out w -> at_entry l w e -> action_lock s' = true ->
  user_told (unlocked_for s' e w) = (Ok tt, w1) -> leaves_alone (unlocked_for s' e w) w1 ->
  (_ ← handle_failure d true; free_buffer b) (put sid s' w)
  = (Ok tt, on_maps (given_up (entry_readers (pred (ce_map_readers e)) e)) w1).
Proof.
  intros [Ht Hx Hs (e' & n & He' & Hm & Hn & Hk & Hc)] He Hl Hu [Lt Lx Lm].
  assert (e' = e) as -> by (unfold at_entry in *; congruence).
  unfold mbind at 1, M_bind at 1. rewrite (failure_run (put sid s' w) s' e n Hx (at_put _ _ _ _ Hs) Hl He Hm Hn).
  assert (unlocked_for s' e (put sid s' w) = unlocked_for s' e w) as ->.
  { unfold unlocked_for. f_equal. apply put_put. }
  rewrite (bind_ok _ _ _ _ _ Hu).
  pose proof (give_up_run w1 (entry_readers (pred (ce_map_readers e)) e) (SendBufferTaskData d (Z.of_nat off) main)) as H.
  unfold mbind at 1, M_bind at 1 in H. apply H.
  - by rewrite Lx.
  - by rewrite Lt.
  - unfold at_entry. rewrite Lm. cbn. apply lookup_insert_eq.
  - exact Hk.
  - exact Hc.
Qed.

Definition end_packet : packet := LevelFinalize (x_size m) (y_size m) (z_size m).

(** C20. A transfer that fails gives everything back.  There are three ways to
    fail: a piece cannot be sent; the end of the level cannot be sent, after
    the last piece; or the server shuts down and the failure task runs in
    place of the next piece.  In each of them, when the user's failure handler
    returns and has left the transfer alone, the task returns; the handler was
    called once, with the action lock of the session and the reader lock of
    the map released, and what it has left is changed in nothing but this: the
    reference to the map is given back, the compressed buffers are freed, and
    so are both records of the transfer. *)
Theorem transfer_failure_spec main off out w e :
  in_transfer main off out w -> (main = true \/ is_Some (block_array2 m)) -> (off < length (chosen main))%nat -> at_entry l w e ->
  let failing (run : M unit) out' v :=
    forall w1, user_told (unlocked_for (on_wire out') e v) = (Ok tt, w1) -> leaves_alone (unlocked_for (on_wire out') e v) w1 ->
      run w = (Ok tt, on_maps (given_up (entry_readers (pred (ce_map_readers e)) e)) w1) in
  (forall out', tc_protocol_send_level_data_chunk (Z.of_nat (length (piece (chosen main) off))) (padded (piece (chosen main) off))
       (percent_at main off) out = (false, out') -> failing (run_send_buffer_task b q g) out' w) /\
  (forall out1 out2, tc_protocol_send_level_data_chunk (Z.of_nat (length (piece (chosen main) off))) (padded (piece (chosen main) off))
       (percent_at main off) out = (true, out1) -> tc_protocol_send_level_finalize (x_size m) (y_size m) (z_size m) out1 = (false, out2) ->
     (length (chosen main) <= off + 1024)%nat -> (main = false \/ block_array2 m = None) ->
     failing (run_send_buffer_task b q g) out2
       (on_maps (put_buffer b (SendBufferTaskData d (Z.of_nat (off + length (piece (chosen main) off))) main)) w)) /\
  failing (run_send_buffer_handle_failure b) out w.
Proof.
  intros Hin Hmain Ho He failing. pose proof Hin as [Ht Hx Hs _]. split_and!.
  - intros out' Hf w1 Hu La. rewrite (send_piece_run main off out w false out' Hin Hmain Ho Hf). cbn [negb].
    by apply (failing_run main off out).
  - intros out1 out2 Hf He2 Hge Hend w1 Hu La.
    rewrite (send_piece_run main off out w true out1 Hin Hmain Ho Hf). cbn [negb].
    rewrite (afterwards_last main off _ _ (put_transfer main off out out1 w Hin) Hge Hend).
    set (off' := (off + length (piece (chosen main) off))%nat) in *. set (v := on_maps _ w) in *.
    assert (in_transfer main off' out1 (put sid (on_wire out1) v)) as Hin1.
    { destruct Hin as [_ _ _ Hm]. split; [cbn; apply lookup_insert_eq | done | by apply (at_put sid w _ _ Hs) | done]. }
    change (on_maps _ (put sid (on_wire out1) w)) with (put sid (on_wire out1) v).
    rewrite (bind_ok _ _ _ _ _ (run_wire _ _ _ false out2 (sg_session _ _ _ _ Hin1) He2)). cbn [negb].
    rewrite put_put. apply (failing_run main off' out v e (on_wire out2)); [|done..].
    destruct Hin as [_ _ _ Hm]. split; [cbn; apply lookup_insert_eq | done | done | done].
  - intros w1 Hu La. unfold run_send_buffer_handle_failure. rewrite (bind_ok _ _ _ _ _ (run_get_buffer _ _ _ Ht)). cbn [st_send_map_data].
    rewrite <- (put_same sid w _ Hs) at 1. by apply (failing_run main off out).
Qed.

(** *** Success *)

(** The task of the user of the transfer. *)
Variable user : task.
Hypothesis Huser : success_handler (sm_schedule_info x) = Some user.

(** The user's task as it is queued: with the map, and its context. *)
Definition user_context : tc_thread_pool_context task task_arg :=
  Context q (Some user) (Some (ArgMap (Args l (entry_context (sm_schedule_info x))))) (entry_session_generation (sm_schedule_info x)).

(** What the last task does, from [w] to [w']. *)
Record delivered (w w' : world) (out : psocket) : Prop := {
  dl_session : at_session sid w' (with_lock false (on_wire out));
  dl_task : ms_buffers (w_maps w') = delete b (ms_buffers (w_maps w));
  dl_send : ms_sends (w_maps w') = delete d (ms_sends (w_maps w));
  dl_map e : at_entry l w e -> ms_entries (w_maps w') = <[l := given_back e]> (ms_entries (w_maps w));
  dl_live : ms_live (w_maps w') = ms_live (w_maps w) + 1 - buffers_held;
  dl_pool : pool_queued (thread_pool (w_server w')) ≡ₚ user_context :: pool_queued (thread_pool (w_server w)) }.

Lemma success_run main off out w :
  in_transfer main off out w -> ready_for_next w ->
  exists w', (_ ← handle_success d q; free_buffer b) w = (Ok tt, w') /\ delivered w w' out.
Proof.
  intros [Ht Hx Hs (e & n & He & Hm & Hn & Hk & Hc)] Hr. unfold handle_success.
  destruct (next2_accepted w user (ctx_arg user_context) (entry_session_generation (sm_schedule_info x)) Hr) as (p & ws & Ep & Hq).
  destruct Hr as (_ & Hg & _). set (w1 := put sid (with_lock false (on_wire out)) w).
  set (w2 := on_maps (put_entry l (entry_readers n e)) w1).
  set (w3 := on_maps (fun st => with_live (ms_live st + 1) st) (with_pool_heap p (Heap (h_grants (w_heap w)) (S (h_next (w_heap w)))) w2)).
  assert (invoke_handler (cb := client_callbacks) (client_entry (sm_schedule_info x)) None (Some tc_map_unref) (Some l) q w2 = (Ok tt, w3)) as Einv.
  { unfold invoke_handler, tc_task_backlog_invoke_handler, client_entry, p_malloc. change (w_heap w2) with (w_heap w).
    change (h_grants (w_heap w) (h_next (w_heap w))) with (grants w 0). rewrite Hg. cbn [negb entry_priority success_handler entry_context entry_session_generation].
    assert (q <> PRIORITY_INVALID) as Hne. { intros E. rewrite E in Ep. unfold tc_thread_schedule_next2 in Ep. by destruct (shutdown _). }
    rewrite !bool_decide_true by done. cbn [andb sched_next2 map_scheduler fmap option_fmap option_map]. rewrite Huser.
    change (thread_pool (w_server w2)) with (thread_pool (w_server w)). cbn [user_context ctx_arg] in Ep. rewrite Ep. done. }
  assert (handle_success d q w = free_send_map_data d w3) as E1.
  { unfold handle_success. rewrite (bind_ok _ _ _ _ _ (run_get_send _ _ _ Hx)), (bind_ok _ _ _ _ _ (run_release _ _ _ Hs Hlock)), Hmap.
    rewrite (bind_ok _ _ _ _ _ (run_checked _ l _ eq_refl)).
    by rewrite (bind_ok _ _ _ _ _ (run_reader_unlock l w1 e m n He Hm Hn)), (bind_ok _ _ _ _ _ Einv). }
  exists (on_maps (given_up (entry_readers n e)) w3). split.
  - unfold handle_success in E1. unfold mbind at 1, M_bind at 1. rewrite E1.
    pose proof (give_up_run w3 (entry_readers n e) _ Hx Ht (lookup_insert_eq _ _ _) Hk Hc) as H. exact H.
  - split; cbn; try done.
    + unfold at_session. cbn. exact (at_put _ _ _ (with_lock false (on_wire out)) Hs).
    + intros e' He'. assert (e' = e) as -> by (unfold at_entry in *; congruence). unfold given_back. rewrite Hn. apply insert_insert_eq.
Qed.

(** The last task of a transfer. *)
Lemma step_last main off out w :
  in_transfer main off out w -> ready_for_next w -> (main = true \/ is_Some (block_array2 m)) -> (off < length (chosen main))%nat -> reliable out ->
  (length (chosen main) <= off + 1024)%nat -> (main = false \/ block_array2 m = None) ->
  exists w', run_send_buffer_task b q g w = (Ok tt, w') /\ delivered w w' (after_packet end_packet (after_packet (data_packet main off) out)).
Proof.
  intros Hst Hr Hmain Ho Hrel Hge Hend. rewrite (send_piece main off out w Hst Hmain Ho Hrel).
  set (out1 := after_packet (data_packet main off) out). pose proof (put_transfer main off out out1 w Hst) as Hst'.
  rewrite (afterwards_last main off _ _ Hst' Hge Hend). set (off' := (off + length (piece (chosen main) off))%nat). set (w1 := on_maps _ _).
  assert (in_transfer main off' out1 w1) as Hst1 by (destruct Hst' as [_ ? ? ?]; split; [cbn; apply lookup_insert_eq | done | done | done]).
  pose proof (packet_accepted end_packet _ out1 eq_refl I ltac:(done)) as Hp.
  rewrite (bind_ok _ _ _ _ _ (run_wire _ _ _ true _ (sg_session _ _ _ _ Hst1) Hp)). cbn [negb].
  destruct (success_run main off' _ _ (put_transfer main off' out1 (after_packet end_packet out1) w1 Hst1) Hr) as (w' & E & [D1 D2 D3 D4 D5 D6]).
  exists w'. split; [exact E|]. split; [exact D1 | | exact D3 | exact D4 | exact D5 | exact D6].
  rewrite D2. cbn. apply delete_insert_eq.
Qed.

(** *** All tasks of a transfer *)

Section Rounds.
Context {zl : Zlib} {sz : CacheSizes} {ld : MapLoader}.

(** A turn of a worker: the world when the task has been taken out of the
    queue, and when the worker is back for the next one. *)
Definition pool_turn (w : world) : option (world * world) :=
  match worker_take (thread_pool (w_server w)) with
  | TurnRun t p =>
      let v := on_server (with_pool p) w in
      f ← ctx_func t;
      match run_map_task f (ctx_arg t) (ctx_priority t) (ctx_session_generation t) v with
      | (Ok _, v') => Some (v, on_server (with_pool (worker_finish (thread_pool (w_server v')) (is_blocking_task t)).1) v')
      | (Stuck _, _) => None
      end
  | _ => None
  end.

(** [k] turns; [other i] is what the rest of the server does before the turn
    after which [i] are left.  The worlds around each turn, and the last one. *)
Fixpoint rounds (other : nat -> world -> world) (k : nat) (w : world) : option (list (world * world) * world) :=
  match k with
  | O => Some ([], w)
  | S k' =>
      '(v, v') ← pool_turn (other k' w);
      '(turns, w') ← rounds other k' v';
      Some ((v, v') :: turns, w')
  end.

(** What the rest of the server may do between two tasks of the transfer: it
    leaves the transfer alone, and brings its task to the front of the queue. *)
Record between (w w' : world) : Prop := {
  bt_task : ms_buffers (w_maps w') !! b = ms_buffers (w_maps w) !! b;
  bt_send : ms_sends (w_maps w') !! d = ms_sends (w_maps w) !! d;
  bt_session : session_buffer (w_server w') !! sid = session_buffer (w_server w) !! sid;
  bt_map : holds_map w';
  bt_memory : grants w' 0 = true;
  bt_running : shutdown (thread_pool (w_server w')) = false;
  bt_pool : buffers_ok (thread_pool (w_server w')) /\ pattern_ok (thread_pool (w_server w'));
  bt_next : exists p, worker_take (thread_pool (w_server w')) = TurnRun chunk_context p }.

Lemma between_taken main off out w w' :
  streaming main off out w -> between w w' ->
  exists p, worker_take (thread_pool (w_server w')) = TurnRun chunk_context p /\
    in_transfer main off out (on_server (with_pool p) w') /\ ready_for_next (on_server (with_pool p) w').
Proof.
  intros [[Ht Hx Hs Hm] _] [Bt Bx Bs Bm Bg Br [Bb Bp] [p Ep]]. exists p. split; [exact Ep|].
  destruct (taken_law _ _ _ Bb Bp Ep) as (Hok & Hsd & _ & i & buf & Hi & Hb & Hroom). split.
  - split; [cbn; by rewrite Bt | cbn; by rewrite Bx | unfold at_session; cbn; by rewrite Bs | exact Bm].
  - split_and!; [cbn; by rewrite Hsd | exact Bg | exact Hok |]. by exists i, buf.
Qed.

(** The turn of a task that returns. *)
Lemma pool_turn_run w p v' :
  worker_take (thread_pool (w_server w)) = TurnRun chunk_context p ->
  run_send_buffer_task b q g (on_server (with_pool p) w) = (Ok tt, v') ->
  pool_turn w = Some (on_server (with_pool p) w,
                      on_server (with_pool (worker_finish (thread_pool (w_server v')) (is_blocking_task chunk_context)).1) v').
Proof. intros Ht Hr. unfold pool_turn. rewrite Ht. cbn [chunk_context ctx_func mbind option_bind run_map_task ctx_arg ctx_priority ctx_session_generation]. by rewrite Hr. Qed.

Fixpoint data_packets (main : bool) (k off : nat) : list packet :=
  match k with O => [] | S k' => data_packet main off :: data_packets main k' (off + 1024) end.

Definition pieces_left (main : bool) (off : nat) : nat := pieces (length (chosen main) - off).

(** The rest of the block arrays, from [off] in the chosen one on. *)
Definition rest_packets (main : bool) (off : nat) : list packet :=
  data_packets main (pieces_left main off) off ++
  (if main && bool_decide (is_Some (block_array2 m)) then data_packets false (pieces_left false 0) 0 else []).

Definition wire (ps : list packet) : list Z := concat (map packet_bytes ps).

(** The socket after these packets. *)
Definition after_packets (ps : list packet) (out : psocket) : psocket := fold_left (fun o p => after_packet p o) ps out.

Lemma after_packets_wire ps out : sk_out (after_packets ps out) = sk_out out ++ wire ps.
Proof using Type.
  revert out. induction ps as [|p ps IH]; intros out; cbn [after_packets fold_left].
  - by rewrite app_nil_r.
  - fold (after_packets ps (after_packet p out)). rewrite IH. unfold wire. cbn. by rewrite app_assoc.
Qed.

Lemma pieces_left_next main off :
  (off < length (chosen main))%nat -> pieces_left main off = S (pieces_left main (off + 1024)) /\
    ((length (chosen main) <= off + 1024)%nat -> pieces_left main (off + 1024) = 0%nat).
Proof using Type.
  intros Ho. unfold pieces_left. destruct (pieces_spec (length (chosen main) - off) ltac:(lia)) as [E1 E2].
  replace (length (chosen main) - (off + 1024))%nat with (length (chosen main) - off - 1024)%nat by lia.
  split; [done|]. intros H. apply E2. lia.
Qed.

(** The packets that are left: the piece at hand, and what follows it. *)
Lemma rest_packets_next main off :
  (off < length (chosen main))%nat ->
  rest_packets main off = data_packet main off ::
    (if decide (off + 1024 < length (chosen main))%nat then rest_packets main (off + 1024)
     else if main && bool_decide (is_Some (block_array2 m)) then rest_packets false 0 else []).
Proof using Type.
  intros Hoff. destruct (pieces_left_next main off Hoff) as [E1 E0].
  unfold rest_packets at 1. rewrite E1. cbn [data_packets app]. f_equal. destruct (decide _); [done|].
  rewrite E0 by lia. cbn [data_packets app]. destruct (main && _); [|done]. unfold rest_packets. cbn [andb]. by rewrite app_nil_r.
Qed.

(** All turns but the last keep what the transfer holds, and the last gives it
    back. *)
Definition sent_in_turns (ps : list packet) (turns : list (world * world)) (w' : world) (out : psocket) : Prop :=
  exists qs p kepts v, ps = qs ++ [p] /\ turns = kepts ++ [(v, w')] /\ Forall2 (fun p t => kept p t.1 t.2) qs kepts /\
    delivered v w' (after_packet end_packet (after_packets ps out)).

Lemma sent_in_turns_cons p ps v v' turns w' out :
  kept p v v' -> sent_in_turns ps turns w' (after_packet p out) -> sent_in_turns (p :: ps) ((v, v') :: turns) w' out.
Proof using Type.
  intros Hk (qs & p' & kepts & v0 & -> & -> & Hf & D). exists (p :: qs), p', ((v, v') :: kepts), v0.
  split_and!; [done | done | by constructor | exact D].
Qed.

Lemma rounds_run other : forall k main off out w,
  (forall i main off out w, streaming main off out w -> between w (other i w)) -> streaming main off out w ->
  (main = true \/ is_Some (block_array2 m)) -> (off < length (chosen main))%nat -> reliable out -> k = length (rest_packets main off) ->
  exists turns w', rounds other k w = Some (turns, w') /\ sent_in_turns (rest_packets main off) turns w' out.
Proof.
  induction k as [|k IH]; intros main off out w Hother Hst Hmain Hoff Hrel; rewrite (rest_packets_next main off Hoff); [done|].
  intros Hk. cbn [length] in Hk. injection Hk as Hk. cbn [rounds].
  destruct (between_taken main off out w _ Hst (Hother k main off out w Hst)) as (p & Ep & Hin & Hr).
  set (v := on_server (with_pool p) (other k w)) in *.
  destruct (step_on main off out v Hin Hr Hmain Hoff Hrel) as [Hon Hsw].
  assert (forall main' off', (main' = true \/ is_Some (block_array2 m)) -> (off' < length (chosen main'))%nat -> k = length (rest_packets main' off') ->
    (exists v', run_send_buffer_task b q g v = (Ok tt, v') /\ in_transfer main' off' (after_packet (data_packet main off) out) v' /\ kept (data_packet main off) v v') ->
    exists turns w', ('(v, v') ← pool_turn (other k w); '(turns, w') ← rounds other k v'; Some ((v, v') :: turns, w')) = Some (turns, w') /\
      sent_in_turns (data_packet main off :: rest_packets main' off') turns w' out) as Hgo.
  { intros main' off' Hm' Ho' Hk' (v' & E & Hin' & [K1 K2 K3 K4 K5]). rewrite (pool_turn_run _ p v' Ep E). cbn [mbind option_bind].
    set (v'' := on_server _ v'). assert (kept (data_packet main off) v v'') as Hkept by (split; [exact K1 | exact K2 | exact K3 | exact K4 | exact K5]).
    destruct (IH main' off' (after_packet (data_packet main off) out) v'' Hother) as (turns & w' & -> & Hs); [| done.. |].
    - destruct Hin' as [I1 I2 I3 I4]. split; [split; [exact I1 | exact I2 | exact I3 | exact I4]|]. rewrite (kp_pool _ _ _ Hkept). left.
    - do 2 eexists. split; [done|]. by apply sent_in_turns_cons. }
  destruct (decide (off + 1024 < length (chosen main))%nat) as [Hlt|Hge].
  - apply (Hgo main (off + 1024)%nat); [done | done | done | by apply Hon].
  - destruct (main && bool_decide (is_Some (block_array2 m))) eqn:E2.
    + apply andb_true_iff in E2 as [-> H2%bool_decide_eq_true].
      apply (Hgo false 0%nat); [by right | apply chosen_buffer; by right | done | apply Hsw; [lia | done | done]].
    + assert (main = false \/ block_array2 m = None) as Hend.
      { destruct main; [right | by left]. cbn [andb] in E2. apply bool_decide_eq_false in E2. by apply eq_None_not_Some. }
      destruct (step_last main off out v Hin Hr Hmain Hoff Hrel ltac:(lia) Hend) as (v' & E & [D1 D2 D3 D4 D5 D6]).
      rewrite (pool_turn_run _ p v' Ep E). cbn [mbind option_bind]. cbn [length] in Hk. subst k. cbn [rounds mbind option_bind].
      do 2 eexists. split; [done|]. exists [], (data_packet main off), [], v. split_and!; [done | done | constructor |].
      split; [exact D1 | exact D2 | exact D3 | exact D4 | exact D5 | exact D6].
Qed.

(** The compressed block arrays in full, as the data of their packets. *)
Definition packet_data (p : packet) : list Z :=
  match p with LevelDataChunk n data _ => take (Z.to_nat n) data | _ => [] end.

Lemma data_packets_data main k off : map packet_data (data_packets main k off) = pieces_from k off (chosen main).
Proof using Type.
  revert off. induction k as [|k IH]; intros off; cbn; [done|]. rewrite IH. f_equal.
  unfold padded. by rewrite Nat2Z.id, take_app_length.
Qed.

(** C2. A transfer, whatever other tasks do between its own as long as they leave
    it alone, keep the pool well formed and let its task come up; on a socket
    that takes everything, without a shutdown, and with memory for the record
    of the user's task.  Each of its tasks is the one that was queued before.
    After as many turns of a worker as the compressed arrays have pieces of
    1024 bytes, every task has returned, and the client has been sent one
    packet per piece, in order, whose data are the compressed block array (and
    the second one, if the map has it), and then the end of the level.  Every
    task but the last leaves the entry of the map and both records as they
    are, the session locked, and the next task queued.  The last one unlocks
    the session, gives back the reader lock of the map and the reference to
    it, frees the compressed buffers and both records, and queues the task of
    the user with the map, which it gets without a reference of its own. *)
Theorem transfer_spec other w out :
  (forall i main off out w, streaming main off out w -> between w (other i w)) -> streaming true 0 out w -> reliable out ->
  let ps := rest_packets true 0 in
  (exists turns w' out', rounds other (length ps) w = Some (turns, w') /\ length turns = length ps /\
     (exists qs p kepts v, ps = qs ++ [p] /\ turns = kepts ++ [(v, w')] /\ Forall2 (fun p t => kept p t.1 t.2) qs kepts /\
        delivered v w' out') /\
     sk_out out' = sk_out out ++ wire ps ++ packet_bytes end_packet) /\
  concat (map packet_data ps) = blocks ++ (if bool_decide (is_Some (block_array2 m)) then blocks2 else []).
Proof.
  intros Ho Hst Hrel ps. split.
  - destruct (rounds_run other (length ps) true 0 out w Ho Hst (or_introl eq_refl)) as (turns & w' & E & qs & p & kepts & v & Eps & Et & Hf & D);
      [apply (chosen_buffer true); by left | done | done |]. fold ps in Eps.
    do 3 eexists. split_and!; [exact E | | exists qs, p, kepts, v; split_and!; [exact Eps | exact Et | exact Hf | exact D] |].
    + rewrite Eps, Et, !length_app, (Forall2_length _ _ _ Hf). done.
    + cbn. by rewrite after_packets_wire, app_assoc.
  - unfold ps, rest_packets. rewrite map_app, concat_app, data_packets_data, pieces_concat by done. rewrite drop_0. f_equal.
    cbn [andb]. destruct (bool_decide _); [|done]. by rewrite data_packets_data, pieces_concat, drop_0.
Qed.
End Rounds.
End Transfer.
