(* ===== verification/MapSendStart.v ===== *)
(** * The start of a transfer

    [on_map_load_success]: the blocking task that gets the map from the cache,
    locks it for reading, compresses its block arrays and schedules
    [tc_send_map_task2].

    [tc_send_map_task2]: the packets a level starts with, as a list computed
    from the map and the extensions of the client; what the task does with
    them; and the maps and clients it cannot deal with. *)

From S2P Require Import Prelude Buffer Nbt NbtSpec NbtFile NbtFileProps Socket Protocol ProtocolSpec ThreadPool ThreadPoolSpec Heartbeat Map.
From S2P Require Import TaskBacklog TaskBacklogProps Float32 Objects Session SessionSpec MapCache MapCacheSpec MapCacheProps Compression MapSend MapSendProps.

Local Open Scope Z_scope.
Set Default Proof Using "Type*".

(** ** The packets of an environment *)

Section Packets.
Context {abi : CharABI}.

Definition scaled_value (bits scale : Z) : option Z := float_to_int32 (float_mul (float_of_bits bits) (float_of_Z scale)).

Definition aspect_packets (m : tc_map) (e : tc_map_env_aspect_extension) : option (list packet) :=
  a ← env_appearance_extension m;
  url ← ap_texture_url a;
  clouds ← scaled_value (as_clouds_speed e) 256;
  weather ← scaled_value (as_weather_speed e) 256;
  fade ← scaled_value (as_weather_fade e) 128;
  Some [SetTextureUrl url; SetMapEnvProperty 0 (to_char (as_side_block e)); SetMapEnvProperty 1 (to_char (as_edge_block e));
        SetMapEnvProperty 2 (as_edge_height e); SetMapEnvProperty 3 (as_clouds_height e); SetMapEnvProperty 5 clouds;
        SetMapEnvProperty 6 weather; SetMapEnvProperty 7 fade; SetMapEnvProperty 8 (to_char (as_use_exponential_fog e));
        SetMapEnvProperty 9 (as_side_offset e)].

Definition property_packets (url : list Z) (a : tc_map_env_appearance_extension) : list packet :=
  [SetTextureUrl url; SetMapEnvProperty 0 (to_char (ap_side_block a)); SetMapEnvProperty 1 (to_char (ap_edge_block a));
   SetMapEnvProperty 2 (ap_side_level a); SetMapEnvProperty 3 (ap_cloud_level a); SetMapEnvProperty 4 (ap_maximum_view_distance a)].

Definition appearance_packet (version : Z) (url : list Z) (a : tc_map_env_appearance_extension) : option packet :=
  if version =? 2 then Some (EnvMapAppearance2 url (ap_side_block a) (ap_edge_block a) (ap_side_level a) (ap_cloud_level a) (ap_maximum_view_distance a))
  else if version =? 1 then Some (EnvMapAppearance1 url (ap_side_block a) (ap_edge_block a) (ap_side_level a))
  else None.

Definition appearance_packets (s : tc_session) (a : tc_map_env_appearance_extension) : option (list packet) :=
  let version := tc_session_get_extension_version s TC_CPE_ENV_MAP_APPEARANCE_EXTENSION_INDEX in
  url ← ap_texture_url a;
  p ← appearance_packet version url a;
  if version <? ap_extension_version a
  then if supports s TC_CPE_ENV_MAP_ASPECT_EXTENSION_INDEX then Some (property_packets url a ++ [p]) else None
  else Some [p].

Definition color_ok (c : tc_map_color_config) : bool := color_in_range (Map.red c) && color_in_range (green c) && color_in_range (blue c).
Definition color_packet (field : Z) (c : tc_map_color_config) : packet := SetEnvColor field (Map.red c) (green c) (blue c).

Definition color_packets (e : tc_map_env_colors_extension) : option (list packet) :=
  if color_ok (ec_sky e) && color_ok (ec_cloud e) && color_ok (ec_fog e) && color_ok (ec_ambient e) && color_ok (ec_sunlight e)
  then Some [color_packet 0 (ec_sky e); color_packet 1 (ec_cloud e); color_packet 2 (ec_fog e); color_packet 3 (ec_ambient e);
             color_packet 4 (ec_sunlight e)]
  else None.

(** What an extension of the map needs of the client. *)
Definition needed {A} (s : tc_session) (index : Z) (ext : option A) (ps : A -> option (list packet)) : option (list packet) :=
  match ext with
  | Some e => if supports s index then ps e else None
  | None => Some []
  end.

(** The packets after the start of the level; [None] when the task fails or
    runs into undefined behaviour. *)
Definition env_packets (s : tc_session) (m : tc_map) : option (list packet) :=
  look ← match env_aspect_extension m, env_appearance_extension m with
         | Some e, _ => if supports s TC_CPE_ENV_MAP_ASPECT_EXTENSION_INDEX then aspect_packets m e else None
         | None, Some a => appearance_packets s a
         | None, None => Some []
         end;
  weather ← needed s TC_CPE_ENV_MAP_WEATHER_TYPE_EXTENSION_INDEX (env_weather_extension m) (fun e => Some [EnvSetWeatherType (ew_weather_type e)]);
  colors ← needed s TC_CPE_ENV_MAP_COLORS_EXTENSION_INDEX (env_colors_extension m) color_packets;
  definitions ← needed s TC_CPE_BLOCK_DEFINITIONS_EXTENSION_INDEX (block_definition_extensions m) (fun _ => Some []);
  Some (look ++ weather ++ colors ++ definitions).

Definition init_packet (s : tc_session) (m : tc_map) : packet :=
  if supports s TC_CPE_FASTMAP_EXTENSION_INDEX then LevelInitialize2 (s32 (block_array_count m)) else LevelInitialize.
End Packets.

(** ** Sending them *)

Section Start.
Context {cl : MapClients} {abi : CharABI}.

(** As in a transfer; the session has no socket in [s] but the one given. *)
Variables (d l : loc) (x : tc_send_map_data) (m : tc_map) (s : tc_session) (input : list recv_answer) (w : world).
Abbreviation sid := (sm_session x).
Hypothesis Hsession : exists s0, at_session sid w s0.

(** The world when the socket has got this far. *)
Definition wired (out : psocket) : world := put sid (with_socket (Some (Connection out input)) s) w.

Lemma at_wired out : at_session sid (wired out) (with_socket (Some (Connection out input)) s).
Proof. destruct Hsession as [s0 H]. by apply (at_put _ _ s0). Qed.

Lemma wired_sending p snd out :
  send_packet p = Some snd -> packet_ok p -> reliable out -> sending sid snd (wired out) = (Ok true, wired (after_packet p out)).
Proof.
  intros Hs Hp Hr. erewrite run_sending; [| apply at_wired | done | exact (packet_accepted p snd out Hs Hp Hr)].
  unfold wired at 1. rewrite put_put. done.
Qed.

Lemma wired_step p (action : M bool) k out :
  action (wired out) = (Ok true, wired (after_packet p out)) -> sent_or_fail d action k (wired out) = k (wired (after_packet p out)).
Proof. intros E. unfold sent_or_fail. by rewrite (bind_ok _ _ _ _ _ E). Qed.

Lemma wired_packet p snd k out :
  send_packet p = Some snd -> packet_ok p -> reliable out ->
  sent_or_fail d (sending sid snd) k (wired out) = k (wired (after_packet p out)).
Proof. intros Hs Hp Hr. apply wired_step. by apply wired_sending. Qed.

Lemma wired_property f v k out :
  reliable out -> sent_or_fail d (property sid f v) k (wired out) = k (wired (after_packet (SetMapEnvProperty f v) out)).
Proof. intros Hr. by apply (wired_packet (SetMapEnvProperty f v)). Qed.

Lemma wired_scaled bits scale v f k out :
  scaled_value bits scale = Some v -> reliable out ->
  sent_or_fail d (v ← scaled bits scale; property sid f v) k (wired out) = k (wired (after_packet (SetMapEnvProperty f v) out)).
Proof.
  intros Hv Hr. apply wired_step. unfold scaled. rewrite (bind_ok _ _ _ _ _ (run_checked _ v _ Hv)). by apply wired_sending.
Qed.

Lemma wired_color f c k out :
  color_ok c = true -> reliable out -> sent_or_fail d (send_color sid f c) k (wired out) = k (wired (after_packet (color_packet f c) out)).
Proof.
  intros Hc Hr. apply wired_step. unfold send_color.
  assert (packet_ok (color_packet f c)) as Hp by (cbn; unfold color_ok, color_in_range in Hc; lia).
  destruct (send_packet_some _ Hp) as [snd Es]. cbn [color_packet send_packet] in Es. rewrite Es. by apply (wired_sending (color_packet f c)).
Qed.

Lemma wired_texture a url k out :
  env_appearance_extension m = Some a -> ap_texture_url a = Some url -> reliable out ->
  sent_or_fail d (send_texture sid m) k (wired out) = k (wired (after_packet (SetTextureUrl url) out)).
Proof.
  intros Ha Hu Hr. apply wired_step. unfold send_texture. rewrite (bind_ok _ _ _ _ _ (run_checked _ a _ Ha)).
  rewrite (bind_ok _ _ _ _ _ (run_checked _ url _ Hu)). by apply (wired_sending (SetTextureUrl url)).
Qed.

Ltac wired_steps :=
  repeat first [ rewrite wired_property by done | erewrite wired_scaled by done | rewrite wired_color by done ].

Lemma aspect_run e ps k out :
  aspect_packets m e = Some ps -> reliable out -> send_env_aspect d sid m e k (wired out) = k (wired (after_packets ps out)).
Proof.
  unfold aspect_packets. intros H Hr. destruct (env_appearance_extension m) as [a|] eqn:Ea; [|done]. cbn [mbind option_bind] in H.
  destruct (ap_texture_url a) as [url|] eqn:Eu; [|done]. cbn [mbind option_bind] in H.
  destruct (scaled_value (as_clouds_speed e) 256) as [c|] eqn:E1; [|done]. destruct (scaled_value (as_weather_speed e) 256) as [v|] eqn:E2; [|done].
  destruct (scaled_value (as_weather_fade e) 128) as [f|] eqn:E3; [|done]. injection H as <-. unfold send_env_aspect.
  rewrite (wired_texture a url) by done. wired_steps. done.
Qed.

Lemma properties_run a url k out :
  env_appearance_extension m = Some a -> ap_texture_url a = Some url -> reliable out ->
  send_appearance_properties d sid m a k (wired out) = k (wired (after_packets (property_packets url a) out)).
Proof. intros Ha Hu Hr. unfold send_appearance_properties. rewrite (wired_texture a url) by done. wired_steps. done. Qed.

Lemma after_packets_reliable ps out : reliable out -> reliable (after_packets ps out).
Proof. revert out. induction ps as [|p ps IH]; intros out Hr; [done|]. cbn. by apply IH. Qed.

Lemma appearance_run a ps k out :
  env_appearance_extension m = Some a -> appearance_packets s a = Some ps -> reliable out ->
  send_env_appearance d sid s m a k (wired out) = k (wired (after_packets ps out)).
Proof.
  unfold appearance_packets, send_env_appearance. intros Ha H Hr. set (v := tc_session_get_extension_version s _) in *.
  destruct (ap_texture_url a) as [url|] eqn:Eu; [|done]. cbn [mbind option_bind] in H.
  destruct (appearance_packet v url a) as [p|] eqn:Ep; [|done]. cbn [mbind option_bind] in H.
  set (packet := if v =? 2 then _ else _).
  assert (forall out, reliable out -> packet (wired out) = k (wired (after_packet p out))) as Hpk.
  { intros o Ho. unfold packet. unfold appearance_packet in Ep.
    destruct (v =? 2); [|destruct (v =? 1); [|done]]; injection Ep as <-; cbn [negb]; rewrite (bind_ok _ _ _ _ _ (run_checked _ url _ eq_refl)).
    - by apply (wired_packet (EnvMapAppearance2 _ _ _ _ _ _)).
    - by apply (wired_packet (EnvMapAppearance1 _ _ _ _)). }
  destruct (v <? ap_extension_version a); [|injection H as <-; by rewrite Hpk].
  destruct (supports s TC_CPE_ENV_MAP_ASPECT_EXTENSION_INDEX); [|done]. injection H as <-. cbn [negb].
  rewrite (properties_run a url) by done. by rewrite Hpk by (by apply after_packets_reliable).
Qed.

Lemma colors_run e ps k out :
  color_packets e = Some ps -> reliable out -> send_env_colors d sid e k (wired out) = k (wired (after_packets ps out)).
Proof.
  unfold color_packets. intros H Hr. destruct (_ && _) eqn:E; [|done]. injection H as <-.
  rewrite !andb_true_iff in E. destruct E as ((((E1 & E2) & E3) & E4) & E5). unfold send_env_colors. wired_steps. done.
Qed.

(** One extension after the other. *)
Lemma after_packets_app ps qs out : after_packets (ps ++ qs) out = after_packets qs (after_packets ps out).
Proof. unfold after_packets. by rewrite fold_left_app. Qed.

Lemma needed_run {A} index (ext : option A) (ps : A -> option (list packet)) pks (send : A -> M unit) k out :
  needed s index ext ps = Some pks -> reliable out ->
  (forall e pks out, ps e = Some pks -> reliable out -> send e (wired out) = k (wired (after_packets pks out))) ->
  match ext with Some e => if negb (supports s index) then handle_failure d true else send e | None => k end (wired out)
  = k (wired (after_packets pks out)).
Proof.
  unfold needed. intros H Hr Hs. destruct ext as [e|]; [|by injection H as <-]. destruct (supports s index); [|done]. by apply Hs.
Qed.

Lemma environment_run ps k out :
  env_packets s m = Some ps -> reliable out -> send_environment d sid s m k (wired out) = k (wired (after_packets ps out)).
Proof.
  unfold env_packets. intros H Hr. destruct (match env_aspect_extension m with Some _ => _ | None => _ end) as [look|] eqn:El; [|done].
  cbn [mbind option_bind] in H. destruct (needed s _ (env_weather_extension m) _) as [weather|] eqn:Ew; [|done].
  cbn [mbind option_bind] in H. destruct (needed s _ (env_colors_extension m) _) as [colors|] eqn:Ec; [|done].
  cbn [mbind option_bind] in H. destruct (needed s _ (block_definition_extensions m) _) as [defs|] eqn:Ed; [|done].
  injection H as <-. rewrite !after_packets_app. unfold send_environment. set (definitions := match block_definition_extensions m with Some _ => _ | None => _ end).
  assert (forall out, reliable out -> definitions (wired out) = k (wired (after_packets defs out))) as Hd.
  { intros o Ho. apply (needed_run _ _ _ _ (fun _ => k) k o Ed Ho). by intros _ pks o' [= <-]. }
  set (clrs := match env_colors_extension m with Some _ => _ | None => _ end).
  assert (forall out, reliable out -> clrs (wired out) = definitions (wired (after_packets colors out))) as Hc.
  { intros o Ho. apply (needed_run _ _ _ _ _ _ o Ec Ho). intros e pks o'. apply colors_run. }
  set (wthr := match env_weather_extension m with Some _ => _ | None => _ end).
  assert (forall out, reliable out -> wthr (wired out) = clrs (wired (after_packets weather out))) as Hw.
  { intros o Ho. apply (needed_run _ _ _ _ _ _ o Ew Ho). intros e pks o' [= <-] Ho'. by apply (wired_packet (EnvSetWeatherType _)). }
  assert (match env_aspect_extension m, env_appearance_extension m with
          | Some e, _ => if negb (supports s TC_CPE_ENV_MAP_ASPECT_EXTENSION_INDEX) then handle_failure d true else send_env_aspect d sid m e wthr
          | None, Some a => send_env_appearance d sid s m a wthr
          | None, None => wthr end (wired out) = wthr (wired (after_packets look out))) as ->.
  { destruct (env_aspect_extension m) as [e|]; [destruct (supports s _); [by apply aspect_run | done]|].
    destruct (env_appearance_extension m) as [a|] eqn:Ea; [by apply appearance_run | by injection El as <-]. }
  by rewrite Hw, Hc, Hd by (repeat apply after_packets_reliable; done).
Qed.
End Start.

(** ** The task *)

Section Task.
Context {cl : MapClients} {abi : CharABI}.
Variables (d l : loc) (x : tc_send_map_data) (m : tc_map) (s : tc_session) (input : list recv_answer) (g : Z).
Variables (out : psocket) (w : world).
Abbreviation sid := (sm_session x).
Abbreviation q := (entry_priority (sm_schedule_info x)).

(** The session before the task takes its lock. *)
Definition idle : tc_session := with_lock false (with_socket (Some (Connection out input)) s).

Hypothesis Hsend : ms_sends (w_maps w) !! d = Some x.
Hypothesis Hmap : sm_map x = Some l.
Hypothesis Hsession : at_session sid w idle.
Hypothesis Hholds : holds_map l m w.
Hypothesis Hlock : action_lock s = true.
Hypothesis Hsize : sb_size (sm_block_array_buffer x) <= 2 ^ 31 - 1.
Hypothesis Hout : reliable out.

(** Up to the environment. *)
Lemma task2_run :
  current_generation s = g ->
  run_send_map_task2 d q g w =
    send_environment d sid s m (start_chunks d x g) (wired x s input w (after_packet (init_packet s m) out)).
Proof.
  intros Hg. unfold run_send_map_task2. rewrite (bind_ok _ _ _ _ _ (run_get_send _ _ _ Hsend)), bool_decide_true by done. cbn [negb].
  rewrite (bind_ok _ _ _ _ _ (run_aquire sid w idle g Hsession eq_refl Hg)). cbn [negb].
  assert (put sid (with_lock true idle) w = wired x s input w out) as ->.
  { unfold wired. f_equal. exact (with_lock_same (with_socket (Some (Connection out input)) s) true Hlock). }
  assert (exists s0, at_session sid w s0) as Hs0 by (by eexists).
  rewrite (run_get _ _ _ _ (at_wired x s input w Hs0 out)), Hmap, (bind_ok _ _ _ _ _ (run_checked _ l _ eq_refl)).
  destruct Hholds as (e & n & He & Hm & _). erewrite bind_ok by (eapply run_loaded_map; [exact He | exact Hm]).
  apply (wired_step d x s input w Hs0 (init_packet s m)). unfold send_initialize, init_packet.
  change (supports (with_socket _ s)) with (supports s). destruct (supports s TC_CPE_FASTMAP_EXTENSION_INDEX).
  - destruct (Z.leb_spec (sb_size (sm_block_array_buffer x)) (2 ^ 31 - 1)); [|lia]. cbn [negb].
    by apply (wired_sending x s input w Hs0 (LevelInitialize2 _)).
  - by apply (wired_sending x s input w Hs0 LevelInitialize).
Qed.

(** Two environments crash the server: a map with an aspect and no appearance,
    whose texture is read through [NULL]; and a map with an appearance for a
    client that has the aspect extension but not the appearance extension,
    which passes the check for the fall back and then fails an assertion. *)
Theorem environment_faults :
  current_generation s = g -> supports s TC_CPE_ENV_MAP_ASPECT_EXTENSION_INDEX = true ->
  (is_Some (env_aspect_extension m) -> env_appearance_extension m = None ->
     (run_send_map_task2 d q g w).1 = Stuck BadAccess) /\
  (forall a, env_aspect_extension m = None -> env_appearance_extension m = Some a -> is_Some (ap_texture_url a) -> 0 < ap_extension_version a ->
     tc_session_get_extension_version s TC_CPE_ENV_MAP_APPEARANCE_EXTENSION_INDEX = 0 ->
     (run_send_map_task2 d q g w).1 = Stuck AssertionFailed).
Proof.
  intros Hg Hsup. rewrite (task2_run Hg). assert (exists s0, at_session sid w s0) as Hs0 by (by eexists).
  unfold send_environment. split.
  - intros [e ->] Ha. rewrite Hsup. cbn [negb]. unfold send_env_aspect, sent_or_fail at 1, send_texture. rewrite Ha.
    reflexivity.
  - intros a -> Ha [url Hu] Hv H0. rewrite Ha. unfold send_env_appearance. rewrite H0.
    destruct (Z.ltb_spec 0 (ap_extension_version a)); [|lia]. rewrite Hsup. cbn [negb].
    by rewrite (properties_run d x m s input w Hs0 a url _ _ Ha Hu) by done.
Qed.

(** C14. [tc_send_map_task2] for a client that supports what the map needs and a
    map whose floats and colours are in range, on a socket that takes
    everything, with memory for the record of the first chunk and room for it
    in the pool: the level is started, by its number of blocks for a client
    with FastMap, the packets of the map's environment follow in their order,
    and a transfer of the compressed block arrays has begun: its task is
    queued, at their first byte, with the session and the map still locked, and
    nothing else has changed.  Two environments are beyond this: with the
    aspect extension in the client, a map with an aspect and no appearance
    makes the task read through [NULL], and a map with an appearance fails an
    assertion when the client does not have the appearance extension. *)
Theorem level_start_spec :
  current_generation s = g ->
  (forall ps, env_packets s m = Some ps -> ready_for_next x w ->
     let b := ms_next (w_maps w) in
     exists w' out', run_send_map_task2 d q g w = (Ok tt, w') /\
       streaming b d l x m s input g true 0 out' w' /\
       sk_out out' = sk_out out ++ wire (init_packet s m :: ps) /\
       pool_queued (thread_pool (w_server w')) ≡ₚ chunk_context b x g :: pool_queued (thread_pool (w_server w)) /\
       ms_entries (w_maps w') = ms_entries (w_maps w) /\ ms_sends (w_maps w') = ms_sends (w_maps w) /\
       ms_buffers (w_maps w') = <[b := SendBufferTaskData d 0 true]> (ms_buffers (w_maps w)) /\ ms_live (w_maps w') = ms_live (w_maps w)) /\
  (supports s TC_CPE_ENV_MAP_ASPECT_EXTENSION_INDEX = true ->
     (is_Some (env_aspect_extension m) -> env_appearance_extension m = None ->
        (run_send_map_task2 d q g w).1 = Stuck BadAccess) /\
     (forall a, env_aspect_extension m = None -> env_appearance_extension m = Some a -> is_Some (ap_texture_url a) -> 0 < ap_extension_version a ->
        tc_session_get_extension_version s TC_CPE_ENV_MAP_APPEARANCE_EXTENSION_INDEX = 0 ->
        (run_send_map_task2 d q g w).1 = Stuck AssertionFailed)).
Proof.
  intros Hg. split; [|by apply environment_faults]. intros ps Hps Hr b.
  rewrite (task2_run Hg). assert (exists s0, at_session sid w s0) as Hs0 by (by eexists).
  rewrite (environment_run d x m s input w Hs0 ps) by done. set (out' := after_packets ps _). set (w1 := wired x s input w out').
  unfold start_chunks. rewrite (bind_ok _ _ _ _ _ (run_allocate w1)).
  change (h_grants (w_heap w1) (h_next (w_heap w1))) with (grants w 0). pose proof Hr as (_ & Hg0 & _). rewrite Hg0. cbn [negb].
  set (w2 := on_heap _ w1).
  assert (new_buffer (SendBufferTaskData d 0 true) w2
    = (Ok b, on_maps (fun st => with_buffers (<[b := SendBufferTaskData d 0 true]> (ms_buffers st)) (with_next (S b) st)) w2)) as Eb by done.
  rewrite (bind_ok _ _ _ _ _ Eb).
  destruct (next_accepted x g w (ArgSendBuffer b) Hr) as (p & ws & Ep & Hq).
  eexists _, out'. split_and!; [eapply run_schedule_next; exact Ep | | exact (after_packets_wire (init_packet s m :: ps) out) | exact Hq | done..].
  split; [split; [cbn; apply lookup_insert_eq | done | exact (at_wired x s input w Hs0 out') | exact Hholds]|].
  cbn. rewrite Hq. left.
Qed.

(** A task whose client has left in the meantime does nothing, not even for
    the transfer: the record, the compressed buffers, the reference to the map
    and its reader lock are kept forever, and the user is not told. *)
Theorem stale_transfer_kept : current_generation s <> g -> run_send_map_task2 d q g w = (Ok tt, w).
Proof using Hsend Hsession.
  intros Hg. unfold run_send_map_task2. rewrite (bind_ok _ _ _ _ _ (run_get_send _ _ _ Hsend)), bool_decide_true by done. cbn [negb].
  by rewrite (bind_ok _ _ _ _ _ (run_aquire_stale sid w idle g Hsession eq_refl Hg)).
Qed.
End Task.

(** ** From a loaded map to the start *)

Section Compressing.
Context {cl : MapClients} {abi : CharABI} {zl : Zlib} {laws : ZlibLaws} {fin : ZlibFinish zl laws} {ready : ZlibReady zl}.

(** The form a client gets its blocks in, and whether there is room for it. *)
Definition compressed (s : tc_session) (arr : list Z) : list Z :=
  if supports s TC_CPE_FASTMAP_EXTENSION_INDEX then raw_deflated arr else gzipped arr.
Definition fits (s : tc_session) (arr : list Z) : Prop :=
  Z.of_nat (length arr) + 4 < 2 ^ 31 /\
  (length (compressed s arr) <= room (if supports s TC_CPE_FASTMAP_EXTENSION_INDEX then length arr else 4 + length arr))%nat.

(** Only the allocator and the count of blocks have moved on. *)
Definition memory_used (w w' : world) : Prop :=
  exists h n, plentiful h /\ w' = on_heap h (on_maps (fun st => with_live n st) w).

Lemma memory_used_refl w : plentiful (w_heap w) -> memory_used w w.
Proof. intros H. exists (w_heap w), (ms_live (w_maps w)). split; [done|]. by destruct w as [? ? ? ? ? []]. Qed.

Lemma asked_used n k w : plentiful (w_heap w) -> memory_used w (asked n (on_maps (fun st => with_live (ms_live st + k) st) w)).
Proof.
  intros H. exists (Heap (h_grants (w_heap w)) (n + h_next (w_heap w))), (ms_live (w_maps w) + k). split; [exact H | done].
Qed.

Lemma compress_run s arr w :
  plentiful (w_heap w) -> fits s arr ->
  exists w', compress_blocks s (Some arr) (Z.of_nat (length arr)) w = (Ok (true, whole (compressed s arr)), w') /\ memory_used w w'.
Proof.
  intros Hh [Hlen Hfit]. unfold compress_blocks, compressed in *. destruct (supports s TC_CPE_FASTMAP_EXTENSION_INDEX).
  - rewrite deflate_run by lia. destruct (deflate_ready arr (-15)) as [zs ->]; [auto|]. unfold grants. rewrite Hh. cbn [negb]. unfold compressed_to. rewrite decide_True by done.
    eexists. split; [done | by apply asked_used].
  - rewrite gzip_run by done. unfold grants. rewrite !Hh. cbn [negb].
    destruct (deflate_ready (be_split 4 (Z.of_nat (length arr)) ++ arr) 31) as [zs ->]; [auto|]. unfold compressed_to. rewrite decide_True by done.
    eexists. split; [done | by apply asked_used].
Qed.

Variables (d l : loc) (x : tc_send_map_data) (m : tc_map) (s : tc_session) (g : Z) (w : world).
Variables (e : tc_map_cache_entry) (arr : list Z).
Abbreviation sid := (sm_session x).

Hypothesis Hsend : ms_sends (w_maps w) !! d = Some x.
Hypothesis Hentry : at_entry l w e.
Hypothesis Hloaded : ce_map e = MapLoaded m.
Hypothesis Hsession : at_session sid w s.
Hypothesis Hheap : plentiful (w_heap w).
Hypothesis Harr : block_array m = Some arr /\ block_array_count m = Z.of_nat (length arr).

Lemma run_update_send f (w1 : world) x1 :
  ms_sends (w_maps w1) !! d = Some x1 -> update_send d f w1 = (Ok tt, on_maps (fun st => with_sends (<[d := f x1]> (ms_sends st)) st) w1).
Proof. intros H. unfold update_send. by rewrite (bind_ok _ _ _ _ _ (run_get_send _ _ _ H)). Qed.

(** The transfer with its map and the compressed arrays. *)
Definition prepared_send : tc_send_map_data :=
  SendMapData sid (sm_file_name x) (Some l) (sm_schedule_info x) (whole (compressed s arr))
    (match block_array2 m with Some arr2 => whole (compressed s arr2) | None => sm_block_array2_buffer x end).

(** [on_map_load_success] with memory: the map is locked for reading and
    recorded, its block array (and the second one, for a client with
    ExtendedBlocks) is compressed in the form the client asked for, and
    [tc_send_map_task2] is queued for the transfer at the user's priority. *)
Theorem map_prepared p ws :
  fits s arr ->
  (forall arr2, block_array2 m = Some arr2 ->
     block_array2_count m = Z.of_nat (length arr2) /\ fits s arr2 /\ supports s TC_CPE_EXTENDED_BLOCKS_EXTENSION_INDEX = true) ->
  tc_thread_schedule_new (thread_pool (w_server w)) (Some tc_send_map_task2) (Some (ArgSendMap d)) (entry_priority (sm_schedule_info x)) g
    = Some (true, p, ws) ->
  exists w', run_on_map_load_success (Args l (ContextSendMap d)) PRIORITY_BLOCKING g w = (Ok tt, w') /\
    ms_sends (w_maps w') !! d = Some prepared_send /\ at_entry l w' (entry_readers (S (ce_map_readers e)) e) /\
    at_session sid w' s /\ thread_pool (w_server w') = p.
Proof.
  intros Hfit Harr2 Hp. unfold run_on_map_load_success. cbn [args_context args_result].
  rewrite (bind_ok _ _ _ _ _ (run_update_send _ w x Hsend)). rewrite bool_decide_true by done. cbn [negb]. set (w1 := on_maps _ w).
  set (x1 := send_with_map (Some l) x).
  assert (map_reader_lock l w1 = (Ok tt, on_maps (put_entry l (entry_readers (S (ce_map_readers e)) e)) w1)) as E1.
  { unfold map_reader_lock. rewrite (bind_ok _ _ _ _ _ (run_loaded_map l w1 e m Hentry Hloaded)).
    exact (run_update_entry l (fun e => entry_readers (S (ce_map_readers e)) e) w1 e Hentry). }
  rewrite (bind_ok _ _ _ _ _ E1). set (w2 := on_maps _ w1).
  assert (ms_sends (w_maps w2) !! d = Some x1) as Hx2 by apply lookup_insert_eq.
  rewrite (bind_ok _ _ _ _ _ (run_get_send _ _ _ Hx2)). rewrite (run_get _ _ w2 _ Hsession).
  assert (at_entry l w2 (entry_readers (S (ce_map_readers e)) e)) as He2 by apply at_put_entry.
  rewrite (bind_ok _ _ _ _ _ (run_loaded_map l w2 _ m He2 Hloaded)). destruct Harr as [-> ->].
  destruct (compress_run s arr w2 Hheap Hfit) as (w3 & E3 & (h3 & n3 & Hh3 & ->)). rewrite (bind_ok _ _ _ _ _ E3). cbv beta iota.
  erewrite bind_ok by (apply (run_update_send _ _ x1); exact Hx2). cbn [negb]. set (w4 := on_maps _ (on_heap h3 _)).
  set (x4 := send_with_buffer (whole (compressed s arr)) x1).
  assert (forall w5 x5, w_server w5 = w_server w -> ms_entries (w_maps w5) = ms_entries (w_maps w2) -> ms_sends (w_maps w5) !! d = Some x5 ->
    exists w', (result ← schedule_new tc_send_map_task2 (ArgSendMap d) (entry_priority (sm_schedule_info x1)) g;
                _ ← when (negb result) (handle_failure d false); live (-1)) w5 = (Ok tt, w') /\
      ms_sends (w_maps w') !! d = Some x5 /\ at_entry l w' (entry_readers (S (ce_map_readers e)) e) /\ at_session sid w' s /\
      thread_pool (w_server w') = p) as Hlast.
  { intros w5 x5 Hsv Hen Hx5.
    erewrite bind_ok by (eapply run_schedule_new; rewrite Hsv; exact Hp). cbn [negb when].
    eexists. split; [done|]. split_and!; [exact Hx5 | | | done].
    - unfold at_entry. cbn. rewrite Hen. apply at_put_entry.
    - unfold at_session. cbn. rewrite Hsv. exact Hsession. }
  unfold prepared_send. destruct (block_array2 m) as [arr2|].
  - destruct (Harr2 arr2 eq_refl) as (-> & Hfit2 & Hsup). rewrite Hsup. cbn [negb].
    destruct (compress_run s arr2 w4 Hh3 Hfit2) as (w5 & E5 & (h5 & n5 & Hh5 & ->)). rewrite (bind_ok _ _ _ _ _ E5). cbv beta iota.
    erewrite bind_ok by (apply (run_update_send _ _ x4); apply lookup_insert_eq). cbn [negb].
    apply Hlast; [done | done | cbn; by rewrite lookup_insert_eq].
  - apply Hlast; [done | done | cbn; by rewrite lookup_insert_eq].
Qed.
End Compressing.
