(* ===== verification/MainRig.v ===== *)
(** * The world the program serves

    [src/src/main.c]: the joinable [lobby], whose players are sent the map
    [./classic_worlds/lobby.cw], as an instance of the interfaces of joinables
    and of users of maps; and one worker running the tasks of the pool. *)

From S2P Require Import Prelude Buffer Nbt NbtSpec NbtFile NbtFileProps Socket Protocol ThreadPool Heartbeat Map TaskBacklog.
From S2P Require Import Float32 Objects Session SessionSpec Server Handler MapCache MapCacheSpec Compression MapSend MapSendProps.

Local Open Scope Z_scope.

Definition lobby_file : list Z := cstr "./classic_worlds/lobby.cw".

(** [test_handle_map_send_success] and [test_handle_map_send_failure], by number. *)
Definition test_success : nat := 0.
Definition test_failure : nat := 0.

Section Rig.
Context {abi : CharABI} {jn : Joinables}.

Definition test_handle_map_send_failure (c : context) (session_generation : Z) : M unit :=
  match c with
  | ContextSession sid => tc_server_kick_session sid (Some (cstr "Failed to send map.")) session_generation false
  | ContextSendMap _ => stuck BadAccess
  end.

(** The answers of [tc_session_aquire_action_lock] and of the packet are not
    looked at. *)
Definition test_handle_map_send_success (args : map_args) (priority : tc_thread_pool_task_priority) (session_generation : Z) : M unit :=
  match args_context args with
  | ContextSendMap _ => stuck BadAccess
  | ContextSession sid =>
      let map := args_result args in
      _ ← map_reader_lock map;
      _ ← tc_session_aquire_action_lock sid session_generation;
      m ← loaded_map map;
      let p := tc_spawn_position_to_player_position (map_spawn_position m) in
      _ ← sending sid (tc_protocol_send_set_player_position_and_orientation (-1) (pp_x p) (pp_y p) (pp_z p)
                         (pp_heading p) (pp_pitch p) false);
      _ ← tc_session_release_action_lock sid;
      _ ← map_reader_unlock map;
      _ ← schedule_next (Some tc_server_client_listen_task) (Some tc_server_shutdown_client_task) (ArgSession sid)
            priority session_generation;
      live (-1)
  end.

#[local] Instance rig_clients : MapClients := {
  client_failure _ := test_handle_map_send_failure;
  client_success _ := test_handle_map_send_success }.

Definition test_schedule_info (sid : nat) (session_generation : Z) : client_waiter :=
  Entry (Some (client_task test_success)) test_failure (ContextSession sid) PRIORITY_MEDIUM session_generation.

Section Join.
Context {sz : CacheSizes}.

Definition test_attempt_join (sid : nat) (current_priority : tc_thread_pool_task_priority) (session_generation : Z) : M bool :=
  tc_api_schedule_send_map sid lobby_file None (test_schedule_info sid session_generation) current_priority.

(** [build_test_joinable] *)
Definition test_joinable : Joinables := {|
  attempt_join _ sid _ := test_attempt_join sid;
  leave _ _ _ _ := mret tt;
  joinable_set_block _ _ _ _ _ _ _ _ _ := mret true;
  joinable_position_update _ _ _ _ _ _ _ _ _ := mret true;
  joinable_server_stop _ := mret tt |}.
End Join.

(** ** A worker *)

Context {zl : Zlib} {sz : CacheSizes} {ld : MapLoader} {md5 : Md5}.

(** A task of a client, or of a map on its way to one. *)
Definition run_any (t : tc_thread_pool_context task task_arg) : M unit :=
  match ctx_func t, ctx_arg t with
  | Some f, Some (ArgSession sid) => run_task f sid (ctx_priority t) (ctx_session_generation t)
  | Some f, arg => run_map_task f arg (ctx_priority t) (ctx_session_generation t)
  | None, _ => stuck BadAccess
  end.

(** One turn of [thread_pool_worker]; [None] when it waits or leaves. *)
Definition worker_round (w : world) : option (result unit * world) :=
  match worker_take (thread_pool (w_server w)) with
  | TurnRun t p =>
      let '(r, w1) := run_any t (with_pool_heap p (w_heap w) w) in
      Some (r, with_pool_heap (worker_finish (thread_pool (w_server w1)) (is_blocking_task t)).1 (w_heap w1) w1)
  | _ => None
  end.

Fixpoint worker_rounds (n : nat) (w : world) : option (result unit * world) :=
  match n with
  | O => Some (Ok tt, w)
  | S n' =>
      match worker_round w with
      | Some (Ok _, w1) => worker_rounds n' w1
      | other => other
      end
  end.

(** ** A player who leaves during the transfer *)

(** The success handler does not look whether it got the lock: when the
    session of the player has ended in the meantime, it sends to the client
    that has the session now and unlocks a mutex it does not hold, or uses the
    socket that was closed. *)
Theorem rig_success_stale l sid q g w s e m :
  at_session sid w s -> action_lock s = false -> current_generation s <> g -> at_entry l w e -> ce_map e = MapLoaded m ->
  (test_handle_map_send_success (Args l (ContextSession sid)) q g w).1
    = Stuck (match client_socket s with Some _ => BadUnlock | None => BadAccess end).
Proof using Type.
  intros Hs Hl Hg He Hm. unfold test_handle_map_send_success. cbn [args_context args_result].
  set (e1 := entry_readers (S (ce_map_readers e)) e). set (w1 := on_maps (put_entry l e1) w).
  assert (map_reader_lock l w = (Ok tt, w1)) as E1.
  { unfold map_reader_lock. rewrite (bind_ok _ _ _ _ _ (run_loaded_map l w e m He Hm)).
    exact (run_update_entry l (fun e => entry_readers (S (ce_map_readers e)) e) w e He). }
  rewrite (bind_ok _ _ _ _ _ E1), (bind_ok _ _ _ _ _ (run_aquire_stale sid w1 s g Hs Hl Hg)).
  rewrite (bind_ok _ _ _ _ _ (run_loaded_map l w1 e1 m (at_put_entry _ _ _) Hm)).
  unfold mbind at 1, M_bind at 1. unfold sending. rewrite (run_get _ _ w1 _ Hs). destruct (client_socket s) as [cn|] eqn:Hc; [|done].
  destruct (tc_protocol_send_set_player_position_and_orientation _ _ _ _ _ _ _ (cn_out cn)) as [ok out].
  rewrite (bind_ok _ _ _ _ _ (run_update _ _ w1 _ Hs)). cbn [mret M_ret].
  by erewrite bind_stuck by (eapply run_bad_release; [exact (at_put sid w1 s _ Hs) | exact Hl]).
Qed.
End Rig.
