(* ===== verification/Lifecycle.v ===== *)
(** * From creation to release

    What [tc_server_init], [tc_server_start] and [tc_server_finalize] of
    [server.c] create and give back, with the parts of [thread_pool.c],
    [heartbeat.c], [joinable.c] and [map_cache.c] they call, and [run_server]
    of [main.c].

    A resource is in [cy_live] from the call that creates it to the call that
    frees it; freeing one that is not there is an error.  A thread is in
    [cy_running] until its function has returned, which may be after its handle
    was given back.  Every creation may fail, as the allocator decides. *)

From S2P Require Import Prelude Socket Protocol ThreadPool Heartbeat Objects Session Server Joinable MapCache.

Local Open Scope Z_scope.

Inductive resource :=
| RServer | RAddress | RListener
| RPoolLock | RPoolCond | RWorker (i : nat)
| RHeartbeatLock | RHeartbeatCond | RAuthTree | RHeartbeatThread
| RRouterLock | RJoinableNode | RJoinable (i : nat)
| RServerLock | RActionLock (i : nat).

#[export] Instance resource_eq_dec : EqDecision resource.
Proof. solve_decision. Defined.

Definition resource_code (r : resource) : nat * nat :=
  match r with
  | RServer => (0, 0) | RAddress => (1, 0) | RListener => (2, 0)
  | RPoolLock => (3, 0) | RPoolCond => (4, 0) | RWorker i => (5, i)
  | RHeartbeatLock => (6, 0) | RHeartbeatCond => (7, 0) | RAuthTree => (8, 0) | RHeartbeatThread => (9, 0)
  | RRouterLock => (10, 0) | RJoinableNode => (11, 0) | RJoinable i => (12, i)
  | RServerLock => (13, 0) | RActionLock i => (14, i)
  end%nat.

Definition resource_of (c : nat * nat) : option resource :=
  match c with
  | (0, _) => Some RServer | (1, _) => Some RAddress | (2, _) => Some RListener
  | (3, _) => Some RPoolLock | (4, _) => Some RPoolCond | (5, i) => Some (RWorker i)
  | (6, _) => Some RHeartbeatLock | (7, _) => Some RHeartbeatCond | (8, _) => Some RAuthTree
  | (9, _) => Some RHeartbeatThread
  | (10, _) => Some RRouterLock | (11, _) => Some RJoinableNode | (12, i) => Some (RJoinable i)
  | (13, _) => Some RServerLock | (14, i) => Some (RActionLock i)
  | _ => None
  end%nat.

#[export] Instance resource_countable : Countable resource.
Proof. refine (inj_countable resource_code resource_of _). by intros []. Defined.

(** ** Computations *)

Record cycle := Cycle { cy_world : world; cy_live : gset resource; cy_running : gset resource }.

Definition L (A : Type) : Type := cycle -> result A * cycle.

#[export] Instance L_ret : MRet L := fun A a c => (Ok a, c).
#[export] Instance L_bind : MBind L := fun A B k m c =>
  match m c with (Ok a, c') => k a c' | (Stuck e, c') => (Stuck e, c') end.

Definition fails {A} (e : cause) : L A := fun c => (Stuck e, c).

(** A computation on the server. *)
Definition lift {A} (m : M A) : L A := fun c =>
  let '(r, w) := m (cy_world c) in (r, Cycle w (cy_live c) (cy_running c)).

Definition acquire (r : resource) : L unit := fun c => (Ok tt, Cycle (cy_world c) ({[ r ]} ∪ cy_live c) (cy_running c)).

Definition create (r : resource) : L bool :=
  ok ← lift allocate;
  if ok : bool then _ ← acquire r; mret true else mret false.

Definition release (r : resource) : L unit := fun c =>
  if decide (r ∈ cy_live c) then (Ok tt, Cycle (cy_world c) (cy_live c ∖ {[ r ]}) (cy_running c))
  else (Stuck BadAccess, c).

(** [release] of the resources [f i], ..., [f (i + n - 1)]. *)
Fixpoint release_range (f : nat -> resource) (n i : nat) : L unit :=
  match n with
  | O => mret tt
  | S n' => _ ← release (f i); release_range f n' (S i)
  end.

Definition thread_begun (r : resource) : L unit := fun c =>
  (Ok tt, Cycle (cy_world c) (cy_live c) ({[ r ]} ∪ cy_running c)).

Definition p_uthread_create (r : resource) : L bool :=
  ok ← create r;
  if ok : bool then _ ← thread_begun r; mret true else mret false.

Definition thread_ended (r : resource) : L unit := fun c =>
  (Ok tt, Cycle (cy_world c) (cy_live c) (cy_running c ∖ {[ r ]})).

(** ** The thread pool *)

(** The tasks of the pool. *)
Class Tasks := run_pool_task : tc_thread_pool_context task task_arg -> M unit.

Section Lifecycle.
Context {tk : Tasks}.

(** The workers go on with the tasks that are left; a pool that still has
    tasks after [rounds] of them keeps whoever waits for it waiting. *)
Fixpoint drain (rounds : nat) : M unit :=
  p ← gets thread_pool;
  match worker_take p with
  | TurnRun t p' =>
      match rounds with
      | O => stuck Deadlock
      | S rounds' =>
          _ ← modify (with_pool p');
          _ ← run_pool_task t;
          _ ← modify (fun v => with_pool (worker_finish (thread_pool v) (is_blocking_task t)).1 v);
          drain rounds'
      end
  | TurnFault => stuck BadAccess
  | _ => mret tt
  end.

(** [p_uthread_join] of a worker: it returns when [thread_pool_worker] does. *)
Definition join_worker (rounds i : nat) : L unit := fun c =>
  if decide (RWorker i ∉ cy_live c) then (Stuck BadAccess, c)
  else
    (_ ← lift (drain rounds);
     p ← lift (gets thread_pool);
     match worker_take p with
     | TurnExit => thread_ended (RWorker i)
     | _ => fails Deadlock
     end) c.

Fixpoint join_workers (rounds n i : nat) : L unit :=
  match n with
  | O => mret tt
  | S n' => _ ← join_worker rounds i; _ ← release (RWorker i); join_workers rounds n' (S i)
  end.

Definition tc_thread_pool_finalize (rounds : nat) : L unit :=
  p ← lift (gets thread_pool);
  _ ← join_workers rounds (num_threads p) 0;
  _ ← release RPoolLock;
  release RPoolCond.

(** The arrays inside the struct of the pool, which are not initialised. *)
Record pool_arrays := PoolArrays {
  pa_high : list (tc_thread_pool_context task task_arg);
  pa_medium : list (tc_thread_pool_context task task_arg);
  pa_blocking : list (tc_thread_pool_context task task_arg);
  pa_low : list (tc_thread_pool_context task task_arg) }.

(** The loop of [tc_thread_pool_init]: [n] threads to go, from [i] on. *)
Fixpoint create_workers (n i : nat) : L bool :=
  match n with
  | O => mret true
  | S n' =>
      ok ← p_uthread_create (RWorker i);
      if ok : bool then create_workers n' (S i)
      else
        _ ← release RPoolLock;
        _ ← release RPoolCond;
        _ ← release_range RWorker i 0;             (* p_uthread_unref *)
        mret false
  end.

(** [tc_thread_pool_init] *)
Definition create_pool (arrays : pool_arrays) (ideal_count : Z) (pattern : list Z) (reserved_threads : Z)
    (max_blocking : nat) : L bool :=
  match init_num_threads ideal_count reserved_threads with
  | None => mret false
  | Some n =>
      mutex_ok ← create RPoolLock;
      if negb mutex_ok then mret false
      else
        cond_ok ← create RPoolCond;
        if negb cond_ok then _ ← release RPoolLock; mret false
        else
          _ ← lift (modify (with_pool
                (ThreadPool (initial_buffers (pa_high arrays) (pa_medium arrays) (pa_blocking arrays) (pa_low arrays))
                   pattern (Z.to_nat n) 0 0 0 max_blocking false)));
          create_workers (Z.to_nat n) 0
  end.

(** ** The heartbeat *)

(** [heartbeat_manager_init] *)
Definition create_heartbeat (info : tc_heartbeat_info) (services : list tc_heartbeat_service) : L bool :=
  _ ← lift (modify (fun v => with_heartbeat (HeartbeatManager info services (auth_tree (heartbeat_manager v)) false false) v));
  lock_ok ← create RHeartbeatLock;
  if negb lock_ok then mret false
  else
    cond_ok ← create RHeartbeatCond;
    if negb cond_ok then _ ← release RHeartbeatLock; mret false
    else
      tree_ok ← create RAuthTree;
      if negb tree_ok then _ ← release RHeartbeatLock; _ ← release RHeartbeatCond; mret false
      else
        _ ← lift (modify (with_heartbeat
              (HeartbeatManager info (map (fun s => set_web_play_url s None) services) [] false false)));
        thread_ok ← p_uthread_create RHeartbeatThread;
        if negb thread_ok then
          _ ← release RHeartbeatLock; _ ← release RAuthTree; _ ← release RHeartbeatCond; mret false
        else mret true.

(** [heartbeat_worker] waits for [started], then works until [shutdown]. *)
Definition heartbeat_returns (m : tc_heartbeat_manager) : bool := hm_started m && hm_shutdown m.

Definition join_heartbeat : L unit := fun c =>
  if decide (RHeartbeatThread ∉ cy_live c) then (Stuck BadAccess, c)
  else if heartbeat_returns (heartbeat_manager (w_server (cy_world c))) then thread_ended RHeartbeatThread c
  else (Stuck Deadlock, c).

(** The addresses for web play are released with the services; a freed string
    is [None]. *)
Definition tc_heartbeat_manager_finalize : L unit :=
  _ ← join_heartbeat;
  _ ← release RHeartbeatThread;
  _ ← release RAuthTree;
  _ ← release RHeartbeatLock;
  _ ← release RHeartbeatCond;
  lift (modify (fun v =>
    let m := heartbeat_manager v in
    with_heartbeat (HeartbeatManager (hm_info m) (map (fun s => set_web_play_url s None) (hm_services m)) [] (hm_shutdown m)
                      (hm_started m)) v)).

(** ** The router *)

(** The names of the joinables, [None] for a [NULL] in the list, which the
    search for the default one follows. *)
Definition router_init (joinables : list (option (list Z))) (default_joinable_name : option (list Z)) : L bool :=
  ok ← create RRouterLock;
  if ok && negb (is_default_address default_joinable_name) && bool_decide (None ∈ joinables) then fails BadAccess
  else lift (tc_join_router_init (map (default []) joinables) default_joinable_name ok).

Section Routing.
Context {jn : Joinables}.

(** [tc_join_router_finalize] with what [stop_joinable] and [p_list_free] free:
    a list of joinables has one node for each. *)
Definition router_finalize : L unit :=
  r ← lift (gets join_router);
  _ ← lift tc_join_router_finalize;
  _ ← (if router_stopped r then mret tt else release_range RJoinable (length (joinables r)) 0);
  _ ← (match joinables r with [] => mret tt | _ => release RJoinableNode end);
  release RRouterLock.

(** ** The server *)

(** What every failure of [tc_server_init] from here on starts with. *)
Definition undo_pool : L unit :=
  _ ← lift (modify (fun v => with_pool (tc_thread_pool_stop (thread_pool v)).1 v));
  _ ← tc_thread_pool_finalize 0;
  _ ← release RListener;
  release RAddress.

Definition undo_heartbeat : L unit := _ ← undo_pool; tc_heartbeat_manager_finalize.
Definition undo_cache : L unit := _ ← undo_heartbeat; lift tc_map_cache_finalize.
Definition undo_router : L unit := _ ← undo_cache; router_finalize.

(** The loop over the sessions. *)
Fixpoint create_sessions (n i : nat) : L bool :=
  match n with
  | O => mret true
  | S n' =>
      _ ← lift (modify (fun v => with_ids (<[i := Z.of_nat i]> (id_buffer v)) (id_buffer_head v) v));
      _ ← lift (update_session i (with_generation 0));
      ok ← create (RActionLock i);
      if ok : bool then
        _ ← lift (update_session i (with_lock false));
        create_sessions n' (S i)
      else
        _ ← undo_router;
        _ ← release_range RActionLock i 0;
        _ ← release RServerLock;
        mret false
  end.

Definition round_robin : list Z := cstr "AABCAABCD".

(** [tc_server_init] once there is a heartbeat. *)
Definition init_after_heartbeat (threshold : Z) (joinables : list (option (list Z)))
    (default_joinable_name : option (list Z)) : L bool :=
  cache_ok ← lift (tc_map_cache_init threshold);
  if negb cache_ok then _ ← undo_heartbeat; mret false
  else
    router_ok ← router_init joinables default_joinable_name;
    if negb router_ok then _ ← undo_cache; mret false
    else
      lock_ok ← create RServerLock;
      if negb lock_ok then _ ← undo_router; mret false
      else
        sessions_ok ← create_sessions (Z.to_nat TC_SERVER_MAX_SESSIONS) 0;
        if negb sessions_ok then mret false
        else
          _ ← lift (modify (fun v => with_ids (id_buffer v) 0 v));
          _ ← lift (modify (with_players 0));
          mret true.

(** [bind_success]: the address could be bound. *)
Definition tc_server_init (arrays : pool_arrays) (ideal_count : Z) (bind_success : bool) (reserved_threads : Z)
    (max_blocking_threads : nat) (services : list tc_heartbeat_service) (info : tc_heartbeat_info)
    (threshold : Z) (joinables : list (option (list Z))) (default_joinable_name : option (list Z)) : L bool :=
  address_ok ← create RAddress;
  if negb address_ok then mret false
  else
    socket_ok ← create RListener;
    if negb socket_ok then _ ← release RAddress; mret false
    else if negb bind_success then _ ← release RListener; _ ← release RAddress; mret false
    else
      pool_ok ← create_pool arrays ideal_count round_robin reserved_threads max_blocking_threads;
      if negb pool_ok then _ ← release RListener; _ ← release RAddress; mret false
      else
        heartbeat_ok ← create_heartbeat info services;
        if negb heartbeat_ok then _ ← undo_pool; mret false
        else
          init_after_heartbeat threshold joinables default_joinable_name.

(** [tc_server_start] with the listening socket. *)
Definition start_server (listen_success : bool) : L bool :=
  v ← lift (gets id);
  if started v then mret false
  else if negb listen_success then mret false
  else
    schedule_success ← lift (schedule_new listener_worker_task ArgServer PRIORITY_HIGH (-1));
    if negb schedule_success then _ ← release RListener; mret false
    else
      _ ← lift (modify (fun v => with_heartbeat (tc_heartbeat_manager_start (heartbeat_manager v)) v));
      _ ← lift (modify (with_started true));
      mret true.

Definition tc_server_finalize (rounds : nat) : L unit :=
  v ← lift (gets id);
  _ ← (if started v then lift tc_server_stop else mret tt);
  _ ← tc_thread_pool_finalize rounds;
  _ ← tc_heartbeat_manager_finalize;
  _ ← release RAddress;
  _ ← release RListener;
  _ ← release RServerLock;
  _ ← router_finalize;
  _ ← lift tc_map_cache_finalize;
  release_range RActionLock (Z.to_nat TC_SERVER_MAX_SESSIONS) 0.

(** ** The program *)

(** What successive calls of [fgets] put into [input]; the loop does not see
    the end of the input and reads on for ever. *)
Fixpoint read_until_quit (input : list (list Z)) : L unit :=
  match input with
  | [] => fails Deadlock
  | line :: input' => if strcmp line (cstr "quit" ++ [10]) =? 0 then mret tt else read_until_quit input'
  end.

(** [serve] is what the tasks do between the start and the end. *)
Definition run_server (arrays : pool_arrays) (ideal_count : Z) (bind_success listen_success : bool)
    (services : list tc_heartbeat_service) (info : tc_heartbeat_info) (serve : M unit) (input : list (list Z))
    (rounds : nat) : L bool :=
  server_ok ← create RServer;
  if negb server_ok then mret false
  else
    built ← create (RJoinable 0);
    appended ← create RJoinableNode;
    let joinables := if appended : bool then [if built : bool then Some (cstr "lobby") else None] else [] in
    init_success ← tc_server_init arrays ideal_count bind_success 2 2 services info (2 ^ 30) joinables (Some (cstr "lobby"));
    if negb init_success then _ ← release RServer; mret false
    else
      start_success ← start_server listen_success;
      if negb start_success then
        _ ← tc_server_finalize rounds;
        _ ← release RServer;
        mret false
      else
        _ ← lift serve;
        _ ← read_until_quit input;
        _ ← tc_server_finalize rounds;
        _ ← release RServer;
        mret true.
End Routing.
End Lifecycle.
