(* ===== verification/LifecycleProps.v ===== *)
(** * Nothing lost, nothing freed twice

    What the creation and the release of the server do with its resources: the
    outcomes of [tc_server_init] when a creation fails, and a whole run of the
    program. *)

From S2P Require Import Prelude Socket Protocol ThreadPool Heartbeat Objects Session SessionSpec Server Joinable MapCache Lifecycle.

Local Open Scope Z_scope.

(** ** Sets of resources *)

(** [f i], ..., [f (i + n - 1)] *)
Definition range (f : nat -> resource) (i n : nat) : gset resource := list_to_set (f <$> seq i n).

Definition workers (n : nat) : gset resource := range RWorker 0 n.
Definition pool_resources (n : nat) : gset resource := {[ RPoolLock; RPoolCond ]} ∪ workers n.
Definition heartbeat_resources : gset resource := {[ RHeartbeatLock; RHeartbeatCond; RAuthTree; RHeartbeatThread ]}.
Definition session_locks : gset resource := range RActionLock 0 (Z.to_nat TC_SERVER_MAX_SESSIONS).
Definition server_resources (n : nat) : gset resource :=
  {[ RAddress; RListener; RRouterLock; RServerLock ]} ∪ pool_resources n ∪ heartbeat_resources ∪ session_locks.

Lemma elem_of_range f i n r : r ∈ range f i n <-> exists j, r = f j /\ (i <= j < i + n)%nat.
Proof. unfold range. rewrite elem_of_list_to_set, list_elem_of_fmap. setoid_rewrite elem_of_seq. naive_solver. Qed.

#[local] Instance range_unfold f i n r : SetUnfoldElemOf r (range f i n) (exists j, r = f j /\ (i <= j < i + n)%nat).
Proof. constructor. apply elem_of_range. Qed.

Lemma range_S f i n : range f i (S n) = {[ f i ]} ∪ range f (S i) n.
Proof. done. Qed.

Lemma range_snoc f i n : range f i (S n) = range f i n ∪ {[ f (i + n)%nat ]}.
Proof.
  unfold range. rewrite seq_S, fmap_app, list_to_set_app_L. cbn. by rewrite (right_id_L ∅ (∪)).
Qed.

#[local] Arguments range : simpl never.
#[local] Arguments session_locks : simpl never.
#[local] Arguments round_robin : simpl never.
#[local] Arguments pool_resources : simpl never.

(** ** Running *)

Lemma then_ok {A B} (m : L B) (k : B -> L A) b c c' : m c = (Ok b, c') -> (m ≫= k) c = k b c'.
Proof. intros H. unfold mbind, L_bind. by rewrite H. Qed.

Lemma then_stuck {A B} (m : L B) (k : B -> L A) e c c' : m c = (Stuck e, c') -> (m ≫= k) c = (Stuck e, c').
Proof. intros H. unfold mbind, L_bind. by rewrite H. Qed.

(** The state with other sets, or another world. *)
Definition with_live_set (s : gset resource) (c : cycle) : cycle := Cycle (cy_world c) s (cy_running c).
Definition with_world (w : world) (c : cycle) : cycle := Cycle w (cy_live c) (cy_running c).

Lemma run_lift {A} (m : M A) c r w : m (cy_world c) = (r, w) -> lift m c = (r, with_world w c).
Proof. intros H. unfold lift. by rewrite H. Qed.

Lemma run_free r c : r ∈ cy_live c -> release r c = (Ok tt, with_live_set (cy_live c ∖ {[ r ]}) c).
Proof. intros H. unfold release. by rewrite decide_True. Qed.

Lemma run_free_range f n i c :
  (forall j k, f j = f k -> j = k) -> range f i n ⊆ cy_live c ->
  release_range f n i c = (Ok tt, with_live_set (cy_live c ∖ range f i n) c).
Proof.
  intros Hf. revert i c. induction n as [|n IH]; intros i c Hs; cbn [release_range].
  - unfold range. cbn. rewrite difference_empty_L. by destruct c.
  - rewrite range_S in Hs |- *. erewrite then_ok by (apply run_free; set_solver). rewrite IH.
    + unfold with_live_set. cbn. by rewrite difference_difference_l_L.
    + cbn. intros r Hr. apply elem_of_difference. split; [set_solver|].
      apply elem_of_range in Hr as (j & -> & Hj). intros H%elem_of_singleton%Hf. lia.
Qed.

(** The answer of the allocator to the next request, and the state after it. *)
Definition granted (c : cycle) : bool := h_grants (w_heap (cy_world c)) (h_next (w_heap (cy_world c))).
Definition spent (c : cycle) : cycle := with_world (allocate (cy_world c)).2 c.

Lemma run_create r c :
  create r c = (Ok (granted c), if granted c then with_live_set ({[ r ]} ∪ cy_live c) (spent c) else spent c).
Proof.
  unfold create, granted. erewrite then_ok by (apply run_lift; reflexivity). cbn. by destruct (h_grants _ _).
Qed.

Lemma run_thread_create r c :
  p_uthread_create r c
  = (Ok (granted c),
     if granted c then Cycle (cy_world (spent c)) ({[ r ]} ∪ cy_live c) ({[ r ]} ∪ cy_running c) else spent c).
Proof. unfold p_uthread_create. rewrite (then_ok _ _ _ _ _ (run_create r c)). by destruct (granted c). Qed.

(** Nothing but the allocator has moved on. *)
Record quiet (w w' : world) : Prop := {
  quiet_server : w_server w' = w_server w;
  quiet_maps : w_maps w' = w_maps w;
  quiet_grants : h_grants (w_heap w') = h_grants (w_heap w) }.

#[local] Instance quiet_preorder : PreOrder quiet.
Proof. split; [by constructor|]. intros x y z [] []. constructor; by etrans. Qed.

Lemma quiet_spent c : quiet (cy_world c) (cy_world (spent c)).
Proof. done. Qed.

(** From a state the allocator alone tells apart. *)
Ltac quiet_from H := destruct H as [?H1 ?H2 ?H3]; constructor; [exact H1 | exact H2 | exact H3].

(** The answer to request number [k] from now on. *)
Definition grant (c : cycle) (k : nat) : bool := h_grants (w_heap (cy_world c)) (h_next (w_heap (cy_world c)) + k).

Lemma grant_0 c : grant c 0 = granted c.
Proof. unfold grant. by rewrite Nat.add_0_r. Qed.

Lemma grant_S c w k l t : w = cy_world (spent c) -> grant (Cycle w l t) k = grant c (S k).
Proof. intros ->. unfold grant, spent. cbn. f_equal. lia. Qed.

(** The allocator never refuses. *)
Definition rich (c : cycle) : Prop := plentiful (w_heap (cy_world c)).

(** ** Counting requests *)

Definition granted_all (n : nat) (c : cycle) : Prop := forall k, (k < n)%nat -> grant c k = true.
(** Request [k] is the first one that is refused. *)
Definition refused_at (c : cycle) (k : nat) : Prop := granted_all k c /\ grant c k = false.
(** [n] requests have been made. *)
Definition moved (n : nat) (c c' : cycle) : Prop := forall k, grant c' k = grant c (n + k).

Lemma moved_trans n m c c1 c2 : moved n c c1 -> moved m c1 c2 -> moved (n + m) c c2.
Proof. intros H1 H2 k. by rewrite H2, H1, Nat.add_assoc. Qed.

Lemma granted_all_app n m c c1 : granted_all n c -> moved n c c1 -> granted_all m c1 -> granted_all (n + m) c.
Proof.
  intros H1 Hm H2 k Hk. destruct (Nat.lt_ge_cases k n) as [Hlt|Hge]; [by apply H1|].
  replace k with (n + (k - n))%nat by lia. rewrite <- Hm. apply H2. lia.
Qed.

Lemma refused_app n c c1 k : granted_all n c -> moved n c c1 -> refused_at c1 k -> refused_at c (n + k).
Proof. intros H1 Hm [H2 H3]. split; [by eapply granted_all_app | by rewrite <- Hm]. Qed.

(** The next request, and what the state is after it. *)
Lemma granted_1 c : granted c = true -> granted_all 1 c.
Proof. intros H k Hk. by replace k with 0%nat by lia; rewrite grant_0. Qed.
Lemma refused_0 c : granted c = false -> refused_at c 0.
Proof. intros H. split; [intros k Hk; lia | by rewrite grant_0]. Qed.
Lemma moved_1 c w l t : w_heap w = w_heap (cy_world (spent c)) -> moved 1 c (Cycle w l t).
Proof. intros H k. unfold grant. cbn. rewrite H. cbn. f_equal. lia. Qed.
Lemma moved_0 c c' : w_heap (cy_world c') = w_heap (cy_world c) -> moved 0 c c'.
Proof. intros H k. unfold grant. by rewrite H. Qed.

Lemma refused_not_rich c k : refused_at c k -> ~ rich c.
Proof. intros [_ H] Hr. unfold grant in H. by rewrite Hr in H. Qed.

Lemma refused c c' : granted c = false -> h_grants (w_heap (cy_world c)) = h_grants (w_heap (cy_world c')) -> ~ rich c'.
Proof. unfold granted, rich, plentiful. intros H E Hr. by rewrite E, Hr in H. Qed.

(** ** The thread pool *)

Lemma create_workers_run n i c :
  pool_resources i ⊆ cy_live c ->
  exists ok c', create_workers n i c = (Ok ok, c') /\ quiet (cy_world c) (cy_world c') /\
    if ok : bool then granted_all n c /\ moved n c c' /\
      cy_live c' = range RWorker i n ∪ cy_live c /\ cy_running c' = range RWorker i n ∪ cy_running c
    else exists j, (j < n)%nat /\ refused_at c j /\
           cy_live c' = cy_live c ∖ pool_resources (i + j) /\ cy_running c' = range RWorker i j ∪ cy_running c.
Proof.
  revert i c. induction n as [|n IH]; intros i c Hs; cbn [create_workers].
  - eexists _, _. split_and!; [done..|]. split; [intros k Hk; lia|]. split; [by apply moved_0|].
    unfold range. cbn. by rewrite !(left_id_L ∅ (∪)).
  - rewrite (then_ok _ _ _ _ _ (run_thread_create _ c)). destruct (granted c) eqn:Hg.
    + set (c1 := Cycle _ _ _). destruct (IH (S i) c1) as (ok & c' & E & Hq & H).
      { unfold pool_resources, workers in *. rewrite range_snoc. subst c1. cbn. set_solver. }
      assert (moved 1 c c1) as Hm1 by (by apply moved_1).
      exists ok, c'. split_and!; [done | by etrans; [apply (quiet_spent c)|]|].
      destruct ok.
      * destruct H as (Hk & Hm & -> & ->). subst c1. cbn. rewrite !range_S.
        split; [by eapply (granted_all_app 1 n); [apply granted_1|..]|]. split; [by apply (moved_trans 1 n _ _ _ Hm1)|]. set_solver.
      * destruct H as (j & Hj & Hk & -> & ->). exists (S j). split_and!; [lia| | |].
        -- by apply (refused_app 1 _ _ j (granted_1 _ Hg) Hm1).
        -- subst c1. cbn. replace (S (i + j)) with (i + S j)%nat by lia. unfold pool_resources, workers. set_solver by lia.
        -- subst c1. cbn. rewrite range_S. set_solver.
    + unfold pool_resources, workers in Hs.
      erewrite then_ok by (apply run_free; cbn; set_solver).
      erewrite then_ok by (apply run_free; cbn; set_solver).
      erewrite then_ok by (apply run_free_range; [congruence | cbn; set_solver]).
      eexists _, _. split_and!; [reflexivity | exact (quiet_spent c)|]. exists 0%nat. cbn.
      rewrite Nat.add_0_r. split_and!; [lia | by apply refused_0 | |].
      * unfold pool_resources, workers. set_solver.
      * unfold range. cbn. by rewrite (left_id_L ∅ (∪)).
Qed.

Definition new_pool (arrays : pool_arrays) (pattern : list Z) (n max_blocking : nat) : tc_thread_pool task task_arg :=
  ThreadPool (initial_buffers (pa_high arrays) (pa_medium arrays) (pa_blocking arrays) (pa_low arrays))
    pattern n 0 0 0 max_blocking false.

Lemma create_pool_run arrays ideal pattern reserved mb n c :
  init_num_threads ideal reserved = Some n -> pool_resources (Z.to_nat n) ## cy_live c ->
  exists ok c', create_pool arrays ideal pattern reserved mb c = (Ok ok, c') /\
    if ok : bool then
      granted_all (2 + Z.to_nat n) c /\ moved (2 + Z.to_nat n) c c' /\
      quiet (on_server (with_pool (new_pool arrays pattern (Z.to_nat n) mb)) (cy_world c)) (cy_world c') /\
      cy_live c' = pool_resources (Z.to_nat n) ∪ cy_live c /\ cy_running c' = workers (Z.to_nat n) ∪ cy_running c
    else exists k, (k < 2 + Z.to_nat n)%nat /\ refused_at c k /\
      cy_live c' = cy_live c /\ cy_running c' = workers (k - 2) ∪ cy_running c.
Proof.
  intros Hn Hd. unfold create_pool. rewrite Hn. unfold pool_resources, workers in Hd.
  assert (forall s : gset resource, workers 0 ∪ s = s) as H0 by (intros s; unfold workers; set_solver by lia).
  rewrite (then_ok _ _ _ _ _ (run_create _ c)). destruct (granted c) eqn:Hg; cbn [negb].
  2:{ eexists _, _. split; [done|]. exists 0%nat. split_and!; [lia | by apply refused_0 | done | by rewrite H0]. }
  set (c1 := with_live_set _ _). assert (moved 1 c c1) as Hm1 by (by apply moved_1).
  rewrite (then_ok _ _ _ _ _ (run_create _ c1)). destruct (granted c1) eqn:Hg1; cbn [negb].
  2:{ erewrite then_ok by (apply run_free; subst c1; cbn; set_solver). eexists _, _. split; [done|]. exists 1%nat. split_and!.
      - lia.
      - apply (refused_app 1 _ _ 0 (granted_1 _ Hg) Hm1). by apply refused_0.
      - subst c1. cbn. set_solver.
      - by rewrite H0. }
  set (c2 := with_live_set _ _). erewrite then_ok by (apply run_lift; reflexivity). set (c3 := with_world _ _).
  assert (moved 2 c c3) as Hm3.
  { apply (moved_trans 1 1 _ _ _ Hm1). intros k. change (grant c3 k) with (grant c2 k). by apply moved_1. }
  assert (granted_all 2 c) as Hg2 by (apply (granted_all_app 1 1 _ _ (granted_1 _ Hg) Hm1), granted_1, Hg1).
  destruct (create_workers_run (Z.to_nat n) 0 c3) as (ok & c' & -> & Hq & H).
  { subst c3 c2 c1. unfold pool_resources, workers. cbn. set_solver by lia. }
  exists ok, c'. split; [done|]. destruct ok.
  - destruct H as (Hga & Hma & -> & ->). split_and!; [by eapply granted_all_app | by eapply moved_trans | quiet_from Hq
      | subst c3 c2 c1; unfold pool_resources, workers; cbn; set_solver | done].
  - destruct H as (j & Hj & Hg' & -> & ->). exists (2 + j)%nat. split_and!; [lia | by eapply refused_app | |].
    + subst c3 c2 c1. unfold pool_resources, workers. cbn. apply set_eq. intros r. set_unfold.
      intros. split; [|naive_solver lia]. naive_solver.
    + by replace (2 + j - 2)%nat with j by lia.
Qed.

(** A pool without tasks: its workers wait, or leave once it is shut down. *)
Definition idle (p : tc_thread_pool task task_arg) : Prop := thread_pool_has_tasks p = false /\ active_threads p = 0.

Lemma idle_take p : idle p -> worker_take p = if shutdown p then TurnExit else TurnWait.
Proof. intros [H1 H2]. unfold worker_take. rewrite H1, H2. by destruct (shutdown p). Qed.

Lemma drain_idle {tk : Tasks} rounds w : idle (thread_pool (w_server w)) -> drain rounds w = (Ok tt, w).
Proof.
  intros H. apply idle_take in H.
  destruct rounds; cbn; unfold mbind, M_bind, gets; cbn; rewrite H; by destruct (shutdown _).
Qed.

(** A worker that leaves once the tasks that are left were run. *)
Lemma join_worker_run {tk : Tasks} rounds i c w :
  drain rounds (cy_world c) = (Ok tt, w) -> idle (thread_pool (w_server w)) -> shutdown (thread_pool (w_server w)) = true ->
  RWorker i ∈ cy_live c -> join_worker rounds i c = (Ok tt, Cycle w (cy_live c) (cy_running c ∖ {[ RWorker i ]})).
Proof.
  intros Hd Hi Hs Hl. unfold join_worker. rewrite decide_False by tauto.
  erewrite then_ok by (apply run_lift, Hd). erewrite then_ok by (apply run_lift; reflexivity). cbv [id]. cbn [cy_world with_world].
  by rewrite idle_take, Hs.
Qed.

Lemma join_workers_idle {tk : Tasks} rounds n i c :
  idle (thread_pool (w_server (cy_world c))) -> shutdown (thread_pool (w_server (cy_world c))) = true ->
  range RWorker i n ⊆ cy_live c ->
  join_workers rounds n i c
  = (Ok tt, Cycle (cy_world c) (cy_live c ∖ range RWorker i n) (cy_running c ∖ range RWorker i n)).
Proof.
  intros Hi Hs. revert i c Hi Hs. induction n as [|n IH]; intros i c Hi Hs Hl; cbn [join_workers].
  - destruct c as [w l t]. do 2 f_equal; cbn; set_solver by lia.
  - rewrite range_S in *. erewrite then_ok by (apply join_worker_run; [by apply drain_idle | done | done | set_solver]).
    erewrite then_ok by (apply run_free; cbn; set_solver). rewrite IH; cbn; [|done..|].
    + do 2 f_equal; set_solver.
    + intros r Hr. assert (r <> RWorker i) by (apply elem_of_range in Hr as (j & -> & Hj); intros [=]; lia). set_solver.
Qed.

Lemma join_workers_run {tk : Tasks} rounds n i c w :
  (0 < n)%nat -> drain rounds (cy_world c) = (Ok tt, w) ->
  idle (thread_pool (w_server w)) -> shutdown (thread_pool (w_server w)) = true ->
  range RWorker i n ⊆ cy_live c ->
  join_workers rounds n i c = (Ok tt, Cycle w (cy_live c ∖ range RWorker i n) (cy_running c ∖ range RWorker i n)).
Proof.
  intros Hn Hd Hi Hs Hl. destruct n as [|n]; [lia|]. cbn [join_workers]. rewrite range_S in *.
  erewrite then_ok by (apply join_worker_run; [exact Hd | done | done | set_solver]).
  erewrite then_ok by (apply run_free; cbn; set_solver). rewrite join_workers_idle; cbn; [|done..|].
  - do 2 f_equal; set_solver.
  - intros r Hr. assert (r <> RWorker i) by (apply elem_of_range in Hr as (j & -> & Hj); intros [=]; lia). set_solver.
Qed.

Lemma join_waits {tk : Tasks} rounds n i c :
  idle (thread_pool (w_server (cy_world c))) -> shutdown (thread_pool (w_server (cy_world c))) = false ->
  (0 < n)%nat -> RWorker i ∈ cy_live c -> join_workers rounds n i c = (Stuck Deadlock, c).
Proof.
  intros Hi Hs Hn Hl. destruct n as [|n]; [lia|]. cbn [join_workers]. apply then_stuck.
  unfold join_worker. rewrite decide_False by tauto. erewrite then_ok by (apply run_lift, drain_idle, Hi).
  destruct c. cbn in *. erewrite then_ok by (apply run_lift; reflexivity). cbn. by rewrite idle_take, Hs by done.
Qed.

Lemma undo_pool_run {tk : Tasks} c (p := thread_pool (w_server (cy_world c))) :
  idle p -> {[ RListener; RAddress ]} ∪ pool_resources (num_threads p) ⊆ cy_live c ->
  undo_pool c
  = (Ok tt, Cycle (on_server (with_pool (set_shutdown p)) (cy_world c))
              (cy_live c ∖ ({[ RListener; RAddress ]} ∪ pool_resources (num_threads p)))
              (cy_running c ∖ workers (num_threads p))).
Proof.
  intros Hi Hl. unfold undo_pool, pool_resources, workers in *. erewrite then_ok by (apply run_lift; reflexivity). cbn.
  erewrite then_ok.
  2:{ unfold tc_thread_pool_finalize. erewrite then_ok by (apply run_lift; reflexivity). cbn. fold p.
      erewrite then_ok by (apply join_workers_idle; cbn; [done..|set_solver]).
      erewrite then_ok by (apply run_free; cbn; set_solver). apply run_free. cbn. set_solver. }
  erewrite then_ok by (apply run_free; cbn; set_solver). rewrite run_free by (cbn; set_solver).
  unfold with_live_set. cbn. do 2 f_equal. set_solver.
Qed.

(** ** The heartbeat *)

Definition new_heartbeat (info : tc_heartbeat_info) (services : list tc_heartbeat_service) : tc_heartbeat_manager :=
  HeartbeatManager info (map (fun s => set_web_play_url s None) services) [] false false.

Lemma create_heartbeat_run info services c :
  heartbeat_resources ## cy_live c ->
  exists ok c', create_heartbeat info services c = (Ok ok, c') /\
    thread_pool (w_server (cy_world c')) = thread_pool (w_server (cy_world c)) /\
    if ok : bool then
      granted_all 4 c /\ moved 4 c c' /\
      quiet (on_server (with_heartbeat (new_heartbeat info services)) (cy_world c)) (cy_world c') /\
      cy_live c' = heartbeat_resources ∪ cy_live c /\ cy_running c' = {[ RHeartbeatThread ]} ∪ cy_running c
    else exists k, (k < 4)%nat /\ refused_at c k /\ cy_live c' = cy_live c /\ cy_running c' = cy_running c.
Proof.
  intros Hd. unfold create_heartbeat, heartbeat_resources in *. erewrite then_ok by (apply run_lift; reflexivity).
  set (c0 := with_world _ _). assert (cy_live c0 = cy_live c) as H0 by done. rewrite <- H0 in Hd.
  assert (granted_all 0 c) as Ga0 by (intros k Hk; lia). assert (moved 0 c c0) as Hm0 by (by apply moved_0).
  rewrite (then_ok _ _ _ _ _ (run_create _ c0)). destruct (granted c0) eqn:Hg; cbn [negb].
  2:{ eexists _, _; split_and!; [done..|]. exists 0%nat. split_and!; [lia | | done | done]. by apply (refused_app 0 c c0 0), refused_0. }
  assert (granted_all 1 c) as Ga1 by (apply (granted_all_app 0 1 c c0); [done | done | by apply granted_1]).
  set (c1 := with_live_set _ _). assert (moved 1 c c1) as Hm1 by (apply (moved_trans 0 1 c c0); [done | by apply moved_1]).
  rewrite (then_ok _ _ _ _ _ (run_create _ c1)). destruct (granted c1) eqn:Hg1; cbn [negb].
  2:{ erewrite then_ok by (apply run_free; cbn; set_solver). eexists _, _. split_and!; [done..|]. exists 1%nat.
      split_and!; [lia | by apply (refused_app 1 c c1 0), refused_0 | cbn; set_solver | done]. }
  assert (granted_all 2 c) as Ga2 by (apply (granted_all_app 1 1 c c1); [done | done | by apply granted_1]).
  set (c2 := with_live_set _ _). assert (moved 2 c c2) as Hm2 by (apply (moved_trans 1 1 c c1); [done | by apply moved_1]).
  rewrite (then_ok _ _ _ _ _ (run_create _ c2)). destruct (granted c2) eqn:Hg2; cbn [negb].
  2:{ do 2 erewrite then_ok by (apply run_free; cbn; set_solver). eexists _, _. split_and!; [done..|]. exists 2%nat.
      split_and!; [lia | by apply (refused_app 2 c c2 0), refused_0 | cbn; set_solver | done]. }
  assert (granted_all 3 c) as Ga3 by (apply (granted_all_app 2 1 c c2); [done | done | by apply granted_1]).
  erewrite then_ok by (apply run_lift; reflexivity). set (c3 := with_world _ _).
  assert (moved 3 c c3) as Hm3 by (apply (moved_trans 2 1 c c2); [done | by apply moved_1]).
  rewrite (then_ok _ _ _ _ _ (run_thread_create _ c3)). destruct (granted c3) eqn:Hg3; cbn [negb].
  - eexists _, _. split_and!; [done..|]. cbn. split_and!; [| |by constructor | set_solver | done].
    + apply (granted_all_app 3 1 c c3); [done | done | by apply granted_1].
    + apply (moved_trans 3 1 c c3); [done | by apply moved_1].
  - do 3 erewrite then_ok by (apply run_free; cbn; set_solver). eexists _, _. split_and!; [done..|]. exists 3%nat.
    split_and!; [lia | by apply (refused_app 3 c c3 0), refused_0 | cbn; set_solver | done].
Qed.

(** The thread of a manager that was never started cannot be joined. *)
Lemma heartbeat_join_hangs c :
  RHeartbeatThread ∈ cy_live c -> hm_started (heartbeat_manager (w_server (cy_world c))) = false ->
  tc_heartbeat_manager_finalize c = (Stuck Deadlock, c).
Proof.
  intros Hl Hs. unfold tc_heartbeat_manager_finalize. apply then_stuck. unfold join_heartbeat, heartbeat_returns.
  rewrite decide_False by tauto. by rewrite Hs.
Qed.

(** What the cleanup of [tc_server_init] finds once there is a heartbeat. *)
Record hanging (c : cycle) : Prop := {
  hang_idle : idle (thread_pool (w_server (cy_world c)));
  hang_live : {[ RListener; RAddress; RHeartbeatThread ]} ∪ pool_resources (num_threads (thread_pool (w_server (cy_world c))))
                ⊆ cy_live c;
  hang_thread : RHeartbeatThread ∈ cy_running c;
  hang_unstarted : hm_started (heartbeat_manager (w_server (cy_world c))) = false }.

(** Waiting for the heartbeat, which waits to be started. *)
Definition hangs {A} (r : result A * cycle) : Prop :=
  r.1 = Stuck Deadlock /\ RHeartbeatThread ∈ cy_running r.2 /\ hm_started (heartbeat_manager (w_server (cy_world r.2))) = false.

Lemma hangs_bind {A B} (m : L B) (k : B -> L A) c : hangs (m c) -> hangs ((m ≫= k) c).
Proof. unfold hangs, mbind, L_bind. destruct (m c) as [[?|?] ?]; cbn; [by intros [] | by intros [[= ->] ?]]. Qed.

Lemma undo_heartbeat_hangs {tk : Tasks} c : hanging c -> hangs (undo_heartbeat c).
Proof.
  intros [Hi Hl Ht Hs]. unfold undo_heartbeat. erewrite then_ok by (apply undo_pool_run; [done | set_solver]).
  rewrite heartbeat_join_hangs; [|cbn; unfold pool_resources, workers in *; set_solver | done].
  split_and!; [done | | done]. cbn. unfold workers. set_solver.
Qed.

Lemma undo_router_hangs {tk : Tasks} {jn : Joinables} c : hanging c -> hangs (undo_router c).
Proof. intros H. unfold undo_router, undo_cache. by apply hangs_bind, hangs_bind, undo_heartbeat_hangs. Qed.

(** ** Cache, router and sessions *)

(** An empty cache, with its tree and its lock. *)
Definition new_cache (threshold : Z) (s : map_state) : map_state := with_live (ms_live s + 2) (with_cache (empty_cache threshold) s).

Lemma map_cache_init_run threshold c :
  exists ok w', tc_map_cache_init threshold (cy_world c) = (Ok ok, w') /\ w_server w' = w_server (cy_world c) /\
    h_grants (w_heap w') = h_grants (w_heap (cy_world c)) /\
    if ok : bool then granted_all 2 c /\ moved 2 c (with_world w' c) /\ w_maps w' = new_cache threshold (w_maps (cy_world c))
    else exists k, (k < 2)%nat /\ refused_at c k.
Proof.
  unfold tc_map_cache_init, on_cache, live, modm, allocate, p_malloc, mbind, M_bind.
  destruct c as [[v [g k] el rd cl [ca en la se bu ne li lo]] lv rn]. unfold refused_at, granted_all, moved, grant.
  cbn. destruct (g k) eqn:Hk; cbn; [destruct (g (S k)) eqn:Hk'; cbn|].
  - eexists true, _. split_and!; [done | done | done | | |].
    + intros [|[|j]] Hj; [by rewrite Nat.add_0_r | by rewrite Nat.add_1_r | lia].
    + intros j. cbn. f_equal. lia.
    + unfold new_cache, with_live, with_cache. cbn. f_equal. lia.
  - eexists false, _. split_and!; [done | done | done |]. exists 1%nat. split_and!; [lia | | by rewrite Nat.add_1_r].
    intros [|j] Hj; [by rewrite Nat.add_0_r | lia].
  - eexists false, _. split_and!; [done | done | done |]. exists 0%nat. split_and!; [lia | intros j Hj; lia | by rewrite Nat.add_0_r].
Qed.

Definition new_router (names : list (list Z)) (j : option nat) : tc_join_router := JoinRouter names j 0 false false.

Lemma find_default_run names a w :
  join_router (w_server w) = new_router names None ->
  exists j w', tc_find_joinable a w = (Ok j, w') /\ w' = on_server (with_router (new_router names None)) w.
Proof.
  intros Hr. assert (w = on_server (with_router (new_router names None)) w) as Hw.
  { destruct w as [[] ? ? ? ? ?]. unfold on_server. cbn in *. by subst. }
  unfold tc_find_joinable. erewrite bind_ok by reflexivity. cbv [id]. rewrite Hr.
  destruct a as [a|]; [|by eexists _, _]. destruct (is_default_address _); [by eexists _, _|].
  cbn [router_stopped new_router joinables].
  erewrite bind_ok.
  2:{ unfold p_rwlock_reader_lock. erewrite bind_ok by reflexivity. cbv [id]. rewrite Hr. reflexivity. }
  erewrite bind_ok.
  2:{ unfold p_rwlock_reader_unlock. erewrite bind_ok by reflexivity. reflexivity. }
  eexists _, _. split; [reflexivity|]. done.
Qed.

Lemma router_init_run names a c :
  None ∉ names ->
  exists ok c', router_init names a c = (Ok ok, c') /\ cy_running c' = cy_running c /\
    if ok : bool then granted_all 1 c /\ moved 1 c c' /\ cy_live c' = {[ RRouterLock ]} ∪ cy_live c /\
      exists j, quiet (on_server (with_router (new_router (map (default []) names) j)) (cy_world c)) (cy_world c')
    else refused_at c 0 /\ cy_live c' = cy_live c /\
      exists r, quiet (on_server (with_router r) (cy_world c)) (cy_world c').
Proof.
  intros Hn. unfold router_init. rewrite (then_ok _ _ _ _ _ (run_create _ c)), bool_decide_eq_false_2, andb_false_r by done.
  destruct (granted c) eqn:Hg.
  - set (c1 := with_live_set _ _).
    set (w1 := on_server (with_router (new_router (map (default []) names) None)) (cy_world c1)).
    destruct (find_default_run (map (default []) names) a w1 eq_refl) as (j & w2 & E & ->).
    erewrite run_lift; [eexists true, _; split; [reflexivity|]|].
    2:{ unfold tc_join_router_init. erewrite bind_ok by reflexivity. cbn [negb].
        erewrite bind_ok by exact E. do 2 erewrite bind_ok by reflexivity. reflexivity. }
    split_and!; [done | by apply granted_1 | by apply moved_1 | done |]. exists j. by constructor.
  - erewrite run_lift; [eexists false, _; split; [reflexivity|]|].
    2:{ unfold tc_join_router_init. erewrite bind_ok by reflexivity. cbn [negb]. reflexivity. }
    split_and!; [done | by apply refused_0 | done|]. eexists. by constructor.
Qed.

Lemma hanging_mono c c' :
  hanging c -> thread_pool (w_server (cy_world c')) = thread_pool (w_server (cy_world c)) ->
  heartbeat_manager (w_server (cy_world c')) = heartbeat_manager (w_server (cy_world c)) ->
  cy_live c ⊆ cy_live c' -> cy_running c ⊆ cy_running c' -> hanging c'.
Proof. intros [] E1 E2 H1 H2. constructor; rewrite ?E1, ?E2; try done; set_solver. Qed.

(** The loop over the sessions changes the sessions and the free ids only. *)
Record prepared (i : nat) (v v' : tc_server) : Prop := {
  prep_rest : exists ss ids, v' = with_sessions ss (with_ids ids (id_buffer_head v) v) /\
                length ss = length (session_buffer v) /\ length ids = length (id_buffer v);
  prep_ids j : (j < i)%nat -> id_buffer v' !! j = Some (Z.of_nat j);
  prep_sessions j s : (j < i)%nat -> session_buffer v' !! j = Some s -> action_lock s = false /\ current_generation s = 0 }.

Lemma prepared_0 v : prepared 0 v v.
Proof. constructor; [|lia..]. exists (session_buffer v), (id_buffer v). by destruct v. Qed.

Lemma prepared_S i v v' s :
  prepared i v v' -> (i < length (id_buffer v))%nat -> session_buffer v' !! i = Some s ->
  prepared (S i) v (with_sessions (<[i := with_lock false (with_generation 0 s)]> (session_buffer v'))
                      (with_ids (<[i := Z.of_nat i]> (id_buffer v')) (id_buffer_head v') v')).
Proof.
  intros [(ss & ids & -> & Hs & Hi) Hids Hss] Hlt Hsi. cbn in *. constructor.
  - exists (<[i := with_lock false (with_generation 0 s)]> ss), (<[i := Z.of_nat i]> ids).
    by rewrite !length_insert.
  - intros j Hj. cbn. destruct (decide (j = i)) as [->|]; [by apply list_lookup_insert_eq; lia|].
    rewrite list_lookup_insert_ne by done. apply Hids. lia.
  - intros j s' Hj. cbn. destruct (decide (j = i)) as [->|].
    + rewrite list_lookup_insert_eq by (by eapply lookup_lt_Some). by intros [= <-].
    + rewrite list_lookup_insert_ne by done. apply Hss. lia.
Qed.

Lemma create_sessions_run {tk : Tasks} {jn : Joinables} v0 n i c :
  hanging c -> prepared i v0 (w_server (cy_world c)) ->
  (i + n <= length (session_buffer v0))%nat -> (i + n <= length (id_buffer v0))%nat ->
  (exists k, (k < n)%nat /\ refused_at c k /\ hangs (create_sessions n i c)) \/
  exists c', create_sessions n i c = (Ok true, c') /\ granted_all n c /\ prepared (i + n) v0 (w_server (cy_world c')) /\
    cy_live c' = range RActionLock i n ∪ cy_live c /\ cy_running c' = cy_running c /\
    w_maps (cy_world c') = w_maps (cy_world c) /\ h_grants (w_heap (cy_world c')) = h_grants (w_heap (cy_world c)).
Proof.
  revert i c. induction n as [|n IH]; intros i c Hh Hp Hls Hli; cbn [create_sessions].
  - right. exists c. rewrite Nat.add_0_r. split_and!; [done | intros k Hk; lia | done | |done|done|done]. set_solver by lia.
  - destruct (lookup_lt_is_Some_2 (session_buffer (w_server (cy_world c))) i) as [s Hs].
    { destruct (prep_rest _ _ _ Hp) as (ss & ids & -> & Hlen & _). cbn. lia. }
    erewrite then_ok by (apply run_lift; reflexivity). set (c1 := with_world _ _).
    erewrite then_ok by (apply run_lift, (run_update i _ (cy_world c1) s), Hs). set (c2 := with_world _ _).
    assert (at_session i (cy_world c2) (with_generation 0 s)) as Hs2 by (eapply at_put; exact Hs).
    rewrite (then_ok _ _ _ _ _ (run_create _ c2)). destruct (granted c2) eqn:Hg.
    + erewrite then_ok by (apply run_lift; eapply run_update; exact Hs2). set (c3 := with_world _ _).
      assert (moved 1 c c3) as Hm1 by (apply (moved_trans 0 1 c c2); [by apply moved_0 | by apply moved_1]).
      assert (granted_all 1 c) as Ga1 by (apply (granted_all_app 0 1 c c2); [intros k Hk; lia | by apply moved_0 | by apply granted_1]).
      destruct (IH (S i) c3) as [(k & Hk & Hr & H)|(c' & E & Ga & Hp' & Hl & Ht & Hm & Hgr)]; [| | lia | lia | |].
      * apply (hanging_mono c); [done..| |done]. subst c3. cbn. set_solver.
      * pose proof (prepared_S i v0 _ s Hp ltac:(lia) Hs) as H. subst c3 c2 c1. unfold put, with_world. cbn in *.
        by rewrite list_insert_insert_eq.
      * left. exists (1 + k)%nat. split_and!; [lia | by apply (refused_app 1 c c3) | done].
      * right. exists c'. replace (i + S n)%nat with (S i + n)%nat by lia.
        split_and!; [done | by apply (granted_all_app 1 n c c3) | done | |done|done|done].
        rewrite Hl, range_S. subst c3 c2 c1. cbn. set_solver.
    + left. exists 0%nat. split_and!; [lia | apply (refused_app 0 c c2); [intros k Hk; lia | by apply moved_0 | by apply refused_0]|].
      apply hangs_bind, undo_router_hangs. by apply (hanging_mono c).
Qed.

(** ** The server *)

(** The server after [tc_server_init] returned [TRUE]. *)
Record initialised (arrays : pool_arrays) (n mb : nat) info services (threshold : Z) (names : list (option (list Z))) (c c' : cycle) : Prop := {
  ini_live : cy_live c' = server_resources n ∪ cy_live c;
  ini_running : cy_running c' = {[ RHeartbeatThread ]} ∪ workers n ∪ cy_running c;
  ini_pool : thread_pool (w_server (cy_world c')) = new_pool arrays round_robin n mb;
  ini_heartbeat : heartbeat_manager (w_server (cy_world c')) = new_heartbeat info services;
  ini_router : exists j, join_router (w_server (cy_world c')) = new_router (map (default []) names) j;
  ini_ids : id_buffer (w_server (cy_world c')) = map Z.of_nat (seq 0 (Z.to_nat TC_SERVER_MAX_SESSIONS));
  ini_head : id_buffer_head (w_server (cy_world c')) = 0;
  ini_sessions : Forall (fun s => action_lock s = false /\ current_generation s = 0) (session_buffer (w_server (cy_world c')));
  ini_players : active_players (w_server (cy_world c')) = 0;
  ini_started : started (w_server (cy_world c')) = started (w_server (cy_world c));
  ini_maps : w_maps (cy_world c') = new_cache threshold (w_maps (cy_world c));
  ini_grants : h_grants (w_heap (cy_world c')) = h_grants (w_heap (cy_world c)) }.

(** All arrays of the server have their lengths. *)
Definition sized (v : tc_server) : Prop :=
  length (session_buffer v) = Z.to_nat TC_SERVER_MAX_SESSIONS /\ length (id_buffer v) = Z.to_nat TC_SERVER_MAX_SESSIONS.

Lemma prepared_all v v' :
  sized v -> prepared (Z.to_nat TC_SERVER_MAX_SESSIONS) v v' ->
  id_buffer v' = map Z.of_nat (seq 0 (Z.to_nat TC_SERVER_MAX_SESSIONS)) /\
  Forall (fun s => action_lock s = false /\ current_generation s = 0) (session_buffer v').
Proof.
  intros [Hs Hi] [(ss & ids & -> & Hls & Hli) Hids Hss]. cbn in *. split.
  - apply list_eq. intros j. change (map Z.of_nat) with (fmap (M := list) Z.of_nat). rewrite list_lookup_fmap.
    destruct (decide (j < Z.to_nat TC_SERVER_MAX_SESSIONS)%nat).
    + rewrite Hids, lookup_seq_lt by done. done.
    + rewrite lookup_ge_None_2, lookup_seq_ge by lia. done.
  - apply Forall_lookup. intros j s E. apply (Hss j); [|done]. apply lookup_lt_Some in E. lia.
Qed.

(** The requests that follow the heartbeat: the tree and the lock of the cache,
    the locks of the router and the server, and those of the sessions. *)
Definition after_heartbeat : nat := 4 + Z.to_nat TC_SERVER_MAX_SESSIONS.

Lemma init_after_heartbeat_run {tk : Tasks} {jn : Joinables} threshold names a c :
  hanging c -> sized (w_server (cy_world c)) -> None ∉ names ->
  (exists k, (k < after_heartbeat)%nat /\ refused_at c k /\ hangs (init_after_heartbeat threshold names a c)) \/
  exists c' j v1, init_after_heartbeat threshold names a c = (Ok true, c') /\ granted_all after_heartbeat c /\
    prepared (Z.to_nat TC_SERVER_MAX_SESSIONS) (with_router (new_router (map (default []) names) j) (w_server (cy_world c))) v1 /\
    w_server (cy_world c') = with_players 0 (with_ids (id_buffer v1) 0 v1) /\
    cy_live c' = {[ RRouterLock; RServerLock ]} ∪ session_locks ∪ cy_live c /\
    cy_running c' = cy_running c /\
    w_maps (cy_world c') = new_cache threshold (w_maps (cy_world c)) /\
    h_grants (w_heap (cy_world c')) = h_grants (w_heap (cy_world c)).
Proof.
  intros Hh [Hls Hli] Hn. unfold init_after_heartbeat, after_heartbeat.
  destruct (map_cache_init_run threshold c) as (ok & w1 & E & Hv & Hg & H1).
  rewrite (then_ok _ _ _ _ _ (run_lift _ _ _ _ E)). set (c1 := with_world w1 c) in *.
  assert (hanging c1) as Hh1 by (apply (hanging_mono c); cbn; by rewrite ?Hv). destruct ok; cbn [negb].
  2:{ destruct H1 as (k & Hk & Hr). left. exists k. split_and!; [lia | done | by apply hangs_bind, undo_heartbeat_hangs]. }
  destruct H1 as (Ga1 & Hm1 & Ht).
  destruct (router_init_run names a c1 Hn) as (ok & c2 & E2 & Hrun & H2). rewrite (then_ok _ _ _ _ _ E2).
  destruct ok; cbn [negb].
  2:{ destruct H2 as (Hr & Hl & r & [Hq _ _]). left. exists (2 + 0)%nat. split_and!; [lia | by apply (refused_app 2 c c1)|].
      apply hangs_bind, hangs_bind, undo_heartbeat_hangs. apply (hanging_mono c1); rewrite ?Hq, ?Hl, ?Hrun; done. }
  destruct H2 as (Ga2 & Hm2 & Hl & j & [Hq Hqm Hqg]). rewrite (then_ok _ _ _ _ _ (run_create _ c2)).
  assert (hanging c2) as Hh2 by (apply (hanging_mono c1); rewrite ?Hq, ?Hrun, ?Hl; try done; set_solver).
  pose proof (granted_all_app 2 1 _ _ Ga1 Hm1 Ga2) as Ga3. pose proof (moved_trans 2 1 _ _ _ Hm1 Hm2) as Hm3.
  destruct (granted c2) eqn:Hg2; cbn [negb].
  2:{ left. exists (2 + 1 + 0)%nat. split_and!; [lia | by apply (refused_app _ c c2), refused_0 | apply hangs_bind, undo_router_hangs].
      by apply (hanging_mono c2). }
  set (c3 := with_live_set _ _).
  assert (moved 4 c c3) as Hm4 by (apply (moved_trans 3 1 _ _ _ Hm3); by apply moved_1).
  pose proof (granted_all_app 3 1 _ _ Ga3 Hm3 (granted_1 _ Hg2)) as Ga4.
  destruct (create_sessions_run (w_server (cy_world c3)) (Z.to_nat TC_SERVER_MAX_SESSIONS) 0 c3
    ltac:(apply (hanging_mono c2); subst c3; try done; set_solver) (prepared_0 _)) as [(k & Hk & Hr & Hhang)|(c4 & E4 & Ga5 & Hp & Hl4 & Hr4 & Hm5 & Hg4)].
  - cbn. rewrite Hq. cbn. rewrite Hv. lia.
  - cbn. rewrite Hq. cbn. rewrite Hv. lia.
  - left. exists (4 + k)%nat. split_and!; [lia | by apply (refused_app 4 c c3) | by apply hangs_bind].
  - right. rewrite (then_ok _ _ _ _ _ E4). cbn [negb].
    do 2 erewrite then_ok by (apply run_lift; reflexivity). eexists _, j, (w_server (cy_world c4)).
    split; [reflexivity|]. split; [exact (granted_all_app 4 _ _ _ Ga4 Hm4 Ga5)|]. cbn. cbn in Hp, Hl4, Hr4, Hm5, Hg4. rewrite Hq in Hp. cbn in Hp. rewrite Hv in Hp.
    split_and!; [done | done | | by rewrite Hr4, Hrun | by rewrite Hm5, Hqm | by rewrite Hg4, Hqg].
    rewrite Hl4, Hl. change (cy_live c1) with (cy_live c). fold session_locks. clear. set_solver.
Qed.

Lemma server_fresh n (s : gset resource) :
  server_resources n ## s -> RAddress ∉ s /\ RListener ∉ s /\ pool_resources n ## s /\ heartbeat_resources ## s.
Proof. unfold server_resources. rewrite !disjoint_union_l, !disjoint_singleton_l. tauto. Qed.

(** The requests up to the heartbeat: the address and the socket, the pool, and
    the heartbeat itself. *)
Definition up_to_heartbeat (n : nat) : nat := 2 + (2 + n) + 4.

(** How [tc_server_init] ends. *)
Inductive init_ends arrays (n mb : nat) info services threshold names (bind_success : bool) (c : cycle) :
    result bool * cycle -> Prop :=
| InitDone c' :
    bind_success = true -> granted_all (up_to_heartbeat n + after_heartbeat) c ->
    initialised arrays n mb info services threshold names c c' ->
    init_ends arrays n mb info services threshold names bind_success c (Ok true, c')
| InitUnbound c' :
    bind_success = false -> granted_all 2 c -> cy_live c' = cy_live c -> cy_running c' = cy_running c ->
    init_ends arrays n mb info services threshold names bind_success c (Ok false, c')
| InitRefused k c' :
    refused_at c k -> (k < up_to_heartbeat n)%nat -> ((k < 2)%nat \/ bind_success = true) -> cy_live c' = cy_live c ->
    cy_running c' = (if (k <? 4 + n)%nat then workers (k - 4) else ∅) ∪ cy_running c ->
    init_ends arrays n mb info services threshold names bind_success c (Ok false, c')
| InitHangs k o :
    refused_at c k -> (up_to_heartbeat n <= k < up_to_heartbeat n + after_heartbeat)%nat -> bind_success = true -> hangs o ->
    init_ends arrays n mb info services threshold names bind_success c o.

Lemma init_cases {tk : Tasks} {jn : Joinables} arrays ideal bind_success reserved mb services info threshold names a n c :
  init_num_threads ideal reserved = Some n -> server_resources (Z.to_nat n) ## cy_live c ->
  cy_running c = ∅ -> sized (w_server (cy_world c)) -> None ∉ names ->
  init_ends arrays (Z.to_nat n) mb info services threshold names bind_success c
    (tc_server_init arrays ideal bind_success reserved mb services info threshold names a c).
Proof.
  intros Hn Hd Ht Hsz Hnames. unfold tc_server_init.
  assert (heartbeat_resources ## pool_resources (Z.to_nat n) ∪ {[ RListener; RAddress ]}) as Hdis.
  { unfold heartbeat_resources, pool_resources, workers. set_solver. }
  assert (pool_resources (Z.to_nat n) ## {[ RListener; RAddress ]}) as Hdis'.
  { unfold pool_resources, workers. set_solver. }
  assert (forall s : gset resource, workers 0 ∪ s = s) as H0 by (intros s; unfold workers; set_solver by lia).
  destruct (server_fresh _ _ Hd) as (Ha & Hl & Hpool & Hhb). clear Hd.
  rewrite (then_ok _ _ _ _ _ (run_create _ c)). destruct (granted c) eqn:Hg; cbn [negb].
  2:{ apply (InitRefused _ _ _ _ _ _ _ _ _ 0); [by apply refused_0 | unfold up_to_heartbeat; lia | left; lia | done | by rewrite H0]. }
  set (c1 := with_live_set _ _). assert (moved 1 c c1) as Hm1 by (by apply moved_1).
  rewrite (then_ok _ _ _ _ _ (run_create _ c1)). destruct (granted c1) eqn:Hg1; cbn [negb].
  2:{ erewrite then_ok by (apply run_free; cbn; set_solver).
      apply (InitRefused _ _ _ _ _ _ _ _ _ 1); [by apply (refused_app 1 c c1 0 (granted_1 _ Hg)), refused_0
        | unfold up_to_heartbeat; lia | left; lia | cbn; set_solver | by rewrite H0]. }
  set (c2 := with_live_set _ _). assert (moved 2 c c2) as Hm2 by (apply (moved_trans 1 1 c c1); [done | by apply moved_1]).
  assert (granted_all 2 c) as Ga2 by (apply (granted_all_app 1 1 c c1 (granted_1 _ Hg) Hm1), granted_1, Hg1).
  destruct bind_success; cbn [negb].
  2:{ do 2 erewrite then_ok by (apply run_free; cbn; set_solver). apply InitUnbound; [done | done | cbn; set_solver | done]. }
  destruct (create_pool_run arrays ideal round_robin reserved mb n c2 Hn) as (ok & c3 & E3 & H3); [cbn; set_solver|].
  rewrite (then_ok _ _ _ _ _ E3). destruct ok; cbn [negb].
  2:{ destruct H3 as (k & Hk & Hr & Hl' & Hrn). cbn in Hl', Hrn. do 2 erewrite then_ok by (apply run_free; cbn; rewrite ?Hl'; set_solver).
      apply (InitRefused _ _ _ _ _ _ _ _ _ (2 + k)); [by apply (refused_app 2 c c2) | unfold up_to_heartbeat; lia | by right
        | cbn; rewrite Hl'; set_solver |]. cbn [cy_running with_live_set]. rewrite Hrn.
      destruct (Nat.ltb_spec (2 + k) (4 + Z.to_nat n)); [|lia]. by replace (2 + k - 4)%nat with (k - 2)%nat by lia. }
  destruct H3 as (Ga3 & Hm3 & [Hv3 Hw3 Hg3] & Hl3 & Hr3). cbn in Hv3, Hw3, Hg3, Hl3, Hr3.
  pose proof (granted_all_app 2 _ _ _ Ga2 Hm2 Ga3) as Ga4. pose proof (moved_trans 2 _ _ _ _ Hm2 Hm3) as Hm4.
  destruct (create_heartbeat_run info services c3) as (ok & c4 & E4 & Hp4 & H4); [rewrite Hl3; set_solver|].
  rewrite (then_ok _ _ _ _ _ E4). rewrite Hv3 in Hp4. cbn in Hp4. destruct ok; cbn [negb].
  2:{ destruct H4 as (k & Hk & Hr & Hl' & Hrun).
      erewrite then_ok by (apply undo_pool_run; rewrite Hp4; [done | rewrite Hl', Hl3; cbn; set_solver]). rewrite Hp4. cbn [num_threads new_pool].
      apply (InitRefused _ _ _ _ _ _ _ _ _ (2 + (2 + Z.to_nat n) + k)); [by apply (refused_app _ c c3) | unfold up_to_heartbeat; lia | by right
        | cbn; rewrite Hl', Hl3; set_solver |]. cbn [cy_running]. rewrite Hrun, Hr3. cbn [cy_running with_live_set]. rewrite Ht.
      rewrite (proj2 (Nat.ltb_ge _ _)) by lia. unfold workers. clear. set_solver. }
  destruct H4 as (Ga5 & Hm5 & [Hv4 Hw4 Hg4] & Hl4 & Hr4). cbn in Hv4, Hw4, Hg4. rewrite Hv3 in Hv4. rewrite Hl3 in Hl4. rewrite Hr3 in Hr4.
  pose proof (granted_all_app _ _ _ _ Ga4 Hm4 Ga5) as Ga6. pose proof (moved_trans _ _ _ _ _ Hm4 Hm5) as Hm6.
  destruct (init_after_heartbeat_run threshold names a c4) as [(k & Hk & Hr & Hh)|(c' & j & v1 & E & Ga7 & Hp & Hv & Hl' & Hrun & Hmaps & Hgr)].
  - constructor; rewrite ?Hp4, ?Hv4, ?Hl4, ?Hr4; cbn; [done | unfold heartbeat_resources; clear; set_solver | clear; set_solver | done].
  - by rewrite Hv4.
  - done.
  - apply (InitHangs _ _ _ _ _ _ _ _ _ (up_to_heartbeat (Z.to_nat n) + k)); [by apply (refused_app _ c c4) | lia | done | exact Hh].
  - rewrite E, Hv4 in *. apply InitDone; [done | exact (granted_all_app _ _ _ _ Ga6 Hm6 Ga7)|].
    destruct (prepared_all _ _ (Hsz : sized (with_router _ (with_heartbeat _ (with_pool _ _)))) Hp) as [Hids Hss]. destruct (prep_rest _ _ _ Hp) as (ss & ids & -> & _).
    constructor; rewrite ?Hv, ?Hmaps, ?Hgr, ?Hw4, ?Hw3, ?Hg4, ?Hg3; try done; cbn.
    + rewrite Hl', Hl4. unfold server_resources. clear. set_solver.
    + rewrite Hrun, Hr4. clear. set_solver.
    + by exists j.
Qed.

(** C30. [tc_server_init] of a struct whose arrays have their lengths, for a number
    of processors that leaves [n] workers, with no thread running and no [NULL]
    among the joinables.  It returns [TRUE] when the address can be bound and no
    request is refused, and then exactly the resources of the server are there
    and its state is the initial one.  When the address cannot be bound or one of
    the requests up to the heartbeat is refused it returns [FALSE] and everything
    it created is gone, except that a worker that cannot be created leaves the
    workers before it running, on a mutex and a condition variable that are
    freed.  When a later request is refused, it does not get that far: the
    cleanup waits for the thread of the heartbeat, which waits to be started. *)
Theorem init_outcome {tk : Tasks} {jn : Joinables} arrays ideal bind_success reserved mb services info threshold names a n c :
  init_num_threads ideal reserved = Some n -> server_resources (Z.to_nat n) ## cy_live c ->
  cy_running c = ∅ -> sized (w_server (cy_world c)) -> None ∉ names ->
  let o := tc_server_init arrays ideal bind_success reserved mb services info threshold names a c in
  let m := up_to_heartbeat (Z.to_nat n) in
  (bind_success = true -> granted_all (m + after_heartbeat) c ->
     exists c', o = (Ok true, c') /\ initialised arrays (Z.to_nat n) mb info services threshold names c c') /\
  (bind_success = false -> granted_all 2 c -> exists c', o = (Ok false, c') /\ cy_live c' = cy_live c /\ cy_running c' = ∅) /\
  (forall k, refused_at c k -> (k < 2)%nat \/ bind_success = true -> (k < m)%nat ->
     exists c', o = (Ok false, c') /\ cy_live c' = cy_live c /\
       cy_running c' = if (k <? 4 + Z.to_nat n)%nat then workers (k - 4) else ∅) /\
  (forall k, refused_at c k -> bind_success = true -> (m <= k < m + after_heartbeat)%nat -> hangs o).
Proof.
  intros Hn Hd Ht Hsz Hnames o m. pose proof (init_cases arrays ideal bind_success reserved mb services info threshold names a n c
    Hn Hd Ht Hsz Hnames) as H. fold o in H. clearbody o.
  assert (forall j k, refused_at c j -> refused_at c k -> j = k) as Hsame.
  { intros j k [H1 H2] [H3 H4]. destruct (Nat.lt_trichotomy j k) as [Hlt|[?|Hlt]]; [|done|].
    - rewrite H3 in H2 by done. done.
    - rewrite H1 in H4 by done. done. }
  assert (forall j k, granted_all j c -> refused_at c k -> (j <= k)%nat) as Hle.
  { intros j k H1 [_ H2]. destruct (Nat.le_gt_cases j k); [done|]. rewrite H1 in H2 by done. done. }
  fold m in H. subst m.
  destruct H as [c' Hb Hga Hi|c' Hb Hga Hl Hr|k0 c' Hr0 Hk0 Hb Hl Hr|k0 o Hr0 Hk0 Hb Hh]; rewrite ?Ht, ?(right_id_L ∅ (∪)) in *;
    split_and!; intros; try congruence;
    repeat match goal with
    | H1 : refused_at c ?j, H2 : refused_at c ?k |- _ => tryif constr_eq j k then fail else (pose proof (Hsame _ _ H1 H2); subst k; clear H2)
    | H1 : granted_all ?j c, H2 : refused_at c ?k |- _ => pose proof (Hle _ _ H1 H2); clear H1
    end; try (exfalso; intuition (try congruence; lia)); eauto.
Qed.
