(* ===== verification/LifecycleRun.v ===== *)
(** * The life of the server

    The release of a running server, a whole run of [run_server], and the two
    ways in which it never returns. *)

From S2P Require Import Prelude Socket Protocol ThreadPool Heartbeat Objects Session SessionSpec Server Joinable MapCache MapCacheSpec MapCacheProps MapCacheSystem.
From S2P Require Import Lifecycle LifecycleProps.

Local Open Scope Z_scope.

#[local] Arguments range : simpl never.
#[local] Arguments session_locks : simpl never.
#[local] Arguments pool_resources : simpl never.
#[local] Arguments round_robin : simpl never.

(** ** A thread that cannot be created *)

(** When thread number [i] of the pool cannot be created, the threads before it
    go on running while the mutex and the condition variable they work with are
    freed. *)
Theorem pool_init_dangling arrays ideal pattern reserved mb n i c :
  init_num_threads ideal reserved = Some n -> pool_resources (Z.to_nat n) ## cy_live c -> (i < Z.to_nat n)%nat ->
  (forall k, (k < 2 + i)%nat -> grant c k = true) -> grant c (2 + i) = false ->
  exists c', create_pool arrays ideal pattern reserved mb c = (Ok false, c') /\
    cy_running c' = workers i ∪ cy_running c /\ RPoolLock ∉ cy_live c' /\ RPoolCond ∉ cy_live c'.
Proof.
  intros Hn Hd Hi Hk Hf. unfold create_pool. rewrite Hn.
  rewrite (then_ok _ _ _ _ _ (run_create _ c)), <- grant_0, (Hk 0%nat) by lia. cbn [negb].
  set (c1 := with_live_set _ _). rewrite (then_ok _ _ _ _ _ (run_create _ c1)).
  assert (granted c1 = true) as Hg1 by (rewrite <- grant_0; unfold c1, with_live_set; rewrite (grant_S c) by done; apply Hk; lia).
  rewrite Hg1. cbn [negb].
  set (c2 := with_live_set _ _). erewrite then_ok by (apply run_lift; reflexivity).
  set (c3 := with_world _ _). assert (forall k, grant c3 k = grant c (2 + k)) as Hg.
  { intros k. unfold grant. cbn. f_equal. lia. }
  destruct (create_workers_run (Z.to_nat n) 0 c3) as (ok & c' & -> & _ & H).
  { subst c3 c2 c1. unfold pool_resources, workers. cbn. set_solver by lia. }
  exists c'. destruct ok.
  - destruct H as (Hall & _). specialize (Hall i Hi). rewrite Hg in Hall. congruence.
  - destruct H as (j & Hj & [Hjk Hjf] & Hl & Hr).
    assert (j = i) as ->.
    { destruct (Nat.lt_trichotomy j i) as [Hlt|[?|Hlt]]; [|done|].
      - rewrite Hg, Hk in Hjf by lia. done.
      - specialize (Hjk i Hlt). rewrite Hg in Hjk. congruence. }
    split_and!; [done | exact Hr | rewrite Hl..]; unfold pool_resources; set_solver.
Qed.

(** ** Releasing a running server *)

Lemma then_stuck_1 {A B} (m : L B) (k : B -> L A) e c : (m c).1 = Stuck e -> ((m ≫= k) c).1 = Stuck e.
Proof. unfold mbind, L_bind. destruct (m c) as [[?|?] ?]; cbn; [done | by intros [= ->]]. Qed.


Lemma pool_finalize_run {tk : Tasks} rounds c w n :
  num_threads (thread_pool (w_server (cy_world c))) = n -> (0 < n)%nat ->
  drain rounds (cy_world c) = (Ok tt, w) -> idle (thread_pool (w_server w)) -> shutdown (thread_pool (w_server w)) = true ->
  pool_resources n ⊆ cy_live c ->
  tc_thread_pool_finalize rounds c = (Ok tt, Cycle w (cy_live c ∖ pool_resources n) (cy_running c ∖ workers n)).
Proof.
  intros Hn Hpos Hd Hi Hs Hl. unfold tc_thread_pool_finalize, pool_resources, workers in *.
  erewrite then_ok by (apply run_lift; reflexivity). cbv [id]. rewrite Hn.
  erewrite then_ok by (apply join_workers_run; cbn; [done | exact Hd | done | done | set_solver]).
  erewrite then_ok by (apply run_free; cbn; set_solver). rewrite run_free by (cbn; set_solver).
  unfold with_live_set. cbn. do 2 f_equal; clear; set_solver.
Qed.






(** The server after [tc_server_stop]. *)
Definition stopped_server (v : tc_server) : tc_server :=
  with_pool (set_shutdown (thread_pool v)) (with_heartbeat (tc_heartbeat_manager_stop (heartbeat_manager v)) v).





(** ** A whole run *)






(** The start of the program: nothing there, an allocator that never refuses,
    and a struct for the server whose arrays have their lengths. *)
Record at_start (arrays : pool_arrays) (c : cycle) : Prop := {
  st_live : cy_live c = ∅;
  st_running : cy_running c = ∅;
  st_rich : rich c;
  st_sized : sized (w_server (cy_world c));
  st_high : length (pa_high arrays) = 64%nat;
  st_maps : exists t, w_maps (cy_world c) = no_maps t }.

Lemma ideal_threads ideal : 2 < ideal < 2 ^ 31 -> exists n, init_num_threads ideal 2 = Some n /\ 0 < n <= 16.
Proof.
  intros H. unfold init_num_threads. destruct (Z.leb_spec (u64 ideal) 2) as [Hle|_].
  - rewrite wrapu_small in Hle by (split; [lia|]; change (2 ^ 64) with 18446744073709551616; lia). lia.
  - eexists. split; [done|]. assert (s32 (ideal - 2) = ideal - 2) as ->.
    { apply wraps_small; [lia|]. split; [|lia]. change (- 2 ^ (32 - 1)) with (-2147483648). lia. }
    change (Z.of_nat TC_THREADS_MAX_THREADS) with 16. destruct (Z.leb_spec 16 (ideal - 2)); lia.
Qed.


(** [run_server] up to the start of the server. *)
Lemma run_server_initialised {tk : Tasks} {jn : Joinables} arrays ideal listen services info serve input rounds c n :
  at_start arrays c -> init_num_threads ideal 2 = Some n ->
  exists c', initialised arrays (Z.to_nat n) 2 info services (2 ^ 30) [Some (cstr "lobby")]
      (with_live_set {[ RJoinableNode; RJoinable 0; RServer ]} c) c' /\
    run_server arrays ideal true listen services info serve input rounds c
    = (start_success ← start_server listen;
       if negb start_success then _ ← tc_server_finalize rounds; _ ← release RServer; mret false
       else _ ← lift serve; _ ← read_until_quit input; _ ← tc_server_finalize rounds; _ ← release RServer; mret true) c'.
Proof.
  intros [Hl Ht Hr Hsz _ _] Hn. unfold run_server.
  assert (forall c, rich c -> granted c = true) as Hg by (intros ? H; apply H).
  rewrite (then_ok _ _ _ _ _ (run_create _ c)), Hg by done. cbn [negb].
  set (c1 := with_live_set _ (spent c)). rewrite (then_ok _ _ _ _ _ (run_create _ c1)), (Hg c1) by exact Hr. cbv beta.
  set (c2 := with_live_set _ (spent c1)). rewrite (then_ok _ _ _ _ _ (run_create _ c2)), (Hg c2) by exact Hr. cbv beta iota zeta.
  set (c3 := with_live_set _ (spent c2)).
  assert (cy_live c3 = {[ RJoinableNode; RJoinable 0; RServer ]}) as Hl3 by (subst c3 c2 c1; cbn; rewrite Hl; clear; set_solver).
  assert (rich c3) as Hr3 by exact Hr.
  pose proof (init_cases arrays ideal true 2 2 services info (2 ^ 30) [Some (cstr "lobby")] (Some (cstr "lobby")) n c3 Hn) as H.
  remember (tc_server_init _ _ _ _ _ _ _ _ _ _ c3) as o eqn:E. symmetry in E.
  destruct H as [c' _ _ Hi|? Hb| k ? Hk|k o Hk].
  - rewrite Hl3. unfold server_resources, pool_resources, workers, heartbeat_resources, session_locks. clear. set_solver.
  - exact Ht.
  - exact Hsz.
  - by intros [?|?%not_elem_of_nil]%elem_of_cons.
  - exists c'. split; [|by rewrite (then_ok _ _ _ _ _ E)]. destruct Hi as [il]. constructor; try done. by rewrite il, Hl3.
  - done.
  - by destruct (refused_not_rich _ _ Hk).
  - by destruct (refused_not_rich _ _ Hk).
Qed.


(** ** A server that cannot be started *)

Lemma join_hangs {tk : Tasks} rounds c n :
  idle (thread_pool (w_server (cy_world c))) -> shutdown (thread_pool (w_server (cy_world c))) = false ->
  num_threads (thread_pool (w_server (cy_world c))) = n -> (0 < n)%nat -> RWorker 0 ∈ cy_live c ->
  tc_thread_pool_finalize rounds c = (Stuck Deadlock, c).
Proof.
  intros Hi Hs Hn Hpos Hl. unfold tc_thread_pool_finalize. erewrite then_ok by (apply run_lift; reflexivity). cbv [id].
  rewrite Hn. apply then_stuck. destruct c. by apply join_waits.
Qed.

(** [run_server] never reports that the server could not be started.  When
    listening fails, the cleanup waits for workers nobody told to stop; and
    [server->started] is not initialised: when the memory it lies in is not
    zero, [tc_server_start] does nothing and the cleanup waits for a heartbeat
    that was never started. *)
Theorem failed_start_hangs {tk : Tasks} {jn : Joinables} arrays ideal listen services info serve input rounds c :
  at_start arrays c -> 2 < ideal < 2 ^ 31 -> (started (w_server (cy_world c)) = true \/ listen = false) ->
  (run_server arrays ideal true listen services info serve input rounds c).1 = Stuck Deadlock.
Proof.
  intros Hc Hid Hst. destruct (ideal_threads ideal Hid) as (n & Hn & Hn16).
  destruct (run_server_initialised arrays ideal listen services info serve input rounds c n Hc Hn) as (c1 & Hi & ->).
  destruct Hi as [Hil Hir Hip Hih _ _ _ _ _ His _ _]. cbn in *.
  assert (start_server listen c1 = (Ok false, c1)) as E.
  { unfold start_server. erewrite then_ok by (apply run_lift; reflexivity). cbv [id]. rewrite His.
    destruct Hst as [-> | ->]; [|destruct (started (w_server (cy_world c)))]; destruct c1; reflexivity. }
  rewrite (then_ok _ _ _ _ _ E). cbn [negb]. apply then_stuck_1. unfold tc_server_finalize.
  erewrite then_ok by (apply run_lift; reflexivity). cbv [id]. rewrite His.
  assert (pool_resources (Z.to_nat n) ∪ heartbeat_resources ⊆ cy_live c1) as Hres.
  { rewrite Hil. unfold server_resources. clear. set_solver. }
  destruct (started (w_server (cy_world c))) eqn:Es.
  - assert (tc_server_stop (cy_world c1) = (Ok tt, on_server stopped_server (cy_world c1))) as Estop.
    { unfold tc_server_stop. erewrite bind_ok by reflexivity. cbv [id]. rewrite His. cbn [negb]. by erewrite bind_ok by reflexivity. }
    erewrite then_ok by (apply run_lift; exact Estop).
    erewrite then_ok by (apply (pool_finalize_run _ _ (on_server stopped_server (cy_world c1)) (Z.to_nat n)); cbn;
      [by rewrite Hip | lia | apply drain_idle; cbn; by rewrite Hip | by rewrite Hip | done | set_solver]).
    apply then_stuck_1. rewrite heartbeat_join_hangs; cbn; [done| |by rewrite Hih].
    unfold pool_resources, workers, heartbeat_resources in *. set_solver.
  - erewrite then_ok by reflexivity. apply then_stuck_1. destruct c1 as [w1 l1 r1]. rewrite (join_hangs _ _ (Z.to_nat n)); cbn in *;
      [done | by rewrite Hip | by rewrite Hip | by rewrite Hip | lia |].
    apply Hres. unfold pool_resources, workers. apply elem_of_union_l, elem_of_union_r, elem_of_range. exists 0%nat. split; [done | lia].
Qed.
