(* ===== verification/LifecycleExample.v ===== *)
(** * Runs of the program

    The theorems about the life of the server at concrete inputs: the server of
    [main.c] on a machine with six processors. *)

From S2P Require Import Prelude Buffer Nbt NbtSpec NbtFile NbtFileProps Socket Protocol ThreadPool Heartbeat Map TaskBacklog.
From S2P Require Import Objects Session SessionSpec Server ServerProps Joinable Handler MapCache MapCacheSpec MapCacheProps MapSend MainRig.
From S2P Require Import Lifecycle LifecycleProps LifecycleRun.

Local Open Scope Z_scope.

#[local] Existing Instance signed_char_abi.
#[local] Existing Instance plain_zlib.
#[local] Instance one_file : MapLoader := fun _ _ => LoadFailed.
#[local] Instance lp64 : CacheSizes := { map_sizes := Sizes 232 8 32 96 8 16; sizeof_entry := 336 }.
#[local] Instance identity_md5 : Md5 := fun d => d.
#[local] Existing Instance rig_clients.
#[local] Existing Instance open_joinables.

(** All tasks of the program, with nobody on the line. *)
#[local] Instance program_tasks : Tasks := fun t =>
  match ctx_func t, ctx_arg t with
  | Some listener_worker_task, Some ArgServer => run_listener_worker_task None (ctx_priority t)
  | _, _ => run_any t
  end.

Definition raw_arrays : pool_arrays :=
  PoolArrays (replicate 64 null_task) (replicate 128 null_task) (replicate 128 null_task) (replicate 256 null_task).

(** The struct as [p_malloc] gives it, with what [started] happens to be. *)
Definition raw_world (grants : nat -> bool) (garbage : bool) : world :=
  World (with_started garbage sample_server) (Heap grants 0) (fun _ => 0) 0 [] (no_maps 0).
Definition raw_cycle (grants : nat -> bool) (garbage : bool) : cycle := Cycle (raw_world grants garbage) ∅ ∅.

Definition program_info : tc_heartbeat_info := HeartbeatInfo 8080 100 (cstr "TeleClassic26") true 7 (Some (cstr "TeleClassic26")) false.

Lemma raw_start garbage : at_start raw_arrays (raw_cycle (fun _ => true) garbage).
Proof. constructor; try done. by exists 0. Qed.

(** Request [k] is the only one that is refused. *)
Definition all_but (k : nat) : cycle := raw_cycle (fun j => negb (j =? k)%nat) false.

Lemma all_but_refused k : refused_at (all_but k) k.
Proof.
  unfold refused_at, granted_all, grant, all_but, raw_cycle. cbn. split.
  - intros j Hj. destruct (Nat.eqb_spec j k); [lia | done].
  - by rewrite Nat.eqb_refl.
Qed.

(** With four threads: a third thread that is refused leaves two workers behind;
    a heartbeat that is refused leaves nothing; and an allocator that fails at
    the tree of the map cache, after an address, a socket, a pool and a
    heartbeat, makes the cleanup hang. *)
Lemma init_outcome_witness :
  let init c := tc_server_init raw_arrays 6 true 2 2 [] program_info 0 [] None c in
  (exists c', init (all_but 6) = (Ok false, c') /\ cy_live c' = ∅ /\ cy_running c' = workers 2) /\
  (exists c', init (all_but 9) = (Ok false, c') /\ cy_live c' = ∅ /\ cy_running c' = ∅) /\
  hangs (init (all_but 12)).
Proof.
  intros init. assert (forall k, server_resources 4 ## cy_live (all_but k)) as Hd by (intros k; apply disjoint_empty_r).
  pose proof (fun k => init_outcome raw_arrays 6 true 2 2 [] program_info 0 [] None 4 (all_but k) eq_refl (Hd k) eq_refl
    (conj eq_refl eq_refl) (not_elem_of_nil _)) as H.
  split_and!.
  - apply (proj1 (proj2 (proj2 (H 6%nat))) 6%nat); [apply all_but_refused | right; reflexivity | apply Nat.ltb_lt; reflexivity].
  - apply (proj1 (proj2 (proj2 (H 9%nat))) 9%nat); [apply all_but_refused | right; reflexivity | apply Nat.ltb_lt; reflexivity].
  - apply (proj2 (proj2 (proj2 (H 12%nat))) 12%nat); [apply all_but_refused | reflexivity | split; apply Nat.leb_le; reflexivity].
Defined.

(** The third of four threads fails. *)
Lemma pool_init_dangling_witness :
  exists c', create_pool raw_arrays 6 round_robin 2 2 (raw_cycle (fun k => negb (k =? 4)%nat) false) = (Ok false, c') /\
    cy_running c' = workers 2 ∪ ∅ /\ RPoolLock ∉ cy_live c' /\ RPoolCond ∉ cy_live c'.
Proof.
  apply (pool_init_dangling raw_arrays 6 round_robin 2 2 4 2 (raw_cycle (fun k => negb (k =? 4)%nat) false)).
  - reflexivity.
  - apply disjoint_empty_r.
  - apply Nat.ltb_lt. reflexivity.
  - intros [|[|[|[|k]]]] Hk; [reflexivity..|lia].
  - reflexivity.
Defined.


Lemma failed_start_hangs_witness :
  (run_server raw_arrays 6 true true [] program_info (mret tt) [] 1 (raw_cycle (fun _ => true) true)).1 = Stuck Deadlock /\
  (run_server raw_arrays 6 true false [] program_info (mret tt) [] 1 (raw_cycle (fun _ => true) false)).1 = Stuck Deadlock.
Proof.
  split; apply failed_start_hangs; [apply raw_start | split; reflexivity | left; reflexivity
                                   | apply raw_start | split; reflexivity | right; reflexivity].
Defined.







