(* ===== verification/Main.v ===== *)
(** * The program

    [main] of [src/src/main.c]: the log file of the day, the log, and the
    server.  What the operating system answers is a record. *)

From S2P Require Import Prelude Socket Protocol Heartbeat Objects Session Log Lifecycle.

Local Open Scope Z_scope.

Definition TELECLASSIC26_VERSION : list Z := dec 0 ++ cstr "." ++ dec 1 ++ cstr "." ++ dec 0.

(** [p_dir_is_exists], [p_dir_create], [localtime] for the name of the file
    (years since 1900, months since January, days) and for the log, and
    [fopen]. *)
Record startup := Startup {
  su_logs_exist : bool;
  su_logs_created : bool;
  su_date : option (Z * Z * Z);
  su_now : option tm;
  su_open : list Z -> option nat }.

(** What [snprintf] stores in [log_file_name]. *)
Definition log_file_name (tm_year tm_mon tm_mday : Z) : list Z :=
  snprintf 32 (cstr "logs/" ++ dec (s32 (tm_year + 1900)) ++ cstr "-" ++ dec (s32 (tm_mon + 1)) ++ cstr "-" ++ dec tm_mday
                 ++ cstr ".log").

(** What [p_calloc_wrapper] asks for, a [psize]. *)
Definition p_calloc_wrapper (nmemb size : Z) : Z := u64 (nmemb * size).

Definition banner : list (list Z) :=
  [cstr "TeleClassic 2026 - (C) Michael Wang, 2026"; cstr "Version: " ++ TELECLASSIC26_VERSION].

(** The exit status, the lines on standard output and what the log did;
    [server] is [run_server]. *)
Definition main (env : startup) (server : L bool) : L (Z * list (list Z) * list log_effect) :=
  if negb (su_logs_exist env) && negb (su_logs_created env) then
    mret (1, banner ++ [cstr "Failed to create logs directory"], [])
  else
    match su_date env with
    | None => mret (1, banner ++ [cstr "localtime failed"], [])
    | Some (year, month, day) =>
        let name := log_file_name year month day in
        match su_open env name with
        | None => mret (1, banner ++ [cstr "Failed to create log file at " ++ name], [])
        | Some log_file =>
            let '(_, logger) := log_add_fp log_file LOG_INFO initial_logger in
            match log_log (su_now env) LOG_INFO (cstr "main.c") 216 (cstr "Initializing...") logger with
            | None => fails BadAccess
            | Some effects => _ ← server; mret (0, banner, effects)
            end
        end
    end.

(** Dates up to the year 9999 fit the buffer. *)
Lemma length_dec_2 z : 0 <= z < 100 -> (length (dec z) <= 2)%nat.
Proof.
  intros H. unfold dec. destruct (Z.ltb_spec z 0); [lia|]. cbn [dec_loop].
  destruct (Z.eqb_spec (z / 10) 0); [cbn; lia|]. destruct (Z.eqb_spec (z / 10 / 10) 0); [cbn; lia|].
  exfalso. assert (z / 10 / 10 = 0) by (rewrite Z.div_div by lia; apply Z.div_small; lia). lia.
Qed.

Lemma length_dec_4 z : 0 <= z < 10000 -> (length (dec z) <= 4)%nat.
Proof.
  intros H. unfold dec. destruct (Z.ltb_spec z 0); [lia|]. cbn [dec_loop].
  destruct (Z.eqb_spec (z / 10) 0); [cbn; lia|]. destruct (Z.eqb_spec (z / 10 / 10) 0); [cbn; lia|].
  destruct (Z.eqb_spec (z / 10 / 10 / 10) 0); [cbn; lia|]. destruct (Z.eqb_spec (z / 10 / 10 / 10 / 10) 0); [cbn; lia|].
  exfalso. assert (z / 10 / 10 / 10 / 10 = 0) by (rewrite !Z.div_div by lia; apply Z.div_small; lia). lia.
Qed.

Theorem log_file_name_whole year month day :
  -1900 <= year < 8100 -> 0 <= month < 12 -> 1 <= day <= 31 ->
  log_file_name year month day
  = cstr "logs/" ++ dec (year + 1900) ++ cstr "-" ++ dec (month + 1) ++ cstr "-" ++ dec day ++ cstr ".log".
Proof.
  intros Hy Hm Hd. unfold log_file_name. rewrite !wraps_small by (unfold in_s; cbn; lia).
  unfold snprintf. apply take_ge. rewrite !length_app.
  pose proof (length_dec_4 (year + 1900) ltac:(lia)). pose proof (length_dec_2 (month + 1) ltac:(lia)).
  pose proof (length_dec_2 day ltac:(lia)). cbn [length cstr fmap map list_fmap String.list_ascii_of_string]. cbn. lia.
Qed.

(** The exit status does not tell whether the server ran: it is 1 when the log
    cannot be opened and 0 in every other run that ends. *)
Theorem main_status env server c r out effects c' :
  main env server c = (Ok (r, out, effects), c') ->
  (r = 1 /\ c' = c /\ effects = []) \/
  (r = 0 /\ exists b, server c = (Ok b, c')).
Proof.
  unfold main. intros H. destruct (_ && _); [injection H as <- _ <- <-; by left|].
  destruct (su_date env) as [[[y m] d]|]; [|injection H as <- _ <- <-; by left].
  destruct (su_open env _) as [fp|]; [|injection H as <- _ <- <-; by left].
  destruct (log_add_fp fp LOG_INFO initial_logger) as [? lg]. destruct (log_log _ _ _ _ _ lg) as [es|]; [|discriminate H]. right.
  unfold mbind, L_bind in H. destruct (server c) as [[b|e] c1]; [|discriminate H]. injection H as <- _ _ <-. eauto.
Qed.
