(* ===== verification/MapTasks.v ===== *)
(** * The tasks of maps and the cache

    Every task that has to do with maps, from the request to send one to the
    last chunk, changes the map cache by opens, loads, references and locks
    only, also when it fails; so the cache stays well formed whatever the tasks
    of the server do. *)

From S2P Require Import Prelude Buffer Nbt NbtSpec NbtFile NbtFileProps Socket Protocol ThreadPool Heartbeat Map TaskBacklog.
From S2P Require Import Float32 Objects Session SessionSpec Server Handler MapCache MapCacheSpec MapCacheProps MapCacheSystem Compression MapSend MainRig.

Local Open Scope Z_scope.
Set Default Proof Using "Type*".

(** ** Computations that change references and locks only *)

Class CountsOnly {A} (m : M A) : Prop := counts_only w a w' : m w = (Ok a, w') -> only_counts w w'.

(** A computation that leaves the maps alone. *)
Class NoMaps {A} (m : M A) : Prop := no_maps_used w a w' : m w = (Ok a, w') -> w_maps w' = w_maps w.

#[export] Instance no_maps_counts {A} (m : M A) : NoMaps m -> CountsOnly m.
Proof. intros H w a w' E. pose proof (H w a w' E) as Hm. split; by rewrite Hm. Qed.

Lemma counts_bind {A B} (m : M A) (k : A -> M B) : CountsOnly m -> (forall a, CountsOnly (k a)) -> CountsOnly (m ≫= k).
Proof. intros Hm Hk w b w' (a & w1 & E1 & E2)%bind_inv. etrans; [by eapply Hm | by eapply Hk]. Qed.

Lemma no_maps_bind {A B} (m : M A) (k : A -> M B) : NoMaps m -> (forall a, NoMaps (k a)) -> NoMaps (m ≫= k).
Proof. intros Hm Hk w b w' (a & w1 & E1 & E2)%bind_inv. etrans; [by eapply Hk | by eapply Hm]. Qed.

(** A computation is recognised by its name. *)
#[local] Hint Opaque when checked sent_or_fail property scaled send_texture send_color send_initialize send_environment : typeclass_instances.

(** Take a computation apart down to the ones with an instance. *)
Ltac counts_steps :=
  repeat match goal with
  | |- CountsOnly _ => typeclasses eauto
  | |- NoMaps _ => typeclasses eauto
  | |- CountsOnly (_ ≫= _) => apply counts_bind; [|intros ?]
  | |- NoMaps (_ ≫= _) => apply no_maps_bind; [|intros ?]
  | |- CountsOnly (let _ := _ in _) => cbv zeta
  | |- CountsOnly (match ?x with _ => _ end) => destruct x
  | |- NoMaps (match ?x with _ => _ end) => destruct x
  end.

(** *** The server *)

#[export] Instance no_maps_ret {A} (a : A) : NoMaps (mret a).
Proof. by intros w b w' [= _ <-]. Qed.
#[export] Instance no_maps_stuck {A} c : NoMaps (stuck (A := A) c).
Proof. done. Qed.
#[export] Instance no_maps_gets {A} (f : tc_server -> A) : NoMaps (gets f).
Proof. by intros w b w' [= _ <-]. Qed.
#[export] Instance no_maps_modify f : NoMaps (modify f).
Proof. by intros w b w' [= _ <-]. Qed.
#[export] Instance no_maps_allocate : NoMaps allocate.
Proof. by intros w b w' [= _ <-]. Qed.
#[export] Instance no_maps_close out : NoMaps (close_socket out).
Proof. by intros w b w' [= _ <-]. Qed.
#[export] Instance no_maps_checked {A} (o : option A) : NoMaps (checked o).
Proof. intros w a w' [_ ->]%checked_inv. done. Qed.
#[export] Instance no_maps_session sid : NoMaps (get_session sid).
Proof. intros w s w'. unfold get_session. destruct (_ !! _); by intros [= _ <-]. Qed.
#[export] Instance no_maps_when b m : NoMaps m -> NoMaps (when b m).
Proof. destruct b; [done|]. intros _. apply no_maps_ret. Qed.
#[export] Instance counts_when b m : CountsOnly m -> CountsOnly (when b m).
Proof. destruct b; [done|]. intros _. apply no_maps_counts, no_maps_ret. Qed.
#[export] Instance no_maps_update sid f : NoMaps (update_session sid f).
Proof. unfold update_session. counts_steps. Qed.
#[export] Instance no_maps_sending sid c : NoMaps (sending sid c).
Proof. unfold sending. counts_steps. Qed.
#[export] Instance no_maps_release sid : NoMaps (tc_session_release_action_lock sid).
Proof. unfold tc_session_release_action_lock. counts_steps. Qed.
#[export] Instance no_maps_aquire sid g : NoMaps (tc_session_aquire_action_lock sid g).
Proof. unfold tc_session_aquire_action_lock. counts_steps. Qed.
#[export] Instance no_maps_next f sd arg q g : NoMaps (schedule_next f sd arg q g).
Proof. unfold schedule_next. counts_steps. Qed.
#[export] Instance no_maps_new t arg q g : NoMaps (schedule_new t arg q g).
Proof. unfold schedule_new. counts_steps. Qed.

(** *** Entries and objects *)

(** Changes of the map state outside the cache. *)
Lemma counts_modm f :
  (forall s, ms_cache (f s) = ms_cache s /\ ms_load_args (f s) = ms_load_args s /\ (ms_next s <= ms_next (f s))%nat /\
     ms_entries (f s) = ms_entries s) -> CountsOnly (modm f).
Proof. intros Hf w a w' [= _ <-]. destruct (Hf (w_maps w)) as (H1 & H2 & H3 & H4). split; [done | done | done | cbn; by rewrite H4]. Qed.

#[export] Instance no_maps_getm {A} (f : map_state -> A) : NoMaps (getm f).
Proof. by intros w b w' [= _ <-]. Qed.
#[export] Instance counts_live n : CountsOnly (live n).
Proof. by apply counts_modm. Qed.
#[export] Instance counts_get_entry l : NoMaps (get_entry l).
Proof. unfold get_entry. counts_steps. Qed.
#[export] Instance counts_readers l n : CountsOnly (update_entry l (entry_readers n)).
Proof. intros w [] w' (e & He & ->)%update_entry_inv. by apply (only_counts_put l e). Qed.
#[export] Instance counts_reader l : CountsOnly (update_entry l (fun e => entry_readers (S (ce_map_readers e)) e)).
Proof. intros w [] w' (e & He & ->)%update_entry_inv. by apply (only_counts_put l e). Qed.
#[export] Instance counts_ref l : CountsOnly (tc_map_ref l).
Proof. intros w [] w'. apply ref_counts. Qed.
#[export] Instance counts_unref l : CountsOnly (tc_map_unref l).
Proof. intros w [] w'. apply unref_counts. Qed.
#[export] Instance counts_loaded_map l : NoMaps (loaded_map l).
Proof. unfold loaded_map. counts_steps. Qed.
#[export] Instance counts_reader_lock l : CountsOnly (map_reader_lock l).
Proof. unfold map_reader_lock. counts_steps. Qed.
#[export] Instance counts_reader_unlock l : CountsOnly (map_reader_unlock l).
Proof. unfold map_reader_unlock. counts_steps. Qed.
#[export] Instance counts_get_send d : NoMaps (get_send d).
Proof. unfold get_send. counts_steps. Qed.
#[export] Instance counts_get_buffer b : NoMaps (get_buffer b).
Proof. unfold get_buffer. counts_steps. Qed.
#[export] Instance counts_update_send d f : CountsOnly (update_send d f).
Proof. unfold update_send. counts_steps. by apply counts_modm. Qed.
#[export] Instance counts_new_send x : CountsOnly (new_send x).
Proof. intros w a w' [= _ <-]. split; cbn; [done | done | lia | done]. Qed.
#[export] Instance counts_new_buffer x : CountsOnly (new_buffer x).
Proof. intros w a w' [= _ <-]. split; cbn; [done | done | lia | done]. Qed.
#[export] Instance counts_free_send d : CountsOnly (free_send d).
Proof. unfold free_send. counts_steps. by apply counts_modm. Qed.
#[export] Instance counts_store_buffer b x : CountsOnly (store_buffer b x).
Proof. unfold store_buffer. counts_steps. by apply counts_modm. Qed.
#[export] Instance counts_free_buffer b : CountsOnly (free_buffer b).
Proof. unfold free_buffer. counts_steps. by apply counts_modm. Qed.
#[export] Instance counts_free_data o : CountsOnly (free_data o).
Proof. unfold free_data. counts_steps. Qed.

(** *** Handing a map to a task *)

Definition handler_counts (h : option (loc -> M unit)) : Prop := forall f, h = Some f -> forall l, CountsOnly (f l).

Lemma counts_replay {cb : MapCallbacks} {ct : MapCallbacksCount cb} aq rl r ev :
  handler_counts aq -> handler_counts rl -> CountsOnly (replay aq rl r ev).
Proof.
  intros Haq Hrl. assert (forall h, handler_counts h -> CountsOnly (call_ref h r)) as Hcall.
  { intros [f|] Hh; destruct r as [l|]; cbn [call_ref]; [by apply Hh | counts_steps..]. }
  induction ev as [|x ev IH]; cbn [replay]; [counts_steps|]. apply counts_bind; [|intros []; exact IH].
  destruct x; cbn [do_event]; [|counts_steps | counts_steps | by apply Hcall | by apply Hcall | counts_steps].
  intros w [] w'. apply failure_counts.
Qed.

Lemma counts_invoke {cb : MapCallbacks} {ct : MapCallbacksCount cb} i aq rl r q :
  handler_counts aq -> handler_counts rl -> CountsOnly (invoke_handler i aq rl r q).
Proof.
  intros Haq Hrl w a w'. unfold invoke_handler. destruct (tc_task_backlog_invoke_handler _ _ _ _ _ _ _) as [[[p h] ev]|]; [|done].
  intros H%(counts_replay aq rl r ev Haq Hrl). etrans; [|exact H]. by split.
Qed.

Lemma no_handler_counts : handler_counts None.
Proof. done. Qed.
Lemma ref_handler_counts : handler_counts (Some tc_map_ref).
Proof. intros f [= <-] l. apply _. Qed.
Lemma unref_handler_counts : handler_counts (Some tc_map_unref).
Proof. intros f [= <-] l. apply _. Qed.

(** ** The tasks of a transfer *)

(** The handlers of users do no more than that. *)
Class MapClientsCount {cl : MapClients} : Prop := {
  client_failure_counts n c g : CountsOnly (client_failure n c g);
  client_success_counts n a q g : CountsOnly (client_success n a q g) }.
Arguments MapClientsCount : clear implicits.
#[export] Existing Instance client_failure_counts.
#[export] Existing Instance client_success_counts.

Section Tasks.
Context {cl : MapClients} {cc : MapClientsCount cl}.

#[local] Instance client_callbacks_count : MapCallbacksCount client_callbacks.
Proof. intros f c g w w'. destruct f as [|n]; [done|]. apply client_failure_counts. Qed.

#[local] Instance counts_tell i r q : CountsOnly (invoke_handler (cb := client_callbacks) (client_entry i) None None r q).
Proof. apply counts_invoke; apply no_handler_counts. Qed.
#[local] Instance counts_tell_unref i r q : CountsOnly (invoke_handler (cb := client_callbacks) (client_entry i) None (Some tc_map_unref) r q).
Proof. apply counts_invoke; [apply no_handler_counts | apply unref_handler_counts]. Qed.

#[local] Instance counts_free_send_map_data d : CountsOnly (free_send_map_data d).
Proof. unfold free_send_map_data. counts_steps. Qed.
#[local] Instance counts_success d q : CountsOnly (handle_success d q).
Proof. unfold handle_success. counts_steps. Qed.
#[local] Instance counts_failure d b : CountsOnly (handle_failure d b).
Proof. unfold handle_failure. counts_steps. Qed.
#[local] Instance counts_load_failure d : CountsOnly (run_map_load_failure d).
Proof. unfold run_map_load_failure. counts_steps. Qed.

#[export] Instance api_callbacks_count : MapCallbacksCount api_callbacks.
Proof.
  intros f c g w w'. unfold call_failure, api_callbacks. destruct f as [|n]; [|apply client_failure_counts].
  destruct c as [sid|d]; [done | apply counts_load_failure].
Qed.

Section Chunks.
Context {abi : CharABI}.

#[local] Instance counts_chunk b q g : CountsOnly (run_send_buffer_task b q g).
Proof. unfold run_send_buffer_task. counts_steps. Qed.
#[local] Instance counts_chunk_failure b : CountsOnly (run_send_buffer_handle_failure b).
Proof. unfold run_send_buffer_handle_failure. counts_steps. Qed.

Lemma counts_sent_or_fail d action k : NoMaps action -> CountsOnly k -> CountsOnly (sent_or_fail d action k).
Proof. intros Ha Hk. unfold sent_or_fail. counts_steps. Qed.

#[local] Instance no_maps_property sid f v : NoMaps (property sid f v).
Proof. unfold property. counts_steps. Qed.
#[local] Instance no_maps_scaled bits scale : NoMaps (scaled bits scale).
Proof. unfold scaled. counts_steps. Qed.
#[local] Instance no_maps_texture sid m : NoMaps (send_texture sid m).
Proof. unfold send_texture. counts_steps. Qed.
#[local] Instance no_maps_color sid f c : NoMaps (send_color sid f c).
Proof. unfold send_color. counts_steps. Qed.
#[local] Instance no_maps_initialize s sid x m : NoMaps (send_initialize s sid x m).
Proof. unfold send_initialize. counts_steps. Qed.

(** One packet after the other, or failure. *)
Ltac chain_steps := repeat first [ apply counts_sent_or_fail; [counts_steps|] | assumption | progress counts_steps ].

#[local] Instance counts_aspect d sid m e k : CountsOnly k -> CountsOnly (send_env_aspect d sid m e k).
Proof. intros Hk. unfold send_env_aspect. chain_steps. Qed.
#[local] Instance counts_appearance_properties d sid m a k : CountsOnly k -> CountsOnly (send_appearance_properties d sid m a k).
Proof. intros Hk. unfold send_appearance_properties. chain_steps. Qed.
#[local] Instance counts_appearance d sid s m a k : CountsOnly k -> CountsOnly (send_env_appearance d sid s m a k).
Proof.
  intros Hk. unfold send_env_appearance. set (packet := if _ =? 2 then _ else _).
  assert (CountsOnly packet) as Hp by (unfold packet; chain_steps). clearbody packet. cbv zeta. chain_steps.
Qed.
#[local] Instance counts_colors d sid e k : CountsOnly k -> CountsOnly (send_env_colors d sid e k).
Proof. intros Hk. unfold send_env_colors. chain_steps. Qed.
#[local] Instance counts_start_chunks d x g : CountsOnly (start_chunks d x g).
Proof. unfold start_chunks. counts_steps. Qed.

#[local] Instance counts_environment d sid s m k : CountsOnly k -> CountsOnly (send_environment d sid s m k).
Proof.
  intros Hk. unfold send_environment. set (definitions := match block_definition_extensions m with Some _ => _ | None => _ end).
  assert (CountsOnly definitions) as H1 by (unfold definitions; chain_steps). clearbody definitions.
  set (colors := match env_colors_extension m with Some _ => _ | None => _ end).
  assert (CountsOnly colors) as H2 by (unfold colors; chain_steps). clearbody colors.
  set (weather := match env_weather_extension m with Some _ => _ | None => _ end).
  assert (CountsOnly weather) as H3 by (unfold weather; chain_steps). clearbody weather. cbv zeta. chain_steps.
Qed.

#[local] Instance counts_task2 d q g : CountsOnly (run_send_map_task2 d q g).
Proof. unfold run_send_map_task2. chain_steps. Qed.

Context {zl : Zlib}.

#[local] Instance counts_gzip input n : CountsOnly (tc_gzip_byte_array input n).
Proof. unfold tc_gzip_byte_array, deflateEnd. counts_steps. Qed.
#[local] Instance counts_deflate input n : CountsOnly (tc_deflate_byte_array input n).
Proof. unfold tc_deflate_byte_array, deflateEnd. counts_steps. Qed.
#[local] Instance counts_compress s input n : CountsOnly (compress_blocks s input n).
Proof. unfold compress_blocks. counts_steps. Qed.
#[local] Instance counts_load_success a q g : CountsOnly (run_on_map_load_success a q g).
Proof. unfold run_on_map_load_success. counts_steps. Qed.

(** ** The cache along a run *)

Context {sz : CacheSizes} {ld : MapLoader}.

Definition cache_good (w : world) : Prop := exists ls, cache_ok (w_maps w) ls.

Lemma counts_good {A} (m : M A) w a w' : CountsOnly m -> m w = (Ok a, w') -> cache_good w -> cache_good w'.
Proof. intros Hm E [ls Hok]. exists ls. by apply (only_counts_ok w w' ls (Hm w a w' E)). Qed.

(** What happens to the maps: a task of maps runs, of any user and at any time;
    a map is asked for, by a client's task or by another; a map is locked,
    unlocked, referenced or given back; or something else happens that does
    not use the cache.  Other tasks are sequences of these steps. *)
Inductive map_step (w w' : world) : Prop :=
| ms_task t arg q g : run_map_task t arg q g w = (Ok tt, w') -> map_step w w'
| ms_send sid name map info q ok : tc_api_schedule_send_map sid name map info q w = (Ok ok, w') -> map_step w w'
| ms_open name info q : tc_map_cache_schedule_open (cb := api_callbacks) name info q w = (Ok tt, w') -> map_step w w'
| ms_lock l : map_reader_lock l w = (Ok tt, w') -> map_step w w'
| ms_unlock l : map_reader_unlock l w = (Ok tt, w') -> map_step w w'
| ms_ref l : tc_map_ref l w = (Ok tt, w') -> map_step w w'
| ms_unref l : tc_map_unref l w = (Ok tt, w') -> map_step w w'
| ms_other : ms_cache (w_maps w') = ms_cache (w_maps w) -> ms_entries (w_maps w') = ms_entries (w_maps w) ->
    ms_load_args (w_maps w') = ms_load_args (w_maps w) -> (ms_next (w_maps w) <= ms_next (w_maps w'))%nat -> map_step w w'.

Lemma task_good t arg q g w w' : run_map_task t arg q g w = (Ok tt, w') -> cache_good w -> cache_good w'.
Proof.
  unfold run_map_task. intros H Hg.
  destruct t; try done; destruct arg as [[sid| |a|a|d|b]|]; try done;
    try exact (counts_good _ _ _ _ _ H Hg).
  destruct Hg as [ls Hok]. exact (load_step (cb := api_callbacks) a q w w' ls Hok H).
Qed.

Lemma send_good sid name map info q ok w w' :
  tc_api_schedule_send_map sid name map info q w = (Ok ok, w') -> cache_good w -> cache_good w'.
Proof.
  intros H Hg. apply bind_inv in H as (b & w1 & E1 & H).
  pose proof (counts_good _ _ _ _ _ E1 Hg) as Hg1. destruct b; cbn [negb] in H; [|by injection H as _ <-].
  apply bind_inv in H as (d & w2 & E2 & H). pose proof (counts_good _ _ _ _ _ E2 Hg1) as Hg2.
  apply bind_inv in H as ([] & w3 & E3 & H). injection H as _ <-. destruct map as [l|].
  - eapply counts_good; [|exact E3 | exact Hg2]. apply counts_invoke; [apply ref_handler_counts | apply unref_handler_counts].
  - destruct Hg2 as [ls Hok]. exact (open_step (cb := api_callbacks) _ _ _ _ _ ls Hok E3).
Qed.

Lemma map_step_good w w' : map_step w w' -> cache_good w -> cache_good w'.
Proof.
  intros [t arg q g H|sid name map info q ok H|name info q H|l H|l H|l H|l H|Hc He Ha Hn] Hg.
  - exact (task_good _ _ _ _ _ _ H Hg).
  - exact (send_good _ _ _ _ _ _ _ _ H Hg).
  - destruct Hg as [ls Hok]. exact (open_step (cb := api_callbacks) _ _ _ _ _ ls Hok H).
  - exact (counts_good _ _ _ _ _ H Hg).
  - exact (counts_good _ _ _ _ _ H Hg).
  - exact (counts_good _ _ _ _ _ H Hg).
  - exact (counts_good _ _ _ _ _ H Hg).
  - destruct Hg as [ls Hok]. exists ls. apply (cache_ok_counts (w_maps w)); [done | done | done | by rewrite He | done].
Qed.

Lemma no_maps_good w threshold : w_maps w = no_maps threshold -> cache_good w.
Proof. intros H. exists []. rewrite H. apply empty_ok. Qed.

(** C9. Whatever happens to the maps, in any order and whichever loads,
    allocations and packets fail: as long as the steps return, and the
    handlers of the users of maps change the cache by references and locks of
    maps only (as those of [main.c] do), the list of the cache is well formed
    and holds every entry, entries have their mutexes and keys, a map is there
    exactly when its entry says so, and every pending load has an entry of its
    own that is not loaded yet. *)
Theorem cache_invariant w0 w threshold :
  w_maps w0 = no_maps threshold -> star map_step w0 w -> exists ls, cache_ok (w_maps w) ls.
Proof.
  intros H0 Hs. apply (star_invariant map_step cache_good map_step_good _ _ Hs). by eapply no_maps_good.
Qed.

(** The cache never finds a map: nothing is ever put into its index, so that
    at any point of any run an open makes a new entry and queues a new load of
    the file, also when maps of that name are loaded already. *)
Theorem never_cached w0 w threshold name info q p ws :
  w_maps w0 = no_maps threshold -> star map_step w0 w -> plentiful (w_heap w) ->
  tc_thread_schedule_new (thread_pool (w_server w)) (Some tc_map_cache_load_task)
    (Some (ArgLoad (S (ms_next (w_maps w))))) PRIORITY_BLOCKING (-1) = Some (true, p, ws) ->
  index_lookup name w = (Ok None, w) /\
  exists w' ls, tc_map_cache_schedule_open (cb := api_callbacks) name info q w = (Ok tt, w') /\ cache_ok (w_maps w) ls /\
    opened name info w w' ls /\ thread_pool (w_server w') = p.
Proof.
  intros H0 Hs Hh Hp. destruct (star_invariant map_step cache_good map_step_good _ _ Hs) as [ls Hok]; [by eapply no_maps_good|].
  split; [unfold index_lookup; rewrite run_getm; by rewrite (ck_index _ _ Hok), lookup_empty|].
  destruct (schedule_open_run (cb := api_callbacks) name info q w ls Hok) as [_ Hgo]. rewrite Hp in Hgo.
  destruct Hgo as (w' & E & Hop & Hq); [intros i _; apply Hh|]. by exists w', ls.
Qed.
End Chunks.
End Tasks.

(** ** The user of [main.c] *)

(** Joinables whose [leave] does not use maps, as that of [main.c] does not. *)
Class JoinablesLeave {jn : Joinables} : Prop := leave_no_maps j sid q g : NoMaps (leave j sid q g).
Arguments JoinablesLeave : clear implicits.
#[export] Existing Instance leave_no_maps.

Section Rig.
Context {abi : CharABI} {jn : Joinables} {lv : JoinablesLeave jn}.

#[local] Instance no_maps_free_socket sid : NoMaps (free_client_socket sid).
Proof. unfold free_client_socket. counts_steps. Qed.
#[local] Instance no_maps_return_id s : NoMaps (return_id s).
Proof. unfold return_id. counts_steps. Qed.
#[local] Instance no_maps_disconnect sid g : NoMaps (disconnect_session sid g).
Proof. unfold disconnect_session. counts_steps. Qed.
#[local] Instance no_maps_kick sid msg g b : NoMaps (tc_server_kick_session sid msg g b).
Proof. unfold tc_server_kick_session. counts_steps. Qed.

#[export] Instance rig_clients_count : MapClientsCount rig_clients.
Proof.
  split; intros n; cbn.
  - intros c g. unfold test_handle_map_send_failure. counts_steps.
  - intros a q g. unfold test_handle_map_send_success. counts_steps.
Qed.
(** *** Turns of a worker *)

#[local] Existing Instance rig_clients.

Context {zl : Zlib} {sz : CacheSizes} {ld : MapLoader} {md5 : Md5}.

Definition is_map_task (t : tc_thread_pool_context task task_arg) : bool :=
  match ctx_func t, ctx_arg t with
  | None, _ | Some _, Some (ArgSession _) => false
  | Some _, _ => true
  end.

(** The next [n] turns run tasks of maps, and they return. *)
Fixpoint only_map_tasks (n : nat) (w : world) : bool :=
  match n with
  | O => true
  | S n' =>
      match worker_take (thread_pool (w_server w)), worker_round w with
      | TurnRun t _, Some (Ok _, w1) => is_map_task t && only_map_tasks n' w1
      | _, _ => false
      end
  end.

Lemma round_maps w t p w' :
  worker_take (thread_pool (w_server w)) = TurnRun t p -> is_map_task t = true -> worker_round w = Some (Ok tt, w') ->
  star map_step w w'.
Proof.
  intros Ht Hm H. unfold worker_round in H. rewrite Ht in H.
  destruct (run_any t (with_pool_heap p (w_heap w) w)) as [[[]|c] w1] eqn:E; [|done]. injection H as <-.
  eapply star_trans; [apply star_one, (ms_other w (with_pool_heap p (w_heap w) w)); done|].
  apply (star_trans _ _ w1); [apply star_one|apply star_one; by apply ms_other].
  unfold run_any, is_map_task in *. destruct (ctx_func t) as [f|]; [|done].
  destruct (ctx_arg t) as [[sid| |a|a|d|b]|] eqn:Ea; [done|..]; exact (ms_task _ _ f _ _ _ E).
Qed.

Lemma rounds_maps n : forall w w', only_map_tasks n w = true -> worker_rounds n w = Some (Ok tt, w') -> star map_step w w'.
Proof.
  induction n as [|n IH]; intros w w' Hm H; cbn [worker_rounds only_map_tasks] in *; [injection H as <-; apply star_refl|].
  destruct (worker_take (thread_pool (w_server w))) as [| | |t p] eqn:Ht; try done.
  destruct (worker_round w) as [[[[]|c] w1]|] eqn:Er; try done. apply andb_true_iff in Hm as [Hm1 Hm2].
  eapply star_trans; [exact (round_maps w t p w1 Ht Hm1 Er) | by apply IH].
Qed.
End Rig.
