(* ===== verification/MapSendExample.v ===== *)
(** * A map on its way to a client, on concrete states

    The theorems on sending applied to small states, and the whole way of a
    player into the lobby, run by one worker. *)

From S2P Require Import Prelude Buffer Nbt NbtSpec NbtFile NbtFileProps Socket Protocol ProtocolSpec ThreadPool ThreadPoolSpec ThreadPoolSystem.
From S2P Require Import Heartbeat Map.
From S2P Require Import TaskBacklog TaskBacklogProps Float32 Objects Session SessionSpec Server ServerProps MapCache MapCacheSpec MapCacheProps.
From S2P Require Import MapCacheLoad MapCacheSystem MapCacheExample.
From S2P Require Import Compression MapSend MapSendProps MapSendStart MainRig MapTasks.

Local Open Scope Z_scope.

#[local] Existing Instance signed_char_abi.
#[local] Existing Instance open_joinables.
#[local] Existing Instance rig_clients.
#[local] Existing Instance plain_zlib.

(** ** A map, a session and a transfer *)

Definition flat_map : tc_map :=
  Map (replicate 16 0) 0 0 0 None None None None None (Some (replicate 1500 1)) None 1500 0 None None None None None None
    15 10 10 (SpawnPosition (BlockPosition 1 1 1) 0 0) 1 false.

(** The only file, and the sizes of the structs. *)
#[local] Instance lobby_loader : MapLoader := fun name _ => if bool_decide (name = lobby_file) then LoadOk flat_map else LoadFailed.
#[local] Instance lp64_sizes : CacheSizes := { map_sizes := Sizes 232 8 32 96 8 16; sizeof_entry := 336 }.

Definition flat_entry : tc_map_cache_entry :=
  CacheEntry (MapLoaded flat_map) 1 [] 2000 1 true true (Some false) (Some lobby_file) None None.

(** The compressed blocks: with the stand-in for zlib, the length and the blocks. *)
Definition flat_blocks : list Z := be_split 4 1500 ++ replicate 1500 1.

Definition flat_send : tc_send_map_data :=
  SendMapData 0 lobby_file (Some 1%nat) (test_schedule_info 0 0) (whole flat_blocks) no_buffer.

Definition locked_session : tc_session := with_lock true (idle_session 0).
Definition on_socket (out : psocket) : tc_session := with_socket (Some (Connection out [])) locked_session.

Definition send_world (s : tc_session) (buffers : gmap loc tc_send_buffer_task_data) (x : tc_send_map_data) : world :=
  World (with_sessions (<[0%nat := s]> (session_buffer sample_server)) sample_server) ample_heap (fun _ => 0) 0 []
    (MapState (empty_cache (2 ^ 30)) {[ 1%nat := flat_entry ]} ∅ {[ 0%nat := x ]} buffers 3%nat 5 1%nat).

(** The pool with the task of the transfer queued, and nothing else. *)
Definition chunk_pool : tc_thread_pool task task_arg :=
  match tc_thread_schedule_next sample_pool (Some tc_send_buffer_task) (Some tc_send_buffer_handle_failure) (Some (ArgSendBuffer 2%nat))
          PRIORITY_MEDIUM 0 with
  | Some (p, _) => p
  | None => sample_pool
  end.

Lemma chunk_pool_ok : buffers_ok chunk_pool /\ pattern_ok chunk_pool.
Proof.
  split; split; try done.
  - intros [|[|[|[|i]]]] b; cbn; intros [= <-]; (split; [|reflexivity]); unfold ring_ok, TC_THREADS_STD_BUFFER_SIZE; cbn; lia.
  - intros [|[|[|[|i]]]] b; cbn; intros [= <-]; vm_compute; repeat constructor; by eexists.
  - apply Forall_forall. intros c Hc. vm_compute in Hc. repeat (apply elem_of_cons in Hc as [->|Hc]; [lia|]). by apply not_elem_of_nil in Hc.
  - cbn. lia.
Qed.

Definition chunk_world : world :=
  with_pool_heap chunk_pool ample_heap (send_world (on_socket ideal_socket) {[ 2%nat := SendBufferTaskData 0%nat 0 true ]} flat_send).

Lemma sample_ready x w :
  entry_priority (sm_schedule_info x) = PRIORITY_MEDIUM -> thread_pool (w_server w) = sample_pool -> grants w 0 = true -> ready_for_next x w.
Proof.
  intros Hq Hp Hg. unfold ready_for_next. rewrite Hq, Hp. split_and!; [done | done | |].
  - repeat constructor; unfold ring_ok, TC_THREADS_STD_BUFFER_SIZE; cbn; lia.
  - by exists 1%nat, (TaskBuf (replicate 128 null_task) 0 0 128).
Qed.

(** The rest of the server: workers have done all the other tasks. *)
Definition is_chunk (t : tc_thread_pool_context task task_arg) : bool :=
  match ctx_func t, ctx_arg t with Some tc_send_buffer_task, Some (ArgSendBuffer 2%nat) => true | _, _ => false end.
Definition workers (i : nat) (w : world) : world :=
  with_pool_heap (if existsb is_chunk (pool_queued (thread_pool (w_server w))) then chunk_pool else sample_pool) ample_heap w.

Lemma workers_between i main off out w :
  streaming 2%nat 0%nat 1%nat flat_send flat_map locked_session [] 0 main off out w ->
  between 2%nat 0%nat 1%nat flat_send flat_map 0 w (workers i w).
Proof.
  intros [[_ _ _ Hm] Hq]. unfold workers.
  assert (existsb is_chunk (pool_queued (thread_pool (w_server w))) = true) as ->.
  { apply existsb_exists. eexists. split; [apply list_elem_of_In; exact Hq | reflexivity]. }
  split; [done | done | done | exact Hm | done | done | exact chunk_pool_ok | by eexists].
Qed.

Lemma flat_holds s buffers x : holds_map 1%nat flat_map (send_world s buffers x).
Proof. exists flat_entry, 0%nat. split_and!; [reflexivity | reflexivity | reflexivity | reflexivity | cbn; lia | cbn; lia]. Qed.

Lemma chunk_streaming : streaming 2%nat 0%nat 1%nat flat_send flat_map locked_session [] 0 true 0 ideal_socket chunk_world.
Proof.
  split.
  - split; [reflexivity | reflexivity | reflexivity | exact (flat_holds (on_socket ideal_socket) _ flat_send)].
  - vm_compute. left.
Qed.

Lemma flat_whole : sm_block_array_buffer flat_send = whole flat_blocks /\ flat_blocks <> [] /\ Z.of_nat (length flat_blocks) < 2 ^ 63.
Proof. split_and!; [reflexivity | discriminate | reflexivity]. Qed.

(** ** The theorems at work *)

(** Two tasks send the 1504 bytes. *)
Lemma transfer_spec_witness :
  exists turns w', rounds workers 2 chunk_world = Some (turns, w') /\ length turns = 2%nat /\ ms_sends (w_maps w') !! 0%nat = None.
Proof.
  assert (is_Some (block_array2 flat_map) ->
    sm_block_array2_buffer flat_send = whole [] /\ ([] : list Z) <> [] /\ Z.of_nat (length ([] : list Z)) < 2 ^ 63) as H2
    by (intros [? [=]]).
  destruct (@transfer_spec rig_clients signed_char_abi 2%nat 0%nat 1%nat flat_send flat_map locked_session [] 0 flat_blocks []
    eq_refl eq_refl flat_whole H2 (client_task test_success) eq_refl plain_zlib lp64_sizes lobby_loader workers chunk_world ideal_socket
    workers_between chunk_streaming ideal_socket_reliable) as [(turns & w' & out' & E & Hlen & (_ & _ & _ & v & _ & _ & _ & D) & _) _].
  exists turns, w'. split; [exact E|]. split; [exact Hlen|]. rewrite (dl_send _ _ _ _ _ _ _ _ _ _ D). apply lookup_delete_eq.
Defined.

(** A socket that fails: the transfer fails, and the player is kicked. *)
Definition broken_socket : psocket := PSocket (fun _ _ => NetFailure) 0 [].
Definition broken_world : world :=
  on_server (fun v => with_ids (id_buffer v) 1 v)
    (send_world (on_socket broken_socket) {[ 2%nat := SendBufferTaskData 0%nat 0 true ]} flat_send).

Lemma transfer_failure_spec_witness :
  exists w', run_send_buffer_task 2%nat PRIORITY_MEDIUM 0 broken_world = (Ok tt, w') /\ ms_sends (w_maps w') = ∅ /\ ms_buffers (w_maps w') = ∅ /\
    (e ← ms_entries (w_maps w') !! 1%nat; Some (ce_open_count e, ce_map_readers e)) = Some (0, 0%nat).
Proof.
  assert (is_Some (block_array2 flat_map) ->
    sm_block_array2_buffer flat_send = whole [] /\ ([] : list Z) <> [] /\ Z.of_nat (length ([] : list Z)) < 2 ^ 63) as H2
    by (intros [? [=]]).
  assert (in_transfer 2%nat 0%nat 1%nat flat_send flat_map locked_session [] true 0 broken_socket broken_world) as Hin
    by (split; [reflexivity | reflexivity | reflexivity | exact (flat_holds (on_socket broken_socket) _ flat_send)]).
  set (told := unlocked_for 1%nat flat_send (on_socket (PSocket (fun _ _ => NetFailure) 1 [])) flat_entry broken_world).
  destruct (user_told flat_send told) as [[[]|c] w1] eqn:E; [|vm_compute in E; discriminate E].
  assert (w_maps w1 = w_maps told) as Em by (change w1 with (Ok tt, w1).2; rewrite <- E; vm_compute; reflexivity).
  assert (0 < length (chosen flat_blocks [] true))%nat as Hlen by (apply Nat.ltb_lt; vm_compute; reflexivity).
  destruct (@transfer_failure_spec rig_clients signed_char_abi 2%nat 0%nat 1%nat flat_send flat_map locked_session [] 0 flat_blocks []
      eq_refl eq_refl flat_whole H2 true 0%nat broken_socket broken_world flat_entry Hin (or_introl eq_refl) Hlen eq_refl) as [H _].
  specialize (H (PSocket (fun _ _ => NetFailure) 1 []) eq_refl w1 E).
  eexists. split.
  - apply H. split; rewrite Em; reflexivity.
  - cbn [w_maps on_maps given_up ms_sends ms_buffers ms_entries]. rewrite Em. split; [reflexivity|]. split; reflexivity.
Defined.

(** The session before its lock is taken. *)
Definition start_world (x : tc_send_map_data) : world := send_world (idle locked_session [] ideal_socket) ∅ x.

Lemma level_start_spec_witness :
  exists w' out', run_send_map_task2 0%nat PRIORITY_MEDIUM 0 (start_world flat_send) = (Ok tt, w') /\
    streaming 3%nat 0%nat 1%nat flat_send flat_map locked_session [] 0 true 0 out' w' /\ sk_out out' = [2].
Proof.
  destruct (@level_start_spec rig_clients signed_char_abi 0%nat 1%nat flat_send flat_map locked_session [] 0 ideal_socket (start_world flat_send)
    eq_refl eq_refl eq_refl (flat_holds _ _ _) eq_refl) as [H _];
    [vm_compute; discriminate | exact ideal_socket_reliable | reflexivity |].
  destruct (H [] eq_refl) as (w' & out' & E & Hs & Ho & _); [by apply sample_ready|].
  exists w', out'. split; [exact E|]. split; [exact Hs | exact Ho].
Defined.

(** A client with the aspect extension, and a map with an aspect only. *)
Definition aspect_map : tc_map :=
  Map (replicate 16 0) 0 0 0 None None None None None (Some (replicate 1500 1)) None 1500 0 None None None None
    (Some (EnvAspectExtension 7 8 66 0x3F800000 32 0 (-2) 0x3F800000 0x3F800000 1)) None
    15 10 10 (SpawnPosition (BlockPosition 1 1 1) 0 0) 1 false.

Definition aspect_session : tc_session := with_versions [0; 0; 4] locked_session.

Definition aspect_world : world :=
  World (with_sessions (<[0%nat := idle aspect_session [] ideal_socket]> (session_buffer sample_server)) sample_server) ample_heap (fun _ => 0) 0 []
    (MapState (empty_cache (2 ^ 30)) {[ 1%nat := entry_map (MapLoaded aspect_map) flat_entry ]} ∅ {[ 0%nat := flat_send ]} ∅ 3%nat 5 1%nat).

Lemma environment_faults_witness : (run_send_map_task2 0%nat PRIORITY_MEDIUM 0 aspect_world).1 = Stuck BadAccess.
Proof.
  assert (holds_map 1%nat aspect_map aspect_world) as Hh
    by (exists (entry_map (MapLoaded aspect_map) flat_entry), 0%nat; split_and!; [reflexivity | reflexivity | reflexivity | reflexivity | cbn; lia | cbn; lia]).
  destruct (@environment_faults rig_clients signed_char_abi 0%nat 1%nat flat_send aspect_map aspect_session [] 0 ideal_socket aspect_world
    eq_refl eq_refl eq_refl Hh eq_refl) as [H _]; [vm_compute; discriminate | exact ideal_socket_reliable | reflexivity | reflexivity |].
  apply H; [by eexists | reflexivity].
Defined.

Lemma stale_transfer_kept_witness : run_send_map_task2 0%nat PRIORITY_MEDIUM 7 (start_world flat_send) = (Ok tt, start_world flat_send).
Proof.
  apply (@stale_transfer_kept rig_clients signed_char_abi 0%nat flat_send locked_session [] 7 ideal_socket (start_world flat_send));
    [reflexivity | reflexivity | discriminate].
Defined.

Lemma gzip_spec_witness :
  exists w', tc_gzip_byte_array (Some [1; 2; 3]) 3 sample_world = (Ok (true, SendBuffer (Some [0; 0; 0; 3; 1; 2; 3]) 7), w').
Proof.
  destruct (@gzip_spec plain_zlib plain_zlib_laws plain_zlib_finish [1; 2; 3] sample_world) as [E _]; [cbn; lia|].
  eexists. exact E.
Defined.

(** The transfer before its map is there. *)
Definition empty_send : tc_send_map_data := SendMapData 0 lobby_file None (test_schedule_info 0 0) no_buffer no_buffer.

Lemma map_prepared_witness :
  exists w', run_on_map_load_success (Args 1%nat (ContextSendMap 0%nat)) PRIORITY_BLOCKING 0 (start_world empty_send) = (Ok tt, w') /\
    ms_sends (w_maps w') !! 0%nat = Some flat_send.
Proof.
  destruct (tc_thread_schedule_new (thread_pool sample_server) (Some tc_send_map_task2) (Some (ArgSendMap 0%nat)) PRIORITY_MEDIUM 0)
    as [[[ok p] ws]|] eqn:E; [|vm_compute in E; discriminate E].
  assert (ok = true) as -> by (vm_compute in E; injection E as <- _ _; reflexivity).
  destruct (@map_prepared rig_clients signed_char_abi plain_zlib plain_zlib_laws plain_zlib_finish plain_zlib_ready 0%nat 1%nat empty_send flat_map
    (idle locked_session [] ideal_socket) 0 (start_world empty_send) flat_entry (replicate 1500 1)
    eq_refl eq_refl eq_refl eq_refl ample_heap_plentiful (conj eq_refl eq_refl) p ws) as (w' & Ew & Hx & _).
  - split; [vm_compute; reflexivity | apply Nat.leb_le; vm_compute; reflexivity].
  - intros arr2 [=].
  - exact E.
  - exists w'. split; [exact Ew | exact Hx].
Defined.

(** ** The way into the lobby *)

#[local] Instance plain_md5 : Md5 := fun d => d.

(** The world of a player who has just been let in. *)
Definition joining : world := World connected_server ample_heap (fun _ => 0) 0 [] (no_maps (2 ^ 30)).

Definition joined : option (result unit * world) :=
  match test_attempt_join 0 PRIORITY_LOW 0 joining with
  | (Ok true, w) => worker_rounds 6 w
  | _ => None
  end.

(** The packets of the level and the spawn point. *)
Definition lobby_packets : list packet :=
  [LevelInitialize; LevelDataChunk 1024 (take 1024 flat_blocks) 0; LevelDataChunk 480 (padded (drop 1024 flat_blocks)) 68;
   LevelFinalize 15 10 10; SetPositionOrientation (-1) 48 83 48 0 0 false].

(** From [test_attempt_join] on: six tasks of one worker (the load, the
    compression, the start of the level, two chunks and the spawn point) put
    exactly these packets on the wire, leave the session unlocked with its
    listen task queued, and nothing of the transfer. *)
Example lobby_delivered :
  match joined with
  | Some (Ok _, w) =>
      (s ← session_buffer (w_server w) !! 0%nat; c ← client_socket s; Some (sk_out (cn_out c), action_lock s))
        = Some (wire lobby_packets, false) /\
      pool_queued (thread_pool (w_server w)) = [Context PRIORITY_MEDIUM (Some tc_server_client_listen_task) (Some (ArgSession 0)) 0] /\
      ms_sends (w_maps w) = ∅ /\ ms_buffers (w_maps w) = ∅ /\ ms_load_args (w_maps w) = ∅
  | _ => False
  end.
Proof. vm_compute. repeat split. Qed.

(** ** The cache in use *)

#[local] Instance open_leave : JoinablesLeave open_joinables.
Proof. intros j sid q g. apply no_maps_ret. Defined.

(** The whole way into the lobby, with the handlers of [main.c]. *)
Lemma cache_invariant_witness :
  exists w, joined = Some (Ok tt, w) /\ exists ls, cache_ok (w_maps w) ls.
Proof.
  unfold joined. destruct (test_attempt_join 0 PRIORITY_LOW 0 joining) as [[[]|] w1] eqn:E1; [|vm_compute in E1; discriminate E1..].
  assert (only_map_tasks 6 (test_attempt_join 0 PRIORITY_LOW 0 joining).2 = true) as Hm by (vm_compute; reflexivity).
  assert (match worker_rounds 6 (test_attempt_join 0 PRIORITY_LOW 0 joining).2 with Some (Ok _, _) => true | _ => false end = true) as Hr
    by (vm_compute; reflexivity).
  rewrite E1 in Hm, Hr. cbn [snd] in Hm, Hr. unfold test_attempt_join in E1.
  destruct (worker_rounds 6 w1) as [[[[]|c] w2]|] eqn:E2; [|discriminate Hr..].
  exists w2. split; [reflexivity|].
  apply (@cache_invariant rig_clients rig_clients_count signed_char_abi plain_zlib lp64_sizes lobby_loader joining w2 (2 ^ 30) eq_refl).
  eapply star_trans; [apply star_one; exact (ms_send _ _ _ _ _ _ _ _ E1)|].
  exact (rounds_maps 6 w1 w2 Hm E2).
Defined.

Lemma never_cached_witness :
  exists w', tc_map_cache_schedule_open (cb := api_callbacks) lobby_file lobby_waiter PRIORITY_LOW sample_world = (Ok tt, w').
Proof.
  destruct (tc_thread_schedule_new (thread_pool (w_server sample_world)) (Some tc_map_cache_load_task)
    (Some (ArgLoad (S (ms_next (w_maps sample_world))))) PRIORITY_BLOCKING (-1)) as [[[ok p] ws]|] eqn:E; [|vm_compute in E; discriminate E].
  assert (ok = true) as -> by (vm_compute in E; injection E as <- _ _; reflexivity).
  destruct (@never_cached rig_clients rig_clients_count signed_char_abi plain_zlib lp64_sizes lobby_loader sample_world sample_world (2 ^ 30) lobby_file
    lobby_waiter PRIORITY_LOW p ws eq_refl (star_refl _ _) ample_heap_plentiful E) as (_ & w' & ls & Ew & _).
  exists w'. exact Ew.
Defined.

(** *** A load two tasks wait for

    The allocator has one more block: the second task is told that there is no
    map, and its player is kicked. *)

Definition waiter_for (d : loc) : map_waiter :=
  Entry (Some on_map_load_success) handle_map_load_failure (ContextSendMap d) PRIORITY_BLOCKING 0.

Definition awaited_entry : tc_map_cache_entry :=
  CacheEntry MapUnset 0 [[waiter_for 7%nat; waiter_for 8%nat]] 336 0 true false (Some false) (Some lobby_file) None None.

Definition awaited_maps : map_state :=
  MapState (MapCache ∅ (Some 0%nat) (Some 0%nat) None 1 0 false 336 (2 ^ 30)) {[ 0%nat := awaited_entry ]}
    {[ 1%nat := LoadArgs lobby_file 0%nat ]} {[ 7%nat := empty_send; 8%nat := empty_send ]} ∅ 9%nat 4 0%nat.

Definition awaiting : world :=
  World connected_server (Heap (fun k => (k =? 0)%nat) 0) (fun _ => 0) 0 [] awaited_maps.

Lemma awaited_ok : cache_ok awaited_maps [0%nat].
Proof.
  apply (single_ok _ 0%nat awaited_entry); [reflexivity | | split; reflexivity | reflexivity | | split; by eexists | | |].
  - split; [reflexivity | reflexivity | repeat split | by apply (bool_decide_unpack _) | reflexivity].
  - intros x Hx. cbn in Hx. split; [lia|]. cbn. rewrite lookup_singleton_ne by lia. reflexivity.
  - split; [done | intros [m Hm]; done].
  - cbn. intros a args [<- <-]%lookup_singleton_Some. done.
  - cbn. intros a b x y [<- <-]%lookup_singleton_Some [<- <-]%lookup_singleton_Some _. done.
Qed.

(** The failure handler of [api.c] and, through it, that of [main.c]. *)
Lemma waiter_told : told_in_turn (cb := api_callbacks) [waiter_for 8%nat] awaiting.
Proof.
  intros v (p & h & m & n & k & ->). set (v := World _ _ _ _ _ _).
  assert ((tell_failure (cb := api_callbacks) (waiter_for 8%nat) v).1 = Ok tt) as H1 by (vm_compute; reflexivity).
  assert (cache_part (tell_failure (cb := api_callbacks) (waiter_for 8%nat) v).2 = cache_part v) as H2 by (vm_compute; reflexivity).
  destruct (tell_failure (waiter_for 8%nat) v) as [r v']. cbn in H1, H2. subst r. by exists v'.
Qed.

Lemma load_task_spec_witness :
  exists w' e', run_load_task (cb := api_callbacks) 1%nat PRIORITY_BLOCKING awaiting = (Ok tt, w') /\
    at_entry 0%nat w' e' /\ ce_map e' = MapLoaded flat_map /\ ce_open_count e' = 1.
Proof.
  destruct (tc_task_schedule_backlog true true (ce_backlog awaited_entry) (thread_pool (w_server awaiting)) (w_heap awaiting) (Some (0%nat : loc)) PRIORITY_BLOCKING)
    as [[[[p h] c] ev]|] eqn:E; [|vm_compute in E; discriminate E].
  assert (number is_acquired ev = 1%nat /\ number is_released ev = 0%nat /\ length (tasks_of ev) = 1%nat /\ failed_of ev = [waiter_for 8%nat])
    as (H1 & H2 & H3 & H4) by (vm_compute in E; injection E as _ _ _ <-; repeat split).
  destruct (@load_task_spec api_callbacks lobby_loader lp64_sizes 1%nat awaiting [0%nat]
    (LoadArgs lobby_file 0%nat) awaited_entry flat_map 1732 p h c ev) as (w' & e' & tasks & Er & _ & He & Hm & _ & Hn & _ & _ & Ht & _).
  - exact awaited_ok.
  - exact sample_pool_ok.
  - reflexivity.
  - reflexivity.
  - reflexivity.
  - reflexivity.
  - vm_compute. reflexivity.
  - cbn. lia.
  - exact E.
  - unfold count_fits. rewrite H1, H2. cbn. lia.
  - rewrite H4. exact waiter_told.
  - exists w', e'. split; [exact Er | split; [exact He | split; [exact Hm|]]]. rewrite Hn, Ht, H3. reflexivity.
Defined.
